(* ===== verification/_CoqProject ===== *)
-Q . S2P
Prelude.v
PyText.v
Json.v
JsonFacts.v
Files.v
Hashing.v
TestDigest.v
Evidence.v
Archive.v
PyTime.v
Wire.v
FileLock.v
Disk.v
Host.v
SnapshotProtocol.v
SnapshotTree.v
SnapshotBroker.v
SnapshotBrokerSafety.v
SnapshotClient.v
SnapshotExchange.v
VerifierProtocol.v
VerifierReceipt.v
AuthorityV2.v
AuthorityStore.v
StoreSafety.v
StoreChain.v
StoreRecovery.v
StoreRestart.v
StoreAudit.v
Attestation.v
TrustScenario.v
AttestationScenario.v
SnapshotBrokerScenario.v
StoreScenario.v
Ledger.v
Lifecycle.v
VerifierJournal.v
JournalSafety.v
VerifierService.v
JournalScenario.v
ServiceScenario.v
Model.v
Independence.v
Capability.v
Workspace.v
Verification.v
Broker.v
Scenario.v
