(* ===== verification/Prelude.v ===== *)
(** * Cogni-OS orchestrator: verification development

    Cogni-OS runs a workspace in which several agents work on tasks that others
    verify.  The program is a set of Python modules under [src/src/cogni_os/];
    this library translates the ones that hold its own logic and proves what
    makes them correct.

    ** The program's parts and how they interact

    A workspace broker ([workspace.py]) keeps one JSON record per task and per
    agent.  Every operation checks the caller's capability
    ([actor_capability.py]), moves the record by the task machine ([model.py])
    and appends a signed event to a hash-chained ledger ([ledger.py]); the files
    are projections of the ledger.  [verify] admits a submission
    ([evidence.py], [independence.py]), runs it under a trusted runner, archives
    the evidence ([archive.py]) and records a terminal event of the run
    ([verification_lifecycle.py]).

    Next to it stand separately privileged services.  The snapshot broker
    ([snapshot_broker_protocol.py], [snapshot_broker.py]) is a root daemon that
    copies a caller's source tree and hands out a signed lease on the copy, then
    signs that the copy was removed.  A dedicated verifier works off dispatches:
    its documents ([verifier_protocol.py]), its receipts sealed with a key of its
    own ([verifier_receipt.py]), its crash-safe journal ([verifier_journal.py])
    and the coordinator that ties them together ([verifier_service.py]).  An
    independent executor's attestation ([verifier_attestation_protocol.py]) says
    who executed a validation.  The second ledger domain
    ([ledger_authority_v2.py]) chains Ed25519 envelopes, and its durable store
    ([ledger_authority_store_v2.py]) keeps them on disk with a journal of
    transactions.

    ** Files

    Shared:
    - [Prelude]: exceptions ([errors.py]), the result and state monads, the
      lemmas and tactics every file uses;
    - [PyText], [PyTime]: strings, regular expressions and timestamps of Python
      ([parse_utc], [utc_now] of [util.py]);
    - [Json], [JsonFacts], [Wire]: JSON values, encoder and parser, the parse of
      what was printed, canonical documents with limits;
    - [Files] ([read_json], [atomic_write_json] of [util.py]), [Disk] (accesses
      that may fail half-way), [Host] (metadata and contents of paths, OpenSSL);
    - [Hashing]: the interface [Hashing] and SHA-256, HMAC, hexadecimal and
      base64; [TestDigest]: a cheap instance for concrete runs.

    The workspace:
    - [FileLock] ([lock.py]); [Model] ([model.py]); [Ledger] ([ledger.py]);
      [Lifecycle] ([verification_lifecycle.py]); [Independence]
      ([independence.py]); [Capability] ([actor_capability.py]); [Evidence]
      ([evidence.py]); [Archive] ([archive.py]);
    - [Workspace] and [Verification] ([workspace.py]), the second against the
      interface [TrustedRunner]; [Broker]: the theorems about both.

    The snapshot broker:
    - [SnapshotProtocol] ([snapshot_broker_protocol.py]);
    - [SnapshotTree] (the copy), [SnapshotBroker] (the daemon's nonces, lease
      records, directories, recovery and connections), [SnapshotClient], all of
      [snapshot_broker.py]; [SnapshotBrokerSafety] and [SnapshotExchange]: the
      theorems about the daemon, and about daemon and client together.

    The verifier and its ledger:
    - [VerifierProtocol], [VerifierReceipt], [VerifierJournal],
      [VerifierService], [Attestation]: the modules of those names, with
      [JournalSafety] for the journal's theorems;
    - [AuthorityV2] ([ledger_authority_v2.py]), [AuthorityStore]
      ([ledger_authority_store_v2.py]); [StoreSafety], [StoreChain],
      [StoreRecovery], [StoreRestart], [StoreAudit]: the store's theorems.

    Concrete runs, in which the theorems with hypotheses are applied:
    [TrustScenario], [AttestationScenario], [SnapshotBrokerScenario],
    [StoreScenario], [JournalScenario], [ServiceScenario], [Scenario].

    ** How code becomes definitions

    A definition has the name of the function it translates; a function that
    raises returns [res], one that changes state is a computation of the monad
    [M W] over the component's state [W], and an exception keeps what was changed
    before it.  A JSON object is a [gmap] from strings, an integer is a [Z] (a
    Python integer has no width; the limits the code checks are written out), a
    string is the string of its UTF-8 bytes.  What a clock, a random source or an
    access to the disk gives is an argument or an oracle of the environment,
    indexed by a counter of the state, so that every reading is a new one.  A
    process that is killed is an exception that no handler catches.

    ** What the theorems show

    - The ledgers.  A verified v1 ledger is tamper evident and, while no event
      holds a line separator, reads back what was appended; a v2 chain is linked,
      each envelope by its own signature the authority's, and its dispatches are
      authorised; the durable store refines an abstract append-only log, is append-only under
      every fault and kill, accounts for each event by one transaction, and
      finishes an append that a crash interrupted.
    - The workspace.  A task record lives a path of the task machine, with strict
      gates unless its creator said otherwise; while every event survives the
      ledger file, files and ledger agree in every reachable world; only the
      holder of a lease that is live during the call moves its task;
      release-critical operations fail closed and change nothing; a task is
      verified only after a submission; a proof of capability is
      consumed once; a run has one authoritative terminal event; independence is
      what its specification says; accepted evidence matches the files.
    - The snapshot broker.  Frames read back, signed envelopes carry the
      administrator's signature of their payload, the digest of a copy names the
      one tree its source held; a nonce is accepted once; what a release removed
      stays away, and the release is answered again to a retry while the same
      process has served no other; the client accepts what the daemon grants, and can give it back.
    - The verifier.  The journal refines an abstract machine, a dispatch is
      claimed once, a record that says so has its receipt on disk, an interrupted
      persist resumes, a verified receipt is doubly signed and bound, a verified
      attestation is bound to the execution.
    - The lock excludes while no lock file is stale, and acquiring terminates.
    - What does not hold.  The recovery of a stale lock breaks exclusion; a
      directory left by a killed copy keeps the snapshot daemon from starting; a
      torn store, a torn receipt and a torn journal record block their component
      for good; prerequisites of a task are never satisfied in the broker.

    ** Bounds and fuel

    Recursion that is not structural has fuel, and a theorem or the definition
    itself says why it is enough: the JSON parser takes the length of the text;
    [read_lines] one more than the length of the file; the walk over a package one
    more than the limit on its entries ([walk_fuel]), since each step visits an
    entry and the limit raises; [recv_all] the number of missing bytes, since each
    chunk brings one; [make_room] the number of entries; [subclass] the depth of
    the class hierarchy.  The times of [FileLock] are integers of one unit.

    ** Not modelled

    - [trusted_runner.py] beyond the key sets of its receipts: it starts processes
      in a namespace sandbox; [Verification] uses it through an interface whose
      laws are named there.
    - [snapshot_broker.py]: the listening socket, the singleton lock, the thread
      pool and the creation of the fixed directories; a history of the daemon's
      atomic sections stands for the interleaving of its threads.
    - [release_gate.py], [release_evidence.py], [retained_git.py],
      [retained_source.py], [provenance.py], [trust_projection.py],
      [roadmap.py], [doctor.py], [dashboard.py], [adapter.py], [cli.py] and the
      scripts: inventories, reports and gates over Git repositories, archives,
      processes and terminals.  Nothing is claimed about them.
    - Python itself: memory limits, interrupts, lone surrogates, and the tables
      of Unicode normalisation, which are a parameter. *)

From stdpp Require Export base tactics option list gmap strings sorting.
From Stdlib Require Export ZArith Lia.

#[global] Open Scope Z_scope.

(** ** Exceptions

    [errors.py] and the built-in exceptions the sources raise or catch.  The
    class hierarchy is what [except C] observes, so [parent] follows the
    [class X(Y)] lines and Python's own hierarchy. *)

Inductive exn_class :=
  | Exception
  | CogniError | ConfigurationError | StateError | TransitionError | LeaseError
  | AuthorizationError | IntegrityError | EvidenceError | AdapterError | LockTimeout
  | VerifierProtocolError | SnapshotBrokerError | LedgerAuthorityV2Error
  | VerifierAttestationError | VerifierReceiptError | VerifierServiceError
  | LedgerAuthorityStoreV2Error | IndeterminateCommit | RetryableAppendNotApplied
  | VerifierJournalError
  | ValueError | UnicodeError | JSONDecodeError | TypeError | LookupError | KeyError
  | AttributeError | OSError | FileNotFoundError | FileExistsError | TimeoutError
  | OverflowError | RuntimeError | RecursionError.

#[export] Instance exn_class_eq_dec : EqDecision exn_class.
Proof. solve_decision. Defined.

Definition parent (c : exn_class) : option exn_class :=
  match c with
  | Exception => None
  | CogniError | ValueError | TypeError | LookupError | AttributeError | OSError
  | OverflowError | RuntimeError => Some Exception
  | ConfigurationError | StateError | AdapterError | LockTimeout => Some CogniError
  | TransitionError | LeaseError | AuthorizationError | IntegrityError
  | EvidenceError => Some StateError
  | VerifierProtocolError | SnapshotBrokerError | VerifierAttestationError =>
      Some EvidenceError
  | VerifierReceiptError | VerifierServiceError => Some VerifierProtocolError
  | LedgerAuthorityV2Error => Some IntegrityError
  | LedgerAuthorityStoreV2Error => Some LedgerAuthorityV2Error
  | IndeterminateCommit | RetryableAppendNotApplied => Some LedgerAuthorityStoreV2Error
  | UnicodeError | JSONDecodeError => Some ValueError
  | KeyError => Some LookupError
  | FileNotFoundError | FileExistsError | TimeoutError => Some OSError
  | RecursionError | VerifierJournalError => Some RuntimeError
  end.

(** The hierarchy is at most seven classes deep, so six steps reach the top. *)
Fixpoint subclass_fuel (n : nat) (c d : exn_class) : bool :=
  bool_decide (c = d) ||
  match n, parent c with
  | S n, Some p => subclass_fuel n p d
  | _, _ => false
  end.

Definition subclass (c d : exn_class) : bool := subclass_fuel 6 c d.

Record exn := Exn { exn_cls : exn_class; exn_msg : string }.

(** [isinstance(error, C)], and the test behind [except C]. *)
Definition is_a (e : exn) (c : exn_class) : bool := subclass (exn_cls e) c.

(** ** Results: a value or a raised exception *)

Inductive res (A : Type) :=
  | Ok (a : A)
  | Err (e : exn).
Arguments Ok {A} a.
Arguments Err {A} e.

#[export] Instance res_ret : MRet res := @Ok.
#[export] Instance res_bind : MBind res := λ A B f m,
  match m with Ok a => f a | Err e => Err e end.
#[export] Instance res_fmap : FMap res := λ A B f m,
  match m with Ok a => Ok (f a) | Err e => Err e end.

Definition raise {A} (c : exn_class) (msg : string) : res A := Err (Exn c msg).

(** [if b: raise C(msg)] as a statement. *)
Definition raise_if (b : bool) (c : exn_class) (msg : string) : res unit :=
  if b then raise c msg else Ok tt.

Definition res_of_option {A} (e : exn) (o : option A) : res A :=
  match o with Some a => Ok a | None => Err e end.

Definition is_ok {A} (m : res A) : bool :=
  match m with Ok _ => true | Err _ => false end.

(** [try: m except C as e: h e]. *)
Definition catch {A} (m : res A) (c : exn_class) (h : exn → res A) : res A :=
  match m with
  | Ok a => Ok a
  | Err e => if is_a e c then h e else Err e
  end.

Fixpoint res_mapM {A B} (f : A → res B) (l : list A) : res (list B) :=
  match l with
  | [] => Ok []
  | x :: l => y ← f x; ys ← res_mapM f l; Ok (y :: ys)
  end.

Fixpoint res_iter {A} (f : A → res unit) (l : list A) : res unit :=
  match l with
  | [] => Ok tt
  | x :: l => _ ← f x; res_iter f l
  end.

Fixpoint res_foldl {A B} (f : B → A → res B) (b : B) (l : list A) : res B :=
  match l with
  | [] => Ok b
  | x :: l => b' ← f b x; res_foldl f b' l
  end.

(** ** State and exceptions

    A Python function over a world [W]: an exception keeps the changes made
    before it was raised. *)

Definition M (W A : Type) : Type := W → res A * W.

#[export] Instance M_ret {W} : MRet (M W) := λ A a w, (Ok a, w).
#[export] Instance M_bind {W} : MBind (M W) := λ A B f m w,
  match m w with
  | (Ok a, w') => f a w'
  | (Err e, w') => (Err e, w')
  end.

Definition liftM {W A} (r : res A) : M W A := λ w, (r, w).
Definition readM {W A} (f : W → A) : M W A := λ w, (Ok (f w), w).
(** A computation that reads the state and may raise. *)
Definition askM {W A} (f : W → res A) : M W A := λ w, (f w, w).
Definition modifyM {W} (f : W → W) : M W unit := λ w, (Ok tt, f w).
Definition raiseM {W A} (c : exn_class) (msg : string) : M W A :=
  liftM (raise c msg).
Definition raise_ifM {W} (b : bool) (c : exn_class) (msg : string) : M W unit :=
  liftM (raise_if b c msg).

(** [try: m except C as e: h e] with the state at the point of the raise. *)
Definition catchM {W A} (m : M W A) (c : exn_class) (h : exn → M W A) : M W A :=
  λ w, match m w with
       | (Ok a, w') => (Ok a, w')
       | (Err e, w') => if is_a e c then h e w' else (Err e, w')
       end.

(** ** Lemmas and automation *)

Create HintDb cogni.

Lemma bind_ok {A B} (f : A → res B) (m : res A) b :
  m ≫= f = Ok b ↔ ∃ a, m = Ok a ∧ f a = Ok b.
Proof. destruct m; cbn; naive_solver. Qed.

Lemma bind_err {A B} (f : A → res B) (m : res A) e :
  m ≫= f = Err e ↔ m = Err e ∨ ∃ a, m = Ok a ∧ f a = Err e.
Proof. destruct m; cbn; naive_solver. Qed.

(** [injection] without reducing the values. *)
Lemma Ok_inj {A} (a b : A) : Ok a = Ok b → a = b.
Proof. by intros [= ->]. Qed.

Lemma raise_if_ok b c msg u : raise_if b c msg = Ok u ↔ b = false.
Proof. destruct b, u; cbn; naive_solver. Qed.

Lemma raise_if_err b c msg e :
  raise_if b c msg = Err e ↔ b = true ∧ e = Exn c msg.
Proof. destruct b; cbn; unfold raise; naive_solver. Qed.

Lemma M_bind_ok {W A B} (f : A → M W B) (m : M W A) w b w' :
  (m ≫= f) w = (Ok b, w') ↔ ∃ a w1, m w = (Ok a, w1) ∧ f a w1 = (Ok b, w').
Proof. unfold mbind, M_bind. destruct (m w) as [[a|e] w1]; naive_solver. Qed.

Lemma M_bind_err {W A B} (f : A → M W B) (m : M W A) w e w' :
  (m ≫= f) w = (Err e, w') ↔
  m w = (Err e, w') ∨ ∃ a w1, m w = (Ok a, w1) ∧ f a w1 = (Err e, w').
Proof. unfold mbind, M_bind. destruct (m w) as [[a|e1] w1]; naive_solver. Qed.

(** A bind whose first part is known to succeed. *)
Lemma bind_run {A B} (f : A → res B) (m : res A) a : m = Ok a → m ≫= f = f a.
Proof. by intros ->. Qed.

Lemma check_run {B} (f : unit → res B) b c msg : b = false → (raise_if b c msg ≫= f) = f tt.
Proof. by intros ->. Qed.

Lemma M_bind_run {W A B} (f : A → M W B) (m : M W A) w a w' :
  m w = (Ok a, w') → (m ≫= f) w = f a w'.
Proof. unfold mbind, M_bind. by intros ->. Qed.

Lemma M_bind_raise {W A B} (f : A → M W B) (m : M W A) w e w' :
  m w = (Err e, w') → (m ≫= f) w = (Err e, w').
Proof. unfold mbind, M_bind. by intros ->. Qed.

Lemma lift_bind_run {W A B} (f : A → M W B) (r : res A) (w : W) a :
  r = Ok a → (liftM r ≫= f) w = f a w.
Proof. by intros ->. Qed.

Lemma guard_run {W B} (f : unit → M W B) b c msg (w : W) :
  b = false → (raise_ifM b c msg ≫= f) w = f tt w.
Proof. by intros ->. Qed.

Lemma liftM_ok {W A} (r : res A) (w : W) a w' :
  liftM r w = (Ok a, w') ↔ r = Ok a ∧ w' = w.
Proof. unfold liftM. naive_solver. Qed.

Lemma askM_ok {W A} (f : W → res A) (w : W) a w' :
  askM f w = (Ok a, w') ↔ f w = Ok a ∧ w' = w.
Proof. unfold askM. split; [by intros [= <- <-] | by intros [-> ->]]. Qed.

Lemma modifyM_ok {W} (f : W → W) (w : W) u w' :
  modifyM f w = (Ok u, w') ↔ w' = f w.
Proof. unfold modifyM. destruct u. split; [by intros [= <-] | by intros ->]. Qed.

Lemma readM_ok {W A} (f : W → A) (w : W) a w' :
  readM f w = (Ok a, w') ↔ a = f w ∧ w' = w.
Proof. unfold readM. split; [by intros [= <- <-] | by intros [-> ->]]. Qed.

Lemma raise_ifM_ok {W} b c msg (w : W) u w' :
  raise_ifM b c msg w = (Ok u, w') ↔ b = false ∧ w' = w.
Proof. unfold raise_ifM. rewrite liftM_ok, raise_if_ok. done. Qed.

(** [try: m except C: raise D(msg)] succeeds as [m] does. *)
Lemma catch_raise_ok {A} (m : res A) c d msg a :
  catch m c (λ _, raise d msg) = Ok a ↔ m = Ok a.
Proof.
  destruct m as [b|e]; unfold catch; [done|]. destruct (is_a e c); split; intros Hx; discriminate Hx.
Qed.

Lemma catchM_raise_ok {W A} (m : M W A) c d msg w a w' :
  catchM m c (λ _, raiseM d msg) w = (Ok a, w') ↔ m w = (Ok a, w').
Proof.
  unfold catchM. destruct (m w) as [[b|e] w1]; [done|]. by destruct (is_a e c).
Qed.

(** Take apart a chain of successful binds in the hypotheses. *)
Ltac inv_res :=
  repeat match goal with
  | H : _ ≫= _ = Ok _ |- _ => apply bind_ok in H as (? & ? & H)
  | H : raise_if _ _ _ = Ok _ |- _ => apply raise_if_ok in H
  | H : raise _ _ = Ok _ |- _ => discriminate H
  | H : mret _ = Ok _ |- _ => injection H as H
  | H : (mret _) = Ok _ |- _ => unfold mret, res_ret in H
  | H : Ok _ = Ok _ |- _ => injection H as H
  | H : Err _ = Ok _ |- _ => discriminate H
  | u : unit |- _ => destruct u
  end.

Ltac inv_M :=
  repeat match goal with
  | H : (_ ≫= _) _ = (Ok _, _) |- _ => apply M_bind_ok in H as (? & ? & ? & H)
  | H : liftM _ _ = (Ok _, _) |- _ => apply liftM_ok in H as [? ->]
  | H : raise_ifM _ _ _ _ = (Ok _, _) |- _ => apply raise_ifM_ok in H as [? ->]
  | H : askM _ _ = (Ok _, _) |- _ => apply askM_ok in H as [? ->]
  | H : readM _ _ = (Ok _, _) |- _ => apply readM_ok in H as [-> ->]
  | H : modifyM _ _ = (Ok _, _) |- _ => apply modifyM_ok in H as ->
  | H : raiseM _ _ _ = (Ok _, _) |- _ => discriminate H
  | H : mret _ _ = (Ok _, _) |- _ =>
      unfold mret, M_ret in H; injection H as ? ?
  end.

(** Reduce a boolean condition to its propositional parts. *)
Ltac bool_split :=
  repeat match goal with
  | H : _ && _ = true |- _ => apply andb_true_iff in H as [? ?]
  | H : _ || _ = false |- _ => apply orb_false_iff in H as [? ?]
  | H : negb _ = true |- _ => apply negb_true_iff in H
  | H : negb _ = false |- _ => apply negb_false_iff in H
  | H : bool_decide _ = true |- _ => apply bool_decide_eq_true in H
  | H : bool_decide _ = false |- _ => apply bool_decide_eq_false in H
  | H : (_ <? _) = false |- _ => apply Z.ltb_ge in H
  | H : (_ <? _) = true |- _ => apply Z.ltb_lt in H
  | H : (_ <=? _) = false |- _ => apply Z.leb_gt in H
  | H : (_ <=? _) = true |- _ => apply Z.leb_le in H
  | H : (_ =? _) = true |- _ => apply Z.eqb_eq in H
  | H : (_ =? _) = false |- _ => apply Z.eqb_neq in H
  end.

Lemma res_mapM_ok {A B} (f : A → res B) l ys :
  res_mapM f l = Ok ys ↔ Forall2 (λ x y, f x = Ok y) l ys.
Proof.
  revert ys. induction l as [|x l IH]; intros ys; cbn.
  - split; [intros [= <-]; constructor | by inversion 1].
  - split.
    + intros H. inv_res. subst. constructor; [done|]. by apply IH.
    + inversion 1 as [|? y ? ys' Hx Hl]; subst. rewrite Hx. cbn.
      apply IH in Hl. by rewrite Hl.
Qed.

Lemma res_iter_ok {A} (f : A → res unit) l :
  res_iter f l = Ok tt ↔ Forall (λ x, f x = Ok tt) l.
Proof.
  induction l as [|x l IH]; cbn; [by split|].
  rewrite Forall_cons, <- IH. split.
  - intros H. inv_res. done.
  - intros [-> H]. done.
Qed.

Lemma res_foldl_app {A B} (f : B → A → res B) b l1 l2 :
  res_foldl f b (l1 ++ l2) = (res_foldl f b l1 ≫= λ b', res_foldl f b' l2).
Proof.
  revert b. induction l1 as [|x l1 IH]; intros b; cbn; [done|].
  destruct (f b x); cbn; [apply IH | done].
Qed.

(** Closed decidable facts, such as membership in a literal list. *)
Ltac by_compute :=
  lazymatch goal with |- ?P => refine (@bool_decide_unpack P _ _); vm_compute; exact I end.

(** The hierarchy's facts used by handlers: every class is an [Exception], and
    a class is a subclass of itself. *)
Lemma subclass_refl c : subclass c c = true.
Proof. by destruct c. Qed.

Lemma subclass_exception c : subclass c Exception = true.
Proof. by destruct c. Qed.

#[export] Hint Resolve subclass_refl subclass_exception : cogni.

(** [not l] for a list. *)
Definition is_nil {A} (l : list A) : bool := match l with [] => true | _ => false end.

Lemma existsb_false {A} (f : A → bool) l : existsb f l = false ↔ Forall (λ x, f x = false) l.
Proof.
  induction l as [|x l IH]; cbn; [by split|]. rewrite orb_false_iff, IH. by rewrite Forall_cons.
Qed.

Lemma is_nil_true {A} (l : list A) : is_nil l = true ↔ l = [].
Proof. by destruct l. Qed.

(** [if b: reasons.append(r)] *)
Definition reason_if (b : bool) (r : string) : list string := if b then [r] else [].

Lemma reason_if_nil b r : reason_if b r = [] → b = false.
Proof. by destruct b. Qed.

(** [next((x for x in l if p x), None)] and its reversed form. *)
Fixpoint find_first {A} (p : A → bool) (l : list A) : option A :=
  match l with
  | [] => None
  | x :: l => if p x then Some x else find_first p l
  end.

(** The same with a test that may raise. *)
Fixpoint res_find_first {A} (p : A → res bool) (l : list A) : res (option A) :=
  match l with
  | [] => Ok None
  | x :: l => b ← p x; if (b : bool) then Ok (Some x) else res_find_first p l
  end.

Definition find_last {A} (p : A → bool) (l : list A) : option A :=
  find_first p (reverse l).

Lemma find_first_Some {A} (p : A → bool) l x :
  find_first p l = Some x → x ∈ l ∧ p x = true.
Proof.
  induction l as [|y l IH]; cbn; [done|]. destruct (p y) eqn:E.
  - intros [= ->]. by split; [left|].
  - intros [? ?]%IH. by split; [right|].
Qed.

Lemma find_first_None {A} (p : A → bool) l :
  find_first p l = None ↔ Forall (λ x, p x = false) l.
Proof.
  induction l as [|y l IH]; cbn; [by rewrite Forall_nil|]. rewrite Forall_cons, <- IH.
  destruct (p y); [split; [done | by intros [? _]] | intuition].
Qed.

Lemma find_first_app {A} (p : A → bool) l1 l2 :
  find_first p (l1 ++ l2) =
  match find_first p l1 with Some x => Some x | None => find_first p l2 end.
Proof. induction l1 as [|y l IH]; cbn; [done|]. by destruct (p y). Qed.

Lemma find_last_Some {A} (p : A → bool) l x :
  find_last p l = Some x → x ∈ l ∧ p x = true.
Proof.
  intros [H ?]%find_first_Some. split; [|done]. by rewrite elem_of_reverse in H.
Qed.

Lemma find_last_snoc {A} (p : A → bool) l x :
  find_last p (l ++ [x]) = if p x then Some x else find_last p l.
Proof. unfold find_last. by rewrite reverse_snoc. Qed.

Lemma find_last_None {A} (p : A → bool) l :
  find_last p l = None ↔ Forall (λ x, p x = false) l.
Proof. unfold find_last. rewrite find_first_None. apply Forall_reverse. Qed.
