(* ===== verification/PyText.v ===== *)
(** * Python text

    A Python [str] is the string of its UTF-8 bytes (code points are ordered
    and compared as their encodings are), so [encode("utf-8")] is the identity
    and ASCII regular expressions act on bytes.  Lone surrogates are outside
    the model.  This file holds the string methods, the anchored regular
    expressions and the line splitting the sources use. *)

From S2P Require Export Prelude.
From Stdlib Require Export Ascii.


Definition code (c : ascii) : N := N_of_ascii c.

Definition in_range (lo hi : N) (c : ascii) : bool :=
  (lo <=? code c)%N && (code c <=? hi)%N.

Definition is_digit : ascii → bool := in_range 48 57.
Definition is_upper : ascii → bool := in_range 65 90.
Definition is_lower : ascii → bool := in_range 97 122.
Definition is_alnum (c : ascii) : bool := is_digit c || is_upper c || is_lower c.
(** [0-9a-f] *)
Definition is_hex_lower (c : ascii) : bool := is_digit c || in_range 97 102 c.
(** [0-9a-fA-F] *)
Definition is_hex_any (c : ascii) : bool := is_hex_lower c || in_range 65 70 c.

Definition char_in (l : string) (c : ascii) : bool :=
  existsb (Ascii.eqb c) (String.list_ascii_of_string l).

Fixpoint all_chars (p : ascii → bool) (s : string) : bool :=
  match s with
  | EmptyString => true
  | String c r => p c && all_chars p r
  end.

Definition dquote : ascii := "034"%char.
Definition backslash : ascii := "092"%char.
Definition newline : string := String "010"%char "".

(** ** Regular expressions of the form [^[first][rest]{0,n}$] *)

Definition re_ident (first rest : ascii → bool) (n : nat) (s : string) : bool :=
  match s with
  | EmptyString => false
  | String c r => first c && all_chars rest r && (String.length r <=? n)%nat
  end.

(** [^[0-9a-f]{n}$] *)
Definition re_hex (n : nat) (s : string) : bool :=
  (String.length s =? n)%nat && all_chars is_hex_lower s.

(** [^[0-9a-fA-F]{64}$] *)
Definition re_hex_any (n : nat) (s : string) : bool :=
  (String.length s =? n)%nat && all_chars is_hex_any s.

(** [A-Za-z0-9._-] and [a-z0-9._-] *)
Definition ident_char (c : ascii) : bool := is_alnum c || char_in "._-" c.
Definition lower_ident_char (c : ascii) : bool :=
  is_digit c || is_lower c || char_in "._-" c.

(** ** String methods *)

(** Code points that are not continuation bytes: [len(s)]. *)
Fixpoint py_len (s : string) : nat :=
  match s with
  | EmptyString => 0
  | String c r => (if in_range 128 191 c then 0 else 1) + py_len r
  end%nat.

(** The encodings of the white-space code points, by length. *)
Definition space1 (c : ascii) : bool := in_range 9 13 c || in_range 28 32 c.
Definition space2 (c d : ascii) : bool :=
  (code c =? 194)%N && ((code d =? 133)%N || (code d =? 160)%N).
Definition space3 (c d e : ascii) : bool :=
  let b := (code c, code d) in
  (bool_decide (b = (225, 154)%N) && (code e =? 128)%N)
  || (bool_decide (b = (226, 128)%N) &&
      (in_range 128 138 e || in_range 168 169 e || (code e =? 175)%N))
  || (bool_decide (b = (226, 129)%N) && (code e =? 159)%N)
  || (bool_decide (b = (227, 128)%N) && (code e =? 128)%N).

Section strip.
Context (p1 : ascii → bool) (p2 : ascii → ascii → bool)
        (p3 : ascii → ascii → ascii → bool).

Fixpoint strip_front (s : string) : string :=
  match s with
  | EmptyString => s
  | String c r =>
      if p1 c then strip_front r else
      match r with
      | EmptyString => s
      | String d r2 =>
          if p2 c d then strip_front r2 else
          match r2 with
          | EmptyString => s
          | String e r3 => if p3 c d e then strip_front r3 else s
          end
      end
  end.
End strip.

Definition str_rev (s : string) : string :=
  String.string_of_list_ascii (reverse (String.list_ascii_of_string s)).

Definition lstrip : string → string := strip_front space1 space2 space3.
Definition rstrip (s : string) : string :=
  str_rev (strip_front space1 (λ d c, space2 c d) (λ e d c, space3 c d e) (str_rev s)).
(** [s.strip()] *)
Definition strip (s : string) : string := lstrip (rstrip s).

(** [s.rstrip(chars)] for ASCII [chars]. *)
Definition rstrip_chars (chars s : string) : string :=
  str_rev (strip_front (char_in chars) (λ _ _, false) (λ _ _ _, false) (str_rev s)).

Definition lower_char (c : ascii) : ascii :=
  if is_upper c then ascii_of_N (code c + 32) else c.

(** [s.lower()] as far as its ASCII part: the Kelvin sign (E2 84 AA) is the
    only other code point whose lower case is ASCII. *)
Fixpoint lower (s : string) : string :=
  match s with
  | EmptyString => EmptyString
  | String c r =>
      match r with
      | String d (String e r3) =>
          if bool_decide ((code c, code d, code e) = (226, 132, 170)%N)
          then String "k" (lower r3) else String (lower_char c) (lower r)
      | _ => String (lower_char c) (lower r)
      end
  end.

Fixpoint ends_with (suffix s : string) : bool :=
  bool_decide (s = suffix) ||
  match s with EmptyString => false | String _ r => ends_with suffix r end.

Definition starts_with (pre s : string) : bool := String.prefix pre s.

(** [s.split(c)]: the pieces between occurrences, always at least one. *)
Fixpoint split_first (p : ascii → bool) (s : string) : string * list string :=
  match s with
  | EmptyString => (EmptyString, [])
  | String c r =>
      let '(a, l) := split_first p r in
      if p c then (EmptyString, a :: l) else (String c a, l)
  end.

Definition split_on (c : ascii) (s : string) : list string :=
  let '(a, l) := split_first (Ascii.eqb c) s in a :: l.

(** [re.split("([chars])", s)]: the pieces and, between them, the separators. *)
Fixpoint split_keep_first (p : ascii → bool) (s : string) : string * list string :=
  match s with
  | EmptyString => (EmptyString, [])
  | String c r =>
      let '(a, l) := split_keep_first p r in
      if p c then (EmptyString, String c "" :: a :: l) else (String c a, l)
  end.

Definition split_keep (p : ascii → bool) (s : string) : list string :=
  let '(a, l) := split_keep_first p s in a :: l.

(** [s.splitlines()]: LF, CR, CRLF, VT, FF, FS, GS, RS, NEL (C2 85) and the
    line and paragraph separators (E2 80 A8, E2 80 A9) all end a line. *)
Definition break1 (c : ascii) : bool := in_range 10 13 c || in_range 28 30 c.
Definition break2 (c d : ascii) : bool :=
  ((code c =? 13)%N && (code d =? 10)%N) || ((code c =? 194)%N && (code d =? 133)%N).
Definition break3 (c d e : ascii) : bool :=
  (code c =? 226)%N && (code d =? 128)%N && in_range 168 169 e.

Fixpoint split_lines_first (s : string) : string * list string :=
  match s with
  | EmptyString => (EmptyString, [])
  | String c r =>
      let cut t := let '(a, l) := split_lines_first t in (EmptyString, a :: l) in
      let next := if break1 c then cut r
                  else let '(a, l) := split_lines_first r in (String c a, l) in
      match r with
      | String d r2 =>
          if break2 c d then cut r2 else
          match r2 with
          | String e r3 => if break3 c d e then cut r3 else next
          | EmptyString => next
          end
      | EmptyString => next
      end
  end.

(** A final empty piece is not a line. *)
Fixpoint drop_last_empty (a : string) (l : list string) : list string :=
  match l with
  | [] => if bool_decide (a = EmptyString) then [] else [a]
  | b :: l => a :: drop_last_empty b l
  end.

Definition splitlines (s : string) : list string :=
  let '(a, l) := split_lines_first s in drop_last_empty a l.

(** The translation of line ends that text mode makes on reading. *)
Fixpoint universal_newlines (s : string) : string :=
  match s with
  | EmptyString => ""
  | String c r =>
      if (code c =? 13)%N then
        match r with
        | String d r2 => if (code d =? 10)%N then String d (universal_newlines r2)
                         else String "010" (universal_newlines r)
        | EmptyString => String "010" ""
        end
      else String c (universal_newlines r)
  end.

(** [s.upper()] as far as the letters F, I and L: besides the ASCII lower case,
    the dotless i (C4 B1) and the fi ligature (EF AC 81) contain them. *)
Definition upper_char (c : ascii) : ascii :=
  if is_lower c then ascii_of_N (code c - 32) else c.
Fixpoint upper (s : string) : string :=
  match s with
  | EmptyString => ""
  | String c r =>
      match r with
      | String d r2 =>
          if (code c =? 196)%N && (code d =? 177)%N then String "I" (upper r2) else
          match r2 with
          | String e r3 =>
              if (code c =? 239)%N && (code d =? 172)%N && (code e =? 129)%N
              then String "F" (String "I" (upper r3)) else String (upper_char c) (upper r)
          | EmptyString => String (upper_char c) (upper r)
          end
      | EmptyString => String (upper_char c) ""
      end
  end.

(** [sub in s] *)
Fixpoint contains (sub s : string) : bool :=
  starts_with sub s || match s with EmptyString => false | String _ r => contains sub r end.

(** ** UTF-8

    [b.decode("utf-8")] succeeds exactly on these bytes.  A Python [str] is
    modelled by the UTF-8 encoding of its code points; one with a lone
    surrogate has no valid encoding, which is when [s.encode("utf-8")] raises. *)

Definition cont (c : ascii) : bool := in_range 128 191 c.

(** What may follow a lead byte: the range of the next byte, and the number of
    continuation bytes after that one. *)
Definition utf8_lead (c : ascii) : option (N * N * nat) :=
  if in_range 194 223 c then Some (128, 191, 0%nat)%N
  else if in_range 224 224 c then Some (160, 191, 1%nat)%N
  else if in_range 237 237 c then Some (128, 159, 1%nat)%N
  else if in_range 225 239 c then Some (128, 191, 1%nat)%N
  else if in_range 240 240 c then Some (144, 191, 2%nat)%N
  else if in_range 241 243 c then Some (128, 191, 2%nat)%N
  else if in_range 244 244 c then Some (128, 143, 2%nat)%N
  else None.

Fixpoint utf8_from (expect : option (N * N * nat)) (s : string) : bool :=
  match s, expect with
  | EmptyString, None => true
  | EmptyString, Some _ => false
  | String c r, None =>
      if (code c <? 128)%N then utf8_from None r
      else match utf8_lead c with Some e => utf8_from (Some e) r | None => false end
  | String c r, Some (lo, hi, more) =>
      in_range lo hi c &&
      match more with
      | O => utf8_from None r
      | S n => utf8_from (Some (128, 191, n)%N) r
      end
  end.

Definition utf8_valid (s : string) : bool := utf8_from None s.

(** ** Integers in decimal and hexadecimal *)

From Stdlib Require Import DecimalString DecimalZ.

Definition string_of_Z (z : Z) : string := NilEmpty.string_of_int (Z.to_int z).

Definition hex_digit (n : N) : ascii :=
  if (n <? 10)%N then ascii_of_N (48 + n) else ascii_of_N (87 + n).

Fixpoint spaces (n : nat) : string :=
  match n with O => "" | S n => String " " (spaces n) end.

(** ** Lemmas *)

Lemma str_app_cons c (a b : string) : String c a +:+ b = String c (a +:+ b).
Proof. reflexivity. Qed.

Lemma str_app_nil_l (b : string) : "" +:+ b = b.
Proof. reflexivity. Qed.

Lemma all_chars_app p s t : all_chars p (s +:+ t) = all_chars p s && all_chars p t.
Proof.
  induction s as [|c s IH]; [done|].
  rewrite str_app_cons. simpl. by rewrite IH, andb_assoc.
Qed.

Lemma all_chars_impl (p q : ascii → bool) s :
  (∀ c, p c = true → q c = true) → all_chars p s = true → all_chars q s = true.
Proof.
  intros H. induction s as [|c s IH]; cbn; [done|]. intros [? ?]%andb_true_iff.
  rewrite H, IH; auto.
Qed.

Lemma str_app_assoc (a b c : string) : a +:+ (b +:+ c) = (a +:+ b) +:+ c.
Proof. induction a as [|x a IH]; [done|]. rewrite !str_app_cons. simpl. by rewrite IH. Qed.

Lemma str_app_nil_r (a : string) : a +:+ "" = a.
Proof. induction a as [|x a IH]; [done|]. rewrite !str_app_cons. simpl. by rewrite IH. Qed.

(** Normal form of concatenations: to the right, characters first. *)
Ltac str_norm :=
  rewrite <- ?str_app_assoc;
  repeat first [rewrite str_app_cons | rewrite str_app_nil_l].

Lemma str_app_length (a b : string) :
  String.length (a +:+ b) = (String.length a + String.length b)%nat.
Proof. induction a as [|x a IH]; [done|]. rewrite !str_app_cons. simpl. by rewrite IH. Qed.

Lemma list_ascii_app a b :
  String.list_ascii_of_string (a +:+ b)
  = String.list_ascii_of_string a ++ String.list_ascii_of_string b.
Proof. induction a as [|c a IH]; [done|]. rewrite str_app_cons. cbn. by rewrite IH. Qed.

Lemma str_rev_snoc a c : str_rev (a +:+ String c "") = String c (str_rev a).
Proof. unfold str_rev. by rewrite list_ascii_app, reverse_app. Qed.

Lemma all_chars_rev p s : all_chars p (str_rev s) = all_chars p s.
Proof.
  assert (Hl : ∀ l, all_chars p (String.string_of_list_ascii l) = forallb p l).
  { induction l as [|c l IH]; cbn; [done|]. by rewrite IH. }
  unfold str_rev. rewrite Hl. rewrite <- (String.string_of_list_ascii_of_string s) at 2.
  rewrite Hl. generalize (String.list_ascii_of_string s). intros l.
  apply eq_true_iff_eq. rewrite !forallb_forall. apply forall_proper. intros x.
  by rewrite <- !list_elem_of_In, elem_of_reverse.
Qed.

Lemma str_rev_involutive s : str_rev (str_rev s) = s.
Proof.
  unfold str_rev. rewrite String.list_ascii_of_string_of_list_ascii, reverse_involutive.
  apply String.string_of_list_ascii_of_string.
Qed.

Lemma re_hex_length n s : re_hex n s = true → String.length s = n.
Proof. unfold re_hex. intros [H%Nat.eqb_eq ?]%andb_true_iff. done. Qed.

Lemma lower_ident_is_ident c : lower_ident_char c = true → ident_char c = true.
Proof. destruct c as [[] [] [] [] [] [] [] []]; vm_compute; done. Qed.

(** Stripping text that has no white space at its ends. *)

Definition plain_char (c : ascii) : bool := (code c <? 128)%N && negb (space1 c).

Lemma strip_front_plain p2 p3 c s :
  plain_char c = true → (∀ d, p2 c d = false) → (∀ d e, p3 c d e = false) →
  strip_front space1 p2 p3 (String c s) = String c s.
Proof.
  unfold plain_char. intros [_ H%negb_true_iff]%andb_true_iff H2 H3. cbn [strip_front].
  rewrite H. destruct s as [|d s]; [done|]. rewrite H2. destruct s; [done|]. by rewrite H3.
Qed.

Lemma plain_not_space c d e :
  plain_char c = true →
  space2 c d = false ∧ space2 d c = false ∧ space3 c d e = false ∧ space3 e d c = false.
Proof.
  unfold plain_char. intros [Hc _]%andb_true_iff. apply N.ltb_lt in Hc.
  assert (Hn : ∀ k, (128 <= k)%N → (code c =? k)%N = false) by (intros; apply N.eqb_neq; lia).
  assert (Hr : ∀ a b, (128 <= a)%N → in_range a b c = false).
  { intros a b Ha. unfold in_range. rewrite (proj2 (N.leb_gt a (code c))) by lia. done. }
  assert (Hp : ∀ k j (x : N), (128 <= k)%N → bool_decide ((code c, x) = (k, j)) = false).
  { intros k j x Hk. apply bool_decide_eq_false_2. intros [= Hx _]. lia. }
  unfold space2, space3. rewrite !Hn, !Hp, !Hr by lia. cbn. by rewrite !andb_false_r.
Qed.

Lemma strip_plain s : all_chars plain_char s = true → strip s = s.
Proof.
  intros Hs. unfold strip.
  assert (rstrip s = s) as ->.
  { unfold rstrip. rewrite <- (str_rev_involutive s) at 2. f_equal.
    pose proof (all_chars_rev plain_char s) as Hr. rewrite Hs in Hr.
    destruct (str_rev s) as [|c r]; [done|]. cbn in Hr. apply andb_true_iff in Hr as [Hc _].
    apply strip_front_plain; [done|intros d|intros d e];
      [apply (plain_not_space c d d Hc)|apply (plain_not_space c d e Hc)]. }
  unfold lstrip. destruct s as [|c s]; [done|]. cbn in Hs. apply andb_true_iff in Hs as [Hc _].
  apply strip_front_plain; [done|intros d|intros d e];
    [apply (plain_not_space c d d Hc)|apply (plain_not_space c d e Hc)].
Qed.

Lemma strip_line s : all_chars plain_char s = true → strip (s +:+ newline) = s.
Proof.
  intros Hs. transitivity (strip s); [|by apply strip_plain]. unfold strip. f_equal.
  unfold rstrip, newline. rewrite (str_rev_snoc s). reflexivity.
Qed.

Example splitlines_ex :
  splitlines ("a" +:+ newline +:+ newline +:+ "b" +:+ newline) = ["a"; ""; "b"].
Proof. reflexivity. Qed.

Example strip_ex : strip "  a b  " = "a b".
Proof. reflexivity. Qed.

Example split_keep_ex :
  split_keep (char_in ":/._-") "google-antigravity" = ["google"; "-"; "antigravity"].
Proof. reflexivity. Qed.

#[export] Hint Resolve re_hex_length lower_ident_is_ident : cogni.
