(* ===== verification/Json.v ===== *)
(** * JSON values

    The values the sources call [Any]: what [json.loads] returns.  A Python
    [dict] is a finite map (its insertion order is never observable here,
    because every encoder used sorts its keys), and a number is an exact integer or a
    binary64 float.  The file holds Python's operations on these values
    ([==], truth, [get], item access), [json.dumps] in the three styles the
    sources use, and [json.loads]. *)

From S2P Require Export PyText.
From Stdlib Require Export SpecFloat.
From Stdlib Require Import DecimalString DecimalZ.

Inductive json :=
  | JNull
  | JBool (b : bool)
  | JInt (z : Z)
  | JFloat (f : spec_float)
  | JStr (s : string)
  | JList (l : list json)
  | JObj (m : gmap string json).

(** The type the sources write [dict[str, Any]]. *)
Notation dict := (gmap string json).

Definition jobj (l : list (string * json)) : json := JObj (list_to_map l).
Definition dict_of (l : list (string * json)) : dict := list_to_map l.
Definition jstrs (l : list string) : json := JList (JStr <$> l).

(** A size for induction through the nested containers. *)
Fixpoint jsize (v : json) : nat :=
  match v with
  | JList l => S (sum_list_with jsize l)
  | JObj m => S (map_fold (λ _ x n, jsize x + n) 0 m)
  | _ => 1
  end%nat.

(** ** Python's [==]

    [bool] is an [int] and integers equal floats of the same value:
    [True == 1 == 1.0].  A NaN differs from everything, itself included. *)

Definition float_eq_Z (f : spec_float) (z : Z) : bool :=
  match f with
  | S754_zero _ => z =? 0
  | S754_finite s m e =>
      let v := if s then Z.neg m else Z.pos m in
      if 0 <=? e then v * 2 ^ e =? z else v =? z * 2 ^ (- e)
  | _ => false
  end.

Definition float_eq (f g : spec_float) : bool :=
  match SFcompare f g with Some Eq => true | _ => false end.

Definition Z_of_bool (b : bool) : Z := if b then 1 else 0.

Definition num_eq (v w : json) : bool :=
  match v, w with
  | JInt x, JInt y => x =? y
  | JInt x, JBool b | JBool b, JInt x => x =? Z_of_bool b
  | JBool a, JBool b => Bool.eqb a b
  | JFloat f, JInt x | JInt x, JFloat f => float_eq_Z f x
  | JFloat f, JBool b | JBool b, JFloat f => float_eq_Z f (Z_of_bool b)
  | JFloat f, JFloat g => float_eq f g
  | _, _ => false
  end.

Fixpoint list_eqb {B} (eqs : list (B → bool)) (l : list B) : bool :=
  match eqs, l with
  | [], [] => true
  | f :: eqs, x :: l => f x && list_eqb eqs l
  | _, _ => false
  end.

Definition map_eqb {B} (eqs : gmap string (B → bool)) (m : gmap string B) : bool :=
  (size eqs =? size m)%nat &&
  forallb (λ '(k, f), match m !! k with Some x => f x | None => false end)
          (map_to_list eqs).

Fixpoint py_eq (v w : json) : bool :=
  match v, w with
  | JNull, JNull => true
  | JStr s, JStr t => bool_decide (s = t)
  | JList l, JList k => list_eqb (py_eq <$> l) k
  | JObj m, JObj n => map_eqb (py_eq <$> m) n
  | _, _ => num_eq v w
  end.

Definition py_neq (v w : json) : bool := negb (py_eq v w).

(** [bool(v)] *)
Definition truthy (v : json) : bool :=
  match v with
  | JNull => false
  | JBool b => b
  | JInt z => negb (z =? 0)
  | JFloat f => negb (float_eq_Z f 0)
  | JStr s => negb (bool_decide (s = ""))
  | JList l => negb (bool_decide (length l = 0%nat))
  | JObj m => negb (bool_decide (m = ∅))
  end.

(** [d.get(k)], [d.get(k, default)] and [d[k]]. *)
Definition get (d : dict) (k : string) : json := default JNull (d !! k).
Definition get_or (d : dict) (k : string) (v : json) : json := default v (d !! k).
Definition item (d : dict) (k : string) : res json :=
  res_of_option (Exn KeyError k) (d !! k).

(** The same on a value that may not be a [dict]. *)
Definition as_dict (v : json) : res dict :=
  match v with
  | JObj m => Ok m
  | _ => raise AttributeError "object has no attribute 'get'"
  end.
Definition jget (v : json) (k : string) : res json := m ← as_dict v; Ok (get m k).
Definition jitem (v : json) (k : string) : res json :=
  match v with JObj m => item m k | _ => raise TypeError "object is not subscriptable" end.

Definition is_dict (v : json) : bool := match v with JObj _ => true | _ => false end.
Definition is_list (v : json) : bool := match v with JList _ => true | _ => false end.
Definition is_str (v : json) : bool := match v with JStr _ => true | _ => false end.
Definition is_bool (v : json) : bool := match v with JBool _ => true | _ => false end.
Definition is_null (v : json) : bool := match v with JNull => true | _ => false end.
(** [isinstance(v, int) and not isinstance(v, bool)] *)
Definition is_pure_int (v : json) : bool := match v with JInt _ => true | _ => false end.
(** [isinstance(v, int)]: a [bool] is an [int]. *)
Definition is_int (v : json) : bool :=
  match v with JInt _ | JBool _ => true | _ => false end.

(** [v is False], [v is True], [v is w] on the singletons. *)
Definition is_false (v : json) : bool := match v with JBool false => true | _ => false end.
Definition is_true (v : json) : bool := match v with JBool true => true | _ => false end.

(** [{**a, **b}]: later bindings win. *)
Definition merge_dict (a b : dict) : dict := b ∪ a.

(** ** Floats: binary64 and its shortest decimal *)

Definition f_prec : Z := 53.
Definition f_emax : Z := 1024.

Fixpoint digits_N (acc : N) (s : string) : N :=
  match s with
  | EmptyString => acc
  | String c r => digits_N (acc * 10 + (code c - 48))%N r
  end.

(** The float nearest to [d * 10 ^ e]. *)
Definition dec_to_float (neg : bool) (d : N) (e : Z) : spec_float :=
  match d with
  | 0%N => S754_zero neg
  | Npos p =>
      let n := Z.of_nat (String.length (string_of_Z (Zpos p))) in
      if 400 <? n + e then S754_infinity neg
      else if n + e <? -400 then S754_zero neg
      else if 0 <=? e
      then binary_normalize f_prec f_emax (cond_Zopp neg (Zpos p * 10 ^ e)) 0 neg
      else let '(q, e', l) := SFdiv_core_binary f_prec f_emax (Zpos p) 0 (10 ^ (- e)) 0 in
           binary_round_aux f_prec f_emax neg q e' l
  end.

Fixpoint strip_zeros (fuel : nat) (q k : Z) : Z * Z :=
  match fuel with
  | O => (q, k)
  | S n => if (q mod 10 =? 0) && negb (q =? 0) then strip_zeros n (q / 10) (k + 1)
           else (q, k)
  end.

Fixpoint zeros (n : nat) : string :=
  match n with O => "" | S n => String "0" (zeros n) end.

(** Layout of the significant digits [ds] with the point after [pt] of them. *)
Definition layout_float (ds : string) (pt : Z) : string :=
  let n := Z.of_nat (String.length ds) in
  if (-4 <? pt) && (pt <=? 16) then
    if pt <=? 0 then "0." +:+ zeros (Z.to_nat (- pt)) +:+ ds
    else if n <=? pt then ds +:+ zeros (Z.to_nat (pt - n)) +:+ ".0"
    else String.substring 0 (Z.to_nat pt) ds +:+ "." +:+
         String.substring (Z.to_nat pt) (String.length ds) ds
  else
    let e := pt - 1 in
    let es := string_of_Z (Z.abs e) in
    String.substring 0 1 ds +:+
    (if 1 <? n then "." +:+ String.substring 1 (String.length ds) ds else "") +:+
    "e" +:+ (if e <? 0 then "-" else "+") +:+
    (if (String.length es <? 2)%nat then "0" +:+ es else es).

(** [num / den] to [n] significant digits, half to even. *)
Definition float_candidate (neg : bool) (num den : Z) (k : Z) (n : Z) : string :=
  let sc := n - k in
  let a := if 0 <=? sc then num * 10 ^ sc else num in
  let b := if 0 <=? sc then den else den * 10 ^ (- sc) in
  let q := a / b in
  let r := a mod b in
  let q' := if 2 * r <? b then q
            else if b <? 2 * r then q + 1
            else if Z.even q then q else q + 1 in
  let '(q'', z) := strip_zeros 20 q' (- sc) in
  let ds := string_of_Z q'' in
  (if neg then "-" else "") +:+ layout_float ds (Z.of_nat (String.length ds) + z).

(** The number of integer digits of [num / den]. *)
Definition decimal_exponent (num den : Z) : Z :=
  let k0 := (Z.log2 num - Z.log2 den) * 30103 / 100000 in
  let lt k := if 0 <=? k then num <? den * 10 ^ k else num * 10 ^ (- k) <? den in
  if lt (k0 - 1) then k0 - 1 else if lt k0 then k0 else if lt (k0 + 1) then k0 + 1
  else k0 + 2.

(** ** Printing *)

Definition escape_char (c : ascii) : string :=
  let n := code c in
  if (n =? 34)%N then String backslash (String dquote "")
  else if (n =? 92)%N then String backslash (String backslash "")
  else if (n =? 10)%N then String backslash "n"
  else if (n =? 13)%N then String backslash "r"
  else if (n =? 9)%N then String backslash "t"
  else if (n =? 8)%N then String backslash "b"
  else if (n =? 12)%N then String backslash "f"
  else if (n <? 32)%N
  then String backslash ("u00" +:+ String (hex_digit (n / 16)%N)
                                    (String (hex_digit (n mod 16)%N) ""))
  else String c "".

Fixpoint escape (s : string) : string :=
  match s with
  | EmptyString => ""
  | String c r => escape_char c +:+ escape r
  end.

(** A JSON string with [ensure_ascii=False]. *)
Definition quote (s : string) : string :=
  String dquote (escape s +:+ String dquote "").

(** ** Parsing *)

Fixpoint skip_ws (s : string) : string :=
  match s with
  | String c r => if char_in (String " " (String "009" (String "010" (String "013" "")))) c
                  then skip_ws r else s
  | EmptyString => s
  end.

Definition hex_value (c : ascii) : option N :=
  if is_digit c then Some (code c - 48)%N
  else if in_range 97 102 c then Some (code c - 87)%N
  else if in_range 65 70 c then Some (code c - 55)%N
  else None.

Definition hex4 (a b c d : ascii) : option N :=
  w ← hex_value a; x ← hex_value b; y ← hex_value c; z ← hex_value d;
  Some (((w * 16 + x) * 16 + y) * 16 + z)%N.

(** The UTF-8 bytes of a code point. *)
Definition utf8 (n : N) : string :=
  let ch x := ascii_of_N x in
  if (n <? 128)%N then String (ch n) ""
  else if (n <? 2048)%N
  then String (ch (192 + n / 64)%N) (String (ch (128 + n mod 64)%N) "")
  else if (n <? 65536)%N
  then String (ch (224 + n / 4096)%N)
         (String (ch (128 + (n / 64) mod 64)%N) (String (ch (128 + n mod 64)%N) ""))
  else String (ch (240 + n / 262144)%N)
         (String (ch (128 + (n / 4096) mod 64)%N)
            (String (ch (128 + (n / 64) mod 64)%N) (String (ch (128 + n mod 64)%N) ""))).

Definition simple_escape (c : ascii) : option string :=
  let n := code c in
  if (n =? 34)%N || (n =? 92)%N || (n =? 47)%N then Some (String c "")
  else if (n =? 110)%N then Some (String "010" "")
  else if (n =? 114)%N then Some (String "013" "")
  else if (n =? 116)%N then Some (String "009" "")
  else if (n =? 98)%N then Some (String "008" "")
  else if (n =? 102)%N then Some (String "012" "")
  else None.

Definition prepend (a : string) (p : option (string * string)) : option (string * string) :=
  '(k, r) ← p; Some (a +:+ k, r).

(** After the opening quote: the contents and what follows the closing one. *)
Fixpoint p_string (s : string) : option (string * string) :=
  match s with
  | EmptyString => None
  | String c r =>
      if Ascii.eqb c dquote then Some ("", r)
      else if Ascii.eqb c backslash then
        match r with
        | EmptyString => None
        | String e r1 =>
            if Ascii.eqb e "u" then
              match r1 with
              | String h1 (String h2 (String h3 (String h4 r5))) =>
                  u ← hex4 h1 h2 h3 h4;
                  if (55296 <=? u)%N && (u <=? 56319)%N then
                    match r5 with
                    | String b1 (String b2
                        (String k1 (String k2 (String k3 (String k4 r11))))) =>
                        if Ascii.eqb b1 backslash && Ascii.eqb b2 "u" then
                          l ← hex4 k1 k2 k3 k4;
                          if (56320 <=? l)%N && (l <=? 57343)%N then
                            prepend (utf8 (65536 + (u - 55296) * 1024 + (l - 56320))%N)
                                    (p_string r11)
                          else None
                        else None
                    | _ => None
                    end
                  else if (56320 <=? u)%N && (u <=? 57343)%N then None
                  else prepend (utf8 u) (p_string r5)
              | _ => None
              end
            else
              x ← simple_escape e; prepend x (p_string r1)
        end
      else if (code c <? 32)%N then None
      else prepend (String c "") (p_string r)
  end.

Fixpoint span_digits (s : string) : string * string :=
  match s with
  | String c r => if is_digit c then let '(a, b) := span_digits r in (String c a, b)
                  else ("", s)
  | EmptyString => ("", "")
  end.

Definition p_sign (s : string) : bool * string :=
  match s with
  | String c r => if Ascii.eqb c "-" then (true, r) else (false, s)
  | EmptyString => (false, s)
  end.

(** [0|[1-9][0-9]*] *)
Definition p_int_digits (s : string) : option (string * string) :=
  match s with
  | String c r =>
      if Ascii.eqb c "0" then Some ("0", r)
      else if is_digit c then Some (span_digits s) else None
  | EmptyString => None
  end.

(** [(\.[0-9]+)?] *)
Definition p_frac (s : string) : option string * string :=
  match s with
  | String c r =>
      if Ascii.eqb c "." then
        let '(d, r') := span_digits r in
        if bool_decide (d = "") then (None, s) else (Some d, r')
      else (None, s)
  | EmptyString => (None, s)
  end.

(** [([eE][-+]?[0-9]+)?] *)
Definition p_exp (s : string) : option Z * string :=
  match s with
  | String c r =>
      if Ascii.eqb c "e" || Ascii.eqb c "E" then
        let '(neg, r1) := match r with
                          | String g r1 => if Ascii.eqb g "-" then (true, r1)
                                           else if Ascii.eqb g "+" then (false, r1)
                                           else (false, r)
                          | EmptyString => (false, r)
                          end in
        let '(d, r') := span_digits r1 in
        if bool_decide (d = "") then (None, s)
        else (Some (cond_Zopp neg (Z.of_N (digits_N 0 d))), r')
      else (None, s)
  | EmptyString => (None, s)
  end.

Definition p_number (s : string) : option (json * string) :=
  let '(neg, s1) := p_sign s in
  '(ip, s2) ← p_int_digits s1;
  let '(fr, s3) := p_frac s2 in
  let '(ex, s4) := p_exp s3 in
  match fr, ex with
  | None, None => Some (JInt (cond_Zopp neg (Z.of_N (digits_N 0 ip))), s4)
  | _, _ =>
      let f := default "" fr in
      Some (JFloat (dec_to_float neg (digits_N 0 (ip +:+ f))
                      (default 0 ex - Z.of_nat (String.length f))), s4)
  end.

Definition reads_back (f : spec_float) (s : string) : bool :=
  match p_number s with
  | Some (JFloat g, r) => bool_decide (r = "") &&
      match f, g with
      | S754_zero a, S754_zero b => Bool.eqb a b
      | S754_finite a m e, S754_finite b n d => Bool.eqb a b && Pos.eqb m n && (e =? d)
      | _, _ => false
      end
  | _ => false
  end.

(** [float.__repr__]: the fewest digits, at most 17, that read back. *)
Definition float_repr (f : spec_float) : string :=
  match f with
  | S754_zero s => if s then "-0.0" else "0.0"
  | S754_infinity s => if s then "-Infinity" else "Infinity"
  | S754_nan => "NaN"
  | S754_finite s m e =>
      let num := if 0 <=? e then Zpos m * 2 ^ e else Zpos m in
      let den := if 0 <=? e then 1 else 2 ^ (- e) in
      let k := decimal_exponent num den in
      let cs := float_candidate s num den k <$> (Z.of_nat <$> seq 1 17) in
      default "0.0" (find_first (reads_back f) cs)
  end.

(** [str(v)].  A container prints with its brackets; what is inside them is
    never looked at (no identifier, digest or state name starts so). *)
Definition str_of (v : json) : string :=
  match v with
  | JStr s => s
  | JNull => "None"
  | JBool b => if b then "True" else "False"
  | JInt z => string_of_Z z
  | JFloat (S754_infinity s) => if s then "-inf" else "inf"
  | JFloat S754_nan => "nan"
  | JFloat f => float_repr f
  | JList _ => "[...]"
  | JObj _ => "{...}"
  end.

(** [v + 1] on the numbers; other types raise. *)
Definition py_add1 (v : json) : res json :=
  match v with
  | JInt z => Ok (JInt (z + 1))
  | JBool b => Ok (JInt (Z_of_bool b + 1))
  | JFloat f => Ok (JFloat (SFadd f_prec f_emax f (dec_to_float false 1 0)))
  | _ => raise TypeError "unsupported operand type(s) for +"
  end.

(** [list(v)]: the elements, the characters of a string, or the keys. *)
Definition starts_continuation (s : string) : bool :=
  match s with String c _ => in_range 128 191 c | EmptyString => false end.
Fixpoint utf8_chars (s : string) : list string :=
  match s with
  | EmptyString => []
  | String c r =>
      match utf8_chars r with
      | x :: l => if starts_continuation x then String c x :: l else String c "" :: x :: l
      | [] => [String c ""]
      end
  end.
Definition py_list (v : json) : res (list json) :=
  match v with
  | JList l => Ok l
  | JStr s => Ok (JStr <$> utf8_chars s)
  | JObj m => Ok (JStr <$> (map_to_list m).*1)
  | _ => raise TypeError "object is not iterable"
  end.

(** [v <= w] on the numbers; other operands raise. *)
Definition float_le_Z (f : spec_float) (z : Z) : bool :=
  match f with
  | S754_zero _ => 0 <=? z
  | S754_infinity s => s
  | S754_nan => false
  | S754_finite s m e =>
      let v := if s then Z.neg m else Z.pos m in
      if 0 <=? e then v * 2 ^ e <=? z else v <=? z * 2 ^ (- e)
  end.

Definition Z_le_float (z : Z) (f : spec_float) : bool :=
  match f with
  | S754_zero _ => z <=? 0
  | S754_infinity s => negb s
  | S754_nan => false
  | S754_finite s m e =>
      let v := if s then Z.neg m else Z.pos m in
      if 0 <=? e then z <=? v * 2 ^ e else z * 2 ^ (- e) <=? v
  end.

(** The integer value of an [int] or [bool]. *)
Definition int_of (v : json) : option Z :=
  match v with JInt z => Some z | JBool b => Some (Z_of_bool b) | _ => None end.

(** The integer a number equals, which is the dictionary key it stands for; a
    list or a dict cannot be a key. *)
Definition float_int (f : spec_float) : option Z :=
  match f with
  | S754_zero _ => Some 0
  | S754_finite s m e =>
      let v := if s then Z.neg m else Z.pos m in
      if 0 <=? e then Some (v * 2 ^ e)
      else if v mod 2 ^ (- e) =? 0 then Some (v / 2 ^ (- e)) else None
  | _ => None
  end.
Definition int_key (v : json) : res (option Z) :=
  match v with
  | JInt z => Ok (Some z)
  | JBool b => Ok (Some (Z_of_bool b))
  | JFloat f => Ok (float_int f)
  | JList _ | JObj _ => raise TypeError "unhashable type"
  | _ => Ok None
  end.

Definition py_le (v w : json) : res bool :=
  match v, w, int_of v, int_of w with
  | _, _, Some x, Some y => Ok (x <=? y)
  | JFloat f, _, _, Some y => Ok (float_le_Z f y)
  | _, JFloat g, Some x, _ => Ok (Z_le_float x g)
  | JFloat f, JFloat g, _, _ =>
      Ok (match SFcompare f g with Some Lt | Some Eq => true | _ => false end)
  | JStr s, JStr t, _, _ => Ok (bool_decide (String.le s t))
  | _, _, _, _ => raise TypeError "'<=' not supported"
  end.

(** [x in {...}] for a set of strings; an unhashable [x] raises. *)
Definition in_strings (v : json) (l : list string) : res bool :=
  match v with
  | JStr s => Ok (bool_decide (s ∈ l))
  | JList _ | JObj _ => raise TypeError "unhashable type"
  | _ => Ok false
  end.

(** [sorted(d.items())] for a [dict] with string keys. *)
Definition fst_le {A} (p q : string * A) : Prop := String.le p.1 q.1.
#[export] Instance fst_le_dec {A} : RelDecision (@fst_le A).
Proof. intros p q. unfold fst_le. apply _. Defined.
Definition sorted_items {A} (m : gmap string A) : list (string * A) :=
  merge_sort fst_le (map_to_list m).

Definition p_lit (lit : string) (v : json) (s : string) : option (json * string) :=
  if starts_with lit s
  then Some (v, String.substring (String.length lit) (String.length s) s) else None.

Definition first_some {A} (a b : option A) : option A :=
  match a with Some x => Some x | None => b end.

(** The scanner, with fuel for its nesting and its loops. *)
Fixpoint p_value (n : nat) (s : string) : option (json * string) :=
  match n with
  | O => None
  | S n =>
      match s with
      | EmptyString => None
      | String c r =>
          if Ascii.eqb c dquote then '(k, r) ← p_string r; Some (JStr k, r)
          else if Ascii.eqb c "{" then
            match skip_ws r with
            | String d r1 =>
                if Ascii.eqb d "}" then Some (JObj ∅, r1)
                else '(l, r2) ← p_members n (skip_ws r);
                     Some (JObj (list_to_map (reverse l)), r2)
            | EmptyString => None
            end
          else if Ascii.eqb c "[" then
            match skip_ws r with
            | String d r1 =>
                if Ascii.eqb d "]" then Some (JList [], r1)
                else '(l, r2) ← p_items n (skip_ws r); Some (JList l, r2)
            | EmptyString => None
            end
          else if Ascii.eqb c "n" then p_lit "null" JNull s
          else if Ascii.eqb c "t" then p_lit "true" (JBool true) s
          else if Ascii.eqb c "f" then p_lit "false" (JBool false) s
          else first_some (p_number s)
                 (first_some (p_lit "NaN" (JFloat S754_nan) s)
                    (first_some (p_lit "Infinity" (JFloat (S754_infinity false)) s)
                       (p_lit "-Infinity" (JFloat (S754_infinity true)) s)))
      end
  end
with p_items (n : nat) (s : string) : option (list json * string) :=
  match n with
  | O => None
  | S n =>
      '(v, r) ← p_value n s;
      match skip_ws r with
      | String c r1 =>
          if Ascii.eqb c "]" then Some ([v], r1)
          else if Ascii.eqb c "," then '(l, r2) ← p_items n (skip_ws r1); Some (v :: l, r2)
          else None
      | EmptyString => None
      end
  end
with p_members (n : nat) (s : string) : option (list (string * json) * string) :=
  match n with
  | O => None
  | S n =>
      match s with
      | String q r0 =>
          if Ascii.eqb q dquote then
            '(k, r) ← p_string r0;
            match skip_ws r with
            | String c r1 =>
                if Ascii.eqb c ":" then
                  '(v, r2) ← p_value n (skip_ws r1);
                  match skip_ws r2 with
                  | String d r3 =>
                      if Ascii.eqb d "}" then Some ([(k, v)], r3)
                      else if Ascii.eqb d ","
                      then '(l, r4) ← p_members n (skip_ws r3); Some ((k, v) :: l, r4)
                      else None
                  | EmptyString => None
                  end
                else None
            | EmptyString => None
            end
          else None
      | EmptyString => None
      end
  end.

(** [json.loads(s)].  Twice the length bounds the depth of the recursion. *)
Definition json_loads (s : string) : res json :=
  match p_value (2 * S (String.length s)) (skip_ws s) with
  | Some (v, r) =>
      if bool_decide (skip_ws r = "") then Ok v
      else raise JSONDecodeError "Extra data"
  | None => raise JSONDecodeError "Expecting value"
  end.

(** ** [json.dumps(value, sort_keys=True, ...)] *)

Record style := Style { item_sep : string; key_sep : string; indent : option nat }.

(** [separators=(",", ":")] *)
Definition compact : style := Style "," ":" None.
(** The defaults. *)
Definition spaced : style := Style ", " ": " None.
(** [indent=2] *)
Definition pretty2 : style := Style "," ": " (Some 2%nat).

(** The line break and indentation before an element at [lvl]. *)
Definition break_at (st : style) (lvl : nat) : string :=
  match indent st with
  | None => ""
  | Some n => newline +:+ spaces (n * lvl)
  end.

Definition key_le (p q : string * string) : Prop := String.le p.1 q.1.
#[export] Instance key_le_dec : RelDecision key_le.
Proof. intros p q. unfold key_le. apply _. Defined.

Fixpoint join (sep : string) (l : list string) : string :=
  match l with
  | [] => ""
  | [x] => x
  | x :: l => x +:+ sep +:+ join sep l
  end.

Definition print_member (st : style) (p : string * string) : string :=
  quote p.1 +:+ key_sep st +:+ p.2.

Definition print_seq (st : style) (lvl : nat) (op cl : string) (l : list string) : string :=
  op +:+ break_at st (S lvl) +:+ join (item_sep st +:+ break_at st (S lvl)) l
     +:+ break_at st lvl +:+ cl.

Fixpoint dumps_at (st : style) (lvl : nat) (v : json) : string :=
  match v with
  | JNull => "null"
  | JBool b => if b then "true" else "false"
  | JInt z => string_of_Z z
  | JFloat f => float_repr f
  | JStr s => quote s
  | JList [] => "[]"
  | JList l => print_seq st lvl "[" "]" (dumps_at st (S lvl) <$> l)
  | JObj m =>
      match merge_sort key_le (map_to_list (dumps_at st (S lvl) <$> m)) with
      | [] => "{}"
      | l => print_seq st lvl "{" "}" (print_member st <$> l)
      end
  end.

Definition dumps (st : style) (v : json) : string := dumps_at st 0 v.

(** [util.canonical_json], whose UTF-8 encoding is the string itself. *)
Definition canonical_json (v : json) : string := dumps compact v.

Example dumps_ex :
  canonical_json (jobj [("b", JInt (-12)); ("a", JList [JNull; JStr "x"]); ("c", JObj ∅)])
  = "{" +:+ quote "a" +:+ ":[null," +:+ quote "x" +:+ "]," +:+ quote "b" +:+ ":-12,"
    +:+ quote "c" +:+ ":{}}".
Proof. vm_compute. reflexivity. Qed.

Example float_repr_ex :
  (float_repr (dec_to_float false 1 (-1)), float_repr (dec_to_float true 15 (-7)),
   float_repr (dec_to_float false 1 16), float_repr (dec_to_float false 123456789 (-3)))
  = ("0.1", "-1.5e-06", "1e+16", "123456.789").
Proof. vm_compute. reflexivity. Qed.

Example loads_dumps_ex :
  let v := jobj [("b", JInt (-12)); ("a", JList [JNull; JStr newline]);
                 ("c", JObj ∅); ("d", JFloat (dec_to_float false 25 (-1)))] in
  json_loads (dumps pretty2 v) = Ok v.
Proof. vm_compute. reflexivity. Qed.
