(* ===== verification/JsonFacts.v ===== *)
(** * Facts about JSON values: induction, [==], and the round trip

    [json_loads (dumps st v) = Ok v] for every style, hence the encoding that
    is hashed and signed determines the value. *)

From S2P Require Export Json.
From Stdlib Require Import DecimalString DecimalPos DecimalN DecimalZ DecimalFacts.

(** ** Induction through lists and maps *)

Lemma jsize_pos v : (1 ≤ jsize v)%nat.
Proof. destruct v; cbn; lia. Qed.

Lemma jsize_list_elem x l : x ∈ l → (jsize x < jsize (JList l))%nat.
Proof.
  intros H. change (jsize x < S (sum_list_with jsize l))%nat.
  pose proof (sum_list_with_in _ jsize l H). lia.
Qed.

Lemma jsize_obj m :
  jsize (JObj m) = S (sum_list_with (λ p, jsize p.2) (map_to_list m)).
Proof.
  cbn. f_equal. rewrite map_fold_foldr.
  induction (map_to_list m) as [|[k x] l IH]; cbn; [done|]. by rewrite IH.
Qed.

Lemma jsize_obj_lookup (m : dict) k x : m !! k = Some x → (jsize x < jsize (JObj m))%nat.
Proof.
  intros H%elem_of_map_to_list. rewrite jsize_obj.
  pose proof (sum_list_with_in _ (λ p, jsize p.2) _ H) as Hle. cbn [snd] in Hle. lia.
Qed.

Lemma json_ind_strong (P : json → Prop) :
  P JNull → (∀ b, P (JBool b)) → (∀ z, P (JInt z)) → (∀ f, P (JFloat f)) →
  (∀ s, P (JStr s)) → (∀ l, Forall P l → P (JList l)) →
  (∀ m, map_Forall (λ _, P) m → P (JObj m)) → ∀ v, P v.
Proof.
  intros Hn Hb Hi Hf Hs Hl Ho v.
  induction v as [v IH] using (induction_ltof1 _ jsize). unfold ltof in IH.
  destruct v; auto.
  - apply Hl, Forall_forall. intros x Hx. by apply IH, jsize_list_elem.
  - apply Ho. intros k x Hx. by eapply IH, jsize_obj_lookup.
Qed.

(** [injection] without reducing the dictionaries. *)
Lemma JObj_inj a b : JObj a = JObj b → a = b.
Proof. by intros [= ->]. Qed.

(** ** [==] on strings, booleans and objects *)

Lemma py_eq_str v s : py_eq v (JStr s) = true ↔ v = JStr s.
Proof.
  destruct v; cbn; try (split; [done | by intros [=]]).
  rewrite bool_decide_eq_true. split; [by intros -> | by intros [= ->]].
Qed.

Lemma py_eq_null v : py_eq v JNull = true ↔ v = JNull.
Proof. destruct v; cbn; split; congruence. Qed.

Lemma py_neq_false v w : py_neq v w = false ↔ py_eq v w = true.
Proof. unfold py_neq. by destruct (py_eq v w). Qed.

Lemma py_neq_str v s : py_neq v (JStr s) = false ↔ v = JStr s.
Proof. by rewrite py_neq_false, py_eq_str. Qed.

Lemma py_eq_int_pure v z : is_pure_int v = true → py_eq v (JInt z) = true ↔ v = JInt z.
Proof.
  destruct v; cbn; try done. rewrite Z.eqb_eq. split; [by intros -> | by intros [= ->]].
Qed.

Lemma map_eqb_spec {B} (eqs : gmap string (B → bool)) (m : gmap string B) :
  map_eqb eqs m = true ↔
  (∀ k, match eqs !! k, m !! k with
        | Some f, Some x => f x = true
        | None, None => True
        | _, _ => False
        end).
Proof.
  unfold map_eqb. rewrite andb_true_iff, Nat.eqb_eq, forallb_forall. split.
  - intros [Hs Hf] k.
    assert (Hsub : ∀ k f, eqs !! k = Some f → ∃ x, m !! k = Some x ∧ f x = true).
    { intros k' f Hk. specialize (Hf (k', f)). cbn in Hf.
      rewrite <- list_elem_of_In, elem_of_map_to_list in Hf. specialize (Hf Hk).
      destruct (m !! k'); [eauto | done]. }
    destruct (eqs !! k) as [f|] eqn:Ek.
    + destruct (Hsub _ _ Ek) as (x & -> & ?). done.
    + destruct (m !! k) as [x|] eqn:Em; [|done].
      assert (Hd : dom eqs = dom m).
      { apply leibniz_equiv_iff, set_subseteq_size_equiv.
        - intros k' [f Hk']%elem_of_dom. destruct (Hsub _ _ Hk') as (x' & ? & _).
          by apply elem_of_dom.
        - rewrite !size_dom. lia. }
      assert (k ∈ dom eqs) as [? ?]%elem_of_dom; [|congruence].
      rewrite Hd. apply elem_of_dom. eauto.
  - intros H. split.
    + rewrite <- !size_dom. f_equal. apply set_eq. intros k. rewrite !elem_of_dom.
      specialize (H k). destruct (eqs !! k), (m !! k); try done;
        split; intros [? ?]; try done; eauto.
    + intros [k f] Hk%list_elem_of_In%elem_of_map_to_list. cbn.
      specialize (H k). rewrite Hk in H. by destruct (m !! k).
Qed.

Lemma py_eq_obj m n :
  py_eq (JObj m) (JObj n) = true ↔
  (∀ k, match m !! k, n !! k with
        | Some x, Some y => py_eq x y = true
        | None, None => True
        | _, _ => False
        end).
Proof.
  cbn [py_eq]. rewrite map_eqb_spec. apply forall_proper. intros k.
  rewrite lookup_fmap. by destruct (m !! k), (n !! k).
Qed.

(** Without floats [==] is reflexive (a NaN is not equal to itself). *)
Fixpoint no_float (v : json) : bool :=
  match v with
  | JFloat _ => false
  | JList l => forallb no_float l
  | JObj m => forallb (λ p, snd p) (map_to_list (no_float <$> m))
  | _ => true
  end.

Lemma forallb_map_snd (f : json → bool) (m : dict) :
  forallb (λ p, snd p) (map_to_list (f <$> m)) = true ↔ map_Forall (λ _ x, f x = true) m.
Proof.
  rewrite forallb_forall. split.
  - intros H k x Hk. apply (H (k, f x)), list_elem_of_In, elem_of_map_to_list.
    by rewrite lookup_fmap, Hk.
  - intros H [k b] Hk%list_elem_of_In%elem_of_map_to_list. cbn.
    rewrite lookup_fmap, fmap_Some in Hk. destruct Hk as (x & Hk & ->). eauto.
Qed.

Lemma py_eq_refl v : no_float v = true → py_eq v v = true.
Proof.
  induction v as [|b|z|f|s|l IH|m IH] using json_ind_strong; intros Hok.
  - done.
  - by destruct b.
  - cbn. lia.
  - done.
  - by apply py_eq_str.
  - cbn in *. induction IH as [|x l Hx _ IHl]; cbn in *; [done|].
    apply andb_true_iff in Hok as [??]. by rewrite Hx, IHl.
  - cbn in Hok. apply forallb_map_snd in Hok. apply py_eq_obj. intros k.
    destruct (m !! k) as [x|] eqn:Ex; [|done]. eauto.
Qed.

(** ** Reading numbers *)

Definition number_stop (s : string) : bool :=
  match s with
  | EmptyString => true
  | String c _ => negb (is_digit c || char_in ".eE+-" c)
  end.

Lemma number_stop_not_digit s :
  number_stop s = true → match s with String c _ => is_digit c = false | _ => True end.
Proof. destruct s as [|c s]; cbn; [done|]. by destruct (is_digit c). Qed.

Lemma number_stop_sign c s :
  number_stop (String c s) = true →
  Ascii.eqb c "-" = false ∧ Ascii.eqb c "+" = false ∧ is_digit c = false.
Proof.
  cbn. destruct (Ascii.eqb c "-") eqn:E1; [apply Ascii.eqb_eq in E1 as ->; done|].
  destruct (Ascii.eqb c "+") eqn:E2; [apply Ascii.eqb_eq in E2 as ->; done|].
  by destruct (is_digit c).
Qed.

Lemma span_digits_all s : all_chars is_digit s = true → span_digits s = (s, "").
Proof.
  induction s as [|c s IH]; cbn; [done|]. intros [-> H]%andb_true_iff. by rewrite IH.
Qed.

Lemma span_digits_app s t a b :
  number_stop t = true → span_digits s = (a, b) → span_digits (s +:+ t) = (a, b +:+ t).
Proof.
  intros Ht. revert a b. induction s as [|c s IH]; intros a b.
  - intros [= <- <-]. rewrite !str_app_nil_l. apply number_stop_not_digit in Ht.
    destruct t as [|c t]; [done|]. cbn. by rewrite Ht.
  - rewrite str_app_cons. cbn. destruct (is_digit c) eqn:Ec.
    + destruct (span_digits s) as [a' b']. intros [= <- <-]. by rewrite (IH _ _ eq_refl).
    + intros [= <- <-]. done.
Qed.

Lemma p_int_digits_app s t a b :
  number_stop t = true → p_int_digits s = Some (a, b) →
  p_int_digits (s +:+ t) = Some (a, b +:+ t).
Proof.
  intros Ht. destruct s as [|c s]; [done|]. rewrite str_app_cons. unfold p_int_digits.
  destruct (Ascii.eqb c "0"); [by intros [= <- <-]|].
  destruct (is_digit c); [|done]. rewrite <- str_app_cons.
  destruct (span_digits (String c s)) as [a' b'] eqn:E. intros [= <- <-].
  by erewrite span_digits_app.
Qed.

Lemma p_frac_app s t a b :
  number_stop t = true → p_frac s = (a, b) → p_frac (s +:+ t) = (a, b +:+ t).
Proof.
  intros Ht. destruct s as [|c s].
  - intros [= <- <-]. rewrite str_app_nil_l. destruct t as [|c t]; [done|].
    cbn in *. destruct (Ascii.eqb c ".") eqn:E; [|done].
    apply Ascii.eqb_eq in E as ->. by destruct (is_digit ".").
  - rewrite str_app_cons. cbn. destruct (Ascii.eqb c "."); [|by intros [= <- <-]].
    destruct (span_digits s) as [a' b'] eqn:E. rewrite (span_digits_app _ _ _ _ Ht E).
    case_bool_decide; by intros [= <- <-].
Qed.

Lemma p_exp_app s t a b :
  number_stop t = true → p_exp s = (a, b) → p_exp (s +:+ t) = (a, b +:+ t).
Proof.
  intros Ht. destruct s as [|c s].
  - intros [= <- <-]. rewrite str_app_nil_l. destruct t as [|c t]; [done|].
    unfold p_exp. destruct (Ascii.eqb c "e" || Ascii.eqb c "E") eqn:E; [|done].
    apply orb_true_iff in E as [->%Ascii.eqb_eq | ->%Ascii.eqb_eq]; done.
  - rewrite str_app_cons. unfold p_exp.
    destruct (Ascii.eqb c "e" || Ascii.eqb c "E"); [|by intros [= <- <-]].
    destruct s as [|g s].
    + rewrite str_app_nil_l. cbn. intros [= <- <-].
      destruct t as [|d t]; [done|].
      apply (number_stop_sign d t) in Ht as (-> & -> & Hd). cbn. by rewrite Hd.
    + rewrite str_app_cons.
      destruct (Ascii.eqb g "-"); [|destruct (Ascii.eqb g "+")];
        [| |rewrite <- str_app_cons];
        destruct (span_digits _) as [a' b'] eqn:E;
        rewrite (span_digits_app _ _ _ _ Ht E);
        case_bool_decide; intros [= <- <-]; done.
Qed.

Lemma p_number_app s t v r :
  number_stop t = true → p_number s = Some (v, r) → p_number (s +:+ t) = Some (v, r +:+ t).
Proof.
  intros Ht. unfold p_number. destruct s as [|c s]; [done|].
  rewrite str_app_cons. unfold p_sign.
  assert (Hgo : ∀ (neg : bool) s', 
    ('(ip, s2) ← p_int_digits s';
     let '(fr, s3) := p_frac s2 in
     let '(ex, s4) := p_exp s3 in
     match fr, ex with
     | None, None => Some (JInt (cond_Zopp neg (Z.of_N (digits_N 0 ip))), s4)
     | _, _ => Some (JFloat (dec_to_float neg (digits_N 0 (ip +:+ default "" fr))
                 (default 0 ex - Z.of_nat (String.length (default "" fr)))), s4)
     end) = Some (v, r) →
    ('(ip, s2) ← p_int_digits (s' +:+ t);
     let '(fr, s3) := p_frac s2 in
     let '(ex, s4) := p_exp s3 in
     match fr, ex with
     | None, None => Some (JInt (cond_Zopp neg (Z.of_N (digits_N 0 ip))), s4)
     | _, _ => Some (JFloat (dec_to_float neg (digits_N 0 (ip +:+ default "" fr))
                 (default 0 ex - Z.of_nat (String.length (default "" fr)))), s4)
     end) = Some (v, r +:+ t)).
  { intros neg s'. destruct (p_int_digits s') as [[ip s2]|] eqn:Ei; [|done].
    rewrite (p_int_digits_app _ _ _ _ Ht Ei). cbn.
    destruct (p_frac s2) as [fr s3] eqn:Ef. rewrite (p_frac_app _ _ _ _ Ht Ef).
    destruct (p_exp s3) as [ex s4] eqn:Ee. rewrite (p_exp_app _ _ _ _ Ht Ee).
    destruct fr, ex; by intros [= <- <-]. }
  destruct (Ascii.eqb c "-").
  - apply (Hgo true s).
  - rewrite <- str_app_cons. apply (Hgo false (String c s)).
Qed.

(** ** Decimal integers *)

Lemma string_of_uint_digits d : all_chars is_digit (NilEmpty.string_of_uint d) = true.
Proof. induction d; cbn; try rewrite IHd; done. Qed.

Lemma digits_N_acc d p :
  digits_N (Npos p) (NilEmpty.string_of_uint d) = Npos (Pos.of_uint_acc d p).
Proof.
  revert p. induction d; intros p; [done|..];
    cbn [NilEmpty.string_of_uint digits_N Pos.of_uint_acc];
    rewrite <- IHd; f_equal; cbn; lia.
Qed.

Lemma digits_N_uint d : digits_N 0 (NilEmpty.string_of_uint d) = Pos.of_uint d.
Proof.
  induction d; [done|..]; cbn [NilEmpty.string_of_uint digits_N Pos.of_uint];
    [exact IHd|..]; apply digits_N_acc.
Qed.

(** A positive numeral does not start with a zero. *)
Lemma pos_digits_head p :
  ∃ c r, NilEmpty.string_of_uint (Pos.to_uint p) = String c r ∧
         is_digit c = true ∧ Ascii.eqb c "0" = false.
Proof.
  pose proof (DecimalPos.Unsigned.to_of (Pos.to_uint p)) as Hn.
  rewrite DecimalPos.Unsigned.of_to in Hn. cbn in Hn.
  destruct (Pos.to_uint p) as [|d|d|d|d|d|d|d|d|d|d] eqn:E;
    [|exfalso|cbn; eauto..].
  - exfalso. apply (f_equal Pos.of_uint) in E.
    by rewrite DecimalPos.Unsigned.of_to in E.
  - unfold Decimal.unorm in Hn. cbn in Hn.
    destruct (Decimal.nzhead d) eqn:Ed; try discriminate Hn.
    + injection Hn as ->. apply (f_equal Pos.of_uint) in E.
      by rewrite DecimalPos.Unsigned.of_to in E.
    + by apply DecimalFacts.nzhead_nonzero in Ed.
Qed.

Lemma p_number_pos_digits p (neg : bool) :
  p_number ((if neg then "-" else "") +:+ NilEmpty.string_of_uint (Pos.to_uint p))
  = Some (JInt (cond_Zopp neg (Zpos p)), "").
Proof.
  destruct (pos_digits_head p) as (c & r & E & Hd & H0).
  assert (Hval : digits_N 0 (String c r) = Npos p).
  { rewrite <- E, digits_N_uint. apply DecimalPos.Unsigned.of_to. }
  assert (Hall : span_digits (String c r) = (String c r, "")).
  { apply span_digits_all. rewrite <- E. apply string_of_uint_digits. }
  assert (Hm : Ascii.eqb c "-" = false).
  { destruct (Ascii.eqb c "-") eqn:Em; [|done]. by apply Ascii.eqb_eq in Em as ->. }
  assert (Hi : p_int_digits (String c r) = Some (String c r, "")).
  { unfold p_int_digits. by rewrite H0, Hd, Hall. }
  assert (Hs : p_sign ((if neg then "-" else "") +:+ String c r) = (neg, String c r)).
  { destruct neg; [done|]. change (p_sign (String c r) = (false, String c r)).
    unfold p_sign. by rewrite Hm. }
  rewrite E. unfold p_number. rewrite Hs, Hi.
  cbn [mbind option_bind p_frac p_exp]. by rewrite Hval.
Qed.

Lemma p_number_int z : p_number (string_of_Z z) = Some (JInt z, "").
Proof.
  destruct z as [|p|p]; [done| |]; unfold string_of_Z; cbn.
  - exact (p_number_pos_digits p false).
  - exact (p_number_pos_digits p true).
Qed.

Lemma p_number_head s v r :
  p_number s = Some (v, r) →
  ∃ c t, s = String c t ∧ (c = "-"%char ∨ is_digit c = true).
Proof.
  unfold p_number. destruct s as [|c t]; [done|]. intros H. exists c, t.
  split; [done|]. cbn [p_sign] in H. destruct (Ascii.eqb c "-") eqn:E.
  - apply Ascii.eqb_eq in E. by left.
  - right. cbn in H. destruct (Ascii.eqb c "0") eqn:E0.
    { by apply Ascii.eqb_eq in E0 as ->. }
    by destruct (is_digit c).
Qed.

(** ** Strings *)

Lemma p_string_escape_char c t :
  p_string (escape_char c +:+ t) = prepend (String c "") (p_string t).
Proof. destruct c as [[] [] [] [] [] [] [] []]; reflexivity. Qed.

Lemma p_string_escape s t :
  p_string (escape s +:+ String dquote t) = Some (s, t).
Proof.
  induction s as [|c s IH]; [done|]. cbn [escape].
  by rewrite <- str_app_assoc, p_string_escape_char, IH.
Qed.

(** ** White space *)

Definition is_ws : ascii → bool :=
  char_in (String " " (String "009" (String "010" (String "013" "")))).

Lemma skip_ws_app w s : all_chars is_ws w = true → skip_ws (w +:+ s) = skip_ws s.
Proof.
  induction w as [|c w IH]; [done|]. rewrite str_app_cons.
  intros [Hc Hw]%andb_true_iff. unfold is_ws in Hc. cbn [skip_ws]. rewrite Hc. auto.
Qed.

Lemma skip_ws_head c s : is_ws c = false → skip_ws (String c s) = String c s.
Proof. unfold is_ws. cbn. by intros ->. Qed.

Lemma spaces_ws n : all_chars is_ws (spaces n) = true.
Proof. induction n; done. Qed.

Lemma break_at_ws st lvl : all_chars is_ws (break_at st lvl) = true.
Proof.
  unfold break_at. destruct (indent st); [|done].
  rewrite all_chars_app, spaces_ws. done.
Qed.

(** The separators are a comma or a colon followed by white space. *)
Definition style_ok (st : style) : bool :=
  match item_sep st, key_sep st with
  | String a i, String b k =>
      Ascii.eqb a "," && Ascii.eqb b ":" && all_chars is_ws i && all_chars is_ws k
  | _, _ => false
  end.

(** Every float in the value has a printable form that reads back; the
    special values print as names. *)
Definition float_ok (f : spec_float) : bool :=
  match f with S754_finite _ _ _ => reads_back f (float_repr f) | _ => true end.

Fixpoint floats_ok (v : json) : bool :=
  match v with
  | JFloat f => float_ok f
  | JList l => forallb floats_ok l
  | JObj m => forallb (λ p, snd p) (map_to_list (floats_ok <$> m))
  | _ => true
  end.

Lemma floats_ok_finite s m e :
  floats_ok (JFloat (S754_finite s m e)) =
  reads_back (S754_finite s m e) (float_repr (S754_finite s m e)).
Proof. reflexivity. Qed.

Lemma dumps_float st lvl f : dumps_at st lvl (JFloat f) = float_repr f.
Proof. reflexivity. Qed.

#[global] Opaque float_repr reads_back p_number.

Lemma reads_back_spec f s :
  reads_back f s = true → p_number s = Some (JFloat f, "").
Proof.
  Transparent reads_back. unfold reads_back. Opaque reads_back.
  destruct (p_number s) as [[[] r]|]; try done.
  intros [Hr%bool_decide_eq_true H]%andb_true_iff. subst r.
  destruct f, f0; try done; repeat (apply andb_true_iff in H as [H ?]);
    repeat match goal with
    | H : Bool.eqb _ _ = true |- _ => apply eqb_prop in H
    | H : Pos.eqb _ _ = true |- _ => apply Pos.eqb_eq in H
    | H : (_ =? _) = true |- _ => apply Z.eqb_eq in H
    end; by subst.
Qed.

(** ** The round trip *)

Lemma number_stop_ws w c s :
  all_chars is_ws w = true → number_stop (String c s) = true →
  number_stop (w +:+ String c s) = true.
Proof.
  destruct w as [|d w]; [done|]. intros [Hd _]%andb_true_iff _. rewrite str_app_cons.
  destruct d as [[] [] [] [] [] [] [] []]; try done; by vm_compute in Hd.
Qed.

Lemma skip_ws_to w c s :
  all_chars is_ws w = true → is_ws c = false → skip_ws (w +:+ String c s) = String c s.
Proof. intros Hw Hc. rewrite skip_ws_app by done. by apply skip_ws_head. Qed.

(** The characters that do not start a string, a container or a word. *)
Definition plain_start (c : ascii) : bool := negb (Ascii.eqb c dquote || char_in "{[ntf" c).

Lemma p_value_plain n c t :
  plain_start c = true →
  p_value (S n) (String c t) =
  first_some (p_number (String c t))
    (first_some (p_lit "NaN" (JFloat S754_nan) (String c t))
       (first_some (p_lit "Infinity" (JFloat (S754_infinity false)) (String c t))
          (p_lit "-Infinity" (JFloat (S754_infinity true)) (String c t)))).
Proof.
  unfold plain_start, char_in. cbn [String.list_ascii_of_string existsb].
  intros H%negb_true_iff. repeat (apply orb_false_iff in H as [? H]).
  cbn [p_value]. repeat match goal with E : Ascii.eqb c _ = false |- _ => rewrite E; clear E end.
  done.
Qed.

Lemma p_value_number n s v r : p_number s = Some (v, r) → p_value (S n) s = Some (v, r).
Proof.
  intros H. destruct (p_number_head _ _ _ H) as (c & t & -> & Hc).
  rewrite p_value_plain, H; [done|].
  destruct Hc as [->|Hc]; [done|].
  by destruct c as [[] [] [] [] [] [] [] []].
Qed.

Lemma p_lit_app lit v t : p_lit lit v (lit +:+ t) = Some (v, t).
Proof.
  unfold p_lit, starts_with.
  assert (Hp : String.prefix lit (lit +:+ t) = true).
  { induction lit as [|c l IH]; [by destruct t|]. rewrite str_app_cons. cbn.
    destruct (ascii_dec c c) as [?|Hc]; [exact IH|by destruct Hc]. }
  rewrite Hp. do 2 f_equal. clear Hp.
  assert (Hall : ∀ (s : string) n, (String.length s ≤ n)%nat → String.substring 0 n s = s).
  { induction s as [|c s IH]; intros [|k] Hk; cbn in *; try done; [lia|].
    rewrite IH; [done|lia]. }
  assert (Hsub : ∀ n, (String.length t ≤ n)%nat →
    String.substring (String.length lit) n (lit +:+ t) = t).
  { intros n Hn. induction lit as [|c l IH]; [by apply Hall|].
    rewrite str_app_cons. destruct n; exact IH. }
  apply Hsub. rewrite str_app_length. lia.
Qed.

Lemma print_int_float v st lvl n rest :
  floats_ok v = true → number_stop rest = true → (1 ≤ n)%nat →
  match v with JInt _ | JFloat _ => True | _ => False end →
  p_value n (dumps_at st lvl v +:+ rest) = Some (v, rest).
Proof.
  intros Hok Hs Hn Hv. destruct n as [|n]; [lia|].
  destruct v as [| |z|f| | |]; try done; [cbn [dumps_at]|rewrite dumps_float].
  - apply p_value_number. rewrite <- (str_app_nil_l rest) at 2.
    apply p_number_app; [done|]. apply p_number_int.
  - destruct f as [[]|[]| |s m e].
    + apply p_value_number. change (p_number ("-0.0" +:+ rest) = Some (JFloat (S754_zero true), "" +:+ rest)).
      apply p_number_app; [done|reflexivity].
    + apply p_value_number. change (p_number ("0.0" +:+ rest) = Some (JFloat (S754_zero false), "" +:+ rest)).
      apply p_number_app; [done|reflexivity].
    + exact (p_lit_app "-Infinity" _ rest).
    + change (p_value (S n) ("Infinity" +:+ rest) = Some (JFloat (S754_infinity false), rest)).
      rewrite !str_app_cons, p_value_plain, <- !str_app_cons by done.
      change (p_number ("Infinity" +:+ rest)) with (@None (json * string)). cbn [first_some].
      by rewrite ?(p_lit_app "Infinity").
    + change (p_value (S n) ("NaN" +:+ rest) = Some (JFloat S754_nan, rest)).
      rewrite !str_app_cons, p_value_plain, <- !str_app_cons by done.
      change (p_number ("NaN" +:+ rest)) with (@None (json * string)). cbn [first_some].
      by rewrite ?(p_lit_app "NaN").
    + apply p_value_number. rewrite <- (str_app_nil_l rest) at 2.
      rewrite floats_ok_finite in Hok.
      apply p_number_app; [done|]. by apply reads_back_spec.
Qed.

(** What an encoding starts with. *)
Lemma dumps_head st lvl v :
  floats_ok v = true →
  ∃ c t, dumps_at st lvl v = String c t ∧ is_ws c = false ∧ Ascii.eqb c "]" = false.
Proof.
  assert (Hnum : ∀ s u r, p_number s = Some (u, r) →
    ∃ c t, s = String c t ∧ is_ws c = false ∧ Ascii.eqb c "]" = false).
  { intros s u r (c & t & -> & Hc)%p_number_head. exists c, t. split; [done|].
    destruct Hc as [->|Hc]; [done|].
    destruct c as [[] [] [] [] [] [] [] []]; try done; by vm_compute in Hc. }
  intros Hok. destruct v as [|b|z|f|s|l|m]; cbn [dumps_at].
  - eauto.
  - destruct b; eauto.
  - eapply Hnum, p_number_int.
  - change (dumps_at st lvl (JFloat f)) with (float_repr f).
    destruct f as [[]|[]| |s m e]; 
      [by exists "-"%char, "0.0" | by exists "0"%char, ".0" | by exists "-"%char, "Infinity"
      |by exists "I"%char, "nfinity" | by exists "N"%char, "aN" |].
    rewrite floats_ok_finite in Hok. by eapply Hnum, reads_back_spec.
  - unfold quote. eauto.
  - destruct l; unfold print_seq; eauto.
  - destruct (merge_sort _ _); unfold print_seq; eauto.
Qed.

Section items.
Context (st : style) (lvl : nat) (Hst : style_ok st = true).

Lemma item_sep_ok : ∃ w, item_sep st +:+ break_at st lvl = String "," w ∧
                         all_chars is_ws w = true.
Proof.
  unfold style_ok in Hst. destruct (item_sep st) as [|a i], (key_sep st) as [|b k]; try done.
  apply andb_true_iff in Hst as [[[->%Ascii.eqb_eq _]%andb_true_iff ?]%andb_true_iff _].
  eexists. rewrite str_app_cons. split; [done|]. by rewrite all_chars_app, break_at_ws, andb_true_r.
Qed.

Lemma key_sep_ok : ∃ w, key_sep st = String ":" w ∧ all_chars is_ws w = true.
Proof.
  unfold style_ok in Hst. destruct (item_sep st) as [|a i], (key_sep st) as [|b k]; try done.
  apply andb_true_iff in Hst as [[[_ ->%Ascii.eqb_eq]%andb_true_iff _]%andb_true_iff ?].
  eauto.
Qed.

Definition prints (v : json) : Prop :=
  ∀ rest n, number_stop rest = true → (2 * jsize v ≤ n)%nat →
  p_value n (dumps_at st lvl v +:+ rest) = Some (v, rest).

Lemma p_items_join l w rest n :
  l ≠ [] → Forall (λ v, floats_ok v = true ∧ prints v) l → all_chars is_ws w = true →
  (1 + 2 * sum_list_with jsize l ≤ n)%nat →
  p_items n (join (item_sep st +:+ break_at st lvl) (dumps_at st lvl <$> l)
             +:+ (w +:+ String "]" rest)) = Some (l, rest).
Proof.
  destruct item_sep_ok as (ws & -> & Hws).
  intros Hl Hf Hw. revert n. induction Hf as [|v l [Hfl Hv] Hf IH]; [done|]. clear Hl.
  intros n Hn. cbn [sum_list_with] in Hn. pose proof (jsize_pos v).
  destruct n as [|n]; [lia|]. cbn [p_items].
  destruct l as [|v2 l].
  - cbn [fmap list_fmap join]. rewrite (Hv _ n); [|by apply number_stop_ws|cbn in Hn; lia].
    cbn [mbind option_bind]. by rewrite skip_ws_to.
  - change (join ?s (dumps_at st lvl <$> v :: v2 :: l))
      with (dumps_at st lvl v +:+ s +:+ join s (dumps_at st lvl <$> v2 :: l)).
    rewrite <- !str_app_assoc, !str_app_cons.
    rewrite (Hv _ n); [|done|lia]. cbn [mbind option_bind].
    rewrite skip_ws_head by done. cbn [Ascii.eqb Bool.eqb].
    inversion Hf as [|? ? [Hf2 _] _]; subst.
    assert (Hx : ∃ c t, join (String "," ws) (dumps_at st lvl <$> v2 :: l)
                        = String c t ∧ is_ws c = false).
    { destruct (dumps_head st lvl v2 Hf2) as (c & t & E & ? & _).
      destruct l; cbn [fmap list_fmap join]; rewrite E; [eauto|].
      rewrite str_app_cons. eauto. }
    destruct Hx as (c & t & E & Hc). rewrite E in *.
    rewrite str_app_cons, (skip_ws_to _ _ _ Hws Hc), <- str_app_cons.
    rewrite (IH ltac:(done) n) by lia. done.
Qed.

Lemma p_members_join l w rest n :
  l ≠ [] → Forall (λ kv, floats_ok kv.2 = true ∧ prints kv.2) l →
  all_chars is_ws w = true →
  (1 + 2 * sum_list_with (λ kv, jsize kv.2) l ≤ n)%nat →
  p_members n (join (item_sep st +:+ break_at st lvl)
                (print_member st ∘ prod_map id (dumps_at st lvl) <$> l)
               +:+ (w +:+ String "}" rest)) = Some (l, rest).
Proof.
  destruct item_sep_ok as (ws & -> & Hws). destruct key_sep_ok as (wk & Hk & Hwk).
  intros Hl Hf Hw. revert n. induction Hf as [|[k v] l [Hfl Hv] Hf IH]; [done|]. clear Hl.
  cbn [snd] in *. intros n Hn. cbn [sum_list_with snd] in Hn. pose proof (jsize_pos v).
  destruct n as [|n]; [lia|].
  assert (Hone : ∀ t, number_stop t = true →
    ∃ u, (print_member st ∘ prod_map id (dumps_at st lvl)) (k, v) +:+ t
         = String dquote (escape k +:+ String dquote u) ∧
    ∃ u', skip_ws u = String ":" u' ∧ p_value n (skip_ws u') = Some (v, t)).
  { intros t Ht. unfold compose, print_member, quote. cbn [prod_map fst snd id].
    rewrite Hk. rewrite !str_app_cons, <- !str_app_assoc, !str_app_cons, str_app_nil_l.
    eexists. split; [reflexivity|]. eexists. split; [by apply skip_ws_head|].
    rewrite <- str_app_assoc.
    destruct (dumps_head st lvl v Hfl) as (c & s & E & Hc & _).
    rewrite E, str_app_cons, (skip_ws_to _ _ _ Hwk Hc), <- str_app_cons, <- E.
    apply Hv; [done|lia]. }
  cbn [p_members]. destruct l as [|[k2 v2] l].
  - cbn [fmap list_fmap join].
    destruct (Hone (w +:+ String "}" rest)) as (u & -> & u' & Eu & Ev);
      [by apply number_stop_ws|].
    change (Ascii.eqb dquote dquote) with true. cbv iota. rewrite p_string_escape.
    cbn [mbind option_bind]. rewrite Eu. change (Ascii.eqb ":" ":") with true. cbv iota.
    rewrite Ev. cbn [mbind option_bind]. by rewrite skip_ws_to.
  - set (j := join _ _). assert (Ej : ∃ t, j +:+ (w +:+ String "}" rest) =
      (print_member st ∘ prod_map id (dumps_at st lvl)) (k, v) +:+
      String "," (ws +:+ String dquote t) ∧
      join (String "," ws) (print_member st ∘ prod_map id (dumps_at st lvl) <$> (k2, v2) :: l)
        +:+ (w +:+ String "}" rest) = String dquote t).
    { subst j.
      assert (∃ t, join (String "," ws)
        (print_member st ∘ prod_map id (dumps_at st lvl) <$> (k2, v2) :: l)
        +:+ (w +:+ String "}" rest) = String dquote t) as [t Et].
      { destruct l; cbn [fmap list_fmap join]; unfold compose, print_member, quote;
          cbn [prod_map fst id]; rewrite !str_app_cons; eauto. }
      exists t. split; [|done]. rewrite <- Et.
      cbn [fmap list_fmap join]. rewrite <- !str_app_assoc, !str_app_cons. done. }
    destruct Ej as (t & -> & Et).
    destruct (Hone (String "," (ws +:+ String dquote t))) as (u & -> & u' & Eu & Ev); [done|].
    change (Ascii.eqb dquote dquote) with true. cbv iota. rewrite p_string_escape.
    cbn [mbind option_bind]. rewrite Eu. change (Ascii.eqb ":" ":") with true. cbv iota.
    rewrite Ev. cbn [mbind option_bind]. rewrite skip_ws_head by done.
    change (Ascii.eqb "," "}") with false. change (Ascii.eqb "," ",") with true. cbv iota.
    rewrite skip_ws_to by done. rewrite <- Et.
    rewrite (IH ltac:(done) n) by lia. done.
Qed.
End items.

Lemma floats_ok_list l :
  floats_ok (JList l) = true ↔ Forall (λ v, floats_ok v = true) l.
Proof.
  cbn. rewrite forallb_forall, Forall_forall. apply forall_proper. intros x.
  by rewrite list_elem_of_In.
Qed.

Lemma print_list st lvl l rest n :
  style_ok st = true → floats_ok (JList l) = true →
  Forall (prints st (S lvl)) l → (2 * jsize (JList l) ≤ n)%nat →
  p_value n (dumps_at st lvl (JList l) +:+ rest) = Some (JList l, rest).
Proof.
  intros Hst Hok%floats_ok_list Hp Hn. change (jsize (JList l)) with (S (sum_list_with jsize l)) in Hn.
  destruct n as [|n]; [lia|].
  destruct l as [|v l]; [reflexivity|]. cbn [dumps_at]. unfold print_seq.
  rewrite <- !str_app_assoc, !str_app_cons, !str_app_nil_l. cbn [p_value].
  change (Ascii.eqb "[" dquote) with false. change (Ascii.eqb "[" "{") with false.
  change (Ascii.eqb "[" "[") with true. cbv iota.
  rewrite skip_ws_app by apply break_at_ws.
  assert (Hh : ∃ c t, join (item_sep st +:+ break_at st (S lvl)) (dumps_at st (S lvl) <$> v :: l)
    +:+ (break_at st lvl +:+ String "]" rest) = String c t ∧ is_ws c = false ∧
    Ascii.eqb c "]" = false).
  { apply Forall_cons in Hok as [Hv _].
    destruct (dumps_head st (S lvl) v Hv) as (c & t & E & ? & ?).
    destruct l; cbn [fmap list_fmap join]; rewrite E, !str_app_cons; eauto. }
  destruct Hh as (c & t & E & Hc & Hb). rewrite E, (skip_ws_head c t Hc), Hb, <- E.
  rewrite (p_items_join st (S lvl) Hst (v :: l)); [done|done| |apply break_at_ws|lia].
  apply Forall_forall. intros x Hx. rewrite Forall_forall in Hok, Hp. auto.
Qed.

Lemma sum_list_with_perm {A} (f : A → nat) l k :
  l ≡ₚ k → sum_list_with f l = sum_list_with f k.
Proof. induction 1; cbn; lia. Qed.

(** The members are printed in the order of some listing of the map. *)
Lemma dumps_obj st lvl (m : dict) :
  ∃ l, l ≡ₚ map_to_list m ∧
  dumps_at st lvl (JObj m) =
  match l with
  | [] => "{}"
  | _ => print_seq st lvl "{" "}"
           (print_member st ∘ prod_map id (dumps_at st (S lvl)) <$> l)
  end.
Proof.
  pose proof (merge_sort_Permutation key_le (map_to_list (dumps_at st (S lvl) <$> m))) as H.
  rewrite map_to_list_fmap in H at 2.
  apply Permutation_map_inv in H as (l & E & Hl).
  exists l. split; [by symmetry|]. cbn [dumps_at]. rewrite E.
  destruct l as [|kv l]; [done|]. by rewrite list_fmap_compose.
Qed.

Lemma list_to_map_reverse (m : dict) l :
  l ≡ₚ map_to_list m → list_to_map (reverse l) = m.
Proof.
  intros H. rewrite <- (list_to_map_to_list m). apply list_to_map_proper.
  - rewrite reverse_Permutation, H. apply NoDup_fst_map_to_list.
  - by rewrite reverse_Permutation.
Qed.

Lemma print_obj st lvl m rest n :
  style_ok st = true → floats_ok (JObj m) = true →
  map_Forall (λ _, prints st (S lvl)) m → (2 * jsize (JObj m) ≤ n)%nat →
  p_value n (dumps_at st lvl (JObj m) +:+ rest) = Some (JObj m, rest).
Proof.
  intros Hst Hok Hp Hn. rewrite jsize_obj in Hn. destruct n as [|n]; [lia|].
  destruct (dumps_obj st lvl m) as (l & Hl & ->).
  destruct l as [|kv l].
  - apply Permutation_nil_l in Hl. symmetry in Hl. apply map_to_list_empty_iff in Hl as ->.
    reflexivity.
  - set (l' := kv :: l) in *. unfold print_seq.
    rewrite <- !str_app_assoc, !str_app_cons, !str_app_nil_l. cbn [p_value].
    change (Ascii.eqb "{" dquote) with false. change (Ascii.eqb "{" "{") with true. cbv iota.
    rewrite skip_ws_app by apply break_at_ws.
    set (body := join _ _ +:+ _).
    assert (Hh : ∃ t, body = String dquote t).
    { subst body l'. destruct l; cbn [fmap list_fmap join]; unfold compose, print_member, quote;
        cbn [prod_map fst id]; rewrite !str_app_cons; eauto. }
    destruct Hh as [t Et].
    assert (Hf : Forall (λ kv, floats_ok kv.2 = true ∧ prints st (S lvl) kv.2) l').
    { rewrite Hl. apply Forall_forall. intros [k x] Hx%elem_of_map_to_list. cbn.
      split; [|by eapply Hp]. cbn in Hok. apply forallb_map_snd in Hok. by eapply Hok. }
    rewrite <- (sum_list_with_perm _ _ _ Hl) in Hn.
    assert (Hm : p_members n body = Some (l', rest)).
    { subst body. apply p_members_join; try done; [apply break_at_ws|lia]. }
    rewrite Et in *. rewrite skip_ws_head by done.
    change (Ascii.eqb dquote "}") with false. cbv iota. rewrite Hm. cbn [mbind option_bind].
    by rewrite (list_to_map_reverse m).
Qed.

Lemma p_value_dumps st lvl v rest n :
  style_ok st = true → floats_ok v = true → number_stop rest = true →
  (2 * jsize v ≤ n)%nat →
  p_value n (dumps_at st lvl v +:+ rest) = Some (v, rest).
Proof.
  intros Hst. revert lvl rest n.
  induction v as [|b|z|f|s|l IH|m IH] using json_ind_strong; intros lvl rest n Hok Hs Hn.
  - destruct n; [cbn in Hn; lia|]. apply (p_lit_app "null").
  - destruct n; [cbn in Hn; lia|].
    destruct b; [apply (p_lit_app "true") | apply (p_lit_app "false")].
  - apply print_int_float; try done. cbn in Hn; lia.
  - apply print_int_float; try done. cbn in Hn; lia.
  - destruct n; [cbn in Hn; lia|]. cbn [dumps_at]. unfold quote.
    rewrite str_app_cons, <- str_app_assoc, str_app_cons, str_app_nil_l. cbn [p_value].
    change (Ascii.eqb dquote dquote) with true. cbv iota. by rewrite p_string_escape.
  - apply print_list; try done. apply floats_ok_list in Hok.
    rewrite Forall_forall in IH, Hok. apply Forall_forall. intros x Hx rest' n' Hr Hn'.
    apply IH; auto.
  - apply print_obj; try done. intros k x Hx rest' n' Hr Hn'.
    eapply IH; eauto. cbn in Hok. apply forallb_map_snd in Hok. by eapply Hok.
Qed.

(** ** [json_loads] has enough fuel *)

Lemma join_length sep l : (sum_list_with String.length l ≤ String.length (join sep l))%nat.
Proof.
  induction l as [|x l IH]; [done|]. destruct l as [|y l]; [cbn; lia|].
  change (join sep (x :: y :: l)) with (x +:+ sep +:+ join sep (y :: l)).
  rewrite !str_app_length.
  change (sum_list_with String.length (x :: y :: l))
    with (String.length x + sum_list_with String.length (y :: l))%nat. lia.
Qed.

Lemma sum_list_with_le {A} (f g : A → nat) l :
  Forall (λ x, f x ≤ g x)%nat l → (sum_list_with f l ≤ sum_list_with g l)%nat.
Proof. induction 1; cbn; lia. Qed.

Lemma sum_list_with_fmap {A B} (f : B → nat) (g : A → B) l :
  sum_list_with f (g <$> l) = sum_list_with (f ∘ g) l.
Proof. induction l as [|x l IH]; cbn; [done|]. by rewrite IH. Qed.

Lemma print_seq_length st lvl op cl l :
  (String.length op + String.length cl + sum_list_with String.length l
   ≤ String.length (print_seq st lvl op cl l))%nat.
Proof.
  unfold print_seq. rewrite !str_app_length.
  pose proof (join_length (item_sep st +:+ break_at st (S lvl)) l). lia.
Qed.

Lemma jsize_le_length st lvl v :
  floats_ok v = true → (jsize v ≤ String.length (dumps_at st lvl v))%nat.
Proof.
  revert lvl.
  induction v as [|b|z|f|s|l IH|m IH] using json_ind_strong; intros lvl Hok;
    try (destruct (dumps_head st lvl _ Hok) as (c & t & -> & _); cbn; lia).
  - destruct l as [|x l]; [cbn; lia|]. set (l' := x :: l) in *.
    change (dumps_at st lvl (JList l'))
      with (print_seq st lvl "[" "]" (dumps_at st (S lvl) <$> l')).
    etrans; [|apply print_seq_length]. rewrite sum_list_with_fmap.
    change (jsize (JList l')) with (S (sum_list_with jsize l')).
    assert (sum_list_with jsize l' ≤
            sum_list_with (String.length ∘ dumps_at st (S lvl)) l')%nat; [|cbn in *; lia].
    apply sum_list_with_le, Forall_forall. intros y Hy.
    apply floats_ok_list in Hok. rewrite Forall_forall in IH, Hok. by apply IH; auto.
  - rewrite jsize_obj. destruct (dumps_obj st lvl m) as (l & Hl & ->).
    rewrite <- (sum_list_with_perm _ _ _ Hl). destruct l as [|kv l]; [cbn; lia|].
    set (l' := kv :: l) in *. etrans; [|apply print_seq_length].
    rewrite sum_list_with_fmap.
    assert (sum_list_with (λ p, jsize p.2) l' ≤ sum_list_with
      (String.length ∘ (print_member st ∘ prod_map id (dumps_at st (S lvl)))) l')%nat;
      [|cbn in *; lia].
    apply sum_list_with_le, Forall_forall. intros [k x] Hx. rewrite Hl in Hx.
    apply elem_of_map_to_list in Hx. cbn in Hok. apply forallb_map_snd in Hok.
    specialize (IH k x Hx (S lvl) (Hok k x Hx)). unfold compose, print_member.
    cbn [prod_map fst snd id]. rewrite !str_app_length. lia.
Qed.

Lemma loads_dumps st v :
  style_ok st = true → floats_ok v = true → json_loads (dumps st v) = Ok v.
Proof.
  intros Hst Hok. unfold json_loads, dumps.
  destruct (dumps_head st 0 v Hok) as (c & t & E & Hc & _).
  assert (Hws : skip_ws (dumps_at st 0 v) = dumps_at st 0 v)
    by (rewrite E; by apply skip_ws_head).
  assert (Hp : p_value (2 * S (String.length (dumps_at st 0 v))) (dumps_at st 0 v)
               = Some (v, "")).
  { rewrite <- (str_app_nil_r (dumps_at st 0 v)) at 2. apply p_value_dumps; try done.
    pose proof (jsize_le_length st 0 v Hok). lia. }
  by rewrite Hws, Hp.
Qed.

#[export] Hint Resolve loads_dumps : cogni.

Lemma dumps_inj st v w :
  style_ok st = true → floats_ok v = true → floats_ok w = true →
  dumps st v = dumps st w → v = w.
Proof.
  intros Hst Hv Hw E. pose proof (loads_dumps st v Hst Hv) as H.
  rewrite E, (loads_dumps st w Hst Hw) in H. by injection H.
Qed.

Lemma loads_canonical v : floats_ok v = true → json_loads (canonical_json v) = Ok v.
Proof. by apply loads_dumps. Qed.

Lemma canonical_dict_inj (a b : dict) :
  floats_ok (JObj a) = true → floats_ok (JObj b) = true →
  canonical_json (JObj a) = canonical_json (JObj b) → a = b.
Proof.
  intros Ha Hb E. assert (JObj a = JObj b) as [= ->]; [|done].
  by apply (dumps_inj compact).
Qed.

(** ** What the compact form is made of

    A property of strings that holds of the punctuation, of printed integers
    and of the quoted strings of a value without floats, and that appending
    keeps, holds of the value's compact form. *)

(** The value's strings, its keys among them, satisfy [q]. *)
Fixpoint strings (q : string → bool) (v : json) : bool :=
  match v with
  | JStr s => q s
  | JList l => forallb (strings q) l
  | JObj m => forallb (λ p, q p.1 && p.2) (map_to_list (strings q <$> m))
  | _ => true
  end.

Section Compact.
Context (P : string → bool) (q : string → bool).
Context (P_app : ∀ s t, P s = true → P t = true → P (s +:+ t) = true).
Context (P_punctuation : forallb P [""; "null"; "true"; "false"; "["; "]"; "{"; "}"; "[]"; "{}"; ","; ":"] = true).
Context (P_int : ∀ z, P (string_of_Z z) = true).
Context (P_quote : ∀ s, q s = true → P (quote s) = true).

Lemma P_literal s :
  s ∈ [""; "null"; "true"; "false"; "["; "]"; "{"; "}"; "[]"; "{}"; ","; ":"] → P s = true.
Proof. intros Hs. rewrite forallb_forall in P_punctuation. by apply P_punctuation, list_elem_of_In. Qed.

Lemma P_join sep l : P sep = true → Forall (λ s, P s = true) l → P (join sep l) = true.
Proof.
  intros Hs. induction 1 as [|s l Hx Hl IH]; [apply P_literal; by_compute|]. destruct l as [|s2 l]; [done|].
  change (join sep (s :: s2 :: l)) with (s +:+ sep +:+ join sep (s2 :: l)). auto.
Qed.

Lemma P_seq lvl op cl l :
  P op = true → P cl = true → Forall (λ s, P s = true) l → P (print_seq compact lvl op cl l) = true.
Proof.
  intros Ho Hc Hl. assert (P "" = true) by (apply P_literal; by_compute).
  assert (P "," = true) by (apply P_literal; by_compute).
  unfold print_seq. cbn. apply P_app; [done|]. apply P_app; [done|]. apply P_app; [|by apply P_app].
  by apply P_join.
Qed.

Lemma compact_closed v lvl :
  (∀ f, P (float_repr f) = true) ∨ no_float v = true → strings q v = true → P (dumps_at compact lvl v) = true.
Proof.
  revert lvl. induction v as [|b|z|f|s|l IH|m IH] using json_ind_strong; intros lvl Hok Hs.
  - apply P_literal; by_compute.
  - apply P_literal. destruct b; by_compute.
  - apply P_int.
  - destruct Hok as [Hf|Hf]; [apply Hf|discriminate Hf].
  - by apply P_quote.
  - cbn in Hs. assert (Hl : ∀ x, x ∈ l → (∀ f, P (float_repr f) = true) ∨ no_float x = true).
    { intros x Hx%list_elem_of_In. destruct Hok as [Hf|Hf]; [by left|right].
      cbn in Hf. rewrite forallb_forall in Hf. auto. }
    destruct l as [|x l]; [apply P_literal; by_compute|].
    apply P_seq; [apply P_literal; by_compute..|].
    apply Forall_fmap, Forall_forall. intros y Hy. rewrite Forall_forall in IH.
    rewrite forallb_forall in Hs. apply list_elem_of_In in Hy as Hy'. apply IH; auto.
  - assert (Hm : ∀ k x, m !! k = Some x → (∀ f, P (float_repr f) = true) ∨ no_float x = true).
    { intros k x Hx. destruct Hok as [Hf|Hf]; [by left|right].
      cbn in Hf. apply forallb_map_snd in Hf. by eapply Hf. }
    cbn in Hs. rewrite forallb_forall in Hs.
    destruct (dumps_obj compact lvl m) as (l & Hl & ->).
    assert (Hf : Forall (λ s, P s = true)
                   (print_member compact ∘ prod_map id (dumps_at compact (S lvl)) <$> l)).
    { apply Forall_fmap, Forall_forall. intros [k x] Hx. rewrite Hl in Hx.
      apply elem_of_map_to_list in Hx. unfold compose, print_member. cbn [prod_map fst snd id].
      assert (Hkx : q k && strings q x = true).
      { apply (Hs (k, strings q x)), list_elem_of_In, elem_of_map_to_list. by rewrite lookup_fmap, Hx. }
      apply andb_true_iff in Hkx as [Hk Hsx].
      apply P_app; [by apply P_quote|]. apply P_app; [apply P_literal; by_compute|].
      apply (IH k x Hx); [by eapply Hm|done]. }
    destruct l; [apply P_literal; by_compute|]. apply P_seq; [apply P_literal; by_compute..|done].
Qed.
End Compact.

(** A flat object's strings. *)
Lemma strings_dict_of q (l : list (string * json)) :
  forallb (λ kv, q kv.1 && strings q kv.2) l = true → strings q (JObj (dict_of l)) = true.
Proof.
  intros Hl. cbn. rewrite forallb_forall. intros [k b] Hk%list_elem_of_In%elem_of_map_to_list. cbn.
  rewrite lookup_fmap, fmap_Some in Hk. destruct Hk as (x & Hk & ->).
  apply elem_of_list_to_map_2 in Hk. rewrite forallb_forall in Hl.
  apply list_elem_of_In in Hk. exact (Hl _ Hk).
Qed.

(** *** One line *)

(** No line feed: those of strings are escaped. *)
Definition inline (s : string) : bool := all_chars (λ c, negb (Ascii.eqb c "010")) s.

Lemma inline_app s t : inline s = true → inline t = true → inline (s +:+ t) = true.
Proof. unfold inline. rewrite all_chars_app. by intros -> ->. Qed.

Lemma inline_quote s : inline (quote s) = true.
Proof.
  change (inline (escape s +:+ String dquote "") = true). apply inline_app; [|done].
  induction s as [|c s IH]; [done|].
  cbn [escape]. apply inline_app; [|done].
  destruct c as [[] [] [] [] [] [] [] []]; reflexivity.
Qed.

(** A printed integer has only digits and a sign. *)
Lemma int_chars (P : ascii → bool) z :
  (∀ c, is_digit c = true → P c = true) → P "-"%char = true → all_chars P (string_of_Z z) = true.
Proof.
  intros Hd Hm. assert (H : ∀ d, all_chars P (NilEmpty.string_of_uint d) = true).
  { intros d. by eapply all_chars_impl, string_of_uint_digits. }
  destruct z as [|p|p]; [cbn; by rewrite Hd|exact (H _)|]. cbn. by rewrite Hm, (H _).
Qed.

(** A text that reads as a number is one line, so a printed float is. *)
Lemma inline_digits s a b : span_digits s = (a, b) → inline b = true → inline s = true.
Proof.
  revert a b. induction s as [|c s IH]; intros a b; [done|]. cbn [span_digits].
  destruct (is_digit c) eqn:Hc; [|by intros [= _ <-]].
  destruct (span_digits s) as [x y] eqn:E. intros [= _ <-] Hb.
  change (negb (Ascii.eqb c "010") && inline s = true). rewrite (IH _ _ eq_refl Hb), andb_true_r.
  by destruct c as [[] [] [] [] [] [] [] []].
Qed.

Lemma inline_cons c s d : c = d → Ascii.eqb d "010" = false → inline s = true → inline (String c s) = true.
Proof. intros -> Hd Hs. change (negb (Ascii.eqb d "010") && inline s = true). by rewrite Hd. Qed.

Lemma inline_sign s : inline (p_sign s).2 = true → inline s = true.
Proof.
  destruct s as [|c s]; [done|]. cbn [p_sign]. destruct (Ascii.eqb_spec c "-") as [->|]; [|done].
  intros Hs. by eapply inline_cons.
Qed.

Lemma inline_int s a b : p_int_digits s = Some (a, b) → inline b = true → inline s = true.
Proof.
  destruct s as [|c s]; [done|]. cbn [p_int_digits]. destruct (Ascii.eqb_spec c "0") as [->|].
  - intros [= _ <-] Hb. by eapply inline_cons.
  - destruct (is_digit c); [|done]. intros [= E]. by eapply inline_digits.
Qed.

Lemma inline_frac s : inline (p_frac s).2 = true → inline s = true.
Proof.
  destruct s as [|c s]; [done|]. cbn [p_frac]. destruct (Ascii.eqb_spec c ".") as [->|]; [|done].
  destruct (span_digits s) as [d r] eqn:E. destruct (bool_decide (d = "")); [done|]. cbn [snd].
  intros Hr. eapply inline_cons; [done|done|]. by eapply inline_digits.
Qed.

Lemma inline_exp s : inline (p_exp s).2 = true → inline s = true.
Proof.
  destruct s as [|c s]; [done|]. cbn [p_exp].
  destruct (Ascii.eqb c "e" || Ascii.eqb c "E") eqn:Hc; [|done].
  assert (Hcons : inline s = true → inline (String c s) = true).
  { intros Hs. apply orb_true_iff in Hc as [Hc%Ascii.eqb_eq|Hc%Ascii.eqb_eq]; subst c; by eapply inline_cons. }
  destruct s as [|g s]; [done|].
  destruct (Ascii.eqb_spec g "-") as [->|]; [|destruct (Ascii.eqb_spec g "+") as [->|]].
  1,2: destruct (span_digits s) as [d r] eqn:E; destruct (bool_decide (d = "")); [done|]; cbn [snd];
    intros Hr; apply Hcons; eapply inline_cons; [done|done|]; by eapply inline_digits.
  destruct (span_digits (String g s)) as [d r] eqn:E. destruct (bool_decide (d = "")); [done|]. cbn [snd].
  intros Hr. apply Hcons. by eapply inline_digits.
Qed.

Lemma inline_number s v : p_number s = Some (v, "") → inline s = true.
Proof.
  with_strategy transparent [p_number] unfold p_number. destruct (p_sign s) as [neg s1] eqn:E1.
  destruct (p_int_digits s1) as [[ip s2]|] eqn:E2; [|done]. cbn [mbind option_bind].
  destruct (p_frac s2) as [fr s3] eqn:E3, (p_exp s3) as [ex s4] eqn:E4. intros Hs.
  assert (s4 = "") as -> by (destruct fr, ex; by injection Hs).
  apply inline_sign. rewrite E1. eapply inline_int; [exact E2|].
  apply inline_frac. rewrite E3. cbn [snd]. apply inline_exp. by rewrite E4.
Qed.

Lemma inline_float f : inline (float_repr f) = true.
Proof.
  with_strategy transparent [float_repr] unfold float_repr. destruct f as [[]|[]| |s m e]; [done..|].
  cbv zeta. destruct (find_first _ _) as [c|] eqn:E; [|done]. cbn [default].
  apply find_first_Some in E as [_ E]. revert E. with_strategy transparent [reads_back] unfold reads_back.
  destruct (p_number c) as [[[] r]|] eqn:Ep; try discriminate.
  intros [->%bool_decide_eq_true _]%andb_true_iff. by eapply inline_number.
Qed.

(** The compact form of any value is one line. *)
Lemma inline_dumps v lvl : inline (dumps_at compact lvl v) = true.
Proof.
  apply (compact_closed inline (λ _, true)); try done.
  - exact inline_app.
  - intros z. apply int_chars; [|done]. by intros [[] [] [] [] [] [] [] []].
  - intros s _. apply inline_quote.
  - left. exact inline_float.
  - induction v as [| | | | |l IH|m IH] using json_ind_strong; try done; cbn.
    + rewrite forallb_forall. intros x Hx%list_elem_of_In. rewrite Forall_forall in IH. auto.
    + rewrite forallb_forall. intros [k b] Hk%list_elem_of_In%elem_of_map_to_list. cbn.
      rewrite lookup_fmap, fmap_Some in Hk. destruct Hk as (x & Hk & ->). by eapply IH.
Qed.

(** *** Size *)

Lemma join_length_le sep l :
  (String.length (join sep l) ≤ sum_list_with (λ s, String.length s + String.length sep)%nat l)%nat.
Proof.
  induction l as [|s l IH]; [done|]. destruct l as [|s2 l]; [cbn; lia|].
  change (join sep (s :: s2 :: l)) with (s +:+ sep +:+ join sep (s2 :: l)).
  rewrite !str_app_length. cbn [sum_list_with] in *. lia.
Qed.

Definition member_length (p : string * json) : nat :=
  String.length (quote p.1) + 2 + String.length (dumps_at compact 1 p.2).

Lemma object_length (m : dict) :
  (String.length (canonical_json (JObj m)) ≤ 2 + sum_list_with member_length (map_to_list m))%nat.
Proof.
  unfold canonical_json, dumps. destruct (dumps_obj compact 0 m) as (l & Hl & ->).
  rewrite <- (sum_list_with_perm _ _ _ Hl). destruct l as [|p l]; [cbn; lia|].
  unfold print_seq. rewrite !str_app_length. cbn [break_at compact indent item_sep].
  pose proof (join_length_le ("," +:+ "")
    (print_member compact ∘ prod_map id (dumps_at compact 1) <$> p :: l)) as Hj.
  rewrite sum_list_with_fmap in Hj.
  assert (He : sum_list_with ((λ s, String.length s + String.length ("," +:+ ""))%nat
      ∘ (print_member compact ∘ prod_map id (dumps_at compact 1))) (p :: l)
    = sum_list_with member_length (p :: l)).
  { generalize (p :: l). clear. induction 0 as [|[k x] l IH]; cbn [sum_list_with]; [done|]. rewrite IH.
    f_equal. unfold compose, print_member, member_length. cbn [prod_map fst snd id].
    rewrite !str_app_length. cbn [key_sep compact String.length String.append]. lia. }
  rewrite He in Hj. cbn [String.length String.append] in *. lia.
Qed.

Lemma dict_of_sum (f : string * json → nat) (l : list (string * json)) :
  (sum_list_with f (map_to_list (dict_of l)) ≤ sum_list_with f l)%nat.
Proof.
  unfold dict_of. induction l as [|[k x] l IH]; [done|]. cbn [list_to_map foldr sum_list_with fst snd].
  change (foldr (λ p, <[p.1:=p.2]>) ∅ l) with (list_to_map (M := dict) l).
  set (m := list_to_map l) in *. rewrite <- insert_delete_eq.
  rewrite (sum_list_with_perm f _ ((k, x) :: map_to_list (delete k m)))
    by (apply map_to_list_insert, lookup_delete_eq).
  cbn [sum_list_with]. enough (sum_list_with f (map_to_list (delete k m)) ≤ sum_list_with f (map_to_list m))%nat by lia.
  destruct (m !! k) as [y|] eqn:E.
  - rewrite (sum_list_with_perm f (map_to_list m) ((k, y) :: map_to_list (delete k m)))
      by (symmetry; by apply map_to_list_delete). cbn. lia.
  - by rewrite delete_id.
Qed.

(** Without control characters an escape is at most two characters. *)
Lemma quote_length s :
  all_chars (λ c, (32 <=? code c)%N) s = true →
  (String.length (quote s) ≤ 2 * String.length s + 2)%nat.
Proof.
  intros Hs. change (S (String.length (escape s +:+ String dquote "")) ≤ 2 * String.length s + 2)%nat.
  rewrite str_app_length. enough (String.length (escape s) ≤ 2 * String.length s)%nat by (cbn; lia).
  induction s as [|c s IH]; [done|]. cbn [all_chars] in Hs. apply andb_true_iff in Hs as [Hc Hs].
  cbn [escape]. rewrite str_app_length. specialize (IH Hs).
  assert (String.length (escape_char c) ≤ 2)%nat; [|cbn [String.length]; lia].
  destruct c as [[] [] [] [] [] [] [] []]; try discriminate Hc; apply Nat.leb_le; reflexivity.
Qed.

Lemma digits_N_ge s : ∀ acc,
  all_chars is_digit s = true → (acc * 10 ^ N.of_nat (String.length s) <= digits_N acc s)%N.
Proof.
  induction s as [|c s IH]; intros acc Hs; [cbn; lia|]. cbn [all_chars] in Hs.
  apply andb_true_iff in Hs as [Hc Hs]. cbn [digits_N String.length].
  etrans; [|by apply IH]. rewrite Nat2N.inj_succ, N.pow_succ_r'. nia.
Qed.

Lemma int_length z n :
  0 ≤ z < 10 ^ Z.of_nat n → (0 < n)%nat → (String.length (string_of_Z z) ≤ n)%nat.
Proof.
  intros Hz Hn. destruct z as [|p|p]; [cbn; lia| |lia].
  change (string_of_Z (Zpos p)) with (NilEmpty.string_of_uint (Pos.to_uint p)).
  destruct (pos_digits_head p) as (c & r & E & Hc & H0). rewrite E.
  assert (Hv : digits_N 0 (String c r) = Npos p).
  { rewrite <- E, digits_N_uint. apply DecimalPos.Unsigned.of_to. }
  pose proof (string_of_uint_digits (Pos.to_uint p)) as Hd. rewrite E in Hd. cbn [all_chars] in Hd.
  apply andb_true_iff in Hd as [_ Hd]. cbn [digits_N] in Hv.
  pose proof (digits_N_ge r (0 * 10 + (code c - 48)) Hd) as Hge. rewrite Hv in Hge. cbn [String.length].
  assert (H1 : (1 <= 0 * 10 + (code c - 48))%N).
  { destruct c as [[] [] [] [] [] [] [] []]; try discriminate Hc; try discriminate H0; vm_compute; discriminate. }
  destruct (decide (String.length r < n)%nat) as [|Hl]; [lia|exfalso].
  assert (10 ^ N.of_nat n <= 10 ^ N.of_nat (String.length r))%N by (apply N.pow_le_mono_r; lia).
  assert (Z.of_N (10 ^ N.of_nat n) <= Z.pos p); [|rewrite N2Z.inj_pow, nat_N_Z in *; lia].
  change (Z.pos p) with (Z.of_N (N.pos p)). apply N2Z.inj_le. nia.
Qed.

(** ** Dictionaries *)

(** The value a [dict.get] finds. *)
Lemma get_insert (d : dict) k v k' :
  get (<[k := v]> d) k' = if decide (k = k') then v else get d k'.
Proof. unfold get. rewrite lookup_insert. by case_decide. Qed.

Lemma get_merge_dict (a b : dict) k :
  get (merge_dict a b) k = match b !! k with Some v => v | None => get a k end.
Proof.
  unfold get, merge_dict. rewrite lookup_union. destruct (b !! k); cbn; [|by destruct (a !! k)].
  by destruct (a !! k).
Qed.

Lemma lookup_merge_dict (a b : dict) k :
  merge_dict a b !! k = match b !! k with Some v => Some v | None => a !! k end.
Proof.
  unfold merge_dict. rewrite lookup_union. by destruct (b !! k), (a !! k).
Qed.

Lemma lookup_dict_of_map {A} (f : A → json) (key : A → string) ks k :
  dict_of ((λ x, (key x, f x)) <$> ks) !! k = f <$> find_first (λ x, bool_decide (key x = k)) ks.
Proof.
  unfold dict_of. induction ks as [|x ks IH]; cbn; [apply lookup_empty|].
  case_bool_decide as E; cbn.
  - by rewrite E, lookup_insert_eq.
  - by rewrite lookup_insert_ne.
Qed.

Lemma get_dict_of_map (f : string → json) ks k :
  k ∈ ks → get (dict_of ((λ x, (x, f x)) <$> ks)) k = f k.
Proof.
  intros Hk. unfold get. rewrite (lookup_dict_of_map f id).
  destruct (find_first _ ks) as [x|] eqn:E.
  - apply find_first_Some in E as [_ E]. bool_split. by cbn in E; subst.
  - apply find_first_None in E. rewrite Forall_forall in E. specialize (E k Hk).
    by rewrite bool_decide_eq_true_2 in E.
Qed.

(** Two dictionaries built from the same keys are equal when their values are. *)
Lemma dict_of_map_ext (f g : string → json) ks :
  (∀ k, k ∈ ks → f k = g k) →
  dict_of ((λ k, (k, f k)) <$> ks) = dict_of ((λ k, (k, g k)) <$> ks).
Proof.
  intros Hfg. f_equal. apply list_fmap_ext. intros i k Hk.
  by rewrite Hfg by (eapply list_elem_of_lookup_2, Hk).
Qed.

Lemma py_eq_str_l s v : py_eq (JStr s) v = true ↔ v = JStr s.
Proof.
  destruct v; cbn; try (split; [done | by intros [=]]).
  rewrite bool_decide_eq_true. split; [by intros -> | by intros [= ->]].
Qed.

(** A value equals at most one integer. *)
Lemma py_eq_int_inj v a b : py_eq v (JInt a) = true → py_eq v (JInt b) = true → a = b.
Proof.
  destruct v as [|c|z|f| | |]; cbn; try done; rewrite ?Z.eqb_eq; try lia.
  destruct f as [s| | |s m e]; cbn; try done; rewrite ?Z.eqb_eq; try lia.
  destruct (0 <=? e); rewrite !Z.eqb_eq; [lia|]. intros Ha Hb.
  apply (Z.mul_reg_r _ _ (2 ^ (- e))); [|lia].
  intros E. destruct s; rewrite E, Z.mul_0_r in *; lia.
Qed.

Lemma floats_ok_obj (m : dict) : floats_ok (JObj m) = true ↔ map_Forall (λ _ x, floats_ok x = true) m.
Proof. apply (forallb_map_snd floats_ok). Qed.

Lemma floats_ok_get (m : dict) k : floats_ok (JObj m) = true → floats_ok (get m k) = true.
Proof.
  rewrite floats_ok_obj. intros Hm. unfold get. destruct (m !! k) eqn:E; [by eapply Hm | done].
Qed.

Lemma dict_of_Forall (f : json → bool) (l : list (string * json)) :
  forallb (λ kv, f kv.2) l = true → map_Forall (λ _ x, f x = true) (dict_of l).
Proof.
  intros Hl. unfold dict_of. induction l as [|[k x] l IH]; cbn in *.
  - apply map_Forall_empty.
  - bool_split. apply map_Forall_insert_2; auto.
Qed.

Lemma floats_ok_dict_of (l : list (string * json)) :
  forallb (λ kv, floats_ok kv.2) l = true → floats_ok (JObj (dict_of l)) = true.
Proof. intros Hl. by apply floats_ok_obj, dict_of_Forall. Qed.

Lemma no_float_dict_of (l : list (string * json)) :
  forallb (λ kv, no_float kv.2) l = true → no_float (JObj (dict_of l)) = true.
Proof. intros Hl. by apply forallb_map_snd, dict_of_Forall. Qed.

Lemma floats_ok_insert (m : dict) k x :
  floats_ok (JObj m) = true → floats_ok x = true → floats_ok (JObj (<[k := x]> m)) = true.
Proof. rewrite !floats_ok_obj. intros Hm Hx. by apply map_Forall_insert_2. Qed.

Lemma floats_ok_merge (a b : dict) :
  floats_ok (JObj a) = true → floats_ok (JObj b) = true →
  floats_ok (JObj (merge_dict a b)) = true.
Proof.
  rewrite !floats_ok_obj. intros Ha Hb k x. rewrite lookup_merge_dict.
  destruct (b !! k) eqn:E; [intros [= <-]; by eapply Hb|apply Ha].
Qed.

#[export] Hint Resolve floats_ok_insert floats_ok_merge : cogni.

(** [math.isfinite(f)] *)
Definition is_finite (f : spec_float) : bool :=
  match f with S754_zero _ | S754_finite _ _ _ => true | _ => false end.

(** ** Exact key sets *)

(** [set(d) == {...}] *)
Definition exact_keys (d : dict) (keys : list string) : bool :=
  forallb (λ k, bool_decide (is_Some (d !! k))) keys && (size d =? length keys)%nat.
