(* ===== verification/Files.v ===== *)
(** * JSON files ([read_json] and [atomic_write_json] of [util.py])

    A file is the text it holds, [None] when it does not exist.  The write is
    atomic (a temporary file is renamed over the target), so a reader sees the
    old or the new text. *)

From S2P Require Export JsonFacts.

Definition read_json (file : option string) : res dict :=
  match file with
  | None => raise FileNotFoundError "No such file or directory"
  | Some text =>
      v ← catch (json_loads text) JSONDecodeError
            (λ _, raise ConfigurationError "Cannot read valid JSON");
      match v with
      | JObj d => Ok d
      | _ => raise ConfigurationError "Expected a JSON object"
      end
  end.

(** What [atomic_write_json] leaves in the file. *)
Definition atomic_write_json (value : dict) : string :=
  dumps pretty2 (JObj value) +:+ newline.

(** What [json.dump(value, ..., sort_keys=True)] and a newline leave. *)
Definition json_line (value : dict) : string := dumps spaced (JObj value) +:+ newline.

(** A text ended by a line feed reads as the text. *)
Lemma loads_dumps_line st v :
  style_ok st = true → floats_ok v = true → json_loads (dumps st v +:+ newline) = Ok v.
Proof.
  intros Hst Hv. unfold json_loads.
  destruct (dumps_head st 0 v Hv) as (c & t & E & Hc & _).
  assert (skip_ws (dumps st v +:+ newline) = dumps st v +:+ newline) as ->.
  { unfold dumps. rewrite E, str_app_cons. by apply skip_ws_head. }
  unfold dumps at 2. rewrite p_value_dumps; [reflexivity|done..|].
  pose proof (jsize_le_length st 0 v Hv). unfold dumps. rewrite str_app_length. cbn. lia.
Qed.

Lemma read_json_line st (d : dict) :
  style_ok st = true → floats_ok (JObj d) = true →
  read_json (Some (dumps st (JObj d) +:+ newline)) = Ok d.
Proof. intros Hst Hd. unfold read_json. by rewrite loads_dumps_line. Qed.

Lemma read_written d : floats_ok (JObj d) = true → read_json (Some (atomic_write_json d)) = Ok d.
Proof. by apply read_json_line. Qed.

Lemma read_json_line_spaced d : floats_ok (JObj d) = true → read_json (Some (json_line d)) = Ok d.
Proof. by apply read_json_line. Qed.

#[export] Hint Resolve read_written read_json_line_spaced : cogni.
