(* ===== verification/Hashing.v ===== *)
(** * Digests and text encodings of bytes

    [Hashing] is what the sources use of [hashlib] and [hmac]: the hexadecimal
    SHA-256 of some bytes and the HMAC-SHA-256 of a message under a key.  The
    components are written against this interface; [fips_hashing] implements
    it after FIPS 180-4 and RFC 2104.  The file also holds hexadecimal and
    base64. *)

From S2P Require Export PyText.

(** ** Hexadecimal *)

Fixpoint hexlify (s : string) : string :=
  match s with
  | EmptyString => ""
  | String c r => String (hex_digit (code c / 16)%N)
                    (String (hex_digit (code c mod 16)%N) (hexlify r))
  end.

Lemma hexlify_length s : String.length (hexlify s) = (2 * String.length s)%nat.
Proof. induction s as [|c s IH]; cbn; [done|]. rewrite IH. lia. Qed.

Lemma hexlify_hex s : all_chars is_hex_lower (hexlify s) = true.
Proof.
  induction s as [|c s IH]; [done|]. cbn [hexlify all_chars]. rewrite IH, andb_true_r.
  by destruct c as [[] [] [] [] [] [] [] []].
Qed.

Lemma hexlify_inj s t : hexlify s = hexlify t → s = t.
Proof.
  revert t. induction s as [|c s IH]; intros [|d t]; cbn [hexlify]; try done.
  intros H. injection H as H1 H2 H3. f_equal; [|by apply IH].
  assert (code c = code d) as Hcd.
  { assert (Hh : ∀ n m, (n < 16)%N → (m < 16)%N → hex_digit n = hex_digit m → n = m).
    { intros n m Hn Hm E. apply (f_equal code) in E. unfold hex_digit, code in E.
      destruct (n <? 10)%N eqn:En, (m <? 10)%N eqn:Em;
        rewrite !N_ascii_embedding in E by lia; lia. }
    pose proof (N_ascii_bounded c). pose proof (N_ascii_bounded d).
    assert (code c / 16 = code d / 16)%N.
    { apply Hh; [apply N.Div0.div_lt_upper_bound..|done]; unfold code; lia. }
    assert (code c mod 16 = code d mod 16)%N.
    { apply Hh; [apply N.mod_lt..|done]; lia. }
    rewrite (N.div_mod (code c) 16), (N.div_mod (code d) 16) by lia. congruence. }
  unfold code in Hcd. apply (f_equal ascii_of_N) in Hcd.
  by rewrite !ascii_N_embedding in Hcd.
Qed.

(** ** The interface *)

Class Hashing := {
  (** [hashlib.sha256(b).hexdigest()] *)
  sha256_hex : string → string;
  (** [hmac.new(key, msg, hashlib.sha256).digest()] *)
  hmac_sha256 : string → string → string;
  sha256_hex_ok : ∀ b, re_hex 64 (sha256_hex b) = true;
  hmac_sha256_length : ∀ k m, String.length (hmac_sha256 k m) = 32%nat
}.

(** [hmac.new(key, msg, hashlib.sha256).hexdigest()] *)
Definition hmac_hex `{Hashing} (key msg : string) : string :=
  hexlify (hmac_sha256 key msg).

Lemma hmac_hex_ok `{Hashing} k m : re_hex 64 (hmac_hex k m) = true.
Proof.
  unfold re_hex, hmac_hex. by rewrite hexlify_length, hmac_sha256_length, hexlify_hex.
Qed.

#[export] Hint Resolve sha256_hex_ok hmac_hex_ok : cogni.

(** [hmac.compare_digest(a, b)] on two [str]: only ASCII text is accepted. *)
Definition is_ascii (c : ascii) : bool := (code c <? 128)%N.
Definition compare_digest (a b : string) : res bool :=
  if all_chars is_ascii a && all_chars is_ascii b then Ok (bool_decide (a = b))
  else raise TypeError "comparing strings with non-ASCII characters is not supported".

Lemma hex_ascii n s : re_hex n s = true → all_chars is_ascii s = true.
Proof.
  unfold re_hex. intros [_ H]%andb_true_iff. eapply all_chars_impl, H.
  intros [[] [] [] [] [] [] [] []]; vm_compute; done.
Qed.

Lemma compare_digest_true a b :
  compare_digest a b = Ok true ↔ a = b ∧ all_chars is_ascii a = true.
Proof.
  unfold compare_digest. destruct (all_chars is_ascii a) eqn:Ea, (all_chars is_ascii b) eqn:Eb;
    cbn; unfold raise; try (split; [done|intros [-> ?]; congruence]).
  split; [intros [= H]; by apply bool_decide_eq_true in H | intros [-> _]; by rewrite bool_decide_eq_true_2].
Qed.

(** ** SHA-256 (FIPS 180-4) on big-endian 32-bit words *)

Module Sha256.
Local Open Scope N_scope.

Definition word (x : N) : N := N.land x 4294967295.
Definition add32 (x y : N) : N := word (x + y).
Definition rotr (n x : N) : N := N.lor (N.shiftr x n) (word (N.shiftl x (32 - n))).
Definition ch (x y z : N) : N := N.lxor (N.land x y) (N.land (N.lxor x 4294967295) z).
Definition maj (x y z : N) : N := N.lxor (N.land x y) (N.lxor (N.land x z) (N.land y z)).
Definition S0 (x : N) : N := N.lxor (rotr 2 x) (N.lxor (rotr 13 x) (rotr 22 x)).
Definition S1 (x : N) : N := N.lxor (rotr 6 x) (N.lxor (rotr 11 x) (rotr 25 x)).
Definition s0 (x : N) : N := N.lxor (rotr 7 x) (N.lxor (rotr 18 x) (N.shiftr x 3)).
Definition s1 (x : N) : N := N.lxor (rotr 17 x) (N.lxor (rotr 19 x) (N.shiftr x 10)).

(** The first 32 bits of the fractional parts of the cube roots of the first
    64 primes, and of the square roots of the first 8. *)
Definition primes : list N :=
  [2; 3; 5; 7; 11; 13; 17; 19; 23; 29; 31; 37; 41; 43; 47; 53; 59; 61; 67; 71; 73; 79;
   83; 89; 97; 101; 103; 107; 109; 113; 127; 131; 137; 139; 149; 151; 157; 163; 167;
   173; 179; 181; 191; 193; 197; 199; 211; 223; 227; 229; 233; 239; 241; 251; 257; 263;
   269; 271; 277; 281; 283; 293; 307; 311].

(** The integer cube root, bit by bit. *)
Fixpoint cbrt (fuel : nat) (bit root n : N) : N :=
  match fuel with
  | O => root
  | S fuel =>
      let r := N.lor root bit in
      cbrt fuel (N.shiftr bit 1) (if r * r * r <=? n then r else root) n
  end.

Definition K : list N :=
  Eval vm_compute in (λ p, word (cbrt 40 (2 ^ 39) 0 (p * 2 ^ 96))) <$> primes.
Definition H0 : list N :=
  Eval vm_compute in (λ p, word (N.sqrt (p * 2 ^ 64))) <$> take 8 primes.

(** The 64 words of the schedule, from the 16 of the block; the window is
    kept newest first. *)
Fixpoint schedule (fuel : nat) (w : list N) : list N :=
  match fuel with
  | O => reverse w
  | S fuel =>
      let at_ i := nth i w 0 in
      schedule fuel
        (add32 (add32 (s1 (at_ 1%nat)) (at_ 6%nat)) (add32 (s0 (at_ 14%nat)) (at_ 15%nat)) :: w)
  end.

Definition round (h : list N) (kw : N * N) : list N :=
  match h with
  | [a; b; c; d; e; f; g; hh] =>
      let t1 := add32 (add32 hh (S1 e)) (add32 (ch e f g) (add32 kw.1 kw.2)) in
      let t2 := add32 (S0 a) (maj a b c) in
      [add32 t1 t2; a; b; c; add32 d t1; e; f; g]
  | _ => h
  end.

Definition compress (h : list N) (block : list N) : list N :=
  let w := schedule 48 (reverse block) in
  zip_with add32 h (foldl round h (zip K w)).

Definition be (l : list N) : N := foldl (λ a b, a * 256 + b) 0 l.

Definition be_bytes (n : nat) (x : N) : list N :=
  (λ i, N.land (N.shiftr x (8 * N.of_nat i)) 255) <$> reverse (seq 0 n).

Fixpoint chunks (fuel n : nat) (l : list N) : list (list N) :=
  match fuel, l with
  | S fuel, _ :: _ => take n l :: chunks fuel n (drop n l)
  | _, _ => []
  end.

Definition bytes_of (s : string) : list N := N_of_ascii <$> String.list_ascii_of_string s.

Definition pad (l : list N) : list N :=
  let n := length l in
  let z := ((119 - n mod 64) mod 64)%nat in
  l ++ [128] ++ repeat 0 z ++ be_bytes 8 (8 * N.of_nat n).

(** One byte of a 32-byte result, from its eight words. *)
Definition digest_byte (h : list N) (i : nat) : ascii :=
  ascii_of_N (N.land (N.shiftr (nth (i / 4) h 0) (8 * N.of_nat (3 - i mod 4))) 255).

Definition sha256 (s : string) : string :=
  let blocks := chunks (S (String.length s)) 64 (pad (bytes_of s)) in
  let words b := be <$> chunks 16 4 b in
  let h := foldl (λ h b, compress h (words b)) H0 blocks in
  String.string_of_list_ascii (digest_byte h <$> seq 0 32).

Definition xor_pad (c : N) (key : string) : string :=
  let k := bytes_of key in
  String.string_of_list_ascii
    ((λ i, ascii_of_N (N.lxor (nth i k 0) c)) <$> seq 0 64).

Definition hmac (key msg : string) : string :=
  let k := if (64 <? String.length key)%nat then sha256 key else key in
  sha256 (xor_pad 92 k +:+ sha256 (xor_pad 54 k +:+ msg)).

Lemma string_of_list_ascii_length l :
  String.length (String.string_of_list_ascii l) = length l.
Proof. induction l as [|c l IH]; cbn; [done|]. by rewrite IH. Qed.

Lemma sha256_length s : String.length (sha256 s) = 32%nat.
Proof. unfold sha256. by rewrite string_of_list_ascii_length. Qed.

Lemma sha256_hex_lower s : re_hex 64 (hexlify (sha256 s)) = true.
Proof. unfold re_hex. by rewrite hexlify_length, sha256_length, hexlify_hex. Qed.

Example sha256_abc : hexlify (sha256 "abc") =
  "ba7816bf8f01cfea414140de5dae2223b00361a396177a9cb410ff61f20015ad".
Proof. vm_compute. reflexivity. Qed.

Example sha256_two_blocks :
  hexlify (sha256 "abcdbcdecdefdefgefghfghighijhijkijkljklmklmnlmnomnopnopq") =
  "248d6a61d20638b8e5c026930c3e6039a33ce45964ff2167f6ecedd419db06c1".
Proof. vm_compute. reflexivity. Qed.

Example hmac_rfc4231_2 : hexlify (hmac "Jefe" "what do ya want for nothing?") =
  "5bdcc146bf60754e6a042426089575c75a003f089d2739839dec58b964ec3843".
Proof. vm_compute. reflexivity. Qed.
End Sha256.

#[export] Instance fips_hashing : Hashing | 100 := {|
  sha256_hex s := hexlify (Sha256.sha256 s);
  hmac_sha256 := Sha256.hmac;
  sha256_hex_ok := Sha256.sha256_hex_lower;
  hmac_sha256_length k m := Sha256.sha256_length _
|}.

(** ** Base64 *)

Module Base64.
Local Open Scope N_scope.

Definition alphabet : string :=
  "ABCDEFGHIJKLMNOPQRSTUVWXYZabcdefghijklmnopqrstuvwxyz0123456789".
(** The last two characters, [+/] or, in the URL-safe alphabet, [-_]. *)
Definition symbols (url : bool) : string :=
  alphabet +:+ (if url then "-_" else "+/").

Definition enc (url : bool) (n : N) : ascii :=
  match String.get (N.to_nat n) (symbols url) with Some c => c | None => "="%char end.

Definition dec (c : ascii) : option N :=
  let n := code c in
  if is_upper c then Some (n - 65)
  else if is_lower c then Some (n - 71)
  else if is_digit c then Some (n + 4)
  else if (n =? 43) then Some 62
  else if (n =? 47) then Some 63
  else None.

(** [base64.b64encode], with or without its padding. *)
Fixpoint encode (url pad : bool) (s : string) : string :=
  let e := enc url in
  let p k := if pad then k else "" in
  match s with
  | EmptyString => ""
  | String a EmptyString =>
      let x := code a in
      String (e (x / 4)) (String (e ((x mod 4) * 16)) (p "=="))
  | String a (String b EmptyString) =>
      let x := code a in let y := code b in
      String (e (x / 4)) (String (e ((x mod 4) * 16 + y / 16))
        (String (e ((y mod 16) * 4)) (p "=")))
  | String a (String b (String c r)) =>
      let x := code a in let y := code b in let z := code c in
      String (e (x / 4)) (String (e ((x mod 4) * 16 + y / 16))
        (String (e ((y mod 16) * 4 + z / 64)) (String (e (z mod 64)) (encode url pad r))))
  end.

(** [binascii.a2b_base64] without strict mode: characters outside the
    alphabet are skipped and a complete padding ends the data.  [q] is the
    position in the quantum, [left] the bits kept, [pads] the padding seen. *)
Fixpoint a2b (s : string) (q left pads : N) : res string :=
  match s with
  | EmptyString =>
      if q =? 0 then Ok "" else raise ValueError "Incorrect padding"
  | String c r =>
      if code c =? 61 then
        if (2 <=? q) && (4 <=? q + (pads + 1)) then Ok ""
        else a2b r q left (if 2 <=? q then pads + 1 else pads)
      else
        match dec c with
        | None => a2b r q left pads
        | Some v =>
            if q =? 0 then a2b r 1 v 0
            else if q =? 1 then
              String (ascii_of_N (left * 4 + v / 16)) <$> a2b r 2 (v mod 16) 0
            else if q =? 2 then
              String (ascii_of_N (left * 16 + v / 4)) <$> a2b r 3 (v mod 4) 0
            else String (ascii_of_N (left * 64 + v)) <$> a2b r 0 0 0
        end
  end.

(** The translation [urlsafe_b64decode] makes before decoding. *)
Fixpoint unurl (s : string) : string :=
  match s with
  | EmptyString => ""
  | String c r => String (if Ascii.eqb c "-" then "+"%char
                          else if Ascii.eqb c "_" then "/"%char else c) (unurl r)
  end.

Fixpoint equals (n : nat) : string :=
  match n with O => "" | S n => String "=" (equals n) end.

(** [base64.urlsafe_b64decode(raw + b"=" * (-len(raw) % 4))] *)
Definition url_decode_padded (s : string) : res string :=
  let n := String.length s in
  a2b (unurl s +:+ equals ((4 - n mod 4) mod 4)%nat) 0 0 0.

(** [[A-Za-z0-9+/]*={0,2}] *)
Fixpoint strict_text (s : string) : bool :=
  match s with
  | EmptyString => true
  | String c r => if bool_decide (is_Some (dec c)) then strict_text r
                  else bool_decide (s = "=") || bool_decide (s = "==")
  end.

(** [base64.b64decode(s, validate=True)] *)
Definition strict_decode (s : string) : res string :=
  if strict_text s then a2b s 0 0 0 else raise ValueError "Only base64 data is allowed".

Example encode_ex :
  (encode false true "Man", encode false true "Ma", encode true false "M")
  = ("TWFu", "TWE=", "TQ").
Proof. reflexivity. Qed.

Example decode_ex : url_decode_padded (encode true false "any carnal pleas") = Ok "any carnal pleas".
Proof. vm_compute. reflexivity. Qed.

(** ** The URL-safe encoding without padding decodes to its input *)

Lemma enc_symbol n :
  n < 64 → ∃ c, enc true n = c ∧
  (∀ r, unurl (String c r) = String (ascii_of_N (code (match unurl (String c "") with
                                                      | String d _ => d | _ => c end))) (unurl r)) ∧
  match unurl (String c "") with String d _ => dec d = Some n ∧ code d <> 61 | _ => False end ∧
  Ascii.eqb "." c = false.
Proof.
  intros Hn. eexists. split; [reflexivity|].
  assert (forallb (λ k, let n := N.of_nat k in
    match unurl (String (enc true n) "") with
    | String d _ => bool_decide (dec d = Some n) && negb (code d =? 61)
    | _ => false end && negb (Ascii.eqb "." (enc true n))) (seq 0 64) = true) as H
    by (vm_compute; reflexivity).
  rewrite forallb_forall in H. specialize (H (N.to_nat n)).
  rewrite N2Nat.id in H. rewrite in_seq in H. specialize (H ltac:(lia)).
  apply andb_true_iff in H as [H Hd]. apply negb_true_iff in Hd.
  cbn [unurl] in *. apply andb_true_iff in H as [H1 H2]. apply bool_decide_eq_true in H1.
  apply negb_true_iff, N.eqb_neq in H2. split_and!; try done.
  intros r. unfold code. by rewrite ascii_N_embedding.
Qed.

(** One symbol read in position [q]. *)
Lemma a2b_enc n r q left pads :
  n < 64 → a2b (unurl (String (enc true n) r)) q left pads =
  if q =? 0 then a2b (unurl r) 1 n 0
  else if q =? 1 then String (ascii_of_N (left * 4 + n / 16)) <$> a2b (unurl r) 2 (n mod 16) 0
  else if q =? 2 then String (ascii_of_N (left * 16 + n / 4)) <$> a2b (unurl r) 3 (n mod 4) 0
  else String (ascii_of_N (left * 64 + n)) <$> a2b (unurl r) 0 0 0.
Proof.
  intros Hn. destruct (enc_symbol n Hn) as (c & -> & Hu & Hd & _). rewrite Hu.
  destruct (unurl (String c "")) as [|d t]; [done|]. destruct Hd as [Hd H61].
  cbn [a2b]. unfold code at 1. rewrite N_ascii_embedding by apply N_ascii_bounded.
  rewrite (proj2 (N.eqb_neq _ 61)) by exact H61.
  unfold code. rewrite ascii_N_embedding, Hd. done.
Qed.

Lemma unurl_app a b : unurl (a +:+ b) = unurl a +:+ unurl b.
Proof. induction a as [|c a IH]; [done|]. rewrite !str_app_cons. cbn. by rewrite IH, str_app_cons. Qed.

Lemma unurl_equals k : unurl (equals k) = equals k.
Proof. induction k as [|k IH]; cbn; by rewrite ?IH. Qed.

Lemma unurl_length s : String.length (unurl s) = String.length s.
Proof. induction s as [|c s IH]; cbn; by rewrite ?IH. Qed.

Lemma string_ind3 (P : string → Prop) :
  P "" → (∀ a, P (String a "")) → (∀ a b, P (String a (String b ""))) →
  (∀ a b c r, P r → P (String a (String b (String c r)))) → ∀ s, P s.
Proof.
  intros H0 H1 H2 H3. assert (∀ n s, (String.length s <= n)%nat → P s) as H; [|eauto].
  induction n as [|n IH]; intros s Hl.
  - by destruct s; [|cbn in Hl; lia].
  - destruct s as [|a [|b [|c r]]]; auto. apply H3, IH. cbn in Hl. lia.
Qed.

(** The padding that completes the last quantum. *)
Definition padding (n : nat) : string := equals ((4 - n mod 4) mod 4)%nat.

Lemma padding_4 n : padding (4 + n) = padding n.
Proof. unfold padding. by rewrite (Nat.Div0.add_mod 4 n 4), Nat.Div0.mod_same, Nat.add_0_l, Nat.Div0.mod_mod. Qed.

Lemma byte_parts x : x < 256 → x / 4 < 64 ∧ x / 16 < 16 ∧ x / 64 < 4 ∧
  x mod 4 < 4 ∧ x mod 16 < 16 ∧ x mod 64 < 64.
Proof. intros. split_and!; try (by apply N.mod_lt); apply N.Div0.div_lt_upper_bound; lia. Qed.

Lemma ascii_of_parts c k q r : code c / k = q → code c mod k = r → k <> 0 →
  ascii_of_N (q * k + r) = c.
Proof.
  intros <- <- Hk. rewrite N.mul_comm, <- N.div_mod by done. apply ascii_N_embedding.
Qed.

Lemma div_add_small a b k : b < k → (a * k + b) / k = a ∧ (a * k + b) mod k = b.
Proof.
  intros Hb. split.
  - symmetry. apply (N.div_unique _ k a b); lia.
  - symmetry. apply (N.mod_unique _ k a b); lia.
Qed.

Lemma a2b_encode s :
  a2b (unurl (encode true false s +:+ padding (String.length (encode true false s)))) 0 0 0 = Ok s.
Proof.
  induction s as [|a|a b|a b c r IH] using string_ind3; [done|..];
    cbn [encode]; cbv zeta;
    pose proof (byte_parts (code a) (N_ascii_bounded a));
    try pose proof (byte_parts (code b) (N_ascii_bounded b));
    try pose proof (byte_parts (code c) (N_ascii_bounded c)).
  - rewrite !str_app_cons, str_app_nil_l.
    rewrite a2b_enc by lia. cbn [N.eqb]. rewrite a2b_enc by lia.
    change (1 =? 0) with false. cbn [N.eqb Pos.eqb].
    destruct (div_add_small (code a mod 4) 0 16 ltac:(lia)) as [E1 E2]. rewrite N.add_0_r in *.
    rewrite E1, E2, (ascii_of_parts a 4) by done. reflexivity.
  - rewrite !str_app_cons, str_app_nil_l.
    rewrite a2b_enc by lia. cbn [N.eqb]. rewrite a2b_enc by lia.
    change (1 =? 0) with false. cbn [N.eqb Pos.eqb].
    rewrite a2b_enc by lia. change (2 =? 0) with false. cbn [N.eqb Pos.eqb].
    destruct (div_add_small (code a mod 4) (code b / 16) 16 ltac:(lia)) as [-> ->].
    destruct (div_add_small (code b mod 16) 0 4 ltac:(lia)) as [E1 E2]. rewrite N.add_0_r in *.
    rewrite E1, E2, (ascii_of_parts a 4), (ascii_of_parts b 16) by done. reflexivity.
  - change (String.length (String ?w (String ?x (String ?y (String ?z ?t))))) with (4 + String.length t)%nat.
    rewrite padding_4. rewrite !str_app_cons.
    rewrite a2b_enc by lia. cbn [N.eqb]. rewrite a2b_enc by lia.
    change (1 =? 0) with false. cbn [N.eqb Pos.eqb].
    rewrite a2b_enc by lia. change (2 =? 0) with false. cbn [N.eqb Pos.eqb].
    rewrite a2b_enc by lia. change (3 =? 0) with false. cbn [N.eqb Pos.eqb].
    destruct (div_add_small (code a mod 4) (code b / 16) 16 ltac:(lia)) as [-> ->].
    destruct (div_add_small (code b mod 16) (code c / 64) 4 ltac:(lia)) as [-> ->].
    rewrite (ascii_of_parts a 4), (ascii_of_parts b 16), (ascii_of_parts c 64) by done.
    rewrite IH. reflexivity.
Qed.

Lemma decode_encode s : url_decode_padded (encode true false s) = Ok s.
Proof.
  unfold url_decode_padded. rewrite <- (a2b_encode s), unurl_app.
  unfold padding. by rewrite unurl_equals.
Qed.

(** No symbol is a dot or lies outside ASCII. *)
Lemma encode_chars s :
  all_chars (λ c, negb (Ascii.eqb "." c) && is_ascii c) (encode true false s) = true.
Proof.
  assert (He : ∀ n, n < 64 → negb (Ascii.eqb "." (enc true n)) && is_ascii (enc true n) = true).
  { intros n Hn.
    assert (forallb (λ k, negb (Ascii.eqb "." (enc true (N.of_nat k))) && is_ascii (enc true (N.of_nat k)))
      (seq 0 64) = true) as H by (vm_compute; reflexivity).
    rewrite forallb_forall in H. specialize (H (N.to_nat n)). rewrite N2Nat.id in H.
    apply H, in_seq. lia. }
  induction s as [|a|a b|a b c r IH] using string_ind3; [done|..];
    cbn [encode all_chars];
    pose proof (byte_parts (code a) (N_ascii_bounded a));
    try pose proof (byte_parts (code b) (N_ascii_bounded b));
    try pose proof (byte_parts (code c) (N_ascii_bounded c));
    rewrite ?He by lia; done.
Qed.

Lemma encode_nonempty s : s ≠ "" → encode true false s ≠ "".
Proof. by destruct s as [|a [|b [|c r]]]. Qed.

(** ** The standard alphabet with padding *)

Lemma unurl_enc n r : n < 64 → unurl (String (enc true n) r) = String (enc false n) (unurl r).
Proof.
  intros Hn. cbn [unurl]. f_equal.
  assert (forallb (λ k, let c := enc true (N.of_nat k) in
    Ascii.eqb (if Ascii.eqb c "-" then "+" else if Ascii.eqb c "_" then "/" else c)
      (enc false (N.of_nat k))) (seq 0 64) = true) as H by (vm_compute; reflexivity).
  rewrite forallb_forall in H. specialize (H (N.to_nat n)). rewrite N2Nat.id in H.
  apply Ascii.eqb_eq, H, in_seq. lia.
Qed.

Lemma encode_std s :
  encode false true s = unurl (encode true false s) +:+ padding (String.length (encode true false s)).
Proof.
  induction s as [|a|a b|a b c r IH] using string_ind3; [done|..];
    cbn [encode]; cbv zeta;
    pose proof (byte_parts (code a) (N_ascii_bounded a));
    try pose proof (byte_parts (code b) (N_ascii_bounded b));
    try pose proof (byte_parts (code c) (N_ascii_bounded c)).
  - rewrite !unurl_enc by lia. reflexivity.
  - rewrite !unurl_enc by lia. reflexivity.
  - rewrite !unurl_enc by lia.
    change (String.length (String ?w (String ?x (String ?y (String ?z ?t))))) with (4 + String.length t)%nat.
    by rewrite padding_4, !str_app_cons, <- IH.
Qed.

Lemma dec_enc n : n < 64 → dec (enc false n) = Some n ∧ (code (enc false n) <? 128) = true.
Proof.
  intros Hn.
  assert (forallb (λ k, bool_decide (dec (enc false (N.of_nat k)) = Some (N.of_nat k))
    && (code (enc false (N.of_nat k)) <? 128)) (seq 0 64) = true) as H by (vm_compute; reflexivity).
  rewrite forallb_forall in H. specialize (H (N.to_nat n)). rewrite N2Nat.id in H.
  apply andb_true_iff in H as [?%bool_decide_eq_true ?]; [done|]. apply in_seq. lia.
Qed.

Lemma strict_text_enc n r : n < 64 → strict_text (String (enc false n) r) = strict_text r.
Proof.
  intros Hn. cbn [strict_text]. rewrite (proj1 (dec_enc n Hn)). by rewrite bool_decide_true by eauto.
Qed.

Lemma encode_strict s : strict_text (encode false true s) = true.
Proof.
  induction s as [|a|a b|a b c r IH] using string_ind3; [done|..];
    cbn [encode]; cbv zeta;
    pose proof (byte_parts (code a) (N_ascii_bounded a));
    try pose proof (byte_parts (code b) (N_ascii_bounded b));
    try pose proof (byte_parts (code c) (N_ascii_bounded c));
    by rewrite !strict_text_enc by lia.
Qed.

(** [base64.b64decode(base64.b64encode(s), validate=True) == s] *)
Lemma strict_decode_encode s : strict_decode (encode false true s) = Ok s.
Proof.
  unfold strict_decode. rewrite encode_strict, encode_std.
  pose proof (a2b_encode s) as Ha. rewrite unurl_app in Ha.
  unfold padding in *. by rewrite unurl_equals in Ha.
Qed.

Lemma encode_std_length s :
  (String.length (encode false true s) ≤ 4 * (String.length s / 3) + 4)%nat.
Proof.
  induction s as [|a|a b|a b c r IH] using string_ind3; cbn [encode String.length]; cbv zeta.
  - lia.
  - cbn. lia.
  - cbn. lia.
  - change (S (S (S (String.length r)))) with (3 + String.length r)%nat.
    assert ((3 + String.length r) / 3 = 1 + String.length r / 3)%nat as ->
      by (apply (Nat.div_add_l 1 3); lia).
    lia.
Qed.

Lemma py_len_le s : (py_len s ≤ String.length s)%nat.
Proof. induction s as [|c s IH]; cbn; [done|]. destruct (in_range 128 191 c); lia. Qed.
End Base64.
