(* ===== verification/TestDigest.v ===== *)
(** * A small digest for concrete runs

    The theorems hold for every digest and MAC of the right shape; the concrete
    runs that apply them use this one, which is cheap to evaluate. *)

From S2P Require Export Hashing Json.

(** Fletcher's two running sums of the bytes, the second one in three bytes,
    padded. *)
Fixpoint sums (s : string) (a b : N) : N :=
  match s with
  | EmptyString => b
  | String c r => let a' := (a + code c)%N in sums r a' (b + a')%N
  end.

Definition byte_at (k n : N) : ascii := ascii_of_N (N.land (N.shiftr n (8 * k)) 255).
Definition fletcher (s : string) : string :=
  let n := sums s 0 0 in
  zeros 29 +:+ String (byte_at 2 n) (String (byte_at 1 n) (String (byte_at 0 n) "")).

Lemma fletcher_ok s : re_hex 64 (hexlify (fletcher s)) = true.
Proof. unfold re_hex. by rewrite hexlify_length, hexlify_hex. Qed.

#[export] Instance fletcher_hashing : Hashing := {|
  sha256_hex s := hexlify (fletcher s);
  hmac_sha256 _ s := fletcher s;
  sha256_hex_ok := fletcher_ok;
  hmac_sha256_length _ _ := eq_refl
|}.
