(* ===== verification/Evidence.v ===== *)
(** * Worker reports and evidence manifests ([evidence.py])

    A file system is the resolution of paths under its links and working
    directory, its regular files by resolved path, and what one reading of a
    file observes: its metadata before and after, and the bytes. *)

From S2P Require Export JsonFacts Hashing.

(** ** Files *)

Record stat := Stat { st_dev : Z; st_ino : Z; st_size : Z; st_mtime_ns : Z }.

#[export] Instance stat_eq_dec : EqDecision stat.
Proof. solve_decision. Defined.

(** [fstat] before and after, the bytes read (bounded), and the path's
    [stat] afterwards. *)
Record observation := Observation {
  obs_before : stat; obs_content : string; obs_after : stat; obs_path_after : stat
}.

Record fs := Fs {
  resolve_path : string → string;
  files : gmap string string;
  observe : string → option observation
}.

(** [path.parent] and [parent / child] of POSIX paths. *)
Fixpoint last_slash (i : nat) (s : string) : option nat :=
  match s with
  | EmptyString => None
  | String c r =>
      match last_slash (S i) r with
      | Some j => Some j
      | None => if Ascii.eqb c "/" then Some i else None
      end
  end.
Definition parent_path (p : string) : string :=
  match last_slash 0 p with Some (S i) => String.substring 0 (S i) p | _ => "/" end.
Definition join_path (p q : string) : string :=
  if starts_with "/" q then q else p +:+ "/" +:+ q.

(** [is_relative_to(path, parent)]: the components of the one are a prefix of
    the other's. *)
Definition is_relative_to (f : fs) (path parent : string) : bool :=
  let p := resolve_path f path in
  let q := resolve_path f parent in
  bool_decide (p = q) || bool_decide (q = "/") || starts_with (q +:+ "/") p.

Definition is_file (f : fs) (path : string) : bool := bool_decide (is_Some (files f !! path)).

(** ** Reports *)

Definition PLACEHOLDER_VALUES : list string :=
  ["[fill]"; "<fill>"; "fill"; "n/a"; "none"; "not measured"; "not-measured";
   "placeholder"; "tbd"; "todo"; "unknown"; "unmeasured"].
Definition CLAIM_KINDS : list string := ["functional"; "performance"; "resource"; "provenance"].
Definition MAX_MANIFEST_BYTES : Z := 4 * 1024 * 1024.

(** One white-space character at the front. *)
Definition drop_space (s : string) : option string :=
  match s with
  | String c r =>
      if space1 c then Some r else
      match r with
      | String d r2 =>
          if space2 c d then Some r2 else
          match r2 with
          | String e r3 => if space3 c d e then Some r3 else None
          | EmptyString => None
          end
      | EmptyString => None
      end
  | EmptyString => None
  end.

(** [SECTION_RE] at the start of a line: the number and what follows the match. *)
Definition match_section (s : string) : option (ascii * string) :=
  if starts_with "##" s then
    r ← drop_space (String.substring 2 (String.length s) s);
    match lstrip r with
    | String d t =>
        if in_range 49 54 d then
          match t with
          | String c u => if char_in ".)" c then Some (d, u)
                          else v ← drop_space t; Some (d, v)
          | EmptyString => None
          end
        else None
    | EmptyString => None
    end
  else None.

(** The text before the first section, and the sections with their bodies.
    [bol] holds at the beginning of a line. *)
Fixpoint sections (fuel : nat) (bol : bool) (s : string) : string * list (string * string) :=
  match fuel, s with
  | O, _ | _, EmptyString => ("", [])
  | S n, String c r =>
      match (if bol then match_section s else None) with
      | Some (d, rest) =>
          let eol := negb (bool_decide (rest = "")) &&
                     Ascii.eqb (match String.get (String.length s - String.length rest - 1) s with
                                | Some x => x | None => c end) "010" in
          let '(body, l) := sections n eol rest in ("", (String d "", body) :: l)
      | None =>
          let '(text, l) := sections n (Ascii.eqb c "010") r in (String c text, l)
      end
  end.

Definition required_sections : list string := ["1"; "2"; "3"; "4"; "5"; "6"].

Section evidence.
Context `{Hashing}.

(** [sha256_file(path)] *)
Definition sha256_file (f : fs) (path : string) : res string :=
  match files f !! path with
  | Some content => Ok (sha256_hex content)
  | None => raise FileNotFoundError path
  end.

Definition validate_report (f : fs) (path : string) : res dict :=
  match files f !! path with
  | None => raise EvidenceError "Report does not exist"
  | Some bytes =>
      _ ← raise_if (negb (utf8_valid bytes)) UnicodeError "invalid start byte";
      let text := universal_newlines bytes in
      _ ← raise_if (contains "[FILL]" (upper text)) EvidenceError
            "Report contains an unresolved [FILL] placeholder";
      let matches := (sections (S (String.length text)) true text).2 in
      let ordered_sections := matches.*1 in
      _ ← raise_if (negb (forallb (λ n, bool_decide (n ∈ ordered_sections)) required_sections))
            EvidenceError "Report is missing required numbered sections";
      _ ← raise_if (negb (bool_decide (ordered_sections = required_sections))) EvidenceError
            "Report sections must appear exactly once in the order 1 through 6";
      _ ← raise_if (existsb (λ m, bool_decide (strip m.2 = "")) matches) EvidenceError
            "Report section is empty";
      digest ← sha256_file f path;
      Ok (dict_of [("path", JStr path); ("sha256", JStr digest);
                   ("sections", jstrs ordered_sections);
                   ("contains_fill_marker", JBool false)])
  end.

(** ** Manifests *)

Definition _read_manifest_once (f : fs) (manifest_path : string) : res (dict * string) :=
  match observe f manifest_path with
  | None => raise EvidenceError "Evidence manifest could not be read safely"
  | Some o =>
      let content := obs_content o in
      let length := Z.of_nat (String.length content) in
      _ ← raise_if ((MAX_MANIFEST_BYTES <? st_size (obs_before o))
                    || (MAX_MANIFEST_BYTES <? length)) EvidenceError
            "Evidence manifest exceeds the limit";
      _ ← raise_if (negb (length =? st_size (obs_before o))
                    || negb (bool_decide (obs_before o = obs_after o))
                    || negb (bool_decide (obs_after o = obs_path_after o))) EvidenceError
            "Evidence manifest changed while it was being read";
      _ ← raise_if (negb (utf8_valid content)) EvidenceError
            "Evidence manifest is not valid UTF-8 JSON";
      v ← catch (json_loads content) JSONDecodeError
            (λ _, raise EvidenceError "Evidence manifest is not valid UTF-8 JSON");
      match v with
      | JObj manifest => Ok (manifest, sha256_hex content)
      | _ => raise EvidenceError "Evidence manifest must be a JSON object"
      end
  end.
End evidence.

(** No float in the value is a NaN or an infinity. *)
Fixpoint all_finite (v : json) : bool :=
  match v with
  | JFloat f => is_finite f
  | JList l => forallb all_finite l
  | JObj m => forallb snd (map_to_list (all_finite <$> m))
  | _ => true
  end.

Definition placeholder (s : string) : bool :=
  bool_decide (lower (strip s) ∈ PLACEHOLDER_VALUES).

(** No string value (keys are not looked at) is a placeholder. *)
Fixpoint no_placeholders (v : json) : bool :=
  match v with
  | JStr s => negb (placeholder s)
  | JList l => forallb no_placeholders l
  | JObj m => forallb snd (map_to_list (no_placeholders <$> m))
  | _ => true
  end.

Definition _reject_non_finite (value : json) : res unit :=
  raise_if (negb (all_finite value)) EvidenceError "contains a non-finite number".
Definition _reject_placeholders (value : json) : res unit :=
  raise_if (negb (no_placeholders value)) EvidenceError "contains an unresolved placeholder".

Definition _require_int (record : dict) (name : string) : res Z :=
  match get record name with
  | JInt z => Ok z
  | _ => raise EvidenceError "must be an integer"
  end.

(** A non-empty string, and a full SHA-256 in either case. *)
Definition nonempty_str (v : json) : option string :=
  match v with JStr s => if bool_decide (s = "") then None else Some s | _ => None end.
Definition sha256_str (v : json) : option string :=
  match v with JStr s => if re_hex_any 64 s then Some s else None | _ => None end.

Definition require {A} (o : option A) (msg : string) : res A :=
  res_of_option (Exn EvidenceError msg) o.

Definition require_list (manifest : dict) (name : string) : res (list json) :=
  match get_or manifest name (JList []) with
  | JList l => Ok l
  | _ => raise EvidenceError "must be a list"
  end.

(** [raw.lower()] and the observed digest of the file at a path that has to
    resolve below the allowed root. *)
Definition _resolve_evidence_path (f : fs) (value manifest_path : string)
    (allowed_root : option string) : res string :=
  let resolved := resolve_path f (join_path (parent_path manifest_path) value) in
  _ ← raise_if (match allowed_root with
                | Some root => negb (is_relative_to f resolved (resolve_path f root))
                | None => false
                end) EvidenceError "Evidence path escapes the verifier-owned report directory";
  Ok resolved.

Section manifest.
Context `{Hashing}.
Context (f : fs) (allowed_root : option string).

(** One pass of the loop over [artifacts]. *)
Definition validate_artifact (manifest_path : string) (artifact : json) : res dict :=
  match artifact with
  | JObj artifact =>
      value ← require (nonempty_str (get artifact "path")) "path must be a non-empty string";
      expected_sha ← require (sha256_str (get artifact "sha256")) "sha256 must be a full SHA-256";
      path ← _resolve_evidence_path f value manifest_path allowed_root;
      _ ← raise_if (negb (is_file f path)) EvidenceError "Evidence artifact does not exist";
      actual_sha ← sha256_file f path;
      _ ← raise_if (negb (bool_decide (actual_sha = lower expected_sha))) EvidenceError
            "Evidence artifact SHA mismatch";
      Ok (dict_of [("path", JStr path); ("sha256", JStr actual_sha)])
  | _ => raise EvidenceError "artifact must be an object"
  end.

(** A non-empty list of non-empty strings. *)
Definition argv_ok (v : json) : bool :=
  match v with
  | JList (x :: l) => forallb (λ a, bool_decide (is_Some (nonempty_str a))) (x :: l)
  | _ => false
  end.

(** Exit code and counts of one validation under the gates. *)
Record counts := Counts { exit_code : Z; passed : Z; failed : Z; skipped : Z }.

Definition validate_counts (gates validation : dict) : res counts :=
  exit_code ← _require_int validation "exit_code";
  passed ← _require_int validation "passed";
  failed ← _require_int validation "failed";
  skipped ← _require_int validation "skipped";
  _ ← raise_if (Z.min (Z.min passed failed) skipped <? 0) EvidenceError "counts cannot be negative";
  _ ← raise_if (passed + failed + skipped =? 0) EvidenceError "contains no measured checks";
  _ ← raise_if (negb (exit_code =? 0) || negb (failed =? 0)) EvidenceError "did not pass";
  skip_reasons ← require_list validation "skip_reasons";
  _ ← raise_if (negb (skipped =? 0) && (Z.of_nat (length skip_reasons) <? skipped))
        EvidenceError "skipped checks lack a reason for each";
  _ ← raise_if (negb (skipped =? 0) && negb (truthy (get_or gates "allow_skips" (JBool false))))
        EvidenceError "skipped checks; skip is not pass";
  Ok (Counts exit_code passed failed skipped).

Definition validate_raw_output (manifest_path : string) (validation : dict) : res dict :=
  raw_output ← require (nonempty_str (get validation "raw_output_path"))
                 "raw_output_path must be a non-empty string";
  raw_output_sha ← require (sha256_str (get validation "raw_output_sha256"))
                     "raw_output_sha256 must be a full SHA-256";
  output_path ← _resolve_evidence_path f raw_output manifest_path allowed_root;
  _ ← raise_if (negb (is_file f output_path)) EvidenceError "Raw validation output is missing";
  _ ← raise_if (bool_decide (files f !! output_path = Some "")) EvidenceError
        "Raw validation output is empty";
  observed_output_sha ← sha256_file f output_path;
  same ← compare_digest (lower raw_output_sha) observed_output_sha;
  _ ← raise_if (negb same) EvidenceError "Raw validation output SHA mismatch";
  Ok (dict_of [("path", JStr output_path); ("sha256", JStr observed_output_sha)]).

(** One pass of the loop over [validations]: the result and its counts. *)
Definition validate_validation (gates : dict) (require_command_argv : bool)
    (manifest_path : string) (validation : json) : res (dict * counts) :=
  match validation with
  | JObj validation =>
      command ← (match get validation "command" with
                 | JStr s => if bool_decide (strip s = "") then
                               raise EvidenceError "command must be a non-empty string"
                             else Ok s
                 | _ => raise EvidenceError "command must be a non-empty string"
                 end);
      let command_argv := get validation "command_argv" in
      _ ← raise_if ((negb (is_null command_argv) || require_command_argv)
                    && negb (argv_ok command_argv)) EvidenceError
            "command_argv must be a non-empty string array";
      c ← validate_counts gates validation;
      raw_output_result ← validate_raw_output manifest_path validation;
      Ok (dict_of [("command", JStr command); ("command_argv", command_argv);
                   ("exit_code", JInt (exit_code c)); ("passed", JInt (passed c));
                   ("failed", JInt (failed c)); ("skipped", JInt (skipped c));
                   ("raw_output", JObj raw_output_result)], c)
  | _ => raise EvidenceError "validation must be an object"
  end.

Definition validate_known_check (check : json) : res unit :=
  match check with
  | JObj check =>
      _ ← raise_if (negb (is_true (get check "passed"))) EvidenceError "is not explicitly passed";
      match check !! "expected", check !! "observed" with
      | Some expected, Some observed =>
          raise_if (py_neq expected observed) EvidenceError "expected and observed values differ"
      | _, _ => raise EvidenceError "must record expected and observed values"
      end
  | _ => raise EvidenceError "known-answer check must be an object"
  end.

Definition validate_claim (permissions : dict) (claim : json) : res unit :=
  match claim with
  | JObj claim =>
      let kind := get claim "kind" in
      known ← in_strings kind CLAIM_KINDS;
      _ ← raise_if (negb known) EvidenceError "kind must be one of the claim kinds";
      _ ← raise_if (py_eq kind (JStr "resource")
                    && negb (truthy (get_or permissions "gpu" (JBool false)))) EvidenceError
            "claims GPU/resource usage without task permission";
      raise_if (py_eq kind (JStr "performance")
                && negb (truthy (get_or permissions "performance_metrics" (JBool false))))
        EvidenceError "claims performance metrics without task permission"
  | _ => raise EvidenceError "claim must be an object"
  end.

Definition total (g : counts → Z) (l : list counts) : Z := foldl (λ n c, n + g c) 0 l.

Definition validate_manifest (manifest_path : string) (permissions gates : dict)
    (require_command_argv : bool) : res dict :=
  let manifest_path := resolve_path f manifest_path in
  _ ← raise_if (match allowed_root with
                | Some root => negb (is_relative_to f manifest_path (resolve_path f root))
                | None => false
                end) EvidenceError
        "Evidence manifest must be inside the actor-owned report directory";
  _ ← raise_if (negb (is_file f manifest_path)) EvidenceError "Evidence manifest does not exist";
  '(manifest, manifest_sha256) ← _read_manifest_once f manifest_path;
  _ ← _reject_non_finite (JObj manifest);
  _ ← _reject_placeholders (JObj manifest);
  _ ← raise_if (py_neq (get manifest "schema_version") (JInt 1)) EvidenceError
        "Evidence manifest schema_version must be 1";
  artifacts ← require_list manifest "artifacts";
  validations ← require_list manifest "validations";
  known_checks ← require_list manifest "known_answer_checks";
  claims ← require_list manifest "claims";
  artifact_results ← res_mapM (validate_artifact manifest_path) artifacts;
  _ ← raise_if (truthy (get_or gates "require_validation" (JBool true)) && is_nil validations)
        EvidenceError "At least one validation command is required";
  validation_results ← res_mapM (validate_validation gates require_command_argv manifest_path)
                         validations;
  _ ← raise_if (truthy (get_or gates "require_known_answer_check" (JBool true))
                && is_nil known_checks) EvidenceError
        "At least one known-answer comparison is required";
  _ ← res_iter validate_known_check known_checks;
  _ ← res_iter (validate_claim permissions) claims;
  let c := validation_results.*2 in
  Ok (dict_of [("manifest_path", JStr (resolve_path f manifest_path));
               ("manifest_sha256", JStr manifest_sha256);
               ("artifacts", JList (JObj <$> artifact_results));
               ("validations", JList (JObj <$> validation_results.*1));
               ("known_answer_checks", JList known_checks);
               ("claims", JList claims);
               ("totals", jobj [("passed", JInt (total passed c));
                                ("failed", JInt (total failed c));
                                ("skipped", JInt (total skipped c))])]).

Definition validate_submission (report_path manifest_path : string) (permissions gates : dict)
    : res dict :=
  let report_path := resolve_path f report_path in
  let manifest_path := resolve_path f manifest_path in
  _ ← (match allowed_root with
       | Some root =>
           let resolved_root := resolve_path f root in
           _ ← raise_if (negb (is_relative_to f report_path resolved_root)) EvidenceError
                 "Submission report must be inside the actor-owned report directory";
           raise_if (negb (is_relative_to f manifest_path resolved_root)) EvidenceError
             "Evidence manifest must be inside the actor-owned report directory"
       | None => Ok tt
       end);
  report ← validate_report f report_path;
  manifest ← validate_manifest manifest_path permissions gates false;
  Ok (dict_of [("report", JObj report); ("manifest", JObj manifest)]).
End manifest.

(** ** What acceptance implies *)

(** The entry [d] names, by the fields [pk] and [sk], a regular file below the
    allowed root whose content has the recorded digest. *)
Definition names_file `{Hashing} (f : fs) (root : option string) (mp : string) (d : dict)
    (pk sk content : string) : Prop :=
  ∃ value sha, get d pk = JStr value ∧ get d sk = JStr sha ∧
    let path := resolve_path f (join_path (parent_path mp) value) in
    files f !! path = Some content ∧ lower sha = sha256_hex content ∧
    match root with Some r => is_relative_to f path (resolve_path f r) = true | None => True end.

(** The list of the manifest's entries under a name. *)
Definition entries (manifest : dict) (name : string) : list json :=
  match get_or manifest name (JList []) with JList l => l | _ => [] end.

(** One consistent reading of the manifest: bounded, unchanged while it was
    read, and parsed from the very bytes that are hashed. *)
Definition one_reading `{Hashing} (f : fs) (mp : string) (manifest : dict) (digest : string) : Prop :=
  ∃ o, observe f mp = Some o ∧ json_loads (obs_content o) = Ok (JObj manifest) ∧
    digest = sha256_hex (obs_content o) ∧
    Z.of_nat (String.length (obs_content o)) = st_size (obs_before o) ∧
    st_size (obs_before o) ≤ MAX_MANIFEST_BYTES ∧
    obs_before o = obs_after o ∧ obs_after o = obs_path_after o.

Section facts.
Context `{Hashing}.

Lemma guard_false (a b : bool) : a && negb b = false → a = true → b = true.
Proof. by destruct a, b. Qed.

Lemma require_ok {A} (o : option A) msg a : require o msg = Ok a → o = Some a.
Proof. destruct o; cbn; [by intros [= ->] | done]. Qed.

Lemma nonempty_str_Some v s : nonempty_str v = Some s → v = JStr s.
Proof. destruct v; cbn; try done. case_bool_decide; naive_solver. Qed.

Lemma sha256_str_Some v s : sha256_str v = Some s → v = JStr s.
Proof. destruct v; cbn; try done. case_match; naive_solver. Qed.

Lemma sha256_file_ok f p d : sha256_file f p = Ok d →
  ∃ content, files f !! p = Some content ∧ d = sha256_hex content.
Proof. unfold sha256_file. case_match; [intros [= <-]; eauto | done]. Qed.

Lemma require_list_ok m name l : require_list m name = Ok l → entries m name = l.
Proof. unfold require_list, entries. case_match; try done. by intros [= ->]. Qed.

Lemma read_manifest_ok f mp manifest digest :
  _read_manifest_once f mp = Ok (manifest, digest) → one_reading f mp manifest digest.
Proof.
  unfold _read_manifest_once. destruct (observe f mp) as [o|] eqn:Eo; [|done].
  intros (? & Hsize & (? & Hsame & (? & _ & (v & Hv & Hm)%bind_ok)%bind_ok)%bind_ok)%bind_ok.
  apply raise_if_ok in Hsize, Hsame. bool_split.
  exists o. split; [exact Eo|].
  destruct v as [| | | | | |m0]; try discriminate Hm. injection Hm as -> <-.
  repeat split; try (assumption || congruence || lia).
  destruct (json_loads (obs_content o)) as [w|e] eqn:Ej; cbn in Hv.
  - exact Hv.
  - case_match; discriminate Hv.
Qed.

Context (f : fs) (root : option string).

Lemma resolve_evidence_ok value mp p : _resolve_evidence_path f value mp root = Ok p →
  p = resolve_path f (join_path (parent_path mp) value) ∧
  match root with Some r => is_relative_to f p (resolve_path f r) = true | None => True end.
Proof.
  unfold _resolve_evidence_path. intros (u & Hr & Hp)%bind_ok. apply raise_if_ok in Hr.
  apply Ok_inj in Hp as <-. split; [done|]. destruct root; bool_split; done.
Qed.

Lemma artifact_ok mp a d : validate_artifact f root mp a = Ok d →
  ∃ m content, a = JObj m ∧ names_file f root mp m "path" "sha256" content.
Proof.
  destruct a as [| | | | | |m]; try done. cbn [validate_artifact]. intros Ha. inv_res.
  rename x into value, x0 into sha, x1 into p.
  repeat match goal with E : require _ _ = Ok _ |- _ => apply require_ok in E end.
  repeat match goal with E : sha256_file _ _ = Ok _ |- _ => apply sha256_file_ok in E as (c & Hc & ->) end.
  repeat match goal with E : _resolve_evidence_path _ _ _ _ = Ok _ |- _ =>
    apply resolve_evidence_ok in E as [-> Hroot] end. bool_split.
  exists m, c. split; [done|]. exists value, sha. cbn zeta.
  eauto 10 using nonempty_str_Some, sha256_str_Some.
Qed.

Lemma raw_output_ok mp m d : validate_raw_output f root mp m = Ok d →
  ∃ content, content ≠ "" ∧ names_file f root mp m "raw_output_path" "raw_output_sha256" content.
Proof.
  unfold validate_raw_output. intros Hd. inv_res.
  rename x into value, x0 into sha, x1 into p.
  repeat match goal with E : require _ _ = Ok _ |- _ => apply require_ok in E end.
  repeat match goal with E : sha256_file _ _ = Ok _ |- _ => apply sha256_file_ok in E as (c & Hc & ->) end.
  repeat match goal with E : _resolve_evidence_path _ _ _ _ = Ok _ |- _ =>
    apply resolve_evidence_ok in E as [-> Hroot] end. bool_split. subst.
  match goal with E : compare_digest _ _ = Ok _ |- _ => apply compare_digest_true in E as [E _] end.
  exists c. split; [by intros ->|]. exists value, sha. cbn zeta.
  eauto 10 using nonempty_str_Some, sha256_str_Some.
Qed.

(** The counts the code accepts under the gates. *)
Definition passing (gates m : dict) (c : counts) : Prop :=
  get m "exit_code" = JInt 0 ∧ get m "failed" = JInt 0 ∧
  get m "passed" = JInt (passed c) ∧ get m "skipped" = JInt (skipped c) ∧
  failed c = 0 ∧ 0 ≤ passed c ∧ 0 ≤ skipped c ∧ 0 < passed c + skipped c ∧
  (0 < skipped c → truthy (get_or gates "allow_skips" (JBool false)) = true ∧
                   skipped c ≤ Z.of_nat (length (entries m "skip_reasons"))).

Lemma require_int_ok m name z : _require_int m name = Ok z → get m name = JInt z.
Proof. unfold _require_int. case_match; try done. by intros [= ->]. Qed.

Lemma counts_ok gates m c : validate_counts gates m = Ok c → passing gates m c.
Proof.
  unfold validate_counts. intros Hc. inv_res. subst c.
  repeat match goal with E : _require_int _ _ = Ok _ |- _ => apply require_int_ok in E end.
  repeat match goal with E : require_list _ _ = Ok _ |- _ => apply require_list_ok in E as <- end.
  bool_split. subst. unfold passing. cbn [passed failed skipped exit_code].
  repeat split; try (assumption || lia).
  all: destruct (x2 =? 0) eqn:E; [lia|]; cbn in *; bool_split; (done || lia).
Qed.

Lemma validation_ok gates argv mp v d c :
  validate_validation f root gates argv mp v = Ok (d, c) →
  ∃ m content, v = JObj m ∧ content ≠ "" ∧
    names_file f root mp m "raw_output_path" "raw_output_sha256" content ∧ passing gates m c.
Proof.
  destruct v as [| | | | | |m]; try done. cbn [validate_validation].
  intros (s & _ & (? & _ & (c0 & Hc & (o & Ho & Hd)%bind_ok)%bind_ok)%bind_ok)%bind_ok.
  apply Ok_inj in Hd. assert (c0 = c) as -> by (apply (f_equal snd) in Hd; exact Hd).
  apply counts_ok in Hc. apply raw_output_ok in Ho as (content & Hne & Hn). eauto 10.
Qed.

Lemma total_zero (l : list counts) g : Forall (λ c, g c = 0) l → total g l = 0.
Proof.
  unfold total. enough (∀ n, Forall (λ c, g c = 0) l → foldl (λ n c, n + g c) n l = n) by eauto.
  induction l as [|c l IH]; intros n; cbn; [done|].
  intros [Hc Hl]%Forall_cons. rewrite Hc, Z.add_0_r. by apply IH.
Qed.

Lemma manifest_ok mp permissions gates argv r :
  validate_manifest f root mp permissions gates argv = Ok r →
  ∃ manifest digest ars vrs,
    let p := resolve_path f mp in
    one_reading f p manifest digest ∧
    get r "manifest_sha256" = JStr digest ∧
    get r "totals" = jobj [("passed", JInt (total passed vrs.*2));
                           ("failed", JInt (total failed vrs.*2));
                           ("skipped", JInt (total skipped vrs.*2))] ∧
    all_finite (JObj manifest) = true ∧ no_placeholders (JObj manifest) = true ∧
    (∀ rt, root = Some rt → is_relative_to f p (resolve_path f rt) = true) ∧
    Forall2 (λ a d, validate_artifact f root p a = Ok d) (entries manifest "artifacts") ars ∧
    Forall2 (λ v dc, validate_validation f root gates argv p v = Ok dc)
      (entries manifest "validations") vrs ∧
    (truthy (get_or gates "require_validation" (JBool true)) = true →
     entries manifest "validations" ≠ []) ∧
    (truthy (get_or gates "require_known_answer_check" (JBool true)) = true →
     entries manifest "known_answer_checks" ≠ []) ∧
    Forall (λ k, validate_known_check k = Ok tt) (entries manifest "known_answer_checks") ∧
    Forall (λ k, validate_claim permissions k = Ok tt) (entries manifest "claims").
Proof.
  unfold validate_manifest. intros (u & Hroot & Hr)%bind_ok.
  apply bind_ok in Hr as (? & _ & Hr). apply bind_ok in Hr as ([manifest digest] & Hread & Hr).
  unfold _reject_non_finite, _reject_placeholders in Hr. inv_res. bool_split.
  apply read_manifest_ok in Hread.
  repeat match goal with E : require_list _ _ = Ok _ |- _ => apply require_list_ok in E; subst end.
  repeat match goal with E : res_mapM _ _ = Ok _ |- _ => apply res_mapM_ok in E end.
  repeat match goal with E : res_iter _ _ = Ok _ |- _ => apply res_iter_ok in E end.
  match goal with E1 : Forall2 _ (entries manifest "artifacts") ?a,
                  E2 : Forall2 _ (entries manifest "validations") ?b |- _ =>
    exists manifest, digest, a, b end.
  cbn zeta. split; [exact Hread|]. split; [reflexivity|]. split; [reflexivity|].
  repeat (split; [try assumption|]); try assumption.
  - intros rt ->. by bool_split.
  - intros Ht Hnil. match goal with E : truthy (get_or gates "require_validation" _) && _ = false |- _ =>
      rewrite Ht, Hnil in E; discriminate E end.
  - intros Ht Hnil. match goal with E : truthy (get_or gates "require_known_answer_check" _) && _ = false |- _ =>
      rewrite Ht, Hnil in E; discriminate E end.
Qed.

Lemma Forall2_left {A B} (P : A → B → Prop) l k x : Forall2 P l k → x ∈ l → ∃ y, y ∈ k ∧ P x y.
Proof.
  induction 1 as [|a b l k Hab _ IH]; [by intros ?%elem_of_nil|].
  intros [->|Hx]%elem_of_cons; [|destruct (IH Hx) as (y & ? & ?)]; eexists; (split; [|done]); set_solver.
Qed.
End facts.

(** Two readings of the same metadata and bytes. *)
Definition same_reading (f g : fs) (mp : string) : Prop :=
  (∀ p, resolve_path f p = resolve_path g p) ∧
  observe f (resolve_path f mp) = observe g (resolve_path g mp).

Section properties.
Context `{Hashing} (f : fs) (root : option string).

(** C25: an accepted manifest was read once - the digest returned is that of
    the very bytes that were parsed, whose metadata did not change - and every
    artifact and every raw output it lists is a regular file below the allowed
    root whose content has the listed digest, raw outputs being non-empty. *)
Theorem accepted_files_match mp permissions gates argv r :
  validate_manifest f root mp permissions gates argv = Ok r →
  let p := resolve_path f mp in
  ∃ manifest digest, one_reading f p manifest digest ∧
    get r "manifest_sha256" = JStr digest ∧
    Forall (λ a, ∃ m content, a = JObj m ∧ names_file f root p m "path" "sha256" content)
      (entries manifest "artifacts") ∧
    Forall (λ v, ∃ m content, v = JObj m ∧ content ≠ "" ∧
              names_file f root p m "raw_output_path" "raw_output_sha256" content)
      (entries manifest "validations").
Proof.
  intros (manifest & digest & ars & vrs & Hread & Hsha & _ & _ & _ & _ & Har & Hvr & _)%manifest_ok.
  exists manifest, digest. split; [exact Hread|]. split; [exact Hsha|].
  split; apply Forall_forall; intros a Ha.
  - destruct (Forall2_left _ _ _ _ Har Ha) as (d & _ & Hd). by apply artifact_ok in Hd.
  - destruct (Forall2_left _ _ _ _ Hvr Ha) as ([d c] & _ & (m & content & ? & ? & ? & _)%validation_ok).
    eauto.
Qed.

(** The files a manifest lists: artifacts and raw outputs. *)
Definition listed (manifest : dict) (mp path : string) : Prop :=
  ∃ m value, path = resolve_path f (join_path (parent_path mp) value) ∧
    ((JObj m ∈ entries manifest "artifacts" ∧ get m "path" = JStr value) ∨
     (JObj m ∈ entries manifest "validations" ∧ get m "raw_output_path" = JStr value)).

(** after an acceptance no listed file can be exchanged unnoticed: when the
    same manifest is accepted again, every file it lists has the same content
    as the first time, or its two contents are a collision of SHA-256. *)
Theorem listed_files_are_pinned g mp permissions gates argv r permissions' gates' argv' r' :
  same_reading f g mp →
  validate_manifest f root mp permissions gates argv = Ok r →
  validate_manifest g root mp permissions' gates' argv' = Ok r' →
  ∃ manifest digest, one_reading f (resolve_path f mp) manifest digest ∧
    ∀ path, listed manifest (resolve_path f mp) path →
      ∃ c c', files f !! path = Some c ∧ files g !! path = Some c' ∧
              (c = c' ∨ (c ≠ c' ∧ sha256_hex c = sha256_hex c')).
Proof.
  intros [Hres Hobs].
  intros (manifest & digest & ars & vrs & Hread & _ & _ & _ & _ & _ & Har & Hvr & _)%manifest_ok.
  intros (manifest' & digest' & ars' & vrs' & Hread' & _ & _ & _ & _ & _ & Har' & Hvr' & _)%manifest_ok.
  exists manifest, digest. split; [exact Hread|].
  assert (manifest' = manifest) as ->.
  { destruct Hread as (o & Ho & Hj & _), Hread' as (o' & Ho' & Hj' & _).
    assert (o' = o) as -> by congruence. rewrite Hj in Hj'. apply Ok_inj in Hj'. congruence. }
  assert (Hsame : ∀ m pk sk c c' value, get m pk = JStr value →
    names_file f root (resolve_path f mp) m pk sk c → names_file g root (resolve_path g mp) m pk sk c' →
    let path := resolve_path f (join_path (parent_path (resolve_path f mp)) value) in
    ∃ c c', files f !! path = Some c ∧ files g !! path = Some c' ∧
            (c = c' ∨ (c ≠ c' ∧ sha256_hex c = sha256_hex c'))).
  { intros m pk sk c c' value Hv (v1 & s1 & Hp1 & Hs1 & Hf1 & Hh1 & _) (v2 & s2 & Hp2 & Hs2 & Hf2 & Hh2 & _).
    assert (v1 = value) as -> by congruence. assert (v2 = value) as -> by congruence.
    assert (s2 = s1) as -> by congruence. rewrite <- !Hres in Hf2.
    exists c, c'. split; [exact Hf1|]. split; [exact Hf2|].
    destruct (decide (c = c')); [by left | right; split; [done | congruence]]. }
  intros path (m & value & -> & [[Hin Hv]|[Hin Hv]]).
  - destruct (Forall2_left _ _ _ _ Har Hin) as (d & _ & (? & c & [= <-] & Hn)%artifact_ok).
    destruct (Forall2_left _ _ _ _ Har' Hin) as (d' & _ & (? & c' & [= <-] & Hn')%artifact_ok).
    by eapply Hsame.
  - destruct (Forall2_left _ _ _ _ Hvr Hin) as ([d k] & _ & (? & c & [= <-] & _ & Hn & _)%validation_ok).
    destruct (Forall2_left _ _ _ _ Hvr' Hin) as ([d' k'] & _ & (? & c' & [= <-] & _ & Hn' & _)%validation_ok).
    by eapply Hsame.
Qed.

(** every validation of an accepted manifest measured something, exited
    with 0 and has no failure, has skipped checks only where the gates allow
    them and then with a reason for each, and the totals returned are the sums
    of these counts, with no failure. *)
Theorem accepted_validations_pass mp permissions gates argv r :
  validate_manifest f root mp permissions gates argv = Ok r →
  ∃ manifest digest cs, one_reading f (resolve_path f mp) manifest digest ∧
    Forall2 (λ v c, ∃ m, v = JObj m ∧ passing gates m c) (entries manifest "validations") cs ∧
    get r "totals" = jobj [("passed", JInt (total passed cs)); ("failed", JInt 0);
                           ("skipped", JInt (total skipped cs))] ∧
    (truthy (get_or gates "require_validation" (JBool true)) = true → cs ≠ []).
Proof.
  intros (manifest & digest & ars & vrs & Hread & _ & Ht & _ & _ & _ & _ & Hvr & Hv & _)%manifest_ok.
  exists manifest, digest, vrs.*2. split; [exact Hread|].
  assert (HF : Forall2 (λ v c, ∃ m, v = JObj m ∧ passing gates m c) (entries manifest "validations") vrs.*2).
  { apply Forall2_fmap_r. eapply Forall2_impl; [exact Hvr|].
    intros v [d c] (m & content & -> & _ & _ & Hc)%validation_ok. eauto. }
  split; [exact HF|]. split.
  - rewrite Ht, (total_zero _ failed); [done|]. apply Forall_forall. intros c Hc.
    apply list_elem_of_lookup in Hc as [i Hi].
    destruct (Forall2_lookup_r _ _ _ _ _ HF Hi) as (v & _ & m & _ & Hp). apply Hp.
  - intros Htr Hnil. apply Hv in Htr. rewrite Hnil in HF. by inversion HF.
Qed.

(** with the default gates an accepted manifest has a known-answer
    comparison and all of them agree; and it makes no GPU or performance claim
    the task does not permit. *)
Theorem accepted_claims_are_permitted mp permissions gates argv r :
  validate_manifest f root mp permissions gates argv = Ok r →
  ∃ manifest digest, one_reading f (resolve_path f mp) manifest digest ∧
    (truthy (get_or gates "require_known_answer_check" (JBool true)) = true →
     entries manifest "known_answer_checks" ≠ []) ∧
    Forall (λ k, ∃ m e o, k = JObj m ∧ get m "passed" = JBool true ∧
              m !! "expected" = Some e ∧ m !! "observed" = Some o ∧ py_eq e o = true)
      (entries manifest "known_answer_checks") ∧
    Forall (λ k, ∃ m kind, k = JObj m ∧ get m "kind" = JStr kind ∧ kind ∈ CLAIM_KINDS ∧
              (kind = "resource" → truthy (get_or permissions "gpu" (JBool false)) = true) ∧
              (kind = "performance" →
               truthy (get_or permissions "performance_metrics" (JBool false)) = true))
      (entries manifest "claims").
Proof.
  intros (manifest & digest & ars & vrs & Hread & _ & _ & _ & _ & _ & _ & _ & _ & Hk & Hks & Hcs)%manifest_ok.
  exists manifest, digest. split; [exact Hread|]. split; [exact Hk|]. split.
  - eapply Forall_impl; [exact Hks|]. intros [| | | | | |m] Hm; try discriminate Hm. cbn in Hm. inv_res.
    destruct (m !! "expected") as [e|] eqn:He, (m !! "observed") as [o|] eqn:Ho; try discriminate Hm.
    exists m, e, o. apply raise_if_ok, py_neq_false in Hm. bool_split.
    destruct (get m "passed") as [|[]| | | | |]; naive_solver.
  - eapply Forall_impl; [exact Hcs|]. intros [| | | | | |m] Hm; try discriminate Hm. cbn in Hm.
    apply bind_ok in Hm as (known & Hkn & Hm). inv_res. bool_split. subst.
    destruct (get m "kind") as [| | | |kind| |] eqn:Ek; try discriminate. cbn in Hkn.
    injection Hkn as Hkn. apply bool_decide_eq_true in Hkn.
    exists m, kind. split; [done|]. split; [done|]. split; [done|].
    split; intros ->; eapply guard_false; eauto; reflexivity.
Qed.
End properties.

(** ** Well-formed reports *)

(** No line of [s] starts with [##]; [bol] holds at the beginning of a line. *)
Fixpoint plain (bol : bool) (s : string) : bool :=
  match s with
  | EmptyString => true
  | String c r => negb (bol && starts_with "##" s) && plain (Ascii.eqb c "010") r
  end.

(** [## i.] and a body that ends its line. *)
Definition section_text (i : ascii) (body : string) : string :=
  "## " +:+ String i ("." +:+ body +:+ newline).
Fixpoint report_text (l : list (ascii * string)) : string :=
  match l with
  | [] => ""
  | (i, body) :: l => section_text i body +:+ report_text l
  end.

Lemma prefix_cons a p c s :
  starts_with (String a p) (String c s) = if ascii_dec a c then starts_with p s else false.
Proof. reflexivity. Qed.

Lemma heading_prefix s t : starts_with "##" (s +:+ newline +:+ t) = starts_with "##" s.
Proof.
  assert (Hnl : ∀ p, starts_with (String "#" p) (newline +:+ t) = false) by reflexivity.
  assert (Hn : ∀ p x, starts_with p (String x "") = starts_with p (String x "")) by reflexivity.
  destruct s as [|c [|d s]]; [apply Hnl| |];
    rewrite ?str_app_cons, ?str_app_nil_l, !prefix_cons, ?Hnl; destruct (ascii_dec "#" c); try done.
  destruct (ascii_dec "#" d); [|done]. unfold starts_with.
  by destruct (s +:+ newline +:+ t), s.
Qed.

Lemma match_section_none s : starts_with "##" s = false → match_section s = None.
Proof. unfold match_section. by intros ->. Qed.

Lemma sections_plain s t n bol : plain bol s = true →
  sections (String.length s + S n) bol (s +:+ newline +:+ t) =
  let '(text, l) := sections n true t in (s +:+ newline +:+ text, l).
Proof.
  revert bol. induction s as [|c s IH]; intros bol.
  - intros _. change ("" +:+ newline +:+ t) with (String "010" t).
    change (String.length "" + S n)%nat with (S n). cbn [sections].
    destruct bol; [rewrite match_section_none by reflexivity|];
      change (Ascii.eqb "010" "010") with true; by destruct (sections n true t).
  - cbn [plain]. intros [Hb Hp]%andb_true_iff.
    assert (Hm : (if bol then match_section (String c s +:+ newline +:+ t) else None) = None).
    { destruct bol; [|done]. apply match_section_none. rewrite heading_prefix.
      cbn [andb] in Hb. by apply negb_true_iff in Hb. }
    change (String.length (String c s) + S n)%nat with (S (String.length s + S n)).
    change (String c s +:+ newline +:+ t) with (String c (s +:+ newline +:+ t)) in *.
    cbn [sections]. rewrite Hm, (IH _ Hp). by destruct (sections n true t).
Qed.

Lemma substring_all n s : (String.length s ≤ n)%nat → String.substring 0 n s = s.
Proof. revert s. induction n; intros [|c s]; cbn; intros; try lia; f_equal; auto with lia. Qed.

Lemma section_digit i : in_range 49 54 i = true → i ∈ ["1"; "2"; "3"; "4"; "5"; "6"]%char.
Proof. destruct i as [[] [] [] [] [] [] [] []]; first [discriminate 1 | intros _; by_compute]. Qed.

Lemma match_heading i r : in_range 49 54 i = true →
  match_section ("## " +:+ String i (String "." r)) = Some (i, r).
Proof.
  intros Hi. unfold match_section. rewrite !str_app_cons, str_app_nil_l, !prefix_cons.
  cbn [starts_with String.prefix ascii_dec]. 
  change (starts_with "" _) with true. cbn match.
  cbn [String.length String.substring]. rewrite substring_all by lia.
  change (drop_space (String " " (String i (String "." r)))) with (Some (String i (String "." r))).
  cbn [mbind option_bind].
  assert (Hl : lstrip (String i (String "." r)) = String i (String "." r)).
  { apply section_digit in Hi. set_unfold in Hi.
    destruct Hi as [->|[->|[->|[->|[->|[->|[]]]]]]]; by destruct r. }
  rewrite Hl, Hi. done.
Qed.

Lemma sections_heading i body t n : in_range 49 54 i = true → plain false body = true →
  sections (S (String.length body + S n)) true (section_text i body +:+ t) =
  let '(text, l) := sections n true t in ("", (String i "", body +:+ newline +:+ text) :: l).
Proof.
  intros Hi Hp.
  assert (Hs : section_text i body +:+ t = "## " +:+ String i (String "." (body +:+ newline +:+ t))).
  { unfold section_text. by rewrite !str_app_cons, !str_app_nil_l, !str_app_cons, <- !str_app_assoc. }
  rewrite Hs. pose proof (match_heading i (body +:+ newline +:+ t) Hi) as Hm.
  change ("## " +:+ String i (String "." (body +:+ newline +:+ t)))
    with (String "#" (String "#" (String " " (String i (String "." (body +:+ newline +:+ t)))))) in *.
  cbn [sections]. rewrite Hm. cbn [String.length].
  replace (S (S (S (S (S (String.length (body +:+ newline +:+ t)))))) -
           String.length (body +:+ newline +:+ t) - 1)%nat with 4%nat by lia.
  cbn [String.get]. change (Ascii.eqb "." "010") with false. rewrite andb_false_r.
  rewrite sections_plain by done. by destruct (sections n true t).
Qed.

(** The sections of a report text, under any sufficient fuel. *)
Lemma sections_report l n :
  Forall (λ p, in_range 49 54 p.1 = true ∧ plain false p.2 = true) l →
  (String.length (report_text l) < n)%nat →
  sections n true (report_text l) = ("", (λ p, (String p.1 "", p.2 +:+ newline)) <$> l).
Proof.
  revert n. induction l as [|[i body] l IH]; intros n Hl Hn; [by destruct n|].
  apply Forall_cons in Hl as [[Hi Hp] Hl]. cbn [report_text] in Hn |- *. cbn [fst snd] in Hi, Hp.
  assert (Hlen : (String.length body + 6 + String.length (report_text l) ≤
                  String.length (section_text i body +:+ report_text l))%nat).
  { unfold section_text, newline. rewrite !str_app_length. cbn. rewrite !str_app_length. cbn. lia. }
  replace n with (S (String.length body + S (n - String.length body - 2)))%nat by lia.
  rewrite sections_heading, IH by (done || lia). cbn. by rewrite str_app_nil_r.
Qed.

(** the worker report of the protocol is accepted: a text of the six
    numbered sections in order, each with a body that is not blank and in which
    no line starts a further section, without the fill marker, is valid, and the
    result records its digest and sections. *)
Theorem wellformed_report_accepted `{Hashing} (f : fs) path bodies :
  length bodies = 6%nat →
  let l := zip ["1"; "2"; "3"; "4"; "5"; "6"]%char bodies in
  let text := report_text l in
  Forall (λ b, plain false b = true ∧ strip (b +:+ newline) ≠ "") bodies →
  files f !! path = Some text → utf8_valid text = true → universal_newlines text = text →
  contains "[FILL]" (upper text) = false →
  validate_report f path =
  Ok (dict_of [("path", JStr path); ("sha256", JStr (sha256_hex text));
               ("sections", jstrs required_sections); ("contains_fill_marker", JBool false)]).
Proof.
  intros Hlen l text Hb Hf Hu Hnl Hfill. unfold validate_report, sha256_file.
  rewrite Hf, Hu. cbn [negb raise_if mbind res_bind]. rewrite Hnl, Hfill. subst text.
  cbn [raise_if mbind res_bind].
  assert (Hl : Forall (λ p, in_range 49 54 p.1 = true ∧ plain false p.2 = true) l ∧
               Forall (λ p, strip (p.2 +:+ newline) ≠ "") l ∧ (λ p, String p.1 "") <$> l = required_sections).
  { subst l. do 7 (destruct bodies as [|? bodies]; try discriminate Hlen).
    repeat match goal with Hx : Forall _ (_ :: _) |- _ => apply Forall_cons in Hx as [[? ?] Hx] end.
    split; [|split]; [repeat constructor; done..|reflexivity]. }
  destruct Hl as (Hp & Hs & Hn). rewrite sections_report by (done || lia).
  cbn [snd]. rewrite <- list_fmap_compose. cbn [compose].
  change ((fst ∘ λ p : ascii * string, (String p.1 "", p.2 +:+ newline)) <$> l)
    with ((λ p : ascii * string, String p.1 "") <$> l).
  rewrite Hn. change (forallb _ required_sections) with true. rewrite bool_decide_eq_true_2 by done.
  cbn [negb raise_if mbind res_bind].
  replace (existsb _ _) with false; [done|]. symmetry. apply not_true_is_false.
  intros (m & Hm & Hblank)%existsb_exists. apply list_elem_of_In in Hm.
  apply list_elem_of_fmap in Hm as (p & -> & Hpl). bool_split.
  rewrite Forall_forall in Hs. by apply (Hs p).
Qed.

(** ** A concrete submission *)

Module Concrete.
Definition bodies : list string :=
  [" Summary"; " Changes"; " Tests"; " Known answers"; " Limits"; " Next"].
Definition report : string := report_text (zip ["1"; "2"; "3"; "4"; "5"; "6"]%char bodies).
Definition output : string := "3 passed, 1 skipped".
Definition out_sha : string := upper (sha256_hex output).
Definition manifest_text : string := canonical_json (jobj [
  ("schema_version", JInt 1);
  ("artifacts", JList [jobj [("path", JStr "report.md"); ("sha256", JStr (sha256_hex report))]]);
  ("validations", JList [jobj [
     ("command", JStr "pytest -q"); ("command_argv", jstrs ["pytest"; "-q"]);
     ("exit_code", JInt 0); ("passed", JInt 3); ("failed", JInt 0); ("skipped", JInt 1);
     ("skip_reasons", jstrs ["no GPU"]);
     ("raw_output_path", JStr "out.txt"); ("raw_output_sha256", JStr out_sha)]]);
  ("known_answer_checks", JList [jobj [("passed", JBool true); ("expected", JInt 4);
                                       ("observed", JInt 4)]]);
  ("claims", JList [jobj [("kind", JStr "performance")]])]).
Definition meta : stat := Stat 1 7 (Z.of_nat (String.length manifest_text)) 1000.
(** Paths are their own resolution; the manifest is read unchanged. *)
Definition store (other : string) : fs := {|
  resolve_path p := p;
  files := list_to_map [("/w/r/manifest.json", manifest_text); ("/w/r/report.md", report);
                        ("/w/r/out.txt", output); ("/w/r/other.txt", other)];
  observe p := if bool_decide (p = "/w/r/manifest.json")
               then Some (Observation meta manifest_text meta meta) else None
|}.
Definition permissions : dict := dict_of [("performance_metrics", JBool true)].
Definition gates : dict := dict_of [("allow_skips", JBool true)].
Definition check (other : string) : res dict :=
  validate_manifest (store other) (Some "/w/r") "/w/r/manifest.json" permissions gates true.

Lemma accepted : is_ok (check "") = true ∧ is_ok (check "x") = true.
Proof. split; vm_compute; reflexivity. Qed.

(** Both reports and manifests of the submission are accepted together; under
    another root, or without the permission, they are not. *)
Example submission_accepted :
  is_ok (validate_submission (store "") (Some "/w/r") "/w/r/report.md" "/w/r/manifest.json"
           permissions gates) = true.
Proof. vm_compute. reflexivity. Qed.
Example escaping_submission_rejected :
  is_ok (validate_submission (store "") (Some "/w/q") "/w/r/report.md" "/w/r/manifest.json"
           permissions gates) = false.
Proof. vm_compute. reflexivity. Qed.
Example unpermitted_submission_rejected :
  is_ok (validate_submission (store "") (Some "/w/r") "/w/r/report.md" "/w/r/manifest.json"
           ∅ gates) = false.
Proof. vm_compute. reflexivity. Qed.
End Concrete.
#[local] Opaque Concrete.manifest_text Concrete.store validate_manifest.

Lemma accepted_files_match_witness : ∃ r, Concrete.check "" = Ok r ∧
  ∃ manifest digest, one_reading (Concrete.store "") "/w/r/manifest.json" manifest digest ∧
    get r "manifest_sha256" = JStr digest.
Proof.
  destruct Concrete.accepted as [H _]. unfold Concrete.check in *.
  destruct (validate_manifest _ _ _ _ _ _) as [r|] eqn:E; [|discriminate H]. exists r. split; [done|].
  destruct (accepted_files_match _ _ _ _ _ _ _ E) as (m & d & Hr & Hd & _).
  exists m, d. split; [exact Hr | exact Hd].
Defined.

Lemma listed_files_are_pinned_witness : ∃ r r', Concrete.check "" = Ok r ∧ Concrete.check "x" = Ok r' ∧
  ∃ manifest digest, one_reading (Concrete.store "") "/w/r/manifest.json" manifest digest.
Proof.
  destruct Concrete.accepted as [H H']. unfold Concrete.check in *.
  destruct (validate_manifest (Concrete.store "") _ _ _ _ _) as [r|] eqn:E; [|discriminate H].
  destruct (validate_manifest (Concrete.store "x") _ _ _ _ _) as [r'|] eqn:E'; [|discriminate H'].
  exists r, r'. split; [done|]. split; [done|].
  assert (Hs : same_reading (Concrete.store "") (Concrete.store "x") "/w/r/manifest.json").
  { split; reflexivity. }
  destruct (listed_files_are_pinned _ _ _ _ _ _ _ _ _ _ _ _ Hs E E') as (m & d & Hr & _).
  exists m, d. exact Hr.
Defined.

Lemma accepted_validations_pass_witness : ∃ r, Concrete.check "" = Ok r ∧
  ∃ cs, cs ≠ [] ∧ get r "totals" = jobj [("passed", JInt (total passed cs)); ("failed", JInt 0);
                           ("skipped", JInt (total skipped cs))].
Proof.
  destruct Concrete.accepted as [H _]. unfold Concrete.check in *.
  destruct (validate_manifest _ _ _ _ _ _) as [r|] eqn:E; [|discriminate H]. exists r. split; [done|].
  destruct (accepted_validations_pass _ _ _ _ _ _ _ E) as (m & d & cs & _ & _ & Ht & Hne).
  exists cs. split; [by apply Hne | exact Ht].
Defined.

Lemma accepted_claims_are_permitted_witness : ∃ r, Concrete.check "" = Ok r ∧
  ∃ manifest digest, one_reading (Concrete.store "") "/w/r/manifest.json" manifest digest ∧
    entries manifest "known_answer_checks" ≠ [].
Proof.
  destruct Concrete.accepted as [H _]. unfold Concrete.check in *.
  destruct (validate_manifest _ _ _ _ _ _) as [r|] eqn:E; [|discriminate H]. exists r. split; [done|].
  destruct (accepted_claims_are_permitted _ _ _ _ _ _ _ E) as (m & d & Hr & Hk & _).
  exists m, d. split; [exact Hr | by apply Hk].
Defined.

Lemma wellformed_report_accepted_witness :
  validate_report (Concrete.store "") "/w/r/report.md" =
  Ok (dict_of [("path", JStr "/w/r/report.md"); ("sha256", JStr (sha256_hex Concrete.report));
               ("sections", jstrs required_sections); ("contains_fill_marker", JBool false)]).
Proof.
  apply (wellformed_report_accepted (Concrete.store "") "/w/r/report.md" Concrete.bodies);
    [reflexivity | | vm_compute; reflexivity..].
  repeat constructor; vm_compute; (reflexivity || discriminate).
Defined.
