(* ===== verification/Archive.v ===== *)
(** * Immutable retention of evidence ([archive.py])

    The archiver reads and writes the files of [Evidence.fs]; a temporary copy
    is removed on every path out of the function that makes it, so it leaves no
    trace in the files. *)

From S2P Require Export Files Evidence.

(** ** Names *)

(** [path.name]: what follows the last slash. *)
Definition path_name (p : string) : string :=
  match last_slash 0 p with
  | Some i => String.substring (S i) (String.length p) p
  | None => p
  end.

(** [SAFE_NAME_RE.sub("_", s)]: every maximal run of other characters becomes
    one underscore; [run] holds inside such a run. *)
Fixpoint sub_unsafe (run : bool) (s : string) : string :=
  match s with
  | EmptyString => ""
  | String c r =>
      if ident_char c then String c (sub_unsafe false r)
      else if run then sub_unsafe true r else String "_" (sub_unsafe true r)
  end.

(** [s.strip("._")] *)
Fixpoint lstrip_chars (chars s : string) : string :=
  match s with
  | String c r => if char_in chars c then lstrip_chars chars r else s
  | EmptyString => ""
  end.

Definition _safe_name (path : string) : string :=
  let value := lstrip_chars "._" (rstrip_chars "._" (sub_unsafe false (path_name path))) in
  if bool_decide (value = "") then "artifact" else value.

(** [f"{attempt:03d}"] *)
Definition attempt_text (attempt : json) : res string :=
  match int_of attempt with
  | Some n =>
      let digits := string_of_Z (Z.abs n) in
      let sign := if n <? 0 then "-" else "" in
      Ok (sign +:+ zeros (3 - String.length sign - String.length digits) +:+ digits)
  | None => raise ValueError "Unknown format code 'd'"
  end.

(** A string field of a record made by the evidence validation. *)
Definition as_str (v : json) : res string :=
  match v with JStr s => Ok s | _ => raise TypeError "not a string" end.

(** [a or b] *)
Definition py_or (a b : json) : json := if truthy a then a else b.

(** ** Retention *)

Definition write_file (p content : string) (f : fs) : fs :=
  {| resolve_path := resolve_path f; files := <[p := content]> (files f); observe := observe f |}.

(** A file to retain: source, expected digest, kind, and whether it is copied
    at any size. *)
Record candidate := Candidate {
  c_source : string; c_sha : string; c_kind : string; c_force : bool
}.

Section archive.
Context `{Hashing}.

Definition _atomic_copy_verified (source destination expected_sha : string) : M fs unit :=
  content ← askM (λ f, res_of_option (Exn FileNotFoundError source) (files f !! source));
  _ ← raise_ifM (negb (bool_decide (sha256_hex content = expected_sha))) EvidenceError
        "Evidence changed while being archived";
  existing ← readM (λ f, files f !! destination);
  match existing with
  | Some old =>
      raise_ifM (negb (bool_decide (sha256_hex old = expected_sha))) EvidenceError
        "Archived evidence path already has different content"
  | None => modifyM (write_file destination content)
  end.

Definition path_field (f : fs) (v : json) (key : string) : res string :=
  v ← jitem v key; s ← as_str v; Ok (resolve_path f s).
Definition sha_field (v : json) : res string := v ← jitem v "sha256"; as_str v.

Definition list_field (m : dict) (key : string) : res (list json) :=
  match get_or m key (JList []) with
  | JList l => Ok l
  | _ => raise TypeError "not a list"
  end.

(** The manifest's digest and path under either name. *)
Definition manifest_sha_of (manifest : dict) : json :=
  py_or (get manifest "sha256") (py_or (get manifest "manifest_sha256") (JStr (zeros 64))).
Definition manifest_path_of (manifest : dict) : json :=
  py_or (get manifest "path") (get manifest "manifest_path").

Definition candidate_of (f : fs) (kind : string) (force : bool) (v : json) : res candidate :=
  p ← path_field f v "path"; s ← sha_field v; Ok (Candidate p s kind force).

(** The files of the bundle in order: report, manifest, artifacts, raw
    outputs, extra files. *)
Definition bundle_files (f : fs) (report : option dict) (manifest : dict) (manifest_sha : string)
    (extra_files : list json) : res (list candidate) :=
  r ← (match report with
       | Some report => c ← candidate_of f "report" true (JObj report); Ok [c]
       | None => Ok []
       end);
  m ← (if truthy (manifest_path_of manifest) then
         p ← as_str (manifest_path_of manifest);
         Ok [Candidate (resolve_path f p) manifest_sha "manifest" true]
       else Ok []);
  artifacts ← list_field manifest "artifacts";
  a ← res_mapM (candidate_of f "artifact" false) artifacts;
  validations ← list_field manifest "validations";
  o ← res_mapM (λ v, raw_output ← jget v "raw_output";
                     if truthy raw_output then
                       c ← candidate_of f "raw_output" false raw_output; Ok [c]
                     else Ok []) validations;
  e ← res_mapM (λ v, d ← as_dict v;
                     candidate_of f (str_of (get_or d "kind" (JStr "extra")))
                       (truthy (get_or d "force" (JBool true))) v) extra_files;
  Ok (r ++ m ++ a ++ concat o ++ e).

Definition archive_target (destination : string) (c : candidate) : string :=
  destination +:+ "/files/" +:+ c_sha c +:+ "_" +:+ _safe_name (c_source c).

Definition retained_record (c : candidate) (size : Z) (archive_path : option string) : dict :=
  dict_of [("kind", JStr (c_kind c)); ("source", JStr (c_source c)); ("sha256", JStr (c_sha c));
           ("size_bytes", JInt size);
           ("retained", JBool (bool_decide (is_Some archive_path)));
           ("archive_path", match archive_path with Some p => JStr p | None => JNull end)].

(** The loop over the files; [seen] are the pairs of source and digest already
    handled. *)
Fixpoint retain (destination : string) (max_artifact_bytes : Z) (seen : list (string * string))
    (l : list candidate) : M fs (list dict) :=
  match l with
  | [] => mret []
  | c :: l =>
      if bool_decide ((c_source c, c_sha c) ∈ seen) then
        retain destination max_artifact_bytes seen l
      else
        content ← askM (λ f, res_of_option (Exn EvidenceError "Evidence disappeared before archival")
                               (files f !! c_source c));
        let size := Z.of_nat (String.length content) in
        let should_copy : bool := c_force c || (size <=? max_artifact_bytes) in
        let target := archive_target destination c in
        _ ← (if should_copy then _atomic_copy_verified (c_source c) target (c_sha c) else mret tt);
        records ← retain destination max_artifact_bytes ((c_source c, c_sha c) :: seen) l;
        mret (retained_record c size (if should_copy then Some target else None) :: records)
  end.

Definition is_retained (r : dict) : bool := truthy (get r "retained").

(** The directory of a bundle and its index file. *)
Definition bundle_id_of (label manifest_sha : string) : string :=
  label +:+ "-" +:+ String.substring 0 16 manifest_sha.
Definition bundle_destination (f : fs) (submissions_root task_id : string) (attempt : json)
    (bundle_id : string) : res string :=
  text ← attempt_text attempt;
  Ok (resolve_path f (submissions_root +:+ "/" +:+ task_id +:+ "/attempt-" +:+ text +:+ "/" +:+
                      bundle_id)).
Definition bundle_path_of (destination : string) : string := destination +:+ "/bundle.json".

Definition bundle_record (task_id : string) (attempt : json) (label manifest_sha : string)
    (max_artifact_bytes : Z) (retained : list dict) : dict :=
  dict_of [
    ("schema_version", JInt 1); ("task_id", JStr task_id); ("attempt", attempt);
    ("label", JStr label); ("manifest_sha256", JStr manifest_sha);
    ("max_artifact_bytes", JInt max_artifact_bytes); ("files", JList (JObj <$> retained))].

Definition archive_evidence_bundle (submissions_root task_id : string) (attempt : json)
    (label : string) (report : option dict) (manifest : dict) (max_artifact_bytes : Z)
    (extra_files : list json) : M fs dict :=
  _ ← raise_ifM (max_artifact_bytes <? 0) EvidenceError "max_artifact_bytes cannot be negative";
  manifest_sha ← liftM (as_str (manifest_sha_of manifest));
  let bundle_id := bundle_id_of label manifest_sha in
  destination ← askM (λ f, bundle_destination f submissions_root task_id attempt bundle_id);
  l ← askM (λ f, bundle_files f report manifest manifest_sha extra_files);
  retained ← retain destination max_artifact_bytes [] l;
  let bundle := bundle_record task_id attempt label manifest_sha max_artifact_bytes retained in
  let bundle_path := bundle_path_of destination in
  _ ← modifyM (write_file bundle_path (atomic_write_json bundle));
  mret (dict_of [
    ("task_id", JStr task_id); ("attempt", attempt); ("label", JStr label);
    ("bundle_id", JStr bundle_id); ("path", JStr destination);
    ("manifest_path", JStr bundle_path);
    ("manifest_sha256", JStr (sha256_hex (atomic_write_json bundle)));
    ("files", JList (JObj <$> retained));
    ("retained", JInt (Z.of_nat (length (filter (λ r, is_retained r = true) retained))));
    ("external", JInt (Z.of_nat (length (filter (λ r, is_retained r = false) retained))))]).
End archive.

(** ** Retention only adds files *)

(** Every file of [f], the path [b] apart, is in [g] with its content. *)
Definition keeps (b : string → Prop) (f g : fs) : Prop :=
  ∀ p c, ¬ b p → files f !! p = Some c → files g !! p = Some c.
Definition same_paths (f g : fs) : Prop :=
  resolve_path f = resolve_path g ∧ observe f = observe g.
Notation nowhere := (λ _ : string, False).

Lemma keeps_refl b f : keeps b f f.
Proof. by intros p c. Qed.
Lemma keeps_trans b f g h : keeps b f g → keeps b g h → keeps b f h.
Proof. intros H1 H2 p c Hb Hp. by apply H2, H1. Qed.
Lemma keeps_weaken (b : string → Prop) f g : keeps nowhere f g → keeps b f g.
Proof. intros Hk p c _. apply Hk. tauto. Qed.

Lemma write_same p c f : files f !! p = Some c → write_file p c f = f.
Proof. intros Hp. destruct f. unfold write_file. cbn in *. by rewrite insert_id. Qed.

Lemma keeps_write b p c f : b p ∨ files f !! p = None → keeps b f (write_file p c f).
Proof.
  intros Hor q d Hb Hq. cbn. rewrite lookup_insert_ne; [done|].
  intros ->. destruct Hor; congruence.
Qed.

Section retention.
Context `{Hashing}.

(** Files of [g] that are not in [f] hold the content their name promises. *)
Definition addressed (destination : string) (f g : fs) : Prop :=
  ∀ p c, files g !! p = Some c → files f !! p = Some c ∨
    ∃ source, p = destination +:+ "/files/" +:+ sha256_hex c +:+ "_" +:+ _safe_name source.

Lemma addressed_trans d f g h : addressed d f g → addressed d g h → addressed d f h.
Proof. intros H1 H2 p c Hp. destruct (H2 _ _ Hp) as [Hg|]; [by apply H1 | by right]. Qed.

Lemma copy_spec c d f r f' : let target := archive_target d c in
  _atomic_copy_verified (c_source c) target (c_sha c) f = (r, f') →
  same_paths f f' ∧ keeps nowhere f f' ∧ addressed d f f' ∧
  (is_ok r = true → ∃ content old, files f' !! c_source c = Some content ∧
    sha256_hex content = c_sha c ∧ files f' !! target = Some old ∧ sha256_hex old = c_sha c).
Proof.
  cbn zeta. unfold _atomic_copy_verified, askM, readM, modifyM, raise_ifM, liftM, mbind, M_bind.
  destruct (files f !! c_source c) as [content|] eqn:Es; cbn [res_of_option];
    [|intros [= <- <-]; repeat split; (by apply keeps_refl) || (by left) || done].
  destruct (bool_decide (sha256_hex content = c_sha c)) eqn:Eh; cbn [negb raise_if raise];
    [|intros [= <- <-]; repeat split; (by apply keeps_refl) || (by left) || done].
  apply bool_decide_eq_true in Eh.
  destruct (files f !! archive_target d c) as [old|] eqn:Et.
  - intros [= <- <-]. split; [done|]. split; [apply keeps_refl|]. split; [by left|].
    destruct (bool_decide (sha256_hex old = c_sha c)) eqn:Eo; [|done].
    apply bool_decide_eq_true in Eo. intros _. by exists content, old.
  - intros [= <- <-]. split; [done|]. split; [apply keeps_write; by right|]. split.
    + intros p x. cbn. intros [[<- <-]|[_ ?]]%lookup_insert_Some; [|by left].
      right. exists (c_source c). unfold archive_target. by rewrite Eh.
    + intros _. exists content, content. split; [|split; [done|split; [|done]]].
      * cbn. rewrite lookup_insert_ne; [done|congruence].
      * apply lookup_insert_eq.
Qed.

(** What a successful pass over [l] leaves: every file not seen before is read
    with the recorded size and, where it is to be copied, its target holds the
    expected digest. *)
Definition retained_as (d : string) (mx : Z) (f : fs) (c : candidate) (r : dict) : Prop :=
  ∃ content, files f !! c_source c = Some content ∧
    let size := Z.of_nat (String.length content) in
    let copy := c_force c || (size <=? mx) in
    r = retained_record c size (if copy then Some (archive_target d c) else None) ∧
    (copy = true → sha256_hex content = c_sha c ∧
      ∃ old, files f !! archive_target d c = Some old ∧ sha256_hex old = c_sha c).

Lemma retained_as_mono d mx f g c r :
  keeps nowhere f g → retained_as d mx f c r → retained_as d mx g c r.
Proof.
  intros Hk (content & Hs & -> & Hc). exists content. split; [by apply Hk; [tauto|]|].
  split; [done|]. intros (Hd & old & Ho & ?)%Hc. split; [done|]. exists old. by split; [apply Hk; [tauto|]|].
Qed.

Lemma retain_step d mx c f content r1 f1 : files f !! c_source c = Some content →
  let copy := c_force c || (Z.of_nat (String.length content) <=? mx) in
  (if copy then _atomic_copy_verified (c_source c) (archive_target d c) (c_sha c) else mret tt) f
    = (r1, f1) →
  same_paths f f1 ∧ keeps nowhere f f1 ∧ addressed d f f1 ∧
  (is_ok r1 = true → retained_as d mx f1 c
     (retained_record c (Z.of_nat (String.length content))
        (if copy then Some (archive_target d c) else None))).
Proof.
  intros Es copy. destruct copy eqn:Ec; unfold copy in Ec.
  - intros (? & Hk & ? & Hok)%copy_spec. do 3 (split; [done|]).
    intros (content' & old & Hc & Hh & Ht & Ho)%Hok.
    assert (content' = content) as -> by (apply (Hk _ _ (λ x, x)) in Es; congruence).
    exists content. split; [done|]. cbn zeta. rewrite Ec. eauto.
  - intros [= <- <-]. split; [done|]. split; [apply keeps_refl|]. split; [by left|].
    intros _. exists content. split; [done|]. cbn zeta. by rewrite Ec.
Qed.

Lemma retain_spec d mx l : ∀ seen f r f', retain d mx seen l f = (r, f') →
  same_paths f f' ∧ keeps nowhere f f' ∧ addressed d f f' ∧
  (∀ rs, r = Ok rs →
    (∀ c, c ∈ l → (c_source c, c_sha c) ∉ seen →
       ∃ c' x, c_source c' = c_source c ∧ c_sha c' = c_sha c ∧ x ∈ rs ∧ retained_as d mx f' c' x) ∧
    Forall (λ x, ∃ c, c ∈ l ∧ retained_as d mx f' c x) rs).
Proof.
  induction l as [|c l IH]; intros seen f r f'; cbn [retain].
  - intros [= <- <-]. split; [done|]. split; [apply keeps_refl|]. split; [by left|].
    intros rs [= <-]. split; [by intros c ?%not_elem_of_nil | constructor].
  - case_bool_decide as Hseen.
    { intros (? & ? & ? & Hrs)%IH. do 3 (split; [done|]). intros rs Hr.
      destruct (Hrs rs Hr) as [Hin Hall]. split.
      - intros c' [->|Hc']%elem_of_cons Hns; [done|]. by apply Hin.
      - eapply Forall_impl; [exact Hall|]. intros x (c' & ? & ?). exists c'. by split; [right|]. }
    unfold mbind at 1, M_bind at 1, askM.
    destruct (files f !! c_source c) as [content|] eqn:Es; cbn [res_of_option];
      [|intros [= <- <-]; repeat split; (by apply keeps_refl) || (by left) || done].
    pose proof (λ r1 f1, retain_step d mx c f content r1 f1 Es) as Hstep. cbn zeta in Hstep.
    set (copy := c_force c || (Z.of_nat (String.length content) <=? mx)) in *.
    set (x0 := retained_record c _ _) in *.
    unfold mbind at 1, M_bind at 1.
    match goal with |- context [match ?m f with _ => _ end] => destruct (m f) as [[[]|e] f1] eqn:E1 end;
      destruct (Hstep _ _ eq_refl) as ([? ?] & Hk1 & Ha1 & Hr1);
      [|intros [= <- <-]; by repeat split].
    unfold mbind at 1, M_bind at 1.
    destruct (retain _ _ _ l f1) as [r2 f2] eqn:E2. apply IH in E2 as ([? ?] & Hk2 & Ha2 & Hrs).
    assert (Hkk : keeps nowhere f f2) by (by eapply keeps_trans).
    destruct r2 as [rs|e].
    + intros [= <- <-]. split; [split; congruence|]. split; [done|]. split; [by eapply addressed_trans|].
      intros ? [= <-]. destruct (Hrs rs eq_refl) as [Hin Hall].
      specialize (Hr1 eq_refl). eapply retained_as_mono in Hr1; [|exact Hk2]. split.
      * intros c' [->|Hc']%elem_of_cons Hns; [eexists c, _; by repeat (split; [constructor|])|].
        destruct (decide ((c_source c', c_sha c') = (c_source c, c_sha c))) as [[= Hs Hh]|Hne].
        { exists c, x0.
          repeat split; try done. constructor. }
        destruct (Hin c') as (c2 & x & ? & ? & ? & ?); [done | by apply not_elem_of_cons|].
        exists c2, x. repeat split; try done. by constructor.
      * constructor; [exists c; by split; [constructor|]|].
        eapply Forall_impl; [exact Hall|]. intros x (c' & ? & ?). exists c'. by split; [right|].
    + intros [= <- <-]. split; [split; congruence|]. split; [done|]. split; [by eapply addressed_trans|]. done.
Qed.

Lemma bundle_not_target d c : archive_target d c ≠ bundle_path_of d.
Proof.
  unfold archive_target, bundle_path_of. induction d as [|a d IH]; [done|].
  rewrite !str_app_cons. intros [= Hd]. by apply IH.
Qed.

(** A second pass over the same files changes nothing and reports the same. *)
Lemma retain_again d mx l : ∀ seen f rs f' g, retain d mx seen l f = (Ok rs, f') →
  keeps (λ p, p = bundle_path_of d) f' g → Forall (λ c, c_source c ≠ bundle_path_of d) l →
  retain d mx seen l g = (Ok rs, g).
Proof.
  induction l as [|c l IH]; intros seen f rs f' g; cbn [retain].
  { by intros [= <- <-]. }
  intros Hr Hg [Hc Hl]%Forall_cons. case_bool_decide; [by eapply IH|].
  apply M_bind_ok in Hr as (content & f0 & [Es ->]%askM_ok & Hr).
  destruct (files f !! c_source c) as [x|] eqn:Ex; [|done]. injection Es as ->.
  apply M_bind_ok in Hr as ([] & f1 & Hcopy & Hr).
  pose proof (retain_step d mx c f content _ _ Ex Hcopy) as (_ & Hk1 & _ & Hstep).
  specialize (Hstep eq_refl). destruct Hstep as (content' & Hs1 & _ & Htarget).
  assert (content' = content) as -> by (apply (Hk1 _ _ (λ x, x)) in Ex; congruence).
  apply M_bind_ok in Hr as (rs' & f2 & Hr & Hend). injection Hend as <- <-.
  pose proof (retain_spec _ _ _ _ _ _ _ Hr) as (_ & Hk2 & _).
  assert (Hsg : files g !! c_source c = Some content) by (apply Hg, Hk2; [done|tauto|done]).
  unfold mbind at 1, M_bind at 1, askM. rewrite Hsg. cbn [res_of_option].
  specialize (IH _ _ _ _ _ Hr Hg Hl).
  unfold mbind at 1, M_bind at 1.
  assert (Hstay : (if c_force c || (Z.of_nat (String.length content) <=? mx)
    then _atomic_copy_verified (c_source c) (archive_target d c) (c_sha c) else mret tt) g = (Ok tt, g)).
  { destruct (c_force c || _); [|done]. destruct (Htarget eq_refl) as (Hh & old & Ho & Hoh).
    assert (Hog : files g !! archive_target d c = Some old).
    { apply Hg, Hk2; [apply bundle_not_target | tauto | done]. }
    unfold _atomic_copy_verified, askM, readM, raise_ifM, liftM, mbind, M_bind.
    rewrite Hsg. cbn [res_of_option]. rewrite Hh, bool_decide_eq_true_2 by done. cbn [negb raise_if].
    by rewrite Hog, Hoh, bool_decide_eq_true_2 by done. }
  rewrite Hstay. unfold mbind, M_bind. by rewrite IH.
Qed.

(** The runs of the archiver: refused before any file is touched, stopped while
    retaining, or completed by writing the index. *)
Lemma archive_cases root task attempt label report manifest mx extra f r f' :
  archive_evidence_bundle root task attempt label report manifest mx extra f = (r, f') →
  (is_ok r = false ∧ f' = f) ∨
  ∃ sha d cands r1 f1, as_str (manifest_sha_of manifest) = Ok sha ∧ mx <? 0 = false ∧
    bundle_destination f root task attempt (bundle_id_of label sha) = Ok d ∧
    bundle_files f report manifest sha extra = Ok cands ∧ retain d mx [] cands f = (r1, f1) ∧
    match r1 with
    | Err e => r = Err e ∧ f' = f1
    | Ok rs => f' = write_file (bundle_path_of d)
                      (atomic_write_json (bundle_record task attempt label sha mx rs)) f1 ∧
               ∃ x, r = Ok x ∧ get x "files" = JList (JObj <$> rs) ∧ get x "path" = JStr d ∧
                 get x "manifest_path" = JStr (bundle_path_of d)
    end.
Proof.
  unfold archive_evidence_bundle, raise_ifM, liftM, askM, modifyM.
  unfold mbind at 1, M_bind at 1.
  destruct (mx <? 0) eqn:Emx; cbn [raise_if raise]; [intros [= <- <-]; by left|].
  unfold mbind at 1, M_bind at 1.
  destruct (as_str (manifest_sha_of manifest)) as [sha|e] eqn:Esha; [|intros [= <- <-]; by left].
  unfold mbind at 1, M_bind at 1.
  destruct (bundle_destination f _ _ _ _) as [d|e] eqn:Ed; [|intros [= <- <-]; by left].
  unfold mbind at 1, M_bind at 1.
  destruct (bundle_files f _ _ _ _) as [cands|e] eqn:Ec; [|intros [= <- <-]; by left].
  unfold mbind at 1, M_bind at 1.
  destruct (retain d mx [] cands f) as [r1 f1] eqn:Er. intros Hend. right.
  exists sha, d, cands, r1, f1. do 4 (split; [first [done | exact Ed | exact Ec]|]). split; [done|].
  destruct r1 as [rs|e].
  - unfold mbind, M_bind, mret, M_ret in Hend.
    apply pair_equal_spec in Hend as [Hr <-]. split; [reflexivity|]. rewrite <- Hr.
    eexists. split; [reflexivity|]. repeat split; reflexivity.
  - by injection Hend as <- <-.
Qed.
End retention.

Section properties.
Context `{Hashing} (root task : string) (attempt : json) (label : string).
Context (report : option dict) (manifest : dict) (mx : Z) (extra : list json).
Notation archive := (archive_evidence_bundle root task attempt label report manifest mx extra).

(** retention is immutable and content-addressed: whether archiving ends
    normally or with an exception, no existing file other than the index of
    the bundle changes, and a file that appears is the index or carries the
    SHA-256 of its own content in its name. *)
Theorem retention_is_immutable f r f' : archive f = (r, f') →
  ∃ d, (∀ p c, p ≠ bundle_path_of d → files f !! p = Some c → files f' !! p = Some c) ∧
    (∀ p c, files f' !! p = Some c →
       files f !! p = Some c ∨ p = bundle_path_of d ∨
       ∃ source, p = d +:+ "/files/" +:+ sha256_hex c +:+ "_" +:+ _safe_name source).
Proof.
  intros [[_ ->]|(sha & d & cands & r1 & f1 & _ & _ & _ & _ & Hr & Hend)]%archive_cases.
  { exists "". split; [done|]. intros p c. by left. }
  apply retain_spec in Hr as (_ & Hk & Ha & _). exists d. destruct r1 as [rs|e].
  - destruct Hend as [-> _]. split; intros p c.
    + intros Hp Hf. cbn. rewrite lookup_insert_ne by congruence. by apply Hk; [tauto|].
    + cbn. intros [[<- _]|[_ [?|?]%Ha]]%lookup_insert_Some; tauto.
  - destruct Hend as [_ ->]. split; intros p c.
    + intros _ Hf. by apply Hk; [tauto|].
    + intros [?|?]%Ha; tauto.
Qed.

(** a completed archive accounts for every file of the bundle: each is
    reported under its source and digest, every reported file was present with
    the reported size, and one that is reported as retained is in the archive
    with the expected digest - always where it is forced, else up to the size
    limit. *)
Theorem archive_accounts_for_evidence f x f' : archive f = (Ok x, f') →
  ∃ sha d cands rs, bundle_files f report manifest sha extra = Ok cands ∧
    get x "files" = JList (JObj <$> rs) ∧ get x "path" = JStr d ∧
    (Forall (λ c, c_source c ≠ bundle_path_of d) cands →
     (∀ c, c ∈ cands → ∃ c' y, c_source c' = c_source c ∧ c_sha c' = c_sha c ∧
                       y ∈ rs ∧ retained_as d mx f' c' y) ∧
     Forall (λ y, ∃ c, c ∈ cands ∧ retained_as d mx f' c y) rs).
Proof.
  intros [[? _]|(sha & d & cands & r1 & f1 & _ & _ & _ & Hc & Hr & Hend)]%archive_cases; [done|].
  destruct r1 as [rs|e]; [|by destruct Hend].
  destruct Hend as [-> (y & Hy & Hfiles & Hpath & _)]. apply Ok_inj in Hy as <-.
  apply retain_spec in Hr as (_ & _ & _ & Hrs). destruct (Hrs rs eq_refl) as [Hin Hall].
  exists sha, d, cands, rs. do 3 (split; [done|]). intros Hsrc.
  assert (Hw : ∀ c z, c_source c ≠ bundle_path_of d → retained_as d mx f1 c z → ∀ t,
    retained_as d mx (write_file (bundle_path_of d) t f1) c z).
  { intros c z Hc0 (content & Hs & -> & Ht) t. exists content. cbn.
    rewrite lookup_insert_ne by congruence. split; [done|]. split; [done|].
    rewrite lookup_insert_ne by (intros ?; by apply (bundle_not_target d c)). done. }
  rewrite Forall_forall in Hsrc. split.
  - intros c Hc1. destruct (Hin c Hc1) as (c' & z & Hs & Hh & Hz & Hret); [by apply not_elem_of_nil|].
    exists c', z. do 3 (split; [done|]). apply Hw; [|done]. rewrite Hs. by apply Hsrc.
  - eapply Forall_impl; [exact Hall|]. intros z (c & Hc1 & Hret). exists c. split; [done|].
    apply Hw; [by apply Hsrc | done].
Qed.

(** archiving can be repeated: a second run over the result of a completed
    one succeeds with the same report and leaves every file as it is. *)
Theorem archive_is_idempotent f x f' sha d cands : archive f = (Ok x, f') →
  as_str (manifest_sha_of manifest) = Ok sha →
  bundle_destination f root task attempt (bundle_id_of label sha) = Ok d →
  bundle_files f report manifest sha extra = Ok cands →
  Forall (λ c, c_source c ≠ bundle_path_of d) cands →
  archive f' = (Ok x, f').
Proof.
  intros Ha Hsha Hd Hc Hsrc. pose proof Ha as Ha0.
  apply archive_cases in Ha as [[? _]|(sha' & d' & cands' & r1 & f1 & Hsha' & Hmx & Hd' & Hc' & Hr & Hend)];
    [done|].
  assert (sha' = sha) as -> by congruence. assert (d' = d) as -> by congruence.
  assert (cands' = cands) as -> by congruence.
  destruct r1 as [rs|e]; [|by destruct Hend]. destruct Hend as [-> _].
  set (text := atomic_write_json _). set (f' := write_file (bundle_path_of d) text f1).
  pose proof (retain_spec _ _ _ _ _ _ _ Hr) as ([Hres _] & _ & _ & _).
  assert (Hpaths : resolve_path f' = resolve_path f) by (cbn; congruence).
  assert (Hd2 : bundle_destination f' root task attempt (bundle_id_of label sha) = Ok d).
  { unfold bundle_destination in *. by rewrite Hpaths. }
  assert (Hc2 : bundle_files f' report manifest sha extra = Ok cands).
  { unfold bundle_files, candidate_of, path_field in *. by rewrite Hpaths. }
  assert (Hr2 : retain d mx [] cands f' = (Ok rs, f')).
  { eapply retain_again; [exact Hr | apply keeps_write; by left | done]. }
  assert (Hrun : archive f' = let '(y, _) := archive f in (y, write_file (bundle_path_of d) text f')).
  { unfold archive_evidence_bundle, raise_ifM, liftM, askM, mbind, M_bind.
    rewrite Hmx, Hsha, Hd2, Hc2, Hr2, Hd, Hc, Hr. reflexivity. }
  rewrite Hrun, Ha0.
  f_equal. unfold f'. apply write_same. apply lookup_insert_eq.
Qed.
End properties.

(** ** A concrete bundle *)

Module Bundle.
Definition store : fs := {|
  resolve_path p := p;
  files := list_to_map [("/w/r/m.json", "{}"); ("/w/r/report.md", "report"); ("/w/r/out.txt", "out")];
  observe _ := None
|}.
Definition entry (path content : string) : json :=
  jobj [("path", JStr path); ("sha256", JStr (sha256_hex content))].
Definition report : dict :=
  dict_of [("path", JStr "/w/r/report.md"); ("sha256", JStr (sha256_hex "report"))].
Definition manifest : dict := dict_of [
  ("manifest_path", JStr "/w/r/m.json"); ("manifest_sha256", JStr (sha256_hex "{}"));
  ("artifacts", JList [entry "/w/r/report.md" "report"]);
  ("validations", JList [jobj [("raw_output", entry "/w/r/out.txt" "out")]])].
Definition forced : json := jobj [("path", JStr "/w/r/out.txt"); ("sha256", JStr (sha256_hex "out"));
                                  ("kind", JStr "trusted_runner_output"); ("force", JBool true)].
Definition run : M fs dict :=
  archive_evidence_bundle "/w/s" "T1" (JInt 1) "worker" (Some report) manifest 2 [forced].
Definition result : dict := match run store with (Ok x, _) => x | _ => ∅ end.
Definition final : fs := (run store).2.
Definition sha : string := sha256_hex "{}".
Definition directory : string := "/w/s/T1/attempt-001/" +:+ bundle_id_of "worker" sha.
Definition cands : list candidate := [
  Candidate "/w/r/report.md" (sha256_hex "report") "report" true;
  Candidate "/w/r/m.json" sha "manifest" true;
  Candidate "/w/r/report.md" (sha256_hex "report") "artifact" false;
  Candidate "/w/r/out.txt" (sha256_hex "out") "raw_output" false;
  Candidate "/w/r/out.txt" (sha256_hex "out") "trusted_runner_output" true].

Lemma run_ok : run store = (Ok result, final).
Proof.
  assert (E : is_ok (run store).1 = true) by (vm_compute; reflexivity).
  unfold result, final. destruct (run store) as [[x|e] g]; [done|discriminate E].
Qed.
Lemma run_cands : bundle_files store (Some report) manifest sha [forced] = Ok cands.
Proof. vm_compute. reflexivity. Qed.
Lemma sources_differ : Forall (λ c, c_source c ≠ bundle_path_of directory) cands.
Proof. repeat constructor; vm_compute; discriminate. Qed.

(** The runner's output was listed before without force and exceeds the limit:
    the later forced entry is skipped with it, and the output is not retained. *)
Lemma forced_duplicate_not_retained :
  (λ o : option dict, r ← o; Some (get r "source", get r "retained")) <$>
    match get result "files" with JList l => (λ v, match v with JObj r => Some r | _ => None end) <$> l
    | _ => [] end =
  [Some (JStr "/w/r/report.md", JBool true); Some (JStr "/w/r/m.json", JBool true);
   Some (JStr "/w/r/out.txt", JBool false)].
Proof. vm_compute. reflexivity. Qed.
End Bundle.
#[local] Opaque Bundle.result Bundle.final Bundle.store Bundle.report Bundle.manifest.

Lemma retention_is_immutable_witness :
  Bundle.run Bundle.store = (Ok Bundle.result, Bundle.final) ∧
  ∃ d, ∀ p c, p ≠ bundle_path_of d → files Bundle.store !! p = Some c → files Bundle.final !! p = Some c.
Proof.
  split; [exact Bundle.run_ok|].
  destruct (retention_is_immutable _ _ _ _ _ _ _ _ _ _ _ Bundle.run_ok) as (d & Hd & _).
  exists d. exact Hd.
Defined.

Lemma archive_accounts_for_evidence_witness :
  Bundle.run Bundle.store = (Ok Bundle.result, Bundle.final) ∧
  ∃ d rs, get Bundle.result "files" = JList (JObj <$> rs) ∧ get Bundle.result "path" = JStr d.
Proof.
  split; [exact Bundle.run_ok|].
  destruct (archive_accounts_for_evidence _ _ _ _ _ _ _ _ _ _ _ Bundle.run_ok)
    as (sha & d & cands & rs & _ & Hf & Hp & _).
  exists d, rs. split; [exact Hf | exact Hp].
Defined.

Lemma archive_is_idempotent_witness :
  Bundle.run Bundle.store = (Ok Bundle.result, Bundle.final) ∧
  Bundle.run Bundle.final = (Ok Bundle.result, Bundle.final).
Proof.
  split; [exact Bundle.run_ok|].
  apply (archive_is_idempotent _ _ _ _ _ _ _ _ _ _ _ Bundle.sha Bundle.directory Bundle.cands
           Bundle.run_ok).
  - vm_compute. reflexivity.
  - vm_compute. reflexivity.
  - exact Bundle.run_cands.
  - exact Bundle.sources_differ.
Defined.
