(* ===== verification/PyTime.v ===== *)
(** * Timestamps

    [utc_now], [parse_utc] and the datetime arithmetic of leases.  An instant
    read from the clock is a number of seconds since the epoch; a parsed
    timestamp is a wall-clock time in microseconds with the UTC offset it
    names, if any.  [datetime.fromisoformat] is the documented grammar of the
    oldest supported Python (3.10), the inverse of [isoformat]. *)

From S2P Require Export PyText.

(** ** The proleptic Gregorian calendar *)

Definition is_leap (y : Z) : bool :=
  (y mod 4 =? 0) && (negb (y mod 100 =? 0) || (y mod 400 =? 0)).

Definition days_before_year (y : Z) : Z :=
  (y - 1) * 365 + (y - 1) / 4 - (y - 1) / 100 + (y - 1) / 400.

Definition month_lengths (leap : bool) : list Z :=
  [31; if leap then 29 else 28; 31; 30; 31; 30; 31; 31; 30; 31; 30; 31].

Definition days_in_month (y m : Z) : Z :=
  nth (Z.to_nat (m - 1)) (month_lengths (is_leap y)) 0.

Definition days_before_month (y m : Z) : Z :=
  foldr Z.add 0 (take (Z.to_nat (m - 1)) (month_lengths (is_leap y))).

(** 1 is the first of January of year 1. *)
Definition ymd2ord (y m d : Z) : Z := days_before_year y + days_before_month y m + d.

Fixpoint find_month (ls : list Z) (m n : Z) : Z * Z :=
  match ls with
  | [] => (m, n)
  | l :: ls => if n <? l then (m, n) else find_month ls (m + 1) (n - l)
  end.

Definition ord2ymd (ord : Z) : Z * Z * Z :=
  let n := ord - 1 in
  let n400 := n / 146097 in let n := n mod 146097 in
  let n100 := n / 36524 in let n := n mod 36524 in
  let n4 := n / 1461 in let n := n mod 1461 in
  let n1 := n / 365 in let n := n mod 365 in
  let y := n400 * 400 + n100 * 100 + n4 * 4 + n1 + 1 in
  if (n1 =? 4) || (n100 =? 4) then (y - 1, 12, 31)
  else let '(m, d) := find_month (month_lengths (is_leap y)) 1 n in (y, m, d + 1).

(** ** Formatting *)

Definition digit (n : Z) : ascii := ascii_of_N (48 + Z.to_N n).
Definition d2 (n : Z) : string := String (digit (n / 10)) (String (digit (n mod 10)) "").
Definition d4 (n : Z) : string := d2 (n / 100) +:+ d2 (n mod 100).
Definition d6 (n : Z) : string := d2 (n / 10000) +:+ d4 (n mod 10000).

Definition us_per_second : Z := 1000000.
Definition seconds_per_day : Z := 86400.
(** The ordinal of 1970-01-01. *)
Definition epoch_ordinal : Z := 719163.
Definition max_ordinal : Z := 3652059.

Record datetime := Datetime { dt_us : Z; dt_off : option Z }.

(** Microseconds are counted from the start of ordinal 0. *)
Definition utc_of_epoch (t : Z) : datetime :=
  Datetime ((t + epoch_ordinal * seconds_per_day) * us_per_second) (Some 0).

Definition offset_text (off : Z) : string :=
  let a := Z.abs off in
  let s := a / us_per_second in
  let us := a mod us_per_second in
  (if off <? 0 then "-" else "+") +:+ d2 (s / 3600) +:+ ":" +:+ d2 (s / 60 mod 60)
  +:+ (if (s mod 60 =? 0) && (us =? 0) then ""
       else ":" +:+ d2 (s mod 60) +:+ (if us =? 0 then "" else "." +:+ d6 us)).

(** [dt.isoformat(timespec="seconds")] *)
Definition isoformat (dt : datetime) : string :=
  let secs := dt_us dt / us_per_second in
  let '(y, m, d) := ord2ymd (secs / seconds_per_day) in
  let s := secs mod seconds_per_day in
  d4 y +:+ "-" +:+ d2 m +:+ "-" +:+ d2 d +:+ "T" +:+
  d2 (s / 3600) +:+ ":" +:+ d2 (s / 60 mod 60) +:+ ":" +:+ d2 (s mod 60) +:+
  match dt_off dt with None => "" | Some off => offset_text off end.

(** [s.replace(pat, rep)]; [skip] characters belong to an occurrence. *)
Fixpoint replace_from (pat rep : string) (skip : nat) (s : string) : string :=
  match s with
  | EmptyString => ""
  | String c r =>
      match skip with
      | S n => replace_from pat rep n r
      | O => if String.prefix pat s
             then rep +:+ replace_from pat rep (pred (String.length pat)) r
             else String c (replace_from pat rep 0 r)
      end
  end.

Definition replace (pat rep s : string) : string := replace_from pat rep 0 s.

(** [util.utc_now()] when the clock shows [t]. *)
Definition utc_now (t : Z) : string :=
  replace "+00:00" "Z" (isoformat (utc_of_epoch t)).

(** ** Parsing *)

Definition digit_val (c : ascii) : option Z :=
  if is_digit c then Some (Z.of_N (code c - 48)) else None.

Definition p2 (a b : ascii) : option Z :=
  x ← digit_val a; y ← digit_val b; Some (x * 10 + y).

Definition check (b : bool) : option unit := if b then Some tt else None.

(** [[.fff[fff]]] *)
Definition p_fraction (s : string) : option Z :=
  match s with
  | String a (String b (String c "")) =>
      x ← digit_val a; y ← p2 b c; Some ((x * 100 + y) * 1000)
  | String a (String b (String c (String d (String e (String f ""))))) =>
      x ← p2 a b; y ← p2 c d; z ← p2 e f; Some (x * 10000 + y * 100 + z)
  | _ => None
  end.

(** [HH[:MM[:SS[.fff[fff]]]]] in microseconds. *)
Definition p_clock (s : string) : option Z :=
  match s with
  | String a (String b r) =>
      h ← p2 a b; _ ← check (h <? 24);
      match r with
      | EmptyString => Some (h * 3600 * us_per_second)
      | String c1 (String a1 (String b1 r1)) =>
          m ← p2 a1 b1; _ ← check (Ascii.eqb c1 ":" && (m <? 60));
          match r1 with
          | EmptyString => Some ((h * 3600 + m * 60) * us_per_second)
          | String c2 (String a2 (String b2 r2)) =>
              x ← p2 a2 b2; _ ← check (Ascii.eqb c2 ":" && (x <? 60));
              let whole := (h * 3600 + m * 60 + x) * us_per_second in
              match r2 with
              | EmptyString => Some whole
              | String c3 r3 => _ ← check (Ascii.eqb c3 "."); f ← p_fraction r3; Some (whole + f)
              end
          | _ => None
          end
      | _ => None
      end
  | _ => None
  end.

(** The time of day and the offset after its sign, if it has one. *)
Fixpoint split_offset (s : string) : string * option (bool * string) :=
  match s with
  | EmptyString => ("", None)
  | String c r =>
      if Ascii.eqb c "+" then ("", Some (false, r))
      else if Ascii.eqb c "-" then ("", Some (true, r))
      else let '(a, o) := split_offset r in (String c a, o)
  end.

Definition p_offset (o : option (bool * string)) : option (option Z) :=
  match o with
  | None => Some None
  | Some (neg, s) =>
      let n := String.length s in
      _ ← check ((n =? 5)%nat || (n =? 8)%nat || (n =? 15)%nat);
      v ← p_clock s; Some (Some (if neg then - v else v))
  end.

Definition p_date (s : string) : option (Z * string) :=
  match s with
  | String y1 (String y2 (String y3 (String y4 (String s1 (String m1 (String m2
      (String s2 (String e1 (String e2 r))))))))) =>
      ya ← p2 y1 y2; yb ← p2 y3 y4; m ← p2 m1 m2; d ← p2 e1 e2;
      let y := ya * 100 + yb in
      _ ← check (Ascii.eqb s1 "-" && Ascii.eqb s2 "-" && (1 <=? y) &&
                 (1 <=? m) && (m <=? 12) && (1 <=? d) && (d <=? days_in_month y m));
      Some (ymd2ord y m d, r)
  | _ => None
  end.

Definition fromisoformat (s : string) : res datetime :=
  res_of_option (Exn ValueError "Invalid isoformat string")
    ('(ord, r) ← p_date s;
     let day := ord * seconds_per_day * us_per_second in
     match r with
     | EmptyString => Some (Datetime day None)
     | String _ EmptyString => None
     | String _ t =>
         let '(clock, o) := split_offset t in
         us ← p_clock clock; off ← p_offset o; Some (Datetime (day + us) off)
     end).

(** [util.parse_utc] *)
Definition parse_utc (value : string) : res datetime :=
  fromisoformat (replace "Z" "+00:00" value).

(** [a >= b]: both with an offset, or both without. *)
Definition datetime_ge (a b : datetime) : res bool :=
  match dt_off a, dt_off b with
  | Some x, Some y => Ok (dt_us b - y <=? dt_us a - x)
  | None, None => Ok (dt_us b <=? dt_us a)
  | _, _ => raise TypeError "can't compare offset-naive and offset-aware datetimes"
  end.

(** [dt + timedelta(seconds=s)], within years 1 to 9999. *)
Definition add_seconds (dt : datetime) (s : Z) : res datetime :=
  let us := dt_us dt + s * us_per_second in
  let day := us / us_per_second / seconds_per_day in
  if (1 <=? day) && (day <=? max_ordinal) then Ok (Datetime us (dt_off dt))
  else raise OverflowError "date value out of range".

Example utc_now_ex : utc_now 1769904000 = "2026-02-01T00:00:00Z".
Proof. vm_compute. reflexivity. Qed.

Example parse_utc_ex : parse_utc "2026-02-01T00:00:00Z" = Ok (utc_of_epoch 1769904000).
Proof. vm_compute. reflexivity. Qed.

(** ** The calendar is consistent *)

(** Compute closed [Z.to_nat] indices. *)
Ltac eval_to_nat :=
  repeat match goal with |- context [Z.to_nat ?e] =>
    let k := eval vm_compute in (Z.to_nat e) in change (Z.to_nat e) with k end.

Lemma find_month_spec (leap : bool) n :
  0 ≤ n < (if leap then 366 else 365) →
  ∃ m d, find_month (month_lengths leap) 1 n = (m, d) ∧ 1 ≤ m ≤ 12 ∧
  0 ≤ d < nth (Z.to_nat (m - 1)) (month_lengths leap) 0 ∧
  n = foldr Z.add 0 (take (Z.to_nat (m - 1)) (month_lengths leap)) + d.
Proof.
  intros Hn. unfold month_lengths. cbn [find_month].
  destruct leap;
  repeat (match goal with |- context [?x <? ?l] => destruct (Z.ltb_spec x l);
      [eexists _, _; split; [reflexivity|];
       eval_to_nat; cbn; lia|] end); lia.
Qed.

Lemma year_days q400 q100 q4 q1 :
  0 ≤ q100 ≤ 3 → 0 ≤ q4 ≤ 24 → 0 ≤ q1 ≤ 3 →
  days_before_year (q400 * 400 + q100 * 100 + q4 * 4 + q1 + 1)
  = q400 * 146097 + q100 * 36524 + q4 * 1461 + q1 * 365.
Proof.
  intros H1 H2 H3. unfold days_before_year.
  set (y := q400 * 400 + q100 * 100 + q4 * 4 + q1).
  replace (y + 1 - 1) with y by lia.
  assert (y / 400 = q400) as -> by (symmetry; apply (Z.div_unique _ 400 _ (q100 * 100 + q4 * 4 + q1)); lia).
  assert (y / 100 = q400 * 4 + q100) as -> by (symmetry; apply (Z.div_unique _ 100 _ (q4 * 4 + q1)); lia).
  assert (y / 4 = q400 * 100 + q100 * 25 + q4) as -> by (symmetry; apply (Z.div_unique _ 4 _ q1); lia).
  lia.
Qed.

Lemma leap_year q400 q100 q4 q1 :
  0 ≤ q100 ≤ 3 → 0 ≤ q4 ≤ 24 → 0 ≤ q1 ≤ 3 →
  is_leap (q400 * 400 + q100 * 100 + q4 * 4 + q1 + 1)
  = (q1 =? 3) && (negb (q4 =? 24) || (q100 =? 3)).
Proof.
  intros H1 H2 H3. unfold is_leap. set (y := _ + 1).
  assert ((y mod 4 =? 0) = (q1 =? 3)) as ->.
  { assert (y mod 4 = if q1 =? 3 then 0 else q1 + 1) as ->; [|by destruct (q1 =? 3) eqn:E; lia].
    destruct (q1 =? 3) eqn:E; symmetry; [apply (Z.mod_unique _ _ (q400 * 100 + q100 * 25 + q4 + 1))
                                 |apply (Z.mod_unique _ _ (q400 * 100 + q100 * 25 + q4))]; lia. }
  destruct (q1 =? 3) eqn:E1; [cbn|done]. assert (q1 = 3) as -> by lia.
  assert ((y mod 100 =? 0) = (q4 =? 24)) as ->.
  { destruct (q4 =? 24) eqn:E.
    - apply Z.eqb_eq. symmetry. apply (Z.mod_unique _ _ (q400 * 4 + q100 + 1)); lia.
    - apply Z.eqb_neq. rewrite <- (Z.mod_unique y 100 (q400 * 4 + q100) (q4 * 4 + 4)); lia. }
  destruct (q4 =? 24) eqn:E4; [cbn|done]. assert (q4 = 24) as -> by lia.
  destruct (q100 =? 3) eqn:E.
  - apply Z.eqb_eq. symmetry. apply (Z.mod_unique _ _ (q400 + 1)); lia.
  - apply Z.eqb_neq. rewrite <- (Z.mod_unique y 400 q400 (q100 * 100 + 100)); lia.
Qed.

Lemma ord2ymd_spec ord :
  1 ≤ ord ≤ max_ordinal →
  ∃ y m d, ord2ymd ord = (y, m, d) ∧ ymd2ord y m d = ord ∧ 1 ≤ y ≤ 9999 ∧
  1 ≤ m ≤ 12 ∧ 1 ≤ d ≤ days_in_month y m.
Proof.
  unfold max_ordinal. intros Ho. unfold ord2ymd.
  set (n := ord - 1).
  pose proof (Z.div_mod n 146097 ltac:(lia)) as E400.
  pose proof (Z.mod_pos_bound n 146097 ltac:(lia)) as B400.
  set (q400 := n / 146097) in *. set (r400 := n mod 146097) in *.
  pose proof (Z.div_mod r400 36524 ltac:(lia)) as E100.
  pose proof (Z.mod_pos_bound r400 36524 ltac:(lia)) as B100.
  set (q100 := r400 / 36524) in *. set (r100 := r400 mod 36524) in *.
  pose proof (Z.div_mod r100 1461 ltac:(lia)) as E4.
  pose proof (Z.mod_pos_bound r100 1461 ltac:(lia)) as B4.
  set (q4 := r100 / 1461) in *. set (r4 := r100 mod 1461) in *.
  pose proof (Z.div_mod r4 365 ltac:(lia)) as E1.
  pose proof (Z.mod_pos_bound r4 365 ltac:(lia)) as B1.
  set (q1 := r4 / 365) in *. set (r1 := r4 mod 365) in *.
  clearbody q400 r400 q100 r100 q4 r4 q1 r1.
  destruct ((q1 =? 4) || (q100 =? 4)) eqn:Elast.
  - set (y := q400 * 400 + q100 * 100 + q4 * 4 + q1 + 1 - 1).
    assert (Hy : ∃ a b c, y = q400 * 400 + a * 100 + b * 4 + c + 1 ∧ c = 3 ∧
       0 ≤ a ≤ 3 ∧ 0 ≤ b ≤ 24 ∧ (b ≠ 24 ∨ a = 3) ∧
       n = q400 * 146097 + a * 36524 + b * 1461 + c * 365 + 365).
    { apply orb_true_iff in Elast as [E|E]; apply Z.eqb_eq in E; subst.
      - exists q100, q4, 3. lia.
      - exists 3, 24, 3. lia. }
    destruct Hy as (a & b & c & -> & -> & Ha & Hb & Hl & En).
    assert (Hleap : is_leap (q400 * 400 + a * 100 + b * 4 + 3 + 1) = true).
    { rewrite leap_year by lia. destruct Hl as [?| ->]; [|by rewrite orb_true_r].
      destruct (b =? 24) eqn:E; [lia|done]. }
    eexists _, 12, 31. split; [reflexivity|].
    unfold ymd2ord, days_in_month, days_before_month. rewrite Hleap, year_days by lia.
    eval_to_nat. cbn. lia.
  - apply orb_false_iff in Elast as [?%Z.eqb_neq ?%Z.eqb_neq].
    set (y := q400 * 400 + q100 * 100 + q4 * 4 + q1 + 1).
    destruct (find_month_spec (is_leap y) r1) as (m & d & -> & Hm & Hd & Hn); [destruct (is_leap y); lia|].
    exists y, m, (d + 1). split; [done|].
    unfold ymd2ord, days_in_month, days_before_month.
    rewrite <- (Z.add_assoc (days_before_year y)).
    assert (days_before_year y = q400 * 146097 + q100 * 36524 + q4 * 1461 + q1 * 365) as ->
      by (apply year_days; lia).
    split; [lia|]. split; [lia|]. split; lia.
Qed.

(** ** [parse_utc] inverts [utc_now] *)

Lemma digit_val_digit n : 0 ≤ n < 10 → digit_val (digit n) = Some n.
Proof.
  intros H. assert (n = 0 ∨ n = 1 ∨ n = 2 ∨ n = 3 ∨ n = 4 ∨ n = 5 ∨ n = 6 ∨ n = 7
    ∨ n = 8 ∨ n = 9) as Hn by lia.
  repeat (destruct Hn as [->|Hn]; [done|]). by subst.
Qed.

Lemma p2_d2 n : 0 ≤ n < 100 → p2 (digit (n / 10)) (digit (n mod 10)) = Some n.
Proof.
  intros H. unfold p2.
  assert (0 ≤ n / 10 < 10) by (split; [apply Z.div_pos; lia | apply Z.div_lt_upper_bound; lia]).
  pose proof (Z.mod_pos_bound n 10 ltac:(lia)).
  rewrite !digit_val_digit by done. cbn. f_equal.
  pose proof (Z.div_mod n 10 ltac:(lia)). lia.
Qed.

(** Characters of the texts between which the replacements act. *)
Definition clock_char (c : ascii) : bool := is_digit c || char_in "-:T" c.

Lemma digit_clock_char n : 0 ≤ n < 10 → clock_char (digit n) = true.
Proof.
  intros H. pose proof (digit_val_digit n H) as Hd. unfold digit_val in Hd.
  unfold clock_char. by destruct (is_digit (digit n)).
Qed.

Lemma d2_clock n : 0 ≤ n < 100 → all_chars clock_char (d2 n) = true.
Proof.
  intros H. unfold d2. cbn [all_chars].
  assert (0 ≤ n / 10 < 10) by (split; [apply Z.div_pos; lia | apply Z.div_lt_upper_bound; lia]).
  pose proof (Z.mod_pos_bound n 10 ltac:(lia)). by rewrite !digit_clock_char.
Qed.

Lemma replace_skip p c pat rep s t :
  p c = false → all_chars p s = true →
  replace (String c pat) rep (s +:+ t) = s +:+ replace (String c pat) rep t.
Proof.
  intros Hc. unfold replace. induction s as [|d s IH]; [done|].
  intros [Hd Hs]%andb_true_iff. rewrite !str_app_cons. cbn [replace_from String.prefix].
  destruct (ascii_dec c d) as [->|_]; [congruence|]. by rewrite IH.
Qed.

(** The clock's instants that [datetime] can represent. *)
Definition epoch_ok (t : Z) : Prop :=
  1 ≤ (t + epoch_ordinal * seconds_per_day) / seconds_per_day ≤ max_ordinal.

(** The part of a timestamp before the offset. *)
Definition wall_text (secs : Z) : string :=
  let '(y, m, d) := ord2ymd (secs / seconds_per_day) in
  let s := secs mod seconds_per_day in
  d4 y +:+ "-" +:+ d2 m +:+ "-" +:+ d2 d +:+ "T" +:+
  d2 (s / 3600) +:+ ":" +:+ d2 (s / 60 mod 60) +:+ ":" +:+ d2 (s mod 60).

Lemma div_range a b c : 0 < b → 0 ≤ a < b * c → 0 ≤ a / b < c.
Proof. intros. split; [apply Z.div_pos; lia | apply Z.div_lt_upper_bound; lia]. Qed.

Lemma days_in_month_le y m : 1 ≤ m ≤ 12 → days_in_month y m ≤ 31.
Proof.
  intros Hm. unfold days_in_month, month_lengths.
  assert (Z.to_nat (m - 1) < 12)%nat as Hk by lia.
  generalize dependent (Z.to_nat (m - 1)). intros k Hk.
  destruct (is_leap y); do 12 (destruct k as [|k]; [cbn; lia|]); lia.
Qed.

Lemma wall_text_clock secs :
  1 ≤ secs / seconds_per_day ≤ max_ordinal → all_chars clock_char (wall_text secs) = true.
Proof.
  intros Ho. unfold wall_text.
  destruct (ord2ymd_spec _ Ho) as (y & m & d & -> & _ & Hy & Hm & Hd).
  pose proof (days_in_month_le y m Hm).
  set (s := secs mod seconds_per_day).
  assert (0 ≤ s < 86400) by (apply Z.mod_pos_bound; done).
  pose proof (div_range s 3600 24 ltac:(lia) ltac:(lia)).
  pose proof (Z.mod_pos_bound (s / 60) 60 ltac:(lia)).
  pose proof (Z.mod_pos_bound s 60 ltac:(lia)).
  pose proof (div_range y 100 100 ltac:(lia) ltac:(lia)).
  pose proof (Z.mod_pos_bound y 100 ltac:(lia)).
  unfold d4. rewrite !all_chars_app, !d2_clock by lia. done.
Qed.

Lemma utc_now_text t :
  epoch_ok t → utc_now t = wall_text (t + epoch_ordinal * seconds_per_day) +:+ "Z".
Proof.
  intros Ht. unfold utc_now.
  assert (isoformat (utc_of_epoch t)
          = wall_text (t + epoch_ordinal * seconds_per_day) +:+ "+00:00") as ->.
  { unfold isoformat, wall_text, utc_of_epoch. cbn [dt_us dt_off].
    rewrite Z.div_mul by done. destruct (ord2ymd _) as [[y m] d].
    rewrite <- !str_app_assoc. done. }
  rewrite (replace_skip clock_char); [done|done|]. by apply wall_text_clock.
Qed.

Lemma p_date_wall y m d r :
  1 ≤ y ≤ 9999 → 1 ≤ m ≤ 12 → 1 ≤ d ≤ days_in_month y m → d < 100 →
  p_date (d4 y +:+ "-" +:+ d2 m +:+ "-" +:+ d2 d +:+ r) = Some (ymd2ord y m d, r).
Proof.
  intros Hy Hm Hd Hd'. unfold d4, d2. str_norm.
  cbn [p_date]. pose proof (div_range y 100 100 ltac:(lia) ltac:(lia)).
  pose proof (Z.mod_pos_bound y 100 ltac:(lia)). rewrite !p2_d2 by lia.
  cbn [mbind option_bind].
  replace (y / 100 * 100 + y mod 100) with y by (pose proof (Z.div_mod y 100); lia).
  by rewrite !(proj2 (Z.leb_le _ _)) by lia.
Qed.

Lemma p_clock_wall s :
  0 ≤ s < 86400 →
  p_clock (d2 (s / 3600) +:+ ":" +:+ d2 (s / 60 mod 60) +:+ ":" +:+ d2 (s mod 60))
  = Some (s * us_per_second).
Proof.
  intros Hs. pose proof (div_range s 3600 24 ltac:(lia) ltac:(lia)).
  pose proof (Z.mod_pos_bound (s / 60) 60 ltac:(lia)).
  pose proof (Z.mod_pos_bound s 60 ltac:(lia)).
  unfold d2. str_norm. cbn [p_clock].
  rewrite !p2_d2 by lia. cbn [mbind option_bind].
  assert (Hlt : ∀ a b, a < b → (a <? b) = true) by (intros; by apply Z.ltb_lt).
  rewrite !Hlt by lia. change (Ascii.eqb ":" ":") with true. cbn.
  do 2 f_equal.
  pose proof (Z.div_mod s 60 ltac:(lia)). pose proof (Z.div_mod (s / 60) 60 ltac:(lia)).
  rewrite Z.div_div in * by lia. change (60 * 60) with 3600 in *. lia.
Qed.

Lemma split_offset_wall s t :
  all_chars (λ c, is_digit c || Ascii.eqb c ":") s = true →
  split_offset (s +:+ String "+" t) = (s, Some (false, t)).
Proof.
  induction s as [|c s IH]; [done|]. intros [Hc Hs]%andb_true_iff.
  rewrite str_app_cons. cbn [split_offset]. rewrite IH by done.
  destruct (Ascii.eqb c "+") eqn:E1; [by apply Ascii.eqb_eq in E1 as ->|].
  destruct (Ascii.eqb c "-") eqn:E2; [by apply Ascii.eqb_eq in E2 as ->|]. done.
Qed.

Lemma digit_is_digit n : 0 ≤ n < 10 → is_digit (digit n) = true.
Proof.
  intros H. pose proof (digit_val_digit n H) as Hd. unfold digit_val in Hd.
  by destruct (is_digit (digit n)).
Qed.

Lemma d2_digits n : 0 ≤ n < 100 → all_chars (λ c, is_digit c || Ascii.eqb c ":") (d2 n) = true.
Proof.
  intros H. unfold d2. cbn [all_chars].
  pose proof (div_range n 10 10 ltac:(lia) ltac:(lia)).
  pose proof (Z.mod_pos_bound n 10 ltac:(lia)). by rewrite !digit_is_digit.
Qed.

Lemma parse_utc_now t : epoch_ok t → parse_utc (utc_now t) = Ok (utc_of_epoch t).
Proof.
  intros Ht. rewrite utc_now_text by done. unfold parse_utc.
  rewrite (replace_skip clock_char); [|done|by apply wall_text_clock].
  change (replace "Z" "+00:00" "Z") with "+00:00". unfold wall_text.
  set (secs := t + epoch_ordinal * seconds_per_day).
  destruct (ord2ymd_spec _ Ht) as (y & m & d & E & Ho & Hy & Hm & Hd). fold secs in E, Ho.
  rewrite E. set (s := secs mod seconds_per_day).
  assert (0 ≤ s < 86400) as Hs by (apply Z.mod_pos_bound; done).
  assert (d < 100) by (pose proof (days_in_month_le y m Hm); lia).
  rewrite <- !str_app_assoc. unfold fromisoformat. rewrite p_date_wall by done.
  rewrite (str_app_cons "T"), str_app_nil_l. cbn [mbind option_bind].
  set (clock := d2 (s / 3600) +:+ ":" +:+ d2 (s / 60 mod 60) +:+ ":" +:+ d2 (s mod 60)).
  assert (Hc : d2 (s / 3600) +:+ ":" +:+ d2 (s / 60 mod 60) +:+ ":" +:+ d2 (s mod 60) +:+ "+00:00"
     = clock +:+ String "+" "00:00").
  { subst clock. by rewrite <- !str_app_assoc. }
  rewrite Hc.
  assert (Hsp : split_offset (clock +:+ String "+" "00:00") = (clock, Some (false, "00:00"))).
  { apply split_offset_wall. subst clock. rewrite !all_chars_app.
    pose proof (div_range s 3600 24 ltac:(lia) ltac:(lia)).
    pose proof (Z.mod_pos_bound (s / 60) 60 ltac:(lia)).
    pose proof (Z.mod_pos_bound s 60 ltac:(lia)). by rewrite !d2_digits by lia. }
  assert (Hne : ∃ c0 r, clock +:+ String "+" "00:00" = String c0 r) by (subst clock; unfold d2; rewrite str_app_cons; eauto).
  destruct Hne as (c0 & r & Er). rewrite Er in *. rewrite Hsp.
  assert (Hclk : p_clock clock = Some (s * us_per_second)) by (by apply p_clock_wall).
  rewrite Hclk. cbn [mbind option_bind p_offset].
  change (p_clock "00:00") with (Some 0). cbn. f_equal. unfold utc_of_epoch. f_equal.
  fold secs. rewrite Ho. subst s. pose proof (Z.div_mod secs seconds_per_day ltac:(done)). lia.
Qed.

Lemma add_seconds_utc t s :
  epoch_ok (t + s) → add_seconds (utc_of_epoch t) s = Ok (utc_of_epoch (t + s)).
Proof.
  intros H. unfold add_seconds, utc_of_epoch, epoch_ok in *. cbn [dt_us dt_off].
  rewrite <- Z.mul_add_distr_r, Z.div_mul by done.
  replace (t + epoch_ordinal * seconds_per_day + s) with (t + s + epoch_ordinal * seconds_per_day) by lia.
  assert (((1 <=? (t + s + epoch_ordinal * seconds_per_day) / seconds_per_day) &&
    ((t + s + epoch_ordinal * seconds_per_day) / seconds_per_day <=? max_ordinal)) = true) as ->; [|done].
  rewrite andb_true_iff, !Z.leb_le. done.
Qed.

Lemma datetime_ge_utc a b : datetime_ge (utc_of_epoch a) (utc_of_epoch b) = Ok (b <=? a).
Proof.
  unfold datetime_ge, utc_of_epoch. cbn. f_equal. unfold us_per_second.
  destruct (Z.leb_spec b a); [apply Z.leb_le | apply Z.leb_gt]; lia.
Qed.

#[export] Hint Resolve parse_utc_now add_seconds_utc : cogni.
