(* ===== verification/Wire.v ===== *)
(** * Wire documents

    What the protocol modules share: canonical JSON bytes with a size limit,
    documents with an exact set of keys, field checks, and UTF-8.  Each module
    raises its own exception class and has its own limit, so both are
    parameters here and fixed where a module defines its own functions. *)

From S2P Require Export Files Hashing PyTime.

(** ** UTF-8 of printed values *)

Example utf8_ex : utf8_valid "한국어 é ascii" = true. Proof. reflexivity. Qed.
Example utf8_surrogate : utf8_valid (utf8 55296) = false. Proof. reflexivity. Qed.

Lemma utf8_from_app s : ∀ e t, utf8_from e s = true → utf8_from e (s +:+ t) = utf8_valid t.
Proof.
  induction s as [|c s IH]; intros e t; [by destruct e|]. rewrite str_app_cons. cbn [utf8_from].
  destruct e as [[[lo hi] more]|].
  - intros [-> H]%andb_true_iff. cbn. destruct more; by apply IH.
  - destruct (code c <? 128)%N; [by apply IH|]. destruct (utf8_lead c); [by apply IH|done].
Qed.

Lemma utf8_app s t : utf8_valid s = true → utf8_valid t = true → utf8_valid (s +:+ t) = true.
Proof. intros Hs Ht. unfold utf8_valid at 1. by rewrite utf8_from_app. Qed.

Lemma utf8_ascii s : all_chars (λ c, (code c <? 128)%N) s = true → utf8_valid s = true.
Proof.
  unfold utf8_valid. induction s as [|c s IH]; [done|]. cbn. intros [-> ?]%andb_true_iff. by apply IH.
Qed.

(** Escaping touches ASCII characters only. *)
Definition expects_ok (e : option (N * N * nat)) : Prop :=
  match e with Some (lo, _, _) => (128 <= lo)%N | None => True end.

Lemma escape_char_high c : (128 <= code c)%N → escape_char c = String c "".
Proof. destruct c as [[] [] [] [] [] [] [] []]; intros H; first [reflexivity | by vm_compute in H]. Qed.

Lemma utf8_lead_ok c e : utf8_lead c = Some e → expects_ok (Some e).
Proof. unfold utf8_lead. repeat case_match; intros [= <-]; cbn; lia. Qed.

Lemma utf8_escape s : ∀ e, expects_ok e → utf8_from e s = true → utf8_from e (escape s) = true.
Proof.
  induction s as [|c s IH]; intros e He; [done|]. cbn [utf8_from escape].
  assert (IHn : utf8_from None s = true → utf8_from None (escape s) = true) by by apply IH.
  destruct e as [[[lo hi] more]|].
  - intros [Hc H]%andb_true_iff. assert (128 <= code c)%N.
    { unfold in_range in Hc. apply andb_true_iff in Hc as [Hc _]. apply N.leb_le in Hc. cbn in He. lia. }
    rewrite escape_char_high by done. change (String c "" +:+ escape s) with (String c (escape s)).
    cbn [utf8_from]. rewrite Hc. destruct more; [by apply IHn|]. apply (IH (Some (128, 191, more)%N)); [cbn; lia|done].
  - destruct (N.ltb_spec (code c) 128) as [Hc|Hc].
    + intros H. rewrite utf8_from_app; [by apply IHn|].
      destruct c as [[] [] [] [] [] [] [] []]; first [reflexivity | by vm_compute in Hc].
    + destruct (utf8_lead c) as [e|] eqn:E; [|done]. intros H.
      rewrite escape_char_high by done. change (String c "" +:+ escape s) with (String c (escape s)).
      cbn [utf8_from]. apply N.ltb_ge in Hc as ->. rewrite E. apply IH; [|done]. by eapply utf8_lead_ok.
Qed.

Lemma utf8_quote s : utf8_valid s = true → utf8_valid (quote s) = true.
Proof.
  intros Hs. apply (utf8_app (String dquote "")); [done|]. apply utf8_app; [|done]. by apply utf8_escape.
Qed.

Lemma utf8_canonical v :
  no_float v = true → strings utf8_valid v = true → utf8_valid (canonical_json v) = true.
Proof.
  intros Hv. apply (compact_closed utf8_valid); [exact utf8_app|done| |exact utf8_quote|by right].
  intros z. apply utf8_ascii, int_chars; [|done]. by intros [[] [] [] [] [] [] [] []].
Qed.

(** No NaN and no infinity in the document ([allow_nan=False]). *)
Fixpoint finite (v : json) : bool :=
  match v with
  | JFloat f => is_finite f
  | JList l => forallb finite l
  | JObj m => forallb snd (map_to_list (finite <$> m))
  | _ => true
  end.

(** ** Canonical bytes and exact objects *)

Section Documents.
Context `{Hashing} (cls : exn_class) (limit : Z).

(** [json.dumps(value, ensure_ascii=False, allow_nan=False, sort_keys=True,
    separators=(",", ":")).encode("utf-8")] within the limit. *)
Definition canonical_bytes (value : json) : res string :=
  let encoded := canonical_json value in
  _ ← raise_if (negb (finite value && utf8_valid encoded)) cls "document is not canonical JSON";
  _ ← raise_if (limit <? Z.of_nat (String.length encoded)) cls "document exceeds its byte limit";
  Ok encoded.

Definition canonical_sha256 (value : json) : res string :=
  b ← canonical_bytes value; Ok (sha256_hex b).

Definition exact_object (value : json) (keys : list string) (label : string) : res dict :=
  match value with
  | JObj d =>
      _ ← raise_if (negb (exact_keys d keys)) cls (label +:+ " schema is not exact");
      _ ← canonical_bytes value;
      Ok d
  | _ => raise cls (label +:+ " schema is not exact")
  end.

(** A check of [value]'s text that returns it. *)
Definition checked (p : string → bool) (value : json) (msg : string) : res string :=
  match value with
  | JStr s => if p s then Ok s else raise cls msg
  | _ => raise cls msg
  end.

Lemma canonical_bytes_ok v b :
  canonical_bytes v = Ok b ↔
  b = canonical_json v ∧ finite v = true ∧ utf8_valid b = true ∧
  Z.of_nat (String.length b) ≤ limit.
Proof.
  unfold canonical_bytes, raise_if, raise. split.
  - destruct (finite v) eqn:Hf, (utf8_valid (canonical_json v)) eqn:Hu; cbn; try done.
    destruct (Z.ltb_spec limit (Z.of_nat (String.length (canonical_json v)))); cbn; [done|].
    intros [= <-]. done.
  - intros (-> & -> & -> & Hl). cbn.
    destruct (Z.ltb_spec limit (Z.of_nat (String.length (canonical_json v)))); [lia | done].
Qed.

Lemma canonical_sha256_ok v h :
  canonical_sha256 v = Ok h ↔ ∃ b, canonical_bytes v = Ok b ∧ h = sha256_hex b.
Proof.
  unfold canonical_sha256. rewrite bind_ok. split.
  - intros (b & Hb & ?%Ok_inj). eauto.
  - intros (b & Hb & ->). eauto.
Qed.

Lemma exact_object_ok v keys label d :
  exact_object v keys label = Ok d ↔
  v = JObj d ∧ exact_keys d keys = true ∧ ∃ b, canonical_bytes v = Ok b.
Proof.
  destruct v; cbn; try (split; [done | by intros [? _]]).
  split.
  - intros (u & Hk%raise_if_ok%negb_false_iff & (b & Hb & Hd%Ok_inj)%bind_ok)%bind_ok.
    subst d. split; [done|]. split; [done|]. by exists b.
  - intros ([= ->] & Hk & b & Hb). rewrite Hk. cbn. by rewrite Hb.
Qed.

Lemma checked_ok p v msg s : checked p v msg = Ok s ↔ v = JStr s ∧ p s = true.
Proof.
  destruct v; cbn; try (split; [done | by intros [? _]]).
  destruct (p s0) eqn:E; cbn; (split; [|intros [[= ->] ?]; congruence]); [|done].
  intros [= ->]. done.
Qed.
End Documents.

(** Two documents with one digest are equal, or their texts collide. *)
Definition collision `{Hashing} (a b : string) : Prop := a ≠ b ∧ sha256_hex a = sha256_hex b.

Lemma same_digest `{Hashing} c l v w h :
  canonical_sha256 c l v = Ok h → canonical_sha256 c l w = Ok h →
  floats_ok v = true → floats_ok w = true →
  v = w ∨ collision (canonical_json v) (canonical_json w).
Proof.
  intros (b & (-> & _)%canonical_bytes_ok & ->)%canonical_sha256_ok
         (b' & (-> & _)%canonical_bytes_ok & Hh)%canonical_sha256_ok Hv Hw.
  destruct (decide (canonical_json v = canonical_json w)) as [E|E]; [left|by right].
  by apply (dumps_inj compact).
Qed.

(** ** Field checks on a value *)

(** [^[A-Za-z0-9][A-Za-z0-9._-]{0,255}$] *)
Definition wire_identifier (s : string) : bool := re_ident is_alnum ident_char 255 s.

(** [isinstance(v, int) and not isinstance(v, bool)] with a bound from below. *)
Definition int_from (lo : Z) (v : json) : option Z :=
  match v with JInt z => if lo <=? z then Some z else None | _ => None end.

Lemma int_from_Some lo v z : int_from lo v = Some z ↔ v = JInt z ∧ lo ≤ z.
Proof.
  destruct v; cbn; try (split; [done | by intros [? _]]).
  destruct (Z.leb_spec lo z0); split; try done.
  - by intros [= ->].
  - by intros [[= ->] _].
  - intros [[= ->] ?]. lia.
Qed.

(** The float [datetime.timestamp()] of an aware [datetime]: the correctly
    rounded quotient of its microseconds since the epoch by [10 ** 6]. *)
Definition timestamp_of (dt : datetime) (off : Z) : spec_float :=
  let us := dt_us dt - off - epoch_ordinal * seconds_per_day * us_per_second in
  dec_to_float (us <? 0) (Z.to_N (Z.abs us)) (-6).

(** [f"{value[:-1]}+00:00" if value.endswith("Z") else value] *)
Definition normalize_z (s : string) : string :=
  if ends_with "Z" s then String.substring 0 (String.length s - 1) s +:+ "+00:00" else s.
