(* ===== verification/FileLock.v ===== *)
(** * The workspace's lock file ([lock.py])

    Several instances of [FileLock], each in a process of its own, on one path.
    An action is one system call or one test of the code, so the actions of two
    instances interleave as the operating system lets them.  Times are integers
    of one unit; the wall clock may be set back, the monotonic one may not. *)

From stdpp Require Import functions.
From S2P Require Export PyText.

(** The arguments of the constructor. *)
Record config := Config { path : string; timeout_seconds : Z; stale_seconds : Z; poll_seconds : Z }.

(** The defaults, in milliseconds. *)
Definition default_config (path : string) : config := Config path 10000 120000 50.

(** The lock file: its inode, [st_mtime], and the instance that created it (the
    code writes the process into it and never reads it). *)
Record file := File { ino : nat; st_mtime : Z; creator : nat }.

(** Where an instance is in [acquire]. *)
Inductive point :=
  | Outside
  | Opening (deadline : Z)
  | Checking (deadline : Z)
  | Removing (deadline : Z)
  | Deciding (deadline : Z)
  | Sleeping (deadline until : Z)
  | Writing (fd : nat).

(** [answer] is what the last call returned.  [since], [tries] and [moves] are
    of the model: when the lock was created, the calls of [os.open] of this
    [acquire], and its actions. *)
Record instance := Instance_ {
  at_ : point; _held : bool; answer : option (res unit); since : Z; tries : nat; moves : nat
}.

Definition fresh_instance : instance := Instance_ Outside false None 0 0 0.

Record world := World {
  wall : Z; monotonic : Z; lock_file : option file; next_ino : nat; instances : nat → instance
}.

Definition init : world := World 0 0 None 0 (λ _, fresh_instance).

(** A system call that does not return raises; [written] says whether a write
    that raised had changed the file. *)
Inductive action :=
  | Acquire (ok : bool)
  | Open (ok : bool)
  | Stat (ok : bool)
  | Remove (ok : bool)
  | Decide
  | Wake
  | Write (written ok : bool)
  | Release (ok : bool).

(** An instance acts, a process dies and starts again, or time passes. *)
Inductive event := Act (p : nat) (a : action) | Die (p : nat) | Tick (wall_by mono_by : Z).

Section Machine.
Context (c : config).

Definition goes (i : instance) (pt : point) : instance :=
  Instance_ pt (_held i) (answer i) (since i) (tries i) (S (moves i)).
Definition answers (i : instance) (r : res unit) : instance :=
  Instance_ Outside (_held i) (Some r) (since i) (tries i) (S (moves i)).
Definition raises (i : instance) : instance := answers i (raise OSError "").

Definition with_instance (p : nat) (i : instance) (w : world) : world :=
  World (wall w) (monotonic w) (lock_file w) (next_ino w) (<[p := i]> (instances w)).
Definition with_file (f : option file) (w : world) : world :=
  World (wall w) (monotonic w) f (next_ino w) (instances w).

(** [_remove_if_stale]: the file's age against [stale_seconds]. *)
Definition is_stale (w : world) (f : file) : bool := stale_seconds c <? wall w - st_mtime f.

(** What a write through a descriptor does to the path's file. *)
Definition touch (fd : nat) (w : world) : option file :=
  match lock_file w with
  | Some f => Some (if (ino f =? fd)%nat then File (ino f) (wall w) (creator f) else f)
  | None => None
  end.

(** One action; [None] where the instance is not at a point to do it. *)
Definition act (p : nat) (a : action) (w : world) : option world :=
  let i := instances w p in
  let moved pt := Some (with_instance p (goes i pt) w) in
  match a, at_ i with
  | Acquire false, Outside =>
      Some (with_instance p (Instance_ Outside (_held i) (Some (raise OSError "")) (since i) 0 0) w)
  | Acquire true, Outside =>
      Some (with_instance p (Instance_ (Opening (monotonic w + timeout_seconds c)) (_held i) (answer i)
                               (since i) 0 0) w)
  | Open false, Opening _ => Some (with_instance p (raises i) w)
  | Open true, Opening d =>
      match lock_file w with
      | Some _ => Some (with_instance p (Instance_ (Checking d) (_held i) (answer i) (since i)
                                           (S (tries i)) (S (moves i))) w)
      | None =>
          Some (World (wall w) (monotonic w) (Some (File (next_ino w) (wall w) p)) (S (next_ino w))
                  (<[p := Instance_ (Writing (next_ino w)) (_held i) (answer i) (wall w)
                            (S (tries i)) (S (moves i))]> (instances w)))
      end
  | Stat false, Checking _ => Some (with_instance p (raises i) w)
  | Stat true, Checking d =>
      match lock_file w with
      | None => moved (Deciding d)
      | Some f => if is_stale w f then moved (Removing d) else moved (Deciding d)
      end
  | Remove false, Removing _ => Some (with_instance p (raises i) w)
  | Remove true, Removing d => Some (with_file None (with_instance p (goes i (Deciding d)) w))
  | Decide, Deciding d =>
      if d <=? monotonic w
      then Some (with_instance p (answers i (raise LockTimeout ("Timed out waiting for lock " +:+ path c))) w)
      else moved (Sleeping d (monotonic w + poll_seconds c))
  | Wake, Sleeping d until => if until <=? monotonic w then moved (Opening d) else None
  | Write written false, Writing fd =>
      Some (with_file (if written then touch fd w else lock_file w) (with_instance p (raises i) w))
  | Write _ true, Writing fd =>
      Some (with_file (touch fd w)
             (with_instance p (Instance_ Outside true (Some (Ok tt)) (since i) (tries i) (S (moves i))) w))
  | Release ok, Outside =>
      if negb (_held i) then Some (with_instance p (Instance_ Outside false (Some (Ok tt)) (since i) 0 0) w)
      else if ok
      then Some (with_file None (with_instance p (Instance_ Outside false (Some (Ok tt)) (since i) 0 0) w))
      else Some (with_instance p (Instance_ Outside true (Some (raise OSError "")) (since i) 0 0) w)
  | _, _ => None
  end.

Definition perform (e : event) (w : world) : option world :=
  match e with
  | Act p a => act p a w
  | Die p => Some (with_instance p fresh_instance w)
  | Tick dw dm =>
      if 0 <=? dm then Some (World (wall w + dw) (monotonic w + dm) (lock_file w) (next_ino w) (instances w))
      else None
  end.

(** An instance has the lock from the creation of the file on: what follows in
    [acquire] only returns. *)
Definition has_lock (i : instance) : Prop := _held i = true ∨ ∃ fd, at_ i = Writing fd.

Definition holds (w : world) (p : nat) : Prop := has_lock (instances w p).

(** The worlds that events lead to through worlds that satisfy [P]. *)
Inductive reachable (P : world → Prop) : world → Prop :=
  | reachable_init : P init → reachable P init
  | reachable_next w e w' : reachable P w → perform e w = Some w' → P w' → reachable P w'.

(** No lock file is older than [stale_seconds]. *)
Definition fresh_lock (w : world) : Prop :=
  ∀ f, lock_file w = Some f → is_stale w f = false.

(** Every instance that has the lock has had it no longer than [stale_seconds]. *)
Definition prompt (w : world) : Prop :=
  ∀ p, holds w p → wall w - since (instances w p) ≤ stale_seconds c.

(** A list of events; [None] when one of them is not possible. *)
Fixpoint run (es : list event) (w : world) : option world :=
  match es with
  | [] => Some w
  | e :: es => w' ← perform e w; run es w'
  end.
End Machine.

(** ** Mutual exclusion *)

(** Take one action apart, by the point the instance is at. *)
Ltac by_point H :=
  unfold act, raises, answers, goes, with_file, with_instance in H; cbv zeta in H;
  repeat (match type of H with context [match ?x with _ => _ end] => destruct x eqn:? end; try discriminate H);
  try (injection H as <-; cbn in *).

Lemma act_others c p a w w' q : act c p a w = Some w' → q ≠ p → instances w' q = instances w q.
Proof. intros H Hq. by_point H; by rewrite fn_lookup_insert_ne by congruence. Qed.

Section Exclusion.
Context (c : config).

(** Nobody is about to remove the file, and who has the lock made the file. *)
Record excluded (w : world) : Prop := Excluded {
  x_quiet : ∀ p d, at_ (instances w p) ≠ Removing d;
  x_owner : ∀ p, holds w p → ∃ f, lock_file w = Some f ∧ creator f = p
}.

Lemma excluded_unique w p q : excluded w → holds w p → holds w q → p = q.
Proof.
  intros [_ H] Hp Hq. destruct (H p Hp) as (f & Hf & <-), (H q Hq) as (g & Hg & <-). congruence.
Qed.

Lemma touch_some fd w f : lock_file w = Some f → ∃ g, touch fd w = Some g ∧ creator g = creator f.
Proof. intros H. unfold touch. rewrite H. eexists. split; [done|]. by destruct (_ =? _)%nat. Qed.

(** An instance moves, and the file's owner stays. *)
Lemma excluded_kept w w' p i :
  excluded w → instances w' = <[p := i]> (instances w) → (∀ d, at_ i ≠ Removing d) → (has_lock i → holds w p) →
  (∀ f, lock_file w = Some f → ∃ g, lock_file w' = Some g ∧ creator g = creator f) → excluded w'.
Proof.
  intros [Hq Ho] Hw Hi Hl Hf. split; intros q; unfold holds; rewrite Hw; destruct (decide (q = p)) as [->|Hn];
    rewrite ?fn_lookup_insert, ?fn_lookup_insert_ne by congruence; [apply Hi|apply Hq| |].
  - intros H. destruct (Ho p (Hl H)) as (f & Hf' & <-). exact (Hf f Hf').
  - intros H. destruct (Ho q H) as (f & Hf' & <-). exact (Hf f Hf').
Qed.

(** The only instance that may have the lock lets it go, or takes it. *)
Lemma excluded_free w w' p i :
  excluded w → instances w' = <[p := i]> (instances w) → (∀ d, at_ i ≠ Removing d) → (∀ q, holds w q → q = p) →
  (has_lock i → ∃ f, lock_file w' = Some f ∧ creator f = p) → excluded w'.
Proof.
  intros [Hq Ho] Hw Hi Hp Hl. split; intros q; unfold holds; rewrite Hw; destruct (decide (q = p)) as [->|Hn];
    rewrite ?fn_lookup_insert, ?fn_lookup_insert_ne by congruence; [apply Hi|apply Hq|exact Hl|].
  intros H%Hp. done.
Qed.

Lemma act_excluded p a w w' : excluded w → fresh_lock c w → act c p a w = Some w' → excluded w'.
Proof.
  intros Hx Hf H. pose proof (x_quiet w Hx p) as Hq.
  assert (Hnone : lock_file w = None → ∀ q, holds w q → q = p).
  { intros E q Hh. destruct (x_owner w Hx q Hh) as (f & E' & _). congruence. }
  assert (Hheld : negb (_held (instances w p)) = false → holds w p).
  { intros E%negb_false_iff. by left. }
  by_point H; try (by destruct (Hq _ eq_refl)); try (specialize (Hf _ Heqo); congruence);
    try (eapply (excluded_kept w _ p); [exact Hx|reflexivity|done| |cbn];
         [intros [?|[? ?]]; first [by left|discriminate|right; by eauto|by auto]
         |intros ? E; first [exact (touch_some _ _ _ E)|rewrite ?Heqo in E; congruence|
                             rewrite ?Heqo in E; injection E as <-; by eauto|by eauto]]).
  - eapply (excluded_free w _ p); [exact Hx|reflexivity|done|exact (Hnone eq_refl)|by eauto].
  - eapply (excluded_free w _ p); [exact Hx|reflexivity|done| |by intros [?|[? ?]]].
    intros q Hh. apply (excluded_unique w q p Hx Hh). exact (Hheld eq_refl).
Qed.

Lemma perform_excluded e w w' :
  excluded w → fresh_lock c w → perform c e w = Some w' → excluded w'.
Proof.
  intros Hx Hf H. destruct e as [p a|p|dw dm]; cbn in H; [exact (act_excluded p a w w' Hx Hf H)| |].
  - injection H as <-. eapply (excluded_kept w _ p); [exact Hx|reflexivity|done| |by eauto].
    by intros [?|[? ?]].
  - destruct (0 <=? dm); [|discriminate]. injection H as <-. destruct Hx as [Hq Ho]. by split.
Qed.

Lemma reachable_excluded w : reachable c (fresh_lock c) w → excluded w ∧ fresh_lock c w.
Proof.
  induction 1 as [Hf|w e w' Hr [IH Hf] H Hf']; split; try done; [|by eapply perform_excluded].
  split; [done|]. by intros p [?|[? ?]].
Qed.

End Exclusion.

(** C22: While no lock file gets older than [stale_seconds], the lock excludes:
    whatever the instances do, in whatever order, with failing system calls and
    dying processes, at most one instance has it, and the lock file is then the
    one that this instance made. *)
Theorem lock_excludes_while_fresh c w p :
  reachable c (fresh_lock c) w → holds w p →
  (∃ f, lock_file w = Some f ∧ creator f = p) ∧ ∀ q, holds w q → q = p.
Proof.
  intros [Hx _]%reachable_excluded Hp. split; [exact (x_owner w Hx p Hp)|].
  intros q Hq. exact (excluded_unique w q p Hx Hq Hp).
Qed.

(** ** Recovery of an abandoned lock *)

Section Recovery.
Context (c : config).

Definition prompt_at (w : world) (p : nat) : bool :=
  let i := instances w p in
  negb (_held i || match at_ i with Writing _ => true | _ => false end)
  || (wall w - since i <=? stale_seconds c).

(** Only instances below [n] act. *)
Definition below (n : nat) (e : event) : bool :=
  match e with Act p _ | Die p => (p <? n)%nat | Tick _ _ => true end.

Definition prompt_below (n : nat) (w : world) : bool := forallb (prompt_at w) (seq 0 n).

Fixpoint prompt_run (n : nat) (es : list event) (w : world) : option world :=
  match es with
  | [] => Some w
  | e :: es =>
      w' ← perform c e w;
      if below n e && prompt_below n w' then prompt_run n es w' else None
  end.

Lemma prompt_at_spec w p : prompt_at w p = true → holds w p → wall w - since (instances w p) ≤ stale_seconds c.
Proof.
  unfold prompt_at. intros [H|H%Z.leb_le]%orb_true_iff; [|done].
  apply negb_true_iff, orb_false_iff in H as [H1 H2]. intros [Hh|[fd Hh]]; [congruence|]. by rewrite Hh in H2.
Qed.

Lemma prompt_of n w : (∀ p, (n ≤ p)%nat → instances w p = fresh_instance) → prompt_below n w = true → prompt c w.
Proof.
  intros Hn H p Hp. destruct (decide (n ≤ p)%nat) as [Hge|Hlt].
  - unfold holds in Hp. rewrite (Hn p Hge) in Hp. by destruct Hp as [?|[? ?]].
  - apply prompt_at_spec; [|done]. unfold prompt_below in H. rewrite forallb_forall in H. apply H, in_seq. lia.
Qed.

Lemma perform_others n e w w' p :
  perform c e w = Some w' → below n e = true → (n ≤ p)%nat → instances w' p = instances w p.
Proof.
  intros H Hb Hp. destruct e as [q a|q|dw dm]; cbn in H, Hb.
  - apply Nat.ltb_lt in Hb. apply (act_others c q a w w' p H). lia.
  - apply Nat.ltb_lt in Hb. injection H as <-. cbn. rewrite fn_lookup_insert_ne; [done|lia].
  - destruct (0 <=? dm); [|discriminate]. by injection H as <-.
Qed.

Lemma prompt_run_reachable n es w w' :
  reachable c (prompt c) w → (∀ p, (n ≤ p)%nat → instances w p = fresh_instance) →
  prompt_run n es w = Some w' → reachable c (prompt c) w'.
Proof.
  revert w. induction es as [|e es IH]; intros w Hr Hn H; cbn in H; [by injection H as <-|].
  destruct (perform c e w) as [w1|] eqn:He; [|discriminate H]. cbn in H.
  destruct (below n e) eqn:Hb; [|discriminate H]. destruct (prompt_below n w1) eqn:Hp; [|discriminate H].
  assert (Hn1 : ∀ p, (n ≤ p)%nat → instances w1 p = fresh_instance).
  { intros p Hge. rewrite (perform_others n e w w1 p He Hb Hge). by apply Hn. }
  apply (IH w1); [|exact Hn1|exact H]. eapply reachable_next; [exact Hr|exact He|exact (prompt_of n w1 Hn1 Hp)].
Qed.
End Recovery.

(** [release] does not look whose file it removes. *)
Lemma release_unlinks c p w :
  at_ (instances w p) = Outside → _held (instances w p) = true →
  perform c (Act p (Release true)) w =
  Some (with_file None (with_instance p (Instance_ Outside false (Some (Ok tt)) (since (instances w p)) 0 0) w)).
Proof. intros H1 H2. cbn. unfold act. cbv zeta. by rewrite H1, H2. Qed.

(** Instance 0 dies with the lock; when its file is stale, 1 and 2 both find
    it so; 2 removes it and takes the lock; 1 removes the file of 2 and takes
    the lock as well. *)
Definition recovery_race : list event :=
  [Act 0 (Acquire true); Act 0 (Open true); Act 0 (Write true true); Die 0; Tick 121000 121000;
   Act 1 (Acquire true); Act 1 (Open true); Act 1 (Stat true);
   Act 2 (Acquire true); Act 2 (Open true); Act 2 (Stat true); Act 2 (Remove true); Act 2 Decide;
   Tick 50 50; Act 2 Wake; Act 2 (Open true); Act 2 (Write true true);
   Act 1 (Remove true); Act 1 Decide; Tick 50 50; Act 1 Wake; Act 1 (Open true); Act 1 (Write true true)].

Definition after_race (path : string) : world :=
  default init (prompt_run (default_config path) 3 recovery_race init).

(** C34: The recovery of an abandoned lock breaks the exclusion: with the
    default times, and although every instance that has the lock has had it for
    less than a second, a lock file that a dead process left makes two
    instances have the lock; the release of one then removes the file of the
    other, which still has the lock. *)
Theorem stale_recovery_breaks_exclusion path :
  ∃ w, reachable (default_config path) (prompt (default_config path)) w ∧
    holds w 1 ∧ holds w 2 ∧ wall w - since (instances w 1) ≤ 1000 ∧ wall w - since (instances w 2) ≤ 1000 ∧
    ∃ w', perform (default_config path) (Act 2 (Release true)) w = Some w' ∧ holds w' 1 ∧ lock_file w' = None.
Proof.
  exists (after_race path). split.
  - apply (prompt_run_reachable (default_config path) 3 recovery_race init); [|done|].
    + apply reachable_init. by intros p [?|[? ?]].
    + unfold after_race. destruct (prompt_run _ _ _ _) eqn:E; [done|].
      assert (Hs : match prompt_run (default_config path) 3 recovery_race init with Some _ => true | None => false end = true);
        [vm_compute; reflexivity|rewrite E in Hs; discriminate Hs].
  - repeat apply conj; try (left; vm_compute; reflexivity); try (vm_compute; discriminate).
    eexists. split; [apply release_unlinks; vm_compute; reflexivity|].
    split; [left|]; vm_compute; reflexivity.
Qed.

(** ** Waiting *)

Section Waiting.
Context (c : config) (Hpoll : 0 < poll_seconds c) (Htimeout : 0 ≤ timeout_seconds c).

(** How long the calls of [os.open] before [n] took, at least. *)
Definition slept (n : nat) : Z := (Z.of_nat n - 1) * poll_seconds c.

(** Where an instance is tells how long its call has lasted: every [os.open]
    but the first was preceded by a sleep, and no sleep began after the deadline. *)
Definition waits (now : Z) (i : instance) : Prop :=
  let n := tries i in
  match at_ i with
  | Outside => True
  | Opening d => d - timeout_seconds c + slept (S n) ≤ now ∧ slept n < timeout_seconds c ∧ (moves i ≤ 5 * n)%nat
  | Checking d => d - timeout_seconds c + slept n ≤ now ∧ (moves i + 4 ≤ 5 * n)%nat
  | Removing d => d - timeout_seconds c + slept n ≤ now ∧ (moves i + 3 ≤ 5 * n)%nat
  | Deciding d => d - timeout_seconds c + slept n ≤ now ∧ (moves i + 2 ≤ 5 * n)%nat
  | Sleeping d until => d - timeout_seconds c + slept (S n) ≤ until ∧ slept n < timeout_seconds c
                        ∧ until ≤ now + poll_seconds c ∧ (moves i + 1 ≤ 5 * n)%nat
  | Writing _ => (moves i + 4 ≤ 5 * n)%nat
  end ∧ slept n < timeout_seconds c + poll_seconds c ∧ (moves i ≤ 5 * n + 1)%nat.

Lemma waits_later now now' i : now ≤ now' → waits now i → waits now' i.
Proof. unfold waits. intros Hle [H1 H2]. split; [|exact H2]. destruct (at_ i); try done; lia. Qed.

Lemma act_waits p a w w' :
  (∀ q, waits (monotonic w) (instances w q)) → act c p a w = Some w' →
  ∀ q, waits (monotonic w') (instances w' q).
Proof.
  intros Hw H q. assert (Hm : monotonic w' = monotonic w) by (by_point H; reflexivity).
  rewrite Hm. destruct (decide (q = p)) as [->|Hn]; [|rewrite (act_others c p a w w' q H Hn); apply Hw].
  specialize (Hw p). unfold waits in Hw. clear Hm.
  by_point H; rewrite fn_lookup_insert; unfold waits, slept in *; cbn [at_ tries moves] in *;
    repeat match goal with
    | E : (_ <=? _) = true |- _ => apply Z.leb_le in E
    | E : (_ <=? _) = false |- _ => apply Z.leb_gt in E
    end; destruct Hw as [Hw1 [Hw2 Hw3]]; split; try lia; try (split; lia); nia.
Qed.

Lemma reachable_waits P w : reachable c P w → ∀ p, waits (monotonic w) (instances w p).
Proof.
  induction 1 as [_|w e w' Hr IH H _]; intros q.
  - unfold waits, slept. cbn. lia.
  - destruct e as [p a|p|dw dm]; cbn in H.
    + exact (act_waits p a w w' IH H q).
    + injection H as <-. cbn. destruct (decide (q = p)) as [->|Hn];
        rewrite ?fn_lookup_insert, ?fn_lookup_insert_ne by congruence; [|apply IH].
      unfold waits, slept. cbn. lia.
    + destruct (0 <=? dm) eqn:E; [|discriminate]. apply Z.leb_le in E. injection H as <-. cbn.
      apply (waits_later (monotonic w)); [lia|apply IH].
Qed.
End Waiting.

(** C32: A call of [acquire] ends: it calls [os.open] at most
    [timeout_seconds / poll_seconds + 2] times and does at most five actions for
    each and one more, and an instance in it always has an action to do, at once
    or after a sleep of at most [poll_seconds]. *)
Theorem acquire_terminates c P w p :
  0 < poll_seconds c → 0 ≤ timeout_seconds c → reachable c P w →
  let i := instances w p in
  Z.of_nat (tries i) ≤ timeout_seconds c / poll_seconds c + 2 ∧ (moves i ≤ 5 * tries i + 1)%nat ∧
  (at_ i ≠ Outside → ∃ a dm w1 w2, 0 ≤ dm ≤ poll_seconds c ∧
     perform c (Tick 0 dm) w = Some w1 ∧ perform c (Act p a) w1 = Some w2).
Proof.
  intros Hp Ht Hr i. pose proof (reachable_waits c Hp Ht P w Hr p) as [Hw [Hn Hm]]. fold i in Hw, Hn, Hm.
  split; [|split; [exact Hm|]].
  - unfold slept in Hn. apply Z.le_sub_le_add_r, Z.div_le_lower_bound; [done|]. nia.
  - intros Hat.
    assert (Hgo : ∀ a dm, 0 ≤ dm ≤ poll_seconds c →
      is_Some (act c p a (World (wall w + 0) (monotonic w + dm) (lock_file w) (next_ino w) (instances w))) →
      ∃ a dm w1 w2, 0 ≤ dm ≤ poll_seconds c ∧
        perform c (Tick 0 dm) w = Some w1 ∧ perform c (Act p a) w1 = Some w2).
    { intros a dm Hd [w2 H]. exists a, dm. eexists _, w2. split; [exact Hd|]. cbn.
      rewrite (proj2 (Z.leb_le 0 dm)) by lia. split; [reflexivity|exact H]. }
    unfold act in Hgo. cbn -[Z.leb] in Hgo. fold i in Hgo. destruct (at_ i) as [|d|d|d|d|d until|fd] eqn:E; [done|..].
    + apply (Hgo (Open false) 0); [lia|by eexists].
    + apply (Hgo (Stat false) 0); [lia|by eexists].
    + apply (Hgo (Remove false) 0); [lia|by eexists].
    + apply (Hgo Decide 0); [lia|]. by destruct (_ <=? _).
    + apply (Hgo Wake (Z.max 0 (until - monotonic w))); [lia|].
      rewrite (proj2 (Z.leb_le until _)) by lia. by eexists.
    + apply (Hgo (Write true true) 0); [lia|by eexists].
Qed.

(** ** One instance takes the lock *)

Definition taking : list event := [Act 0 (Acquire true); Act 0 (Open true); Act 0 (Write true true)].
Definition after (n : nat) : world := default init (run (default_config "lock") (take n taking) init).
Definition taken : world := after 3.

Lemma taken_reachable : reachable (default_config "lock") (fresh_lock (default_config "lock")) taken.
Proof.
  apply (reachable_next _ _ (after 2) (Act 0 (Write true true))); [|reflexivity|by intros f [= <-]].
  apply (reachable_next _ _ (after 1) (Act 0 (Open true))); [|reflexivity|by intros f [= <-]].
  apply (reachable_next _ _ (after 0) (Act 0 (Acquire true))); [|reflexivity|done]. by apply reachable_init.
Qed.

Theorem lock_excludes_while_fresh_witness :
  (∃ f, lock_file taken = Some f ∧ creator f = 0%nat) ∧ ∀ q, holds taken q → q = 0%nat.
Proof. apply (lock_excludes_while_fresh (default_config "lock")); [exact taken_reachable|by left]. Defined.

Theorem acquire_terminates_witness : Z.of_nat (tries (instances taken 0)) ≤ 202.
Proof.
  pose proof (acquire_terminates (default_config "lock") _ taken 0 eq_refl ltac:(discriminate) taken_reachable) as [H _].
  exact H.
Defined.
