(* ===== verification/Disk.v ===== *)
(** * Accesses to files that may fail

    What the durable stores share: the outcome of one access is an oracle of
    the environment, and an access that did not return may have left part of
    its effect behind. *)

From S2P Require Export PyText.

(** What an access that did not return leaves behind: nothing, some bytes of
    the file being written, or the change itself (the [fsync] of the directory
    that fails comes after the rename). *)
Inductive trace := Nothing | Partial (bytes : nat) | Whole.

(** What becomes of an access: it is done, or it raises; a killed process
    raises what no handler of the module names. *)
Inductive access := Fine | Fault (e : exn) (left : trace).

(** A prefix of a text. *)
Definition begins (s t : string) : Prop := ∃ u, t = s +:+ u.

#[export] Instance begins_preorder : PreOrder begins.
Proof.
  split; [intros s; exists ""; by rewrite str_app_nil_r|].
  intros s t u [x ->] [y ->]. exists (x +:+ y). by rewrite str_app_assoc.
Qed.

Lemma begins_app s t : begins s (s +:+ t).
Proof. by exists t. Qed.

(** What an append leaves when it did not return. *)
Definition left_of (l : trace) (record : string) : string :=
  match l with Nothing => "" | Partial k => String.substring 0 k record | Whole => record end.
