(* ===== verification/Host.v ===== *)
(** * The host the trust helpers look at

    Metadata, contents and directories of an absolute POSIX path as one
    observation of the file system, and the OpenSSL command line.  Both are
    outside the repository: the file system is a record of functions, and the
    OpenSSL runs are the operations of a class.  Two looks at one path agree;
    an exchange of files between them is not part of the model. *)

From S2P Require Export Wire.

Inductive file_kind := Regular | Directory | Link | Special.

#[export] Instance file_kind_eq_dec : EqDecision file_kind.
Proof. solve_decision. Defined.

(** [st_mode] as its type and its permission bits ([S_IMODE]). *)
Record meta := Meta { m_kind : file_kind; m_uid : Z; m_mode : Z; m_size : Z }.

Record host := Host {
  posix : bool;                             (** [os.name == "posix"] *)
  lstat : string → option meta;             (** [stat(follow_symlinks=False)] *)
  bytes_at : string → option string;        (** what [open] reads *)
  scandir : string → option (list string);  (** the names [os.scandir] yields *)
  runnable : string → bool;                 (** [os.access(path, os.X_OK)] *)
  resolved : string → string;               (** [Path.resolve()] *)
  interpreter : string                      (** [sys.executable] *)
}.

(** One run of the OpenSSL binary at a path: [None] when the process cannot be
    run or times out, else its exit code and what it wrote. *)
Class OpenSSL := {
  run_sign : string → string → string → option (Z * string);
  run_verify : string → string → string → string → option Z;
  run_pkey_der : string → string → option (Z * string)
}.

Definition S_IWGRP_IWOTH : Z := 18.
Definition S_IRGRP_IROTH : Z := 36.
(** [mode & (stat.S_IWGRP | stat.S_IWOTH)] and [mode & (S_IRGRP | S_IROTH)] *)
Definition others_write (m : meta) : bool := negb (Z.land (m_mode m) S_IWGRP_IWOTH =? 0).
Definition others_read (m : meta) : bool := negb (Z.land (m_mode m) S_IRGRP_IROTH =? 0).
Definition is_kind (k : file_kind) (m : meta) : bool := bool_decide (m_kind m = k).

(** ** Pure paths *)

Definition is_absolute (p : string) : bool := starts_with "/" p.

(** The components of a path; [pathlib] drops empty ones and single dots. *)
Definition segments (p : string) : list string :=
  List.filter (λ s, negb (bool_decide (s ∈ [""; "."]))) (split_on "/" p).
Definition path_of (l : list string) : string := "/" +:+ Json.join "/" l.

(** The proper prefixes of a list, shortest first. *)
Fixpoint inits {A} (l : list A) : list (list A) :=
  match l with [] => [] | x :: l => [] :: (cons x <$> inits l) end.

(** [path.parents] of an absolute path: the nearest one first. *)
Definition parents (p : string) : list string := reverse (path_of <$> inits (segments p)).

(** [path.relative_to(root)], as the remaining components; exactly two leading
    slashes are a root of their own. *)
Definition double_root (p : string) : bool := starts_with "//" p && negb (starts_with "///" p).
Fixpoint strip_prefix (a b : list string) : option (list string) :=
  match a, b with
  | [], _ => Some b
  | x :: a, y :: b => if bool_decide (x = y) then strip_prefix a b else None
  | _ :: _, [] => None
  end.
Definition relative_to (p root : string) : option (list string) :=
  if is_absolute p && negb (double_root p) then strip_prefix (segments root) (segments p) else None.
(** [str(Path(p))]: the normal form a path is kept in. *)
Definition pure_path (p : string) : string :=
  let body := Json.join "/" (segments p) in
  if double_root p then "//" +:+ body
  else if is_absolute p then "/" +:+ body
  else if bool_decide (body = "") then "." else body.
(** [path.name] *)
Definition path_name (p : string) : string := default "" (last (segments p)).
(** [directory / name] *)
Definition child (directory name : string) : string :=
  if ends_with "/" directory then directory +:+ name else directory +:+ "/" +:+ name.

Example parents_ex : parents "/etc/cogni-os/key.pem" = ["/etc/cogni-os"; "/etc"; "/"].
Proof. reflexivity. Qed.
Example relative_ex : relative_to "/a/b/c/d" "/a/b" = Some ["c"; "d"]. Proof. reflexivity. Qed.

(** [util.sha256_file] *)
Definition file_sha256 `{Hashing} (h : host) (path : string) : res string :=
  match bytes_at h path with
  | Some b => Ok (sha256_hex b)
  | None => raise OSError path
  end.

(** [[p.stat(follow_symlinks=False) for p in paths]]: [None] when one raises. *)
Fixpoint lstats (h : host) (paths : list string) : option (list meta) :=
  match paths with
  | [] => Some []
  | p :: paths => m ← lstat h p; ms ← lstats h paths; Some (m :: ms)
  end.

Lemma lstats_Some h paths ms :
  lstats h paths = Some ms ↔ Forall2 (λ p m, lstat h p = Some m) paths ms.
Proof.
  revert ms. induction paths as [|p paths IH]; intros ms; cbn.
  - split; [intros [= <-]; constructor | by inversion 1].
  - destruct (lstat h p) as [m|] eqn:E; cbn; [|split; [done | inversion 1; congruence]].
    destruct (lstats h paths) as [l|] eqn:El; cbn; split.
    + intros [= <-]. constructor; [done|]. by apply IH.
    + inversion 1 as [|? m' ? l' Hm Hl]; subst. apply IH in Hl. congruence.
    + done.
    + inversion 1 as [|? m' ? l' Hm Hl]; subst. apply IH in Hl. congruence.
Qed.

(** Every existing ancestor and the path itself have the property. *)
Definition chain (h : host) (path : string) (P : meta → Prop) : Prop :=
  Forall (λ p, ∃ m, lstat h p = Some m ∧ P m) (path :: parents path).

Lemma lstats_forallb h paths ms (P : meta → bool) :
  lstats h paths = Some ms → existsb P ms = false →
  Forall (λ p, ∃ m, lstat h p = Some m ∧ P m = false) paths.
Proof.
  intros H%lstats_Some. induction H as [|p m ps ms Hp _ IH]; cbn; [constructor|].
  intros [? ?]%orb_false_iff. constructor; eauto.
Qed.
