(* ===== verification/SnapshotProtocol.v ===== *)
(** * The snapshot broker's wire protocol ([snapshot_broker_protocol.py])

    Length-prefixed frames of canonical JSON, the schemas of requests and of
    the attestations the broker signs, and the trust helpers around the
    broker's key, interpreter and package.  [issued_at] and the other times are
    compared with the clock reading given as [now]. *)

From S2P Require Export Host.

Definition BROKER_PROTOCOL_ID : string := "cogni-os-snapshot-fd-lease-v1".
Definition BROKER_SCHEMA_VERSION : Z := 1.
Definition BROKER_PRIVATE_KEY_PATH : string := "/etc/cogni-os/snapshot-broker/ed25519-private.pem".
Definition BROKER_PUBLIC_KEY_PATH : string := "/etc/cogni-os/snapshot-broker/ed25519-public.pem".
Definition BROKER_OPENSSL_PATH : string := "/usr/bin/openssl".
Definition BROKER_OPENSSL_SHA256_PATH : string := "/etc/cogni-os/snapshot-broker/openssl.sha256".
Definition BROKER_RUNTIME_ROOT : string := "/usr/local/lib/cogni-os/snapshot-broker-v1".
Definition BROKER_PYTHON_PATH : string := BROKER_RUNTIME_ROOT +:+ "/venv/bin/python".
Definition BROKER_RUNTIME_MANIFEST_PATH : string := "/etc/cogni-os/snapshot-broker/runtime.json".
Definition BROKER_SIGNATURE_ALGORITHM : string := "ed25519-openssl-pkeyutl-raw-v1".
Definition BROKER_DESCRIPTOR_TYPE : string := "O_PATH-directory".
Definition BROKER_SOURCE_DESCRIPTOR_TYPE : string := "sealed-O_RDONLY-directory".
Definition SNAPSHOT_MATERIALIZATION_POLICY_ID : string := "git-object-dirfd-nofollow-stream-v2".
Definition MAX_BROKER_FRAME_BYTES : Z := 16 * 1024 * 1024.
Definition MAX_BROKER_TTL_SECONDS : Z := 120.
Definition MAX_BROKER_CLOCK_SKEW_SECONDS : Z := 5.
Definition MAX_BROKER_NONCE_BYTES : Z := 128.
Definition MAX_BROKER_PACKAGE_FILES : Z := 10000.
Definition MAX_BROKER_PACKAGE_BYTES : Z := 128 * 1024 * 1024.

Definition BROKER_RUNTIME_MANIFEST_KEYS : list string :=
  ["schema_version"; "runtime_id"; "python_path"; "python_sha256"; "package_root";
   "package_tree_sha256"; "wheel_sha256"; "entry_module"].
Definition ACQUIRE_REQUEST_KEYS : list string :=
  ["schema_version"; "protocol_id"; "operation"; "request_id"; "nonce"; "issued_at";
   "expires_at"; "source_descriptor_type"; "source_commit"; "tree_oid";
   "materialization_policy"; "task_id"; "attempt"; "actor"; "run_id";
   "validation_contract_sha256"; "expected_snapshot_sha256"].
Definition RELEASE_REQUEST_KEYS : list string :=
  ["schema_version"; "protocol_id"; "operation"; "request_id"; "nonce"; "issued_at";
   "expires_at"; "lease_id"; "acquire_attestation_sha256"; "task_id"; "attempt"; "actor";
   "run_id"; "validation_contract_sha256"; "receipt_preimage_sha256"].
Definition ACQUIRE_ATTESTATION_KEYS : list string :=
  ["schema_version"; "protocol_id"; "kind"; "request_sha256"; "request_id"; "request_nonce";
   "caller_pid"; "caller_uid"; "caller_gid"; "lease_id"; "source_commit"; "tree_oid";
   "snapshot_sha256"; "snapshot_device"; "snapshot_inode"; "snapshot_owner_uid";
   "descriptor_type"; "issued_at"; "expires_at"; "broker_nonce"; "materialization_policy";
   "task_id"; "attempt"; "actor"; "run_id"; "validation_contract_sha256";
   "broker_runtime_manifest_sha256"].
Definition CLEANUP_ATTESTATION_KEYS : list string :=
  ["schema_version"; "protocol_id"; "kind"; "request_sha256"; "request_id"; "request_nonce";
   "caller_pid"; "caller_uid"; "caller_gid"; "lease_id"; "acquire_attestation_sha256";
   "snapshot_sha256"; "snapshot_device"; "snapshot_inode"; "issued_at"; "broker_nonce";
   "task_id"; "attempt"; "actor"; "run_id"; "validation_contract_sha256";
   "receipt_preimage_sha256"; "broker_runtime_manifest_sha256"; "namespace_removed"].
Definition SIGNED_ENVELOPE_KEYS : list string :=
  ["schema_version"; "algorithm"; "public_key_sha256"; "payload"; "signature_b64"].

Notation broker_error := SnapshotBrokerError.

Section SnapshotProtocol.
Context `{Hashing}.

Definition canonical_json_bytes (value : json) : res string :=
  canonical_bytes broker_error MAX_BROKER_FRAME_BYTES value.
Definition canonical_json_sha256 (value : json) : res string :=
  canonical_sha256 broker_error MAX_BROKER_FRAME_BYTES value.

(** ** Frames *)

(** [struct.pack("!I", n)]; the limit keeps [n] below [2 ^ 32]. *)
Definition pack_length (n : Z) : string :=
  let b k := ascii_of_N (Z.to_N (Z.shiftr n (8 * k) mod 256)) in
  String (b 3) (String (b 2) (String (b 1) (String (b 0) ""))).
(** [struct.unpack("!I", header)[0]] *)
Fixpoint unpack_from (acc : Z) (s : string) : Z :=
  match s with
  | EmptyString => acc
  | String c r => unpack_from (acc * 256 + Z.of_N (code c)) r
  end.
Definition unpack_length (header : string) : Z := unpack_from 0 header.

Definition encode_frame (value : json) : res string :=
  payload ← canonical_json_bytes value;
  Ok (pack_length (Z.of_nat (String.length payload)) +:+ payload).

(** A stream is the chunks its reads deliver.  A read for [n] bytes returns
    the next chunk, or [n] bytes of it when it is longer; an empty chunk and
    the end of the list are the end of the file. *)
Notation stream := (list string).

Fixpoint _read_exact (source : stream) (size : nat) : res (string * stream) :=
  if (size =? 0)%nat then Ok ("", source) else
  match source with
  | [] => raise broker_error "Snapshot broker frame was truncated"
  | chunk :: source =>
      let n := String.length chunk in
      if (n =? 0)%nat then raise broker_error "Snapshot broker frame was truncated"
      else if (size <? n)%nat
      then Ok (String.substring 0 size chunk, String.substring size (n - size) chunk :: source)
      else '(rest, source) ← _read_exact source (size - n);
           Ok (chunk +:+ rest, source)
  end.

Definition decode_frame_from_stream (source : stream) : res (dict * stream) :=
  '(header, source) ← _read_exact source 4;
  let length := unpack_length header in
  _ ← raise_if ((length <? 2) || (MAX_BROKER_FRAME_BYTES <? length)) broker_error
        "Snapshot broker frame length is invalid";
  '(payload, source) ← _read_exact source (Z.to_nat length);
  value ← (if utf8_valid payload
           then catch (json_loads payload) JSONDecodeError
                  (λ _, raise broker_error "Snapshot broker frame is not valid JSON")
           else raise broker_error "Snapshot broker frame is not valid JSON");
  match value with
  | JObj d =>
      again ← canonical_json_bytes value;
      _ ← raise_if (negb (bool_decide (again = payload))) broker_error
            "Snapshot broker frame is not canonical JSON";
      Ok (d, source)
  | _ => raise broker_error "Snapshot broker frame is not canonical JSON"
  end.

(** ** Fields *)

Definition _is_hex (value : json) (length : nat) : bool :=
  match value with JStr s => re_hex length s | _ => false end.

Definition _valid_identifier (value : json) (maximum : Z) : bool :=
  match value with
  | JStr s => negb (bool_decide (s = "")) && (Z.of_nat (String.length s) <=? maximum)
              && all_chars (λ c, is_alnum c || char_in "-_." c) s
  | _ => false
  end.

Definition _validate_window (document : dict) (now : Z) : res unit :=
  match get document "issued_at", get document "expires_at" with
  | JInt issued_at, JInt expires_at =>
      _ ← raise_if ((expires_at <=? issued_at) || (MAX_BROKER_TTL_SECONDS <? expires_at - issued_at))
            broker_error "Snapshot broker request lifetime is invalid";
      raise_if ((now + MAX_BROKER_CLOCK_SKEW_SECONDS <? issued_at) || (expires_at <? now))
        broker_error "Snapshot broker request is expired or not yet valid"
  | _, _ => raise broker_error "Snapshot broker request lifetime is invalid"
  end.

Definition execution_binding_ok (document : dict) : bool :=
  _valid_identifier (get document "task_id") 256
  && bool_decide (is_Some (int_from 1 (get document "attempt")))
  && _valid_identifier (get document "actor") 256
  && _is_hex (get document "run_id") 32
  && _is_hex (get document "validation_contract_sha256") 64.

Definition _validate_execution_binding (document : dict) : res unit :=
  raise_if (negb (execution_binding_ok document)) broker_error
    "Snapshot broker execution binding is invalid".

(** ** Requests *)

Definition acquire_binding_ok (document : dict) : bool :=
  py_eq (get document "source_descriptor_type") (JStr BROKER_SOURCE_DESCRIPTOR_TYPE)
  && _is_hex (get document "source_commit") 40
  && _is_hex (get document "tree_oid") 40
  && py_eq (get document "materialization_policy") (JStr SNAPSHOT_MATERIALIZATION_POLICY_ID)
  && _is_hex (get document "expected_snapshot_sha256") 64.

Definition release_binding_ok (document : dict) : bool :=
  _valid_identifier (get document "lease_id") MAX_BROKER_NONCE_BYTES
  && _is_hex (get document "acquire_attestation_sha256") 64
  && _is_hex (get document "receipt_preimage_sha256") 64.

(** The operation the request names, when it is one of the two. *)
Definition request_operation (document : dict) : option bool :=
  if py_eq (get document "operation") (JStr "acquire") then Some true
  else if py_eq (get document "operation") (JStr "release") then Some false else None.

Definition validate_request (document : json) (now : Z) : res string :=
  match document with
  | JObj d =>
      let operation := request_operation d in
      _ ← raise_if (negb match operation with
                         | Some true => exact_keys d ACQUIRE_REQUEST_KEYS
                         | Some false => exact_keys d RELEASE_REQUEST_KEYS
                         | None => false
                         end) broker_error "Snapshot broker request schema is not exact";
      _ ← raise_if (py_neq (get d "schema_version") (JInt BROKER_SCHEMA_VERSION)
                    || py_neq (get d "protocol_id") (JStr BROKER_PROTOCOL_ID)
                    || negb (_valid_identifier (get d "request_id") MAX_BROKER_NONCE_BYTES)
                    || negb (_valid_identifier (get d "nonce") MAX_BROKER_NONCE_BYTES))
            broker_error "Snapshot broker request identity is invalid";
      _ ← _validate_window d now;
      _ ← _validate_execution_binding d;
      match operation with
      | Some true =>
          _ ← raise_if (negb (acquire_binding_ok d)) broker_error
                "Snapshot broker acquire binding is invalid";
          Ok "acquire"
      | _ =>
          _ ← raise_if (negb (release_binding_ok d)) broker_error
                "Snapshot broker release binding is invalid";
          Ok "release"
      end
  | _ => raise broker_error "Snapshot broker request must be an object"
  end.

(** ** Signed envelopes *)

Definition attestation_keys (kind : string) : option (list string) :=
  if bool_decide (kind = "snapshot-acquired") then Some ACQUIRE_ATTESTATION_KEYS
  else if bool_decide (kind = "snapshot-cleaned") then Some CLEANUP_ATTESTATION_KEYS
  else None.

Definition payload_identity_ok (payload : dict) (kind : string) : bool :=
  py_eq (get payload "schema_version") (JInt BROKER_SCHEMA_VERSION)
  && py_eq (get payload "protocol_id") (JStr BROKER_PROTOCOL_ID)
  && py_eq (get payload "kind") (JStr kind)
  && _is_hex (get payload "request_sha256") 64
  && _valid_identifier (get payload "request_id") MAX_BROKER_NONCE_BYTES
  && _valid_identifier (get payload "request_nonce") MAX_BROKER_NONCE_BYTES
  && _valid_identifier (get payload "lease_id") MAX_BROKER_NONCE_BYTES
  && _valid_identifier (get payload "broker_nonce") MAX_BROKER_NONCE_BYTES.

Definition numeric_bindings_ok (payload : dict) : bool :=
  forallb (λ field, bool_decide (is_Some (int_from 0 (get payload field))))
    ["caller_pid"; "caller_uid"; "caller_gid"; "snapshot_device"; "snapshot_inode"].

Definition acquisition_ok (payload : dict) : bool :=
  _is_hex (get payload "source_commit") 40
  && _is_hex (get payload "tree_oid") 40
  && _is_hex (get payload "snapshot_sha256") 64
  && py_eq (get payload "snapshot_owner_uid") (JInt 0)
  && py_eq (get payload "descriptor_type") (JStr BROKER_DESCRIPTOR_TYPE)
  && match get payload "expires_at", get payload "issued_at" with
     | JInt expires_at, JInt issued_at => issued_at <? expires_at
     | _, _ => false
     end
  && _valid_identifier (get payload "materialization_policy") 128.

Definition cleanup_ok (payload : dict) : bool :=
  _is_hex (get payload "acquire_attestation_sha256") 64
  && _is_hex (get payload "snapshot_sha256") 64
  && _is_hex (get payload "receipt_preimage_sha256") 64
  && is_true (get payload "namespace_removed").

(** The decoded signature of at most 1024 characters, 64 bytes long. *)
Definition signature_bytes (signature : json) : res string :=
  match signature with
  | JStr s =>
      _ ← raise_if (1024 <? Z.of_nat (py_len s)) broker_error
            "Snapshot broker signature encoding is invalid";
      decoded ← catch (Base64.strict_decode s) ValueError
                  (λ _, raise broker_error "Snapshot broker signature encoding is invalid");
      _ ← raise_if (negb (String.length decoded =? 64)%nat) broker_error
            "Snapshot broker Ed25519 signature length is invalid";
      Ok decoded
  | _ => raise broker_error "Snapshot broker signature encoding is invalid"
  end.

Definition validate_signed_envelope (envelope : json) (kind : string) : res dict :=
  match envelope with
  | JObj e =>
      _ ← raise_if (negb (exact_keys e SIGNED_ENVELOPE_KEYS)) broker_error
            "Snapshot broker signed envelope schema is not exact";
      _ ← raise_if (py_neq (get e "schema_version") (JInt BROKER_SCHEMA_VERSION)
                    || py_neq (get e "algorithm") (JStr BROKER_SIGNATURE_ALGORITHM)
                    || negb (_is_hex (get e "public_key_sha256") 64)) broker_error
            "Snapshot broker signed envelope metadata is invalid";
      match attestation_keys kind, get e "payload" with
      | Some keys, JObj payload =>
          _ ← raise_if (negb (exact_keys payload keys)) broker_error
                "Snapshot broker signed payload schema is not exact";
          _ ← raise_if (negb (payload_identity_ok payload kind)) broker_error
                "Snapshot broker signed payload identity is invalid";
          _ ← _validate_execution_binding payload;
          _ ← raise_if (negb (_is_hex (get payload "broker_runtime_manifest_sha256") 64))
                broker_error "Snapshot broker runtime provenance is invalid";
          _ ← raise_if (negb (numeric_bindings_ok payload)) broker_error
                "Snapshot broker signed numeric binding is invalid";
          _ ← raise_if (negb (is_pure_int (get payload "issued_at"))) broker_error
                "Snapshot broker signed time binding is invalid";
          _ ← (if bool_decide (kind = "snapshot-acquired")
               then raise_if (negb (acquisition_ok payload)) broker_error
                      "Snapshot broker acquisition binding is invalid"
               else raise_if (negb (cleanup_ok payload)) broker_error
                      "Snapshot broker cleanup binding is invalid");
          _ ← signature_bytes (get e "signature_b64");
          Ok payload
      | _, _ => raise broker_error "Snapshot broker signed payload schema is not exact"
      end
  | _ => raise broker_error "Snapshot broker signed envelope schema is not exact"
  end.

(** ** Trust material on the host *)

Definition _require_posix_root_owned (h : host) (path : string) (private : bool) : res string :=
  _ ← raise_if (negb (posix h) || negb (is_absolute path)) broker_error
        "Snapshot broker trust material requires POSIX";
  match lstat h path, lstats h (parents path) with
  | Some target, Some ancestors =>
      _ ← raise_if (is_kind Link target || existsb (is_kind Link) ancestors) broker_error
            "Snapshot broker trust path contains a link";
      _ ← raise_if (negb (m_uid target =? 0) || existsb (λ m, negb (m_uid m =? 0)) ancestors)
            broker_error "Snapshot broker trust path is not root-owned";
      _ ← raise_if (others_write target || existsb others_write ancestors) broker_error
            "Snapshot broker trust path is actor-writable";
      _ ← raise_if (negb (is_kind Regular target)) broker_error
            "Snapshot broker trust material is not a file";
      _ ← raise_if (private && others_read target) broker_error
            "Snapshot broker private key is not private";
      Ok path
  | _, _ => raise broker_error "Snapshot broker trust material is unavailable"
  end.

(** *** The package tree *)

Definition root_protected (m : meta) : bool :=
  negb (is_kind Link m) && is_kind Directory m && (m_uid m =? 0) && negb (others_write m).
Definition unsafe_entry (m : meta) : bool :=
  is_kind Link m || negb (m_uid m =? 0) || others_write m.

(** The loop's variables; the top of the stack is the head of [pending]. *)
Record walk := Walk { pending : list string; records : list dict; count : Z; total : Z }.

Definition entry_record (path : string) (mode size : Z) (sha : json) : dict := dict_of
  [("path", JStr path); ("mode", JInt mode); ("size", JInt size); ("sha256", sha)].

(** [path.relative_to(package_root).as_posix()] *)
Definition relative_name (path package_root : string) : res string :=
  match relative_to path package_root with
  | Some l => Ok (Json.join "/" l)
  | None => raise ValueError "is not in the subpath"
  end.

Definition visit_entry (h : host) (package_root directory : string) (w : walk) (name : string)
    : res walk :=
  let count := count w + 1 in
  _ ← raise_if (MAX_BROKER_PACKAGE_FILES <? count) broker_error
        "Broker package tree exceeds its file limit";
  let path := child directory name in
  match lstat h path with
  | None => raise broker_error "Cannot inspect broker package entry"
  | Some metadata =>
      _ ← raise_if (unsafe_entry metadata) broker_error
            "Broker package tree contains an unsafe entry";
      relative ← relative_name path package_root;
      match m_kind metadata with
      | Directory =>
          Ok (Walk (path :: pending w)
                (records w ++ [entry_record (relative +:+ "/") (m_mode metadata) 0 JNull])
                count (total w))
      | Regular =>
          let total := total w + m_size metadata in
          _ ← raise_if (MAX_BROKER_PACKAGE_BYTES <? total) broker_error
                "Broker package tree exceeds its byte limit";
          sha ← file_sha256 h path;
          Ok (Walk (pending w)
                (records w ++ [entry_record relative (m_mode metadata) (m_size metadata) (JStr sha)])
                count total)
      | _ => raise broker_error "Broker package tree contains a special file"
      end
  end.

(** [while pending: ...]: [None] when the fuel does not suffice. *)
Fixpoint walk_tree (fuel : nat) (h : host) (package_root : string) (w : walk) : option (res walk) :=
  match pending w with
  | [] => Some (Ok w)
  | directory :: rest =>
      match fuel with
      | O => None
      | S fuel =>
          match scandir h directory with
          | None => Some (raise broker_error "Cannot enumerate broker package tree")
          | Some names =>
              match res_foldl (visit_entry h package_root directory)
                      (Walk rest (records w) (count w) (total w)) (merge_sort String.le names) with
              | Ok w => walk_tree fuel h package_root w
              | Err e => Some (Err e)
              end
          end
      end
  end.

(** Each directory but the root is an entry, so the file limit bounds the
    directories visited. *)
Definition walk_fuel : nat := S (Z.to_nat MAX_BROKER_PACKAGE_FILES).

Definition record_le (a b : dict) : Prop :=
  String.le (str_of (get a "path")) (str_of (get b "path")).
#[local] Instance record_le_dec : RelDecision record_le.
Proof. intros a b. unfold record_le. apply _. Defined.

Definition tree_document (w : walk) : json := jobj
  [("schema_version", JInt 1); ("file_count", JInt (count w)); ("size_bytes", JInt (total w));
   ("records", JList (JObj <$> merge_sort record_le (records w)))].

Definition package_tree_sha256 (h : host) (package_root : string) : option (res string) :=
  if negb (posix h) || negb (is_absolute package_root)
  then Some (raise broker_error "Broker package tree requires an absolute POSIX path")
  else match lstats h (package_root :: parents package_root) with
       | None => Some (raise broker_error "Broker package tree is unavailable")
       | Some chain_metadata =>
           if negb (forallb root_protected chain_metadata)
           then Some (raise broker_error "Broker package root ancestry is not root-protected")
           else match walk_tree walk_fuel h package_root (Walk [package_root] [] 0 0) with
                | None => None
                | Some r => Some (w ← r; canonical_json_sha256 (tree_document w))
                end
       end.

(** *** Interpreter, OpenSSL and key *)

Definition manifest_ok (manifest : dict) (raw : string) : res bool :=
  if exact_keys manifest BROKER_RUNTIME_MANIFEST_KEYS then
    again ← canonical_json_bytes (JObj manifest);
    Ok (bool_decide (again = raw)
        && py_eq (get manifest "schema_version") (JInt 1)
        && py_eq (get manifest "runtime_id") (JStr "cogni-os-snapshot-broker-runtime-v1")
        && py_eq (get manifest "python_path") (JStr BROKER_PYTHON_PATH)
        && py_eq (get manifest "entry_module") (JStr "cogni_os.snapshot_broker")
        && _is_hex (get manifest "python_sha256") 64
        && _is_hex (get manifest "package_tree_sha256") 64
        && _is_hex (get manifest "wheel_sha256") 64)
  else Ok false.

Definition read_manifest (h : host) (manifest_file : string) : res (string * json) :=
  match bytes_at h manifest_file with
  | Some raw =>
      value ← (if utf8_valid raw
               then catch (json_loads raw) JSONDecodeError
                      (λ _, raise broker_error "Broker runtime manifest is unreadable")
               else raise broker_error "Broker runtime manifest is unreadable");
      Ok (raw, value)
  | None => raise broker_error "Broker runtime manifest is unreadable"
  end.

(** [require_current_interpreter] is the caller's choice; [None] as in
    [package_tree_sha256]. *)
Definition trusted_broker_runtime_binding (h : host) (manifest_path : string)
    (require_current_interpreter : bool) : option (res (gmap string string)) :=
  let checked :=
    manifest_file ← _require_posix_root_owned h manifest_path false;
    '(raw, value) ← read_manifest h manifest_file;
    manifest ← match value with
               | JObj m => ok ← manifest_ok m raw;
                           _ ← raise_if (negb ok) broker_error "Broker runtime manifest schema is invalid";
                           Ok m
               | _ => raise broker_error "Broker runtime manifest schema is invalid"
               end;
    python ← _require_posix_root_owned h BROKER_PYTHON_PATH false;
    _ ← raise_if (require_current_interpreter &&
                  negb (bool_decide (resolved h (interpreter h) = resolved h BROKER_PYTHON_PATH)))
          broker_error "Broker is not running under the fixed interpreter";
    python_sha ← file_sha256 h python;
    _ ← raise_if (py_neq (JStr python_sha) (get manifest "python_sha256")) broker_error
          "Broker interpreter does not match its manifest";
    let package_root := pure_path (str_of (get manifest "package_root")) in
    _ ← raise_if (bool_decide (relative_to package_root BROKER_RUNTIME_ROOT = None)) broker_error
          "Broker package root escapes the immutable runtime";
    _ ← raise_if (negb (bool_decide (path_name package_root = "cogni_os"))) broker_error
          "Broker package root is not the Cogni-OS package";
    Ok (manifest_file, raw, manifest, python, package_root) in
  match checked with
  | Err e => Some (Err e)
  | Ok (manifest_file, raw, manifest, python, package_root) =>
      match package_tree_sha256 h package_root with
      | None => None
      | Some r => Some (
          tree ← r;
          _ ← raise_if (py_neq (JStr tree) (get manifest "package_tree_sha256")) broker_error
                "Broker package tree does not match its manifest";
          Ok (list_to_map
                [("manifest_path", manifest_file); ("manifest_sha256", sha256_hex raw);
                 ("python_path", python); ("python_sha256", str_of (get manifest "python_sha256"));
                 ("package_tree_sha256", str_of (get manifest "package_tree_sha256"));
                 ("wheel_sha256", str_of (get manifest "wheel_sha256"))]))
      end
  end.

(** [path.read_text(encoding="ascii").strip().lower()] *)
Definition read_digest (h : host) (path : string) : res string :=
  match bytes_at h path with
  | Some b => if all_chars is_ascii b then Ok (lower (strip b))
              else raise broker_error "Cannot read the OpenSSL trust digest"
  | None => raise broker_error "Cannot read the OpenSSL trust digest"
  end.

(** The path and the digest of the OpenSSL binary. *)
Definition trusted_openssl_binding (h : host) (openssl_path digest_path : string)
    : res (string * string) :=
  openssl ← _require_posix_root_owned h openssl_path false;
  digest_file ← _require_posix_root_owned h digest_path false;
  expected ← read_digest h digest_file;
  _ ← raise_if (negb (re_hex 64 expected)) broker_error "OpenSSL trust digest is invalid";
  actual ← file_sha256 h openssl;
  _ ← raise_if (negb (bool_decide (actual = expected))) broker_error
        "OpenSSL binary does not match the administrator digest";
  _ ← raise_if (negb (runnable h openssl)) broker_error "Fixed OpenSSL binary is not executable";
  Ok (openssl, actual).

Definition trusted_public_key_binding (h : host) (public_key_path : string)
    : res (string * string) :=
  key ← _require_posix_root_owned h public_key_path false;
  sha ← file_sha256 h key;
  Ok (key, sha).

(** ** Signing and verifying *)

Context `{OpenSSL}.

(** [_openssl_pkeyutl] with and without a signature. *)
Definition pkeyutl_sign (openssl_path key_path : string) (payload : json) : res string :=
  payload_bytes ← canonical_json_bytes payload;
  match run_sign openssl_path key_path payload_bytes with
  | None => raise broker_error "OpenSSL broker signature operation failed"
  | Some (code, result) =>
      _ ← raise_if (negb (code =? 0)) broker_error "OpenSSL refused the broker signature";
      _ ← raise_if (negb (String.length result =? 64)%nat) broker_error
            "OpenSSL returned an invalid Ed25519 signature";
      Ok result
  end.

Definition pkeyutl_verify (openssl_path key_path : string) (payload : json) (signature : string)
    : res bool :=
  payload_bytes ← canonical_json_bytes payload;
  match run_verify openssl_path key_path payload_bytes signature with
  | None => raise broker_error "OpenSSL broker signature operation failed"
  | Some code => Ok (code =? 0)
  end.

(** [base64.b64encode(b).decode("ascii")] *)
Definition b64 (b : string) : string := Base64.encode false true b.

Definition signed_envelope (public_key_sha256 : string) (payload : dict) (signature : string)
    : json := jobj
  [("schema_version", JInt BROKER_SCHEMA_VERSION);
   ("algorithm", JStr BROKER_SIGNATURE_ALGORITHM);
   ("public_key_sha256", JStr public_key_sha256);
   ("payload", JObj payload);
   ("signature_b64", JStr (b64 signature))].

Definition sign_payload (h : host) (payload : dict)
    (private_key_path public_key_path openssl_path openssl_sha256_path : string) : res json :=
  _ ← validate_signed_envelope (signed_envelope (zeros 64) payload (zeros 64))
        (str_of (get payload "kind"));
  _ ← _require_posix_root_owned h private_key_path true;
  public ← trusted_public_key_binding h public_key_path;
  openssl ← trusted_openssl_binding h openssl_path openssl_sha256_path;
  signature ← pkeyutl_sign openssl.1 private_key_path (JObj payload);
  Ok (signed_envelope public.2 payload signature).

Definition verify_signed_envelope (h : host) (envelope : json) (kind : string)
    (public_key_path openssl_path openssl_sha256_path : string) : res dict :=
  payload ← validate_signed_envelope envelope kind;
  public ← trusted_public_key_binding h public_key_path;
  named ← jitem envelope "public_key_sha256";
  _ ← raise_if (py_neq named (JStr public.2)) broker_error
        "Broker envelope names a different public key";
  openssl ← trusted_openssl_binding h openssl_path openssl_sha256_path;
  s ← jitem envelope "signature_b64";
  signature ← signature_bytes s;
  verified ← pkeyutl_verify openssl.1 public_key_path (JObj payload) signature;
  _ ← raise_if (negb verified) broker_error "Broker detached signature is invalid";
  Ok payload.
End SnapshotProtocol.

(** ** Frames decode to what was encoded, however the stream is cut *)

(** What is left to read of a stream. *)
Definition bytes (source : list string) : string := foldr String.append "" source.
Definition nonempty_chunks (source : list string) : Prop := Forall (λ c, c ≠ "") source.

Lemma substring_split n s : (n ≤ String.length s)%nat →
  s = String.substring 0 n s +:+ String.substring n (String.length s - n) s.
Proof.
  revert n. induction s as [|c s IH]; intros [|n] Hn; cbn in *; try done; try lia.
  - f_equal. specialize (IH 0%nat). rewrite Nat.sub_0_r in IH. clear -IH.
    assert (∀ t, String.substring 0 (String.length t) t = t) as Hfull.
    { induction t as [|x t IHt]; cbn; [done|]. by rewrite IHt. }
    by rewrite Hfull.
  - rewrite str_app_cons. f_equal. apply IH. lia.
Qed.

Lemma substring_length n m s : (n + m ≤ String.length s)%nat →
  String.length (String.substring n m s) = m.
Proof.
  revert n m. induction s as [|c s IH]; intros [|n] [|m] H; cbn in *; try done; try lia.
  - f_equal. apply IH. lia.
  - apply IH. lia.
  - apply IH. lia.
Qed.

Lemma str_app_inv a b c d : String.length a = String.length c →
  a +:+ b = c +:+ d → a = c ∧ b = d.
Proof.
  revert c. induction a as [|x a IH]; intros [|y c] Hl; cbn in Hl; try done.
  rewrite !str_app_cons. intros [= -> Hr]. destruct (IH c) as [-> ->]; [lia|done|done].
Qed.

Section Frames.
Context `{Hashing}.

(** Reading [size] bytes takes exactly the next [size] bytes of the stream. *)
Lemma read_exact_spec source size : nonempty_chunks source →
  match _read_exact source size with
  | Ok (b, rest) => bytes source = b +:+ bytes rest ∧ String.length b = size ∧ nonempty_chunks rest
  | Err e => (String.length (bytes source) < size)%nat
  end.
Proof.
  revert size. induction source as [|c source IH]; intros size Hs; cbn [_read_exact].
  - destruct (Nat.eqb_spec size 0) as [->|]; cbn; [done|lia].
  - inversion Hs as [|? ? Hc Hrest]; subst. destruct (Nat.eqb_spec size 0) as [->|Hz]; [done|].
    destruct (Nat.eqb_spec (String.length c) 0) as [Hl|Hl]; [by destruct c|].
    destruct (Nat.ltb_spec size (String.length c)) as [Hlt|Hge].
    + cbn [bytes foldr]. rewrite str_app_assoc, <- substring_split by lia.
      split; [done|]. split; [apply substring_length; lia|]. constructor; [|done].
      intros E. pose proof (substring_length size (String.length c - size) c) as Hn.
      rewrite E in Hn. cbn in Hn. lia.
    + specialize (IH (size - String.length c)%nat Hrest).
      destruct (_read_exact source (size - String.length c)) as [[b rest]|e]; cbn [mbind res_bind].
      * destruct IH as (Hb & Hlen & Hn). cbn [bytes foldr]. fold (bytes source). rewrite Hb.
        rewrite str_app_assoc, str_app_length, Hlen. split; [done|]. split; [lia|done].
      * cbn [bytes foldr]. fold (bytes source). rewrite str_app_length. lia.
Qed.

Lemma read_exact_app source b tail : nonempty_chunks source → bytes source = b +:+ tail →
  ∃ rest, _read_exact source (String.length b) = Ok (b, rest) ∧ bytes rest = tail ∧
          nonempty_chunks rest.
Proof.
  intros Hs Hb. pose proof (read_exact_spec source (String.length b) Hs) as Hr.
  destruct (_read_exact source (String.length b)) as [[b' rest]|e].
  - destruct Hr as (Hb' & Hl & Hn). rewrite Hb in Hb'.
    destruct (str_app_inv b tail b' (bytes rest)) as [-> ->]; [done|done|]. by exists rest.
  - rewrite Hb, str_app_length in Hr. lia.
Qed.

Lemma pack_length_4 n : String.length (pack_length n) = 4%nat.
Proof. reflexivity. Qed.

Lemma unpack_pack n : 0 ≤ n < 2 ^ 32 → unpack_length (pack_length n) = n.
Proof.
  intros Hn. unfold unpack_length, pack_length, unpack_from, code.
  assert (∀ x, N_of_ascii (ascii_of_N (Z.to_N (x mod 256))) = Z.to_N (x mod 256)) as Hb.
  { intros x. apply N_ascii_embedding. pose proof (Z.mod_pos_bound x 256). lia. }
  rewrite !Hb, !Z2N.id by (apply Z.mod_pos_bound; lia).
  rewrite !Z.shiftr_div_pow2 by lia. cbn [Z.mul Pos.mul].
  change (2 ^ (8 * 3)) with 16777216. change (2 ^ (8 * 2)) with 65536.
  change (2 ^ (8 * 1)) with 256. change (2 ^ (8 * 0)) with 1.
  change (2 ^ 32) with 4294967296 in Hn. rewrite Z.div_1_r.
  Z.to_euclidean_division_equations. lia.
Qed.
Lemma pack_unpack header : String.length header = 4%nat →
  pack_length (unpack_length header) = header.
Proof.
  destruct header as [|a [|b [|c [|d [|]]]]]; intros H4; try discriminate H4.
  unfold unpack_length, unpack_from, pack_length.
  pose proof (N_ascii_bounded a) as Ha. pose proof (N_ascii_bounded b) as Hb.
  pose proof (N_ascii_bounded c) as Hc. pose proof (N_ascii_bounded d) as Hd.
  assert (∀ x y, Z.to_N (x mod 256) = code y → ascii_of_N (Z.to_N (x mod 256)) = y) as Hk.
  { intros x y ->. apply ascii_N_embedding. }
  rewrite !Z.shiftr_div_pow2 by lia. cbn [Z.mul Pos.mul].
  change (2 ^ (8 * 3)) with 16777216. change (2 ^ (8 * 2)) with 65536.
  change (2 ^ (8 * 1)) with 256. change (2 ^ (8 * 0)) with 1. rewrite Z.div_1_r.
  unfold code in *.
  rewrite (Hk _ a), (Hk _ b), (Hk _ c), (Hk _ d); [done|..];
    unfold code; apply N2Z.inj; rewrite Z2N.id by (apply Z.mod_pos_bound; lia);
    Z.to_euclidean_division_equations; lia.
Qed.

Lemma encode_frame_ok v p : encode_frame v = Ok p ↔
  ∃ b, canonical_json_bytes v = Ok b ∧ p = pack_length (Z.of_nat (String.length b)) +:+ b.
Proof.
  unfold encode_frame. rewrite bind_ok. split.
  - intros (b & Hb & Hp%Ok_inj). by exists b.
  - intros (b & Hb & ->). by exists b.
Qed.

(** A frame's payload is an object's text, so it has its two braces. *)
Lemma object_text_length d : floats_ok (JObj d) = true →
  (2 ≤ String.length (canonical_json (JObj d)))%nat.
Proof.
  intros Hd. unfold canonical_json, dumps.
  destruct (dumps_head compact 0 (JObj d) Hd) as (c & t & E & _). rewrite E.
  destruct t as [|x t]; cbn; [exfalso | lia].
  pose proof (loads_canonical (JObj d) Hd) as Hl. unfold canonical_json, dumps in Hl.
  rewrite E in Hl. destruct c as [[] [] [] [] [] [] [] []]; vm_compute in Hl; discriminate Hl.
Qed.

(** A frame that was encoded is decoded to the same document whatever the sizes
    of the chunks the stream delivers, and exactly its bytes are consumed. *)
Lemma encoded_frame_decodes source d frame tail :
  encode_frame (JObj d) = Ok frame → floats_ok (JObj d) = true →
  nonempty_chunks source → bytes source = frame +:+ tail →
  ∃ rest, decode_frame_from_stream source = Ok (d, rest) ∧ bytes rest = tail ∧
          nonempty_chunks rest.
Proof.
  intros (b & Hb & ->)%encode_frame_ok Hd Hs Hbytes.
  pose proof Hb as (-> & _ & Hutf & Hlim)%canonical_bytes_ok.
  pose proof (object_text_length d Hd) as Hlen. set (b := canonical_json (JObj d)) in *.
  rewrite <- str_app_assoc in Hbytes.
  destruct (read_exact_app source _ _ Hs Hbytes) as (s1 & H1 & Hb1 & Hn1).
  destruct (read_exact_app s1 b tail Hn1 Hb1) as (s2 & H2 & Hb2 & Hn2).
  unfold decode_frame_from_stream. rewrite pack_length_4 in H1. rewrite H1. cbn [mbind res_bind].
  unfold MAX_BROKER_FRAME_BYTES in *. rewrite unpack_pack by lia.
  destruct (Z.ltb_spec (Z.of_nat (String.length b)) 2); [lia|].
  destruct (Z.ltb_spec (16 * 1024 * 1024) (Z.of_nat (String.length b))); [lia|].
  cbn [orb raise_if mbind res_bind]. rewrite Nat2Z.id, H2. cbn [mbind res_bind].
  rewrite Hutf. assert (json_loads b = Ok (JObj d)) as -> by exact (loads_canonical _ Hd). cbn [catch mbind res_bind].
  rewrite Hb. cbn [mbind res_bind]. rewrite bool_decide_true by done. by exists s2.
Qed.

(** The decoder accepts nothing but encoded frames. *)
Lemma decoded_frame_is_encoded source d rest :
  nonempty_chunks source → decode_frame_from_stream source = Ok (d, rest) →
  ∃ frame, encode_frame (JObj d) = Ok frame ∧ bytes source = frame +:+ bytes rest.
Proof.
  intros Hs Hdec. unfold decode_frame_from_stream in Hdec.
  pose proof (read_exact_spec source 4 Hs) as H1.
  destruct (_read_exact source 4) as [[header s1]|]; [|done]. cbn [mbind res_bind] in Hdec.
  destruct H1 as (Hb1 & Hl1 & Hn1). apply bind_ok in Hdec as (u & Hlen%raise_if_ok & Hdec).
  apply orb_false_iff in Hlen as [Hge%Z.ltb_ge Hle%Z.ltb_ge].
  pose proof (read_exact_spec s1 (Z.to_nat (unpack_length header)) Hn1) as H2.
  destruct (_read_exact s1 _) as [[payload s2]|]; [|done]. cbn [mbind res_bind] in Hdec.
  destruct H2 as (Hb2 & Hl2 & Hn2). apply bind_ok in Hdec as (value & _ & Hdec).
  destruct value; try done. apply bind_ok in Hdec as (again & Hagain & Hdec).
  apply bind_ok in Hdec as (? & Heq%raise_if_ok & [= <- <-]%Ok_inj).
  apply negb_false_iff, bool_decide_eq_true in Heq. subst again.
  exists (header +:+ payload). split; [|by rewrite Hb1, Hb2, str_app_assoc].
  apply encode_frame_ok. exists payload. split; [done|]. f_equal. rewrite Hl2, Z2Nat.id by lia.
  symmetry. by apply pack_unpack.
Qed.

(** C23: Reading a frame from a stream, whatever the sizes of the chunks its
    reads deliver, is the inverse of writing one: a document is read, leaving
    certain bytes, exactly when the stream's bytes are the document's one frame
    followed by those bytes. *)
Theorem frame_reading_inverts_writing source d tail :
  nonempty_chunks source → floats_ok (JObj d) = true →
  (∃ rest, decode_frame_from_stream source = Ok (d, rest) ∧ bytes rest = tail) ↔
  (∃ frame, encode_frame (JObj d) = Ok frame ∧ bytes source = frame +:+ tail).
Proof.
  intros Hs Hd. split.
  - intros (rest & Hr & <-). by apply decoded_frame_is_encoded.
  - intros (frame & He & Hb).
    destruct (encoded_frame_decodes source d frame tail He Hd Hs Hb) as (rest & ? & ? & _). by exists rest.
Qed.
End Frames.

(** ** The package tree *)

Section Tree.
Context `{Hashing} (h : host) (package_root : string).

(** The bound on what is left to visit. *)
Definition measure (w : walk) : Z :=
  Z.of_nat (length (pending w)) + (MAX_BROKER_PACKAGE_FILES - count w).

(** An entry that was visited: it is safe, and a directory of the stack or a
    file on record. *)
Definition visited (w : walk) (path : string) : Prop := ∃ m,
  lstat h path = Some m ∧ unsafe_entry m = false ∧
  ((m_kind m = Directory ∧ path ∈ pending w) ∨
   (m_kind m = Regular ∧ ∃ rel content,
      relative_name path package_root = Ok rel ∧ bytes_at h path = Some content ∧
      entry_record rel (m_mode m) (m_size m) (JStr (sha256_hex content)) ∈ records w)).

Definition grows (w w' : walk) : Prop := pending w ⊆ pending w' ∧ records w ⊆ records w'.

#[local] Instance grows_preorder : PreOrder grows.
Proof. split; [by intros w|]. intros a b c [? ?] [? ?]. split; by etrans. Qed.

Lemma visited_mono w w' path : grows w w' → visited w path → visited w' path.
Proof.
  intros [Hp Hr] (m & ? & ? & [[? ?]|(? & rel & c & ? & ? & ?)]); exists m; (split; [done|]);
    (split; [done|]).
  - left. split; [done|]. by apply Hp.
  - right. split; [done|]. exists rel, c. split; [done|]. split; [done|]. by apply Hr.
Qed.

Lemma visit_entry_ok d w n w' : visit_entry h package_root d w n = Ok w' →
  count w' ≤ MAX_BROKER_PACKAGE_FILES ∧ measure w' ≤ measure w ∧ grows w w' ∧
  visited w' (child d n).
Proof.
  unfold visit_entry. intros (u & Hc%raise_if_ok & Hv)%bind_ok. bool_split.
  destruct (lstat h (child d n)) as [m|] eqn:Em; [|done].
  apply bind_ok in Hv as (u' & Hsafe%raise_if_ok & Hv).
  apply bind_ok in Hv as (rel & Hrel & Hv). destruct (m_kind m) eqn:Ek; try done.
  - apply bind_ok in Hv as (u2 & _ & Hv). apply bind_ok in Hv as (sha & Hsha & <-%Ok_inj).
    unfold file_sha256 in Hsha. destruct (bytes_at h (child d n)) as [c|] eqn:Eb; [|done].
    apply Ok_inj in Hsha as <-. unfold measure, grows. cbn [pending records count].
    split; [done|]. split; [lia|]. split; [split; [done|]; set_solver|].
    exists m. split; [done|]. split; [done|]. right. split; [done|]. exists rel, c.
    split; [done|]. split; [done|]. cbn. set_solver.
  - apply Ok_inj in Hv as <-. unfold measure, grows. cbn [pending records count].
    cbn [length]. split; [done|]. split; [lia|]. split; [split; set_solver|].
    exists m. split; [done|]. split; [done|]. left. split; [done|]. cbn. set_solver.
Qed.

Lemma visit_entries_ok d names w w' :
  count w ≤ MAX_BROKER_PACKAGE_FILES →
  res_foldl (visit_entry h package_root d) w names = Ok w' →
  count w' ≤ MAX_BROKER_PACKAGE_FILES ∧ measure w' ≤ measure w ∧ grows w w' ∧
  Forall (λ n, visited w' (child d n)) names.
Proof.
  revert w. induction names as [|n names IH]; intros w Hw Hf; cbn in Hf.
  - apply Ok_inj in Hf as <-. split; [done|]. split; [done|]. split; [done|]. constructor.
  - apply bind_ok in Hf as (w1 & H1%visit_entry_ok & Hf). destruct H1 as (Hc1 & Hm1 & Hg1 & Hv1).
    destruct (IH w1 Hc1 Hf) as (Hc & Hm & Hg & Hv). split; [done|]. split; [lia|].
    split; [by etrans|]. constructor; [by eapply visited_mono|done].
Qed.

Lemma walk_tree_total fuel w :
  count w ≤ MAX_BROKER_PACKAGE_FILES → measure w ≤ Z.of_nat fuel →
  is_Some (walk_tree fuel h package_root w).
Proof.
  revert w. induction fuel as [|fuel IH]; intros w Hc Hm; cbn [walk_tree];
    destruct (pending w) as [|d rest] eqn:Ep; try done.
  - unfold measure in Hm. rewrite Ep in Hm. cbn in Hm. lia.
  - destruct (scandir h d) as [names|]; [|done].
    destruct (res_foldl _ _ _) as [w1|] eqn:Ef; [|done].
    apply visit_entries_ok in Ef as (Hc1 & Hm1 & _); [|done]. apply IH; [done|].
    unfold measure in *. rewrite Ep in Hm. cbn [pending count length] in *. lia.
Qed.

(** The paths below a directory, itself included. *)
Inductive below : string → string → Prop :=
  | below_self d : below d d
  | below_child d m names n p :
      lstat h d = Some m → m_kind m = Directory → scandir h d = Some names → n ∈ names →
      below (child d n) p → below d p.

(** What the walk established of a path once nothing is pending. *)
Definition settled (w : walk) (path : string) : Prop := ∃ m,
  lstat h path = Some m ∧ unsafe_entry m = false ∧
  (m_kind m = Directory ∨
   (m_kind m = Regular ∧ ∃ rel content,
      relative_name path package_root = Ok rel ∧ bytes_at h path = Some content ∧
      entry_record rel (m_mode m) (m_size m) (JStr (sha256_hex content)) ∈ records w)).

Lemma walk_tree_settles fuel w w' :
  count w ≤ MAX_BROKER_PACKAGE_FILES → walk_tree fuel h package_root w = Some (Ok w') →
  records w ⊆ records w' ∧
  ∀ d p, d ∈ pending w → below d p → p = d ∨ settled w' p.
Proof.
  revert w. induction fuel as [|fuel IH]; intros w Hc; cbn [walk_tree];
    destruct (pending w) as [|d rest] eqn:Ep; intros Hw.
  1, 3: injection Hw as <-; split; [done|]; intros ? ? []%elem_of_nil.
  - done.
  - destruct (scandir h d) as [names|] eqn:Es; [|done].
    destruct (res_foldl _ _ _) as [w1|] eqn:Ef; [|done].
    apply visit_entries_ok in Ef as (Hc1 & _ & [Hp1 Hr1] & Hv1); [|done]. cbn in Hp1, Hr1.
    destruct (IH w1 Hc1 Hw) as [Hr Hs]. split; [by etrans|].
    intros d' p Hd Hb. apply elem_of_cons in Hd as [->|Hd]; [|by apply Hs; [apply Hp1|]].
    destruct Hb as [|d m names' n p Hm Hk Hs' Hn Hb]; [by left|]. right.
    rewrite Es in Hs'. injection Hs' as <-. rewrite Forall_forall in Hv1.
    destruct (Hv1 n) as (mc & Hmc & Hsafe & Hcase); [by rewrite merge_sort_Permutation|].
    assert (settled w' (child d n)) as Hset.
    { exists mc. split; [done|]. split; [done|]. destruct Hcase as [[? _]|(? & rel & c & ? & ? & ?)].
      - by left.
      - right. split; [done|]. exists rel, c. split; [done|]. split; [done|]. by apply Hr. }
    destruct Hcase as [[Hk' Hin]|[Hk' _]].
    + destruct (Hs (child d n) p Hin Hb) as [->|?]; done.
    + inversion Hb as [|? m2 ? ? ? Hm2 Hk2]; subst; [done|]. congruence.
Qed.
End Tree.

Lemma walk_fuel_enough package_root :
  measure (Walk [package_root] [] 0 0) ≤ Z.of_nat walk_fuel.
Proof.
  unfold measure, walk_fuel. cbn [pending count length].
  rewrite (Nat2Z.inj_succ (Z.to_nat _)), Z2Nat.id; unfold MAX_BROKER_PACKAGE_FILES; lia.
Qed.

#[local] Opaque walk_fuel.

Section TreeTheorems.
Context `{Hashing}.

(** The package hash is always computed in a bounded number of steps: the
    walk visits at most one directory more than the file limit, on every host,
    even one whose directories contain each other. *)
Lemma package_walk_total h package_root :
  is_Some (package_tree_sha256 h package_root).
Proof.
  unfold package_tree_sha256. destruct (negb (posix h) || _); [done|].
  destruct (lstats h _) as [ms|]; [|done]. destruct (negb (forallb _ ms)); [done|].
  destruct (walk_tree_total h package_root walk_fuel (Walk [package_root] [] 0 0)) as [r Hr].
  - cbn [count]. unfold MAX_BROKER_PACKAGE_FILES. lia.
  - apply walk_fuel_enough.
  - rewrite Hr. by eexists.
Qed.

(** A package tree whose hash was computed is protected from every user but
    root: the directory and its ancestors are root's and not writable by
    others, everything below is a directory or a file with the same
    protection and no link, and the digest covers the mode, the size and the
    contents of every file below. *)
Lemma hashed_tree_protected h package_root digest :
  package_tree_sha256 h package_root = Some (Ok digest) →
  Forall (λ p, ∃ m, lstat h p = Some m ∧ root_protected m = true)
    (package_root :: parents package_root) ∧
  ∃ w, canonical_json_sha256 (tree_document w) = Ok digest ∧
  ∀ p, below h package_root p → p = package_root ∨ settled h package_root w p.
Proof.
  unfold package_tree_sha256. destruct (negb (posix h) || _); [done|].
  destruct (lstats h _) as [ms|] eqn:Ems; [|done].
  destruct (negb (forallb _ ms)) eqn:Hp; [done|]. apply negb_false_iff in Hp.
  destruct (walk_tree _ _ _ _) as [[w|e]|] eqn:Ew; cbn [mbind res_bind]; intros Hd;
    [|discriminate Hd|discriminate Hd].
  apply (inj Some) in Hd. split.
  - apply lstats_Some in Ems. clear -Ems Hp. induction Ems as [|p m ps ms Hm _ IH]; [done|].
    cbn in Hp. apply andb_true_iff in Hp as [? ?]. constructor; [by exists m|by apply IH].
  - exists w. split; [done|]. intros p Hb.
    destruct (walk_tree_settles h package_root walk_fuel (Walk [package_root] [] 0 0) w)
      as [_ Hs]; [cbn [count]; unfold MAX_BROKER_PACKAGE_FILES; lia|exact Ew|].
    apply (Hs package_root p); [cbn [pending]; left|exact Hb].
Qed.
(** The package hash is always computed in a bounded number of steps: the
    walk visits at most one directory more than the file limit, on every host,
    even one whose directories contain each other.  And when a digest is
    returned, the tree is protected from every user but root: the directory and
    its ancestors are root's and not writable by others, everything below is a
    directory or a file with the same protection and no link, and the digest
    covers the mode, the size and the contents of every file below. *)
Theorem hashed_package_is_protected h package_root :
  ∃ r, package_tree_sha256 h package_root = Some r ∧ ∀ digest, r = Ok digest →
  Forall (λ p, ∃ m, lstat h p = Some m ∧ root_protected m = true)
    (package_root :: parents package_root) ∧
  ∃ w, canonical_json_sha256 (tree_document w) = Ok digest ∧
  ∀ p, below h package_root p → p = package_root ∨ settled h package_root w p.
Proof.
  destruct (package_walk_total h package_root) as [r Hr]. exists r. split; [done|].
  intros digest ->. by apply hashed_tree_protected.
Qed.
End TreeTheorems.

(** ** Signatures *)

Section Signatures.
Context `{Hashing} `{OpenSSL}.

Lemma signature_bytes_ok v b : signature_bytes v = Ok b →
  ∃ s, v = JStr s ∧ Base64.strict_decode s = Ok b ∧ String.length b = 64%nat.
Proof.
  destruct v as [| | | |s| |]; try done. unfold signature_bytes.
  intros (u & _ & Hd)%bind_ok. apply bind_ok in Hd as (d & Hd & Hl).
  apply bind_ok in Hl as (u' & Hl%raise_if_ok & <-%Ok_inj).
  apply negb_false_iff, Nat.eqb_eq in Hl. exists s. split; [done|]. split; [|done].
  unfold catch in Hd. destruct (Base64.strict_decode s) as [x|e]; [done|].
  destruct (is_a e ValueError); [discriminate Hd|done].
Qed.

Lemma signature_bytes_b64 s : String.length s = 64%nat → signature_bytes (JStr (b64 s)) = Ok s.
Proof.
  intros Hs. unfold signature_bytes, b64.
  pose proof (Base64.py_len_le (Base64.encode false true s)) as H1.
  pose proof (Base64.encode_std_length s) as H2. rewrite Hs in H2. cbn in H2.
  destruct (Z.ltb_spec 1024 (Z.of_nat (py_len (Base64.encode false true s)))); [lia|].
  cbn [raise_if mbind res_bind]. rewrite Base64.strict_decode_encode. cbn [catch mbind res_bind].
  by rewrite Hs.
Qed.

(** The trust path is the administrator's: root's own, no link, not writable
    by others, in every component. *)
Definition root_owned (h : host) (path : string) : Prop :=
  is_absolute path = true ∧
  (∃ m, lstat h path = Some m ∧ m_kind m = Regular ∧ m_uid m = 0 ∧ others_write m = false) ∧
  Forall (λ p, ∃ m, lstat h p = Some m ∧ m_kind m ≠ Link ∧ m_uid m = 0 ∧ others_write m = false)
    (parents path).

Lemma require_root_owned_ok h path private p :
  _require_posix_root_owned h path private = Ok p → p = path ∧ root_owned h path.
Proof.
  unfold _require_posix_root_owned. intros (u & Hc%raise_if_ok & Hr)%bind_ok. bool_split.
  destruct (lstat h path) as [m|] eqn:Em; [|done].
  destruct (lstats h (parents path)) as [ms|] eqn:Ems; [|done].
  apply bind_ok in Hr as (u1 & Hlink%raise_if_ok & Hr). apply bind_ok in Hr as (u2 & Hroot%raise_if_ok & Hr).
  apply bind_ok in Hr as (u3 & Hwrite%raise_if_ok & Hr). apply bind_ok in Hr as (u4 & Hreg%raise_if_ok & Hr).
  apply bind_ok in Hr as (u5 & _ & <-%Ok_inj).
  apply orb_false_iff in Hlink as [_ Hl], Hroot as [Hu%negb_false_iff%Z.eqb_eq Hr0],
    Hwrite as [Hw Hw0].
  apply negb_false_iff, bool_decide_eq_true in Hreg.
  split; [done|]. split; [done|]. split; [by exists m|].
  apply lstats_Some in Ems. rewrite existsb_false in Hl, Hr0, Hw0.
  clear -Ems Hl Hr0 Hw0. induction Ems as [|q x qs xs Hq _ IH]; [constructor|].
  apply Forall_cons in Hl as [H1%bool_decide_eq_false ?], Hr0 as [H2%negb_false_iff%Z.eqb_eq ?],
    Hw0 as [H3 ?].
  constructor; [by exists x|by apply IH].
Qed.
(** What a signed payload of the kind states. *)
Definition attested (kind : string) (payload : dict) : Prop :=
  (∃ keys, attestation_keys kind = Some keys ∧ exact_keys payload keys = true) ∧
  payload_identity_ok payload kind = true ∧ execution_binding_ok payload = true ∧
  _is_hex (get payload "broker_runtime_manifest_sha256") 64 = true ∧
  numeric_bindings_ok payload = true ∧ is_pure_int (get payload "issued_at") = true ∧
  (if bool_decide (kind = "snapshot-acquired") then acquisition_ok payload else cleanup_ok payload)
  = true.

Definition envelope_metadata (e : dict) : Prop :=
  exact_keys e SIGNED_ENVELOPE_KEYS = true ∧
  py_eq (get e "schema_version") (JInt BROKER_SCHEMA_VERSION) = true ∧
  py_eq (get e "algorithm") (JStr BROKER_SIGNATURE_ALGORITHM) = true ∧
  _is_hex (get e "public_key_sha256") 64 = true.

Lemma validate_signed_envelope_ok envelope kind payload :
  validate_signed_envelope envelope kind = Ok payload ↔
  ∃ e s, envelope = JObj e ∧ envelope_metadata e ∧ get e "payload" = JObj payload ∧
         attested kind payload ∧ signature_bytes (get e "signature_b64") = Ok s.
Proof.
  split.
  - destruct envelope as [| | | | | |e]; try done. unfold validate_signed_envelope.
    intros (u & Hk%raise_if_ok%negb_false_iff & Hv)%bind_ok.
    apply bind_ok in Hv as (u1 & Hm%raise_if_ok & Hv).
    apply orb_false_iff in Hm as [[H1%negb_false_iff H2%negb_false_iff]%orb_false_iff H3%negb_false_iff].
    destruct (attestation_keys kind) as [keys|] eqn:Ek; [|done].
    destruct (get e "payload") as [| | | | | |p] eqn:Ep; try done.
    apply bind_ok in Hv as (u2 & Hpk%raise_if_ok%negb_false_iff & Hv).
    apply bind_ok in Hv as (u3 & Hid%raise_if_ok%negb_false_iff & Hv).
    apply bind_ok in Hv as (u4 & Hb%raise_if_ok%negb_false_iff & Hv).
    apply bind_ok in Hv as (u5 & Hr%raise_if_ok%negb_false_iff & Hv).
    apply bind_ok in Hv as (u6 & Hn%raise_if_ok%negb_false_iff & Hv).
    apply bind_ok in Hv as (u7 & Ht%raise_if_ok%negb_false_iff & Hv).
    apply bind_ok in Hv as (u8 & Hkind & Hv). apply bind_ok in Hv as (sig & Hs & ->%Ok_inj).
    exists e, sig. unfold attested, envelope_metadata. rewrite Ek, Ep.
    split_and!; try done; [by exists keys|].
    destruct (bool_decide (kind = "snapshot-acquired"));
      by apply raise_if_ok, negb_false_iff in Hkind.
  - intros (e & sig & -> & (Hk & H1 & H2 & H3) & Hp & ((keys & Ek & Hpk) & Hid & Hb & Hr & Hn & Ht & Hkind) & Hs).
    unfold validate_signed_envelope, _validate_execution_binding, py_neq.
    rewrite Hk, H1, H2, H3, Ek, Hp, Hpk, Hid, Hb, Hr, Hn, Ht. cbn [negb orb raise_if mbind res_bind].
    destruct (bool_decide (kind = "snapshot-acquired")); rewrite Hkind; cbn [negb raise_if mbind res_bind];
      by rewrite Hs.
Qed.

Lemma signed_envelope_valid key payload kind s :
  re_hex 64 key = true → String.length s = 64%nat →
  validate_signed_envelope (signed_envelope key payload s) kind = Ok payload ↔ attested kind payload.
Proof.
  intros Hkey Hs. rewrite validate_signed_envelope_ok. split.
  - intros (e & sig & _ & _ & _ & Ha & _). exact Ha.
  - intros Ha. eexists _, s. split; [reflexivity|]. split.
    { split; [reflexivity|]. split; [reflexivity|]. split; [reflexivity|]. exact Hkey. }
    split; [reflexivity|]. split; [done|]. by apply signature_bytes_b64.
Qed.

Lemma public_key_binding_ok h path key : trusted_public_key_binding h path = Ok key →
  key.1 = path ∧ root_owned h path ∧ ∃ b, bytes_at h path = Some b ∧ key.2 = sha256_hex b.
Proof.
  intros (p & [-> Hr]%require_root_owned_ok & Hk)%bind_ok. apply bind_ok in Hk as (sha & Hsha & <-%Ok_inj).
  unfold file_sha256 in Hsha. destruct (bytes_at h path) as [b|]; [|done].
  apply Ok_inj in Hsha as <-. split; [done|]. split; [done|]. by exists b.
Qed.

Lemma openssl_binding_ok h path digest_path o : trusted_openssl_binding h path digest_path = Ok o →
  o.1 = path ∧ root_owned h path ∧ root_owned h digest_path ∧
  ∃ b, bytes_at h path = Some b ∧ read_digest h digest_path = Ok (sha256_hex b).
Proof.
  intros (p & [-> Hr]%require_root_owned_ok & Ho)%bind_ok.
  apply bind_ok in Ho as (dp & [-> Hd]%require_root_owned_ok & Ho).
  apply bind_ok in Ho as (expected & Hx & Ho). apply bind_ok in Ho as (u & _ & Ho).
  apply bind_ok in Ho as (actual & Ha & Ho). apply bind_ok in Ho as (u1 & Heq%raise_if_ok & Ho).
  apply bind_ok in Ho as (u2 & _ & <-%Ok_inj).
  apply negb_false_iff, bool_decide_eq_true in Heq. subst.
  unfold file_sha256 in Ha. destruct (bytes_at h path) as [b|]; [|done].
  apply Ok_inj in Ha as <-. split; [done|]. split; [done|]. split; [done|]. by exists b.
Qed.

(** The envelope's own signature of its payload was checked: [signature_b64]
    decodes to 64 bytes that OpenSSL accepts under the public key for the
    canonical text of the payload, and the envelope names the key file by its
    digest. *)
Definition signature_checked (h : host) (public_key openssl : string) (e payload : dict) : Prop :=
  ∃ key encoded signature, get e "payload" = JObj payload ∧
    bytes_at h public_key = Some key ∧ get e "public_key_sha256" = JStr (sha256_hex key) ∧
    get e "signature_b64" = JStr encoded ∧ Base64.strict_decode encoded = Ok signature ∧
    String.length signature = 64%nat ∧
    run_verify openssl public_key (canonical_json (JObj payload)) signature = Some 0.

Lemma verified_envelope_ok h envelope kind public_key openssl openssl_digest payload :
  verify_signed_envelope h envelope kind public_key openssl openssl_digest = Ok payload →
  attested kind payload ∧
  (root_owned h public_key ∧ root_owned h openssl ∧ root_owned h openssl_digest ∧
   ∃ b, bytes_at h openssl = Some b ∧ read_digest h openssl_digest = Ok (sha256_hex b)) ∧
  ∃ e, envelope = JObj e ∧ signature_checked h public_key openssl e payload.
Proof.
  intros (p & Hv%validate_signed_envelope_ok & Hr)%bind_ok.
  destruct Hv as (e & sig & -> & (Hk & _ & _ & Hhex) & Hp & Ha & Hs).
  apply bind_ok in Hr as (public & Hpub & Hr). apply bind_ok in Hr as (named & Hnamed & Hr).
  apply bind_ok in Hr as (u & Hsame%raise_if_ok & Hr). apply bind_ok in Hr as (o & Ho & Hr).
  apply bind_ok in Hr as (s64 & Hs64 & Hr). apply bind_ok in Hr as (signature & Hsig & Hr).
  apply bind_ok in Hr as (verified & Hver & Hr).
  apply bind_ok in Hr as (u1 & Hok%raise_if_ok%negb_false_iff & ->%Ok_inj).
  apply public_key_binding_ok in Hpub as (_ & Hroot & key & Hkey & Hkd).
  apply openssl_binding_ok in Ho as (Hpath & Hro & Hrd & Hbin).
  apply bind_ok in Hver as (bytes & [-> _]%canonical_bytes_ok & Hrun). rewrite Hpath in Hrun.
  destruct (run_verify openssl public_key _ signature) as [code|] eqn:Erun; [|done].
  apply Ok_inj in Hrun as <-. apply Z.eqb_eq in Hok. subst code.
  split; [done|]. split; [done|]. exists e. split; [done|].
  unfold jitem, item in Hnamed, Hs64.
  destruct (e !! "public_key_sha256") as [v|] eqn:Ek; [|done]. apply Ok_inj in Hnamed as ->.
  destruct (e !! "signature_b64") as [v|] eqn:Es; [|done]. apply Ok_inj in Hs64 as ->.
  apply py_neq_str in Hsame. rewrite Hkd in Hsame.
  apply signature_bytes_ok in Hsig as (encoded & He & Hdec & Hlen).
  exists key, encoded, signature. split; [done|]. split; [done|].
  split; [by unfold get; rewrite Ek, Hsame|]. split; [by unfold get; rewrite Es, He|]. done.
Qed.

(** C24: A verified envelope carries a genuine signature of the payload returned:
    its own [signature_b64] decodes to 64 bytes that the administrator's OpenSSL
    binary accepts, under the administrator's public key, which the envelope
    names by its digest, for the canonical bytes of that very payload; binary,
    key and digest are files that only root could have written; and the payload
    has the exact schema and bindings of its kind. *)
Theorem verified_envelope_is_authentic h envelope kind public_key openssl openssl_digest payload :
  verify_signed_envelope h envelope kind public_key openssl openssl_digest = Ok payload →
  attested kind payload ∧
  root_owned h public_key ∧ root_owned h openssl ∧ root_owned h openssl_digest ∧
  (∃ b, bytes_at h openssl = Some b ∧ read_digest h openssl_digest = Ok (sha256_hex b)) ∧
  ∃ e key encoded signature bytes, envelope = JObj e ∧ get e "payload" = JObj payload ∧
    bytes_at h public_key = Some key ∧ get e "public_key_sha256" = JStr (sha256_hex key) ∧
    get e "signature_b64" = JStr encoded ∧ Base64.strict_decode encoded = Ok signature ∧
    String.length signature = 64%nat ∧ bytes = canonical_json (JObj payload) ∧
    run_verify openssl public_key bytes signature = Some 0.
Proof.
  intros (Ha & (Hk & Ho & Hd & Hb) & e & -> & key & encoded & signature & Hs)%verified_envelope_ok.
  split; [done|]. split; [done|]. split; [done|]. split; [done|]. split; [done|].
  exists e, key, encoded, signature, (canonical_json (JObj payload)).
  destruct Hs as (H1 & H2 & H3 & H4 & H5 & H6 & H7). by split_and!.
Qed.

(** What the broker signs, a reader verifies: when the private and the
    public key at the two paths belong together, the envelope made for a
    payload is accepted and gives the payload back. *)
Theorem signed_envelopes_verify h payload private_key public_key openssl openssl_digest envelope :
  (∀ message signature, run_sign openssl private_key message = Some (0, signature) →
     run_verify openssl public_key message signature = Some 0) →
  sign_payload h payload private_key public_key openssl openssl_digest = Ok envelope →
  verify_signed_envelope h envelope (str_of (get payload "kind")) public_key openssl openssl_digest
  = Ok payload.
Proof.
  intros Hpair (p & Hv & Hr)%bind_ok.
  assert (attested (str_of (get payload "kind")) payload) as Ha.
  { apply validate_signed_envelope_ok in Hv as (e & s & [= <-] & _ & Hp & Ha & _). by injection Hp as <-. }
  apply bind_ok in Hr as (pk & _ & Hr). apply bind_ok in Hr as (public & Hpub & Hr).
  apply bind_ok in Hr as (o & Ho & Hr). apply bind_ok in Hr as (signature & Hsign & <-%Ok_inj).
  apply bind_ok in Hsign as (bytes & Hbytes & Hrun).
  destruct (run_sign o.1 private_key bytes) as [[code result]|] eqn:Es; [|done].
  apply bind_ok in Hrun as (u & Hcode%raise_if_ok%negb_false_iff%Z.eqb_eq & Hrun).
  apply bind_ok in Hrun as (u1 & Hlen%raise_if_ok%negb_false_iff%Nat.eqb_eq & ->%Ok_inj). subst code.
  pose proof (public_key_binding_ok _ _ _ Hpub) as (_ & _ & key & _ & Hkd).
  pose proof (openssl_binding_ok _ _ _ _ Ho) as (Hpath & _). rewrite Hpath in Es.
  unfold verify_signed_envelope.
  rewrite (proj2 (signed_envelope_valid public.2 payload _ signature
    ltac:(rewrite Hkd; apply sha256_hex_ok) Hlen) Ha).
  cbn [mbind res_bind]. rewrite Hpub. cbn [mbind res_bind].
  change (jitem (signed_envelope public.2 payload signature) "public_key_sha256")
    with (Ok (JStr public.2)).
  cbn [mbind res_bind]. unfold py_neq. rewrite (proj2 (py_eq_str _ _) eq_refl).
  cbn [negb raise_if mbind res_bind]. rewrite Ho. cbn [mbind res_bind].
  change (jitem (signed_envelope public.2 payload signature) "signature_b64")
    with (Ok (JStr (b64 signature))).
  cbn [mbind res_bind]. rewrite signature_bytes_b64 by done. cbn [mbind res_bind].
  unfold pkeyutl_verify. rewrite Hbytes. cbn [mbind res_bind].
  rewrite Hpath, (Hpair bytes signature Es). reflexivity.
Qed.
End Signatures.
