(* ===== verification/SnapshotTree.v ===== *)
(** * Copying a caller's source tree ([snapshot_broker.py], first part)

    The broker receives a directory descriptor and copies the tree below it.
    The caller may change the tree meanwhile, so a tree is given by what each
    look at it observes: the metadata of an entry before it is opened, when it
    is open and after it was read.  The copy is a list of files and directories;
    the modes and the writes of the copy itself are the broker's own and belong
    to [SnapshotBroker]. *)

From S2P Require Export SnapshotProtocol.

(** ** SHA-1 (FIPS 180-4), for the object identifiers of a manifest *)

Class Sha1 := sha1_hex : string → string.

Module Sha1Fips.
Import Sha256.
Local Open Scope N_scope.

Definition rotl (n x : N) : N := N.lor (word (N.shiftl x n)) (N.shiftr x (32 - n)).
Fixpoint schedule (fuel : nat) (w : list N) : list N :=
  match fuel with
  | O => reverse w
  | S fuel =>
      let at_ i := nth i w 0 in
      schedule fuel (rotl 1 (N.lxor (at_ 2%nat) (N.lxor (at_ 7%nat) (N.lxor (at_ 13%nat) (at_ 15%nat)))) :: w)
  end.

Definition parity (x y z : N) : N := N.lxor x (N.lxor y z).
Definition stage (t : nat) : (N → N → N → N) * N :=
  match (t / 20)%nat with
  | O => (ch, 1518500249)
  | S O => (parity, 1859775393)
  | S (S O) => (maj, 2400959708)
  | _ => (parity, 3395469782)
  end.

Definition round (h : list N) (tw : nat * N) : list N :=
  match h with
  | [a; b; c; d; e] =>
      let '(f, k) := stage tw.1 in
      [add32 (add32 (rotl 5 a) (f b c d)) (add32 e (add32 k tw.2)); a; rotl 30 b; c; d]
  | _ => h
  end.

Definition sha1 (s : string) : string :=
  let blocks := chunks (S (String.length s)) 64 (pad (bytes_of s)) in
  let words b := be <$> chunks 16 4 b in
  let compress h b := zip_with add32 h (foldl round h (zip (seq 0 80) (schedule 64 (reverse (words b))))) in
  let h := foldl compress [1732584193; 4023233417; 2562383102; 271733878; 3285377520] blocks in
  String.string_of_list_ascii (digest_byte h <$> seq 0 20).

Example sha1_abc : hexlify (sha1 "abc") = "a9993e364706816aba3e25717850c26c9cd0d89d".
Proof. vm_compute. reflexivity. Qed.
End Sha1Fips.

#[export] Instance fips_sha1 : Sha1 | 100 := λ s, hexlify (Sha1Fips.sha1 s).

(** ** What is observed *)

Definition MAX_SOURCE_FILE_BYTES : Z := 64 * 1024 * 1024.
Definition MAX_SOURCE_BYTES : Z := 512 * 1024 * 1024.
Definition MAX_SOURCE_ENTRY_COUNT : Z := 50000.
Definition MAX_SOURCE_TREE_NODE_COUNT : Z := MAX_SOURCE_ENTRY_COUNT * 2 + 1.
Definition MAX_SOURCE_PATH_BYTES : Z := 4096.
Definition MAX_SOURCE_PATH_BYTES_TOTAL : Z := 32 * 1024 * 1024.

(** The fields of [_source_identity]; the mode as its type and permissions. *)
Record source_stat := SourceStat {
  st_dev : Z; st_ino : Z; st_uid : Z; st_gid : Z; st_kind : file_kind; st_mode : Z;
  st_size : Z; st_mtime_ns : Z; st_ctime_ns : Z
}.

#[export] Instance source_stat_eq_dec : EqDecision source_stat.
Proof. solve_decision. Defined.

(** What the broker sees of an entry it opens: [fstat] of the descriptor, then
    for a file the bytes up to the end and [fstat] after them; for a directory
    [fstat], its names, each entry, and names and [fstat] after the copy.
    [None] is an [OSError]. *)
Inductive source :=
  | SourceFile (opened : option source_stat) (content : option string) (after : source_stat)
  | SourceDirectory (opened : option source_stat) (before : source_stat) (names : option (list string))
      (linked : string → option source_stat) (child : string → source)
      (names_after : option (list string)) (after : source_stat).

Definition opened_stat (s : source) : option source_stat :=
  match s with SourceFile o _ _ => o | SourceDirectory o _ _ _ _ _ _ => o end.

(** A received descriptor: its flags, [fstat] before and after, the tree. *)
Record descriptor := Descriptor {
  d_read_only : bool; d_path_only : bool; d_inheritable : bool;
  d_first : source_stat; d_tree : source; d_last : source_stat
}.

Definition S_0555 : Z := 365.
Definition S_0444 : Z := 292.

Definition _require_sealed_source_entry (metadata : source_stat) (caller_uid : Z) (directory : bool)
    : res unit :=
  raise_if (negb (st_uid metadata =? caller_uid)
            || negb (bool_decide (st_kind metadata = (if directory then Directory else Regular)))
            || negb ((st_mode metadata =? S_0555) || negb directory && (st_mode metadata =? S_0444)))
    SnapshotBrokerError "Caller source descriptor is not a sealed caller-owned regular tree".

Definition _require_sealed_source_descriptor (d : descriptor) (caller_uid : Z) : res source_stat :=
  _ ← _require_sealed_source_entry (d_first d) caller_uid true;
  _ ← raise_if (negb (d_read_only d) || d_path_only d || d_inheritable d) SnapshotBrokerError
        "Caller source descriptor is not read-only and close-on-exec";
  Ok (d_first d).

Definition _bounded_sorted_directory_names (names : option (list string)) : res (list string) :=
  match names with
  | Some names =>
      _ ← raise_if (MAX_SOURCE_TREE_NODE_COUNT <? Z.of_nat (length names)) SnapshotBrokerError
            "Caller source directory is unbounded";
      Ok (merge_sort String.le names)
  | None => raise SnapshotBrokerError "Caller source cannot be enumerated"
  end.

(** ** The copy *)

(** [for x in l: f(x)] *)
Definition iterM {W A} (f : A → M W unit) : list A → M W unit :=
  fix go l := match l with [] => mret tt | x :: l => _ ← f x; go l end.

Record copied_file := CopiedFile {
  cf_path : string; cf_executable : bool; cf_size : Z; cf_content : string
}.

(** The variables that the nested functions share. *)
Record copying := Copying {
  files : list copied_file; directories : list string; seen_portable_paths : list string;
  total_bytes : Z; path_bytes_total : Z; tree_nodes : Z
}.

Definition empty_copy : copying := Copying [] [] [] 0 0 0.

Section SnapshotTree.
Context `{Hashing} `{Sha1}.
(** [unicodedata.normalize("NFC", value).casefold()]: tables of the
    interpreter. *)
Context (portable : string → string).

Definition register_path (parts : list string) : M copying string :=
  c ← readM id;
  let value := Json.join "/" parts in
  let c := Copying (files c) (directories c) (seen_portable_paths c) (total_bytes c)
             (path_bytes_total c) (tree_nodes c + 1) in
  _ ← modifyM (λ _, c);
  _ ← raise_ifM (MAX_SOURCE_TREE_NODE_COUNT <? tree_nodes c) SnapshotBrokerError
        "Caller source exceeds the tree-node limit";
  _ ← raise_ifM (negb (utf8_valid value)) SnapshotBrokerError "Caller source path is not UTF-8";
  _ ← raise_ifM (bool_decide (value = "") || negb (all_chars (λ x, negb (char_in "\" x)) value)
                 || (MAX_SOURCE_PATH_BYTES <? Z.of_nat (String.length value))) SnapshotBrokerError
        "Caller source path is unsafe";
  let c := Copying (files c) (directories c) (seen_portable_paths c) (total_bytes c)
             (path_bytes_total c + Z.of_nat (String.length value)) (tree_nodes c) in
  _ ← modifyM (λ _, c);
  _ ← raise_ifM (MAX_SOURCE_PATH_BYTES_TOTAL <? path_bytes_total c) SnapshotBrokerError
        "Caller source paths exceed the total limit";
  _ ← raise_ifM (bool_decide (portable value ∈ seen_portable_paths c)) SnapshotBrokerError
        "Caller source has a portable path collision";
  _ ← modifyM (λ _, Copying (files c) (directories c) (portable value :: seen_portable_paths c)
                      (total_bytes c) (path_bytes_total c) (tree_nodes c));
  mret value.

Definition add_file (f : copied_file) : M copying unit :=
  modifyM (λ c, Copying (files c ++ [f]) (directories c) (seen_portable_paths c) (total_bytes c)
                  (path_bytes_total c) (tree_nodes c)).
Definition add_directory (path : string) : M copying unit :=
  modifyM (λ c, Copying (files c) (directories c ++ [path]) (seen_portable_paths c) (total_bytes c)
                  (path_bytes_total c) (tree_nodes c)).

(** The bytes a file descriptor delivers, against the size it had when it was
    opened; [os.read] is repeated until the size or the end is reached. *)
Definition read_sealed (opened : source_stat) (content : option string) (after : source_stat) : res string :=
  match content with
  | None => raise OSError "read"
  | Some content =>
      _ ← raise_if (Z.of_nat (String.length content) <? st_size opened) SnapshotBrokerError
            "Caller source file was truncated";
      _ ← raise_if (st_size opened <? Z.of_nat (String.length content)) SnapshotBrokerError
            "Caller source file grew during copy";
      _ ← raise_if (negb (bool_decide (after = opened))) SnapshotBrokerError
            "Caller source file changed during copy";
      Ok content
  end.

Definition copy_file (relative : string) (linked : source_stat) (s : source) (caller_uid : Z)
    : M copying unit :=
  _ ← liftM (_require_sealed_source_entry linked caller_uid false);
  _ ← raise_ifM ((st_size linked <? 0) || (MAX_SOURCE_FILE_BYTES <? st_size linked)) SnapshotBrokerError
        "Caller source file exceeds its size limit";
  _ ← modifyM (λ c, Copying (files c) (directories c) (seen_portable_paths c)
                      (total_bytes c + st_size linked) (path_bytes_total c) (tree_nodes c));
  c ← readM id;
  _ ← raise_ifM ((MAX_SOURCE_BYTES <? total_bytes c)
                 || (MAX_SOURCE_ENTRY_COUNT <=? Z.of_nat (length (files c)))) SnapshotBrokerError
        "Caller source exceeds snapshot limits";
  opened ← liftM (res_of_option (Exn OSError "open") (opened_stat s));
  _ ← raise_ifM (negb (bool_decide (opened = linked))) SnapshotBrokerError "Caller source file raced open";
  match s with
  | SourceFile _ content after =>
      content ← liftM (read_sealed opened content after);
      add_file (CopiedFile relative (st_mode opened =? S_0555) (st_size opened) content)
  | SourceDirectory _ _ _ _ _ _ _ => raiseM OSError "read"
  end.

Definition name_ok (name : string) : bool :=
  negb (bool_decide (name ∈ [""; "."; ".."])) && all_chars (λ x, negb (char_in "/" x)) name.

Fixpoint copy_directory (s : source) (parts : list string) (caller_uid : Z) : M copying unit :=
  match s with
  | SourceFile _ _ _ => raiseM OSError "not a directory"
  | SourceDirectory _ before names linked child names_after after =>
      _ ← liftM (_require_sealed_source_entry before caller_uid true);
      names ← liftM (_bounded_sorted_directory_names names);
      _ ← iterM (λ name,
             _ ← raise_ifM (negb (name_ok name)) SnapshotBrokerError "Caller source contains an unsafe name";
             let child_parts := parts ++ [name] in
             relative ← register_path child_parts;
             entry ← liftM (res_of_option (Exn SnapshotBrokerError "Caller source entry cannot be inspected")
                              (linked name));
             if bool_decide (st_kind entry = Directory) then
               opened ← liftM (res_of_option (Exn OSError "open") (opened_stat (child name)));
               _ ← raise_ifM (negb (bool_decide (opened = entry))) SnapshotBrokerError
                     "Caller source directory raced open";
               _ ← liftM (_require_sealed_source_entry entry caller_uid true);
               _ ← copy_directory (child name) child_parts caller_uid;
               add_directory relative
             else
               _ ← raise_ifM (negb (bool_decide (st_kind entry = Regular))) SnapshotBrokerError
                     "Caller source contains a link or special file";
               copy_file relative entry (child name) caller_uid) names;
      again ← liftM (_bounded_sorted_directory_names names_after);
      raise_ifM (negb (bool_decide (again = names)) || negb (bool_decide (after = before))) SnapshotBrokerError
        "Caller source directory changed during copy"
  end.

(** ** The manifest *)

Definition git_blob (f : copied_file) : string :=
  "blob " +:+ string_of_Z (cf_size f) +:+ String "000"%char (cf_content f).

Definition file_entry (f : copied_file) : json := jobj
  [("path", JStr (cf_path f)); ("mode", JStr (if cf_executable f then "100755" else "100644"));
   ("object", JStr (sha1_hex (git_blob f))); ("size", JInt (cf_size f));
   ("sha256", JStr (sha256_hex (cf_content f)))].

Definition path_le (a b : copied_file) : Prop := String.le (cf_path a) (cf_path b).
#[export] Instance path_le_dec : RelDecision path_le.
Proof. intros a b. unfold path_le. apply _. Defined.

Definition sorted_files (c : copying) : list copied_file := merge_sort path_le (files c).
Definition sorted_directories (c : copying) : list string := merge_sort String.le (directories c).

Definition manifest_document (c : copying) : json := jobj
  [("directories", JList (JStr <$> sorted_directories c)); ("files", JList (file_entry <$> sorted_files c))].

Definition snapshot_manifest (c : copying) (source_commit tree_oid : json) : dict := dict_of
  [("schema_version", JInt 1); ("source_commit", source_commit); ("tree_oid", tree_oid);
   ("object_format", JStr "sha1"); ("materialization_policy", JStr SNAPSHOT_MATERIALIZATION_POLICY_ID);
   ("file_count", JInt (Z.of_nat (length (files c))));
   ("directories", JList (JStr <$> sorted_directories c)); ("size_bytes", JInt (total_bytes c));
   ("sha256", JStr (sha256_hex (canonical_json (manifest_document c))));
   ("files", JList (file_entry <$> sorted_files c))].

(** The directory that the copy is made in is created after the first test; the
    second component says whether it was. *)
Definition _copy_sealed_source_descriptor (d : descriptor) (caller_uid : Z) (source_commit tree_oid : json)
    : res dict * bool :=
  match _require_sealed_source_descriptor d caller_uid with
  | Err e => (Err e, false)
  | Ok source_root_before =>
      let (r, c) := copy_directory (d_tree d) [] caller_uid empty_copy in
      (_ ← r;
       _ ← raise_if (negb (bool_decide (d_last d = source_root_before))) SnapshotBrokerError
             "Caller source root changed during copy";
       Ok (snapshot_manifest c source_commit tree_oid), true)
  end.
End SnapshotTree.

(** * What a copy is *)

Section Copied.
Context `{Hashing} `{Sha1} (portable : string → string).

Lemma iterM_ok {W A} (f : A → M W unit) (I : W → Prop) l w w' :
  (∀ x u v, x ∈ l → I u → f x u = (Ok tt, v) → I v) → I w → iterM f l w = (Ok tt, w') → I w'.
Proof.
  revert w. induction l as [|x l IH]; intros w Hf Hw; cbn; [by intros [= <-]|].
  intros ([] & w1 & H1 & H2)%M_bind_ok. apply (IH w1); [|by eapply Hf; [left|..]|exact H2].
  intros y u v Hy. by apply Hf; right.
Qed.

(** The paths of a copy, those of the directories being copied included. *)
Definition paths_of (c : copying) (pending : list string) : list string :=
  (cf_path <$> files c) ++ directories c ++ pending.

(** A copy accounts for what it has registered: no two paths have one portable
    form, a file holds as many bytes as its size says, and the sums are right. *)
Record accounted (pending : list string) (c : copying) : Prop := Accounted {
  a_seen : seen_portable_paths c ≡ₚ portable <$> paths_of c pending;
  a_unique : NoDup (seen_portable_paths c);
  a_count : Z.of_nat (length (files c)) ≤ MAX_SOURCE_ENTRY_COUNT;
  a_total : total_bytes c = foldr Z.add 0 (cf_size <$> files c) ∧ total_bytes c ≤ MAX_SOURCE_BYTES;
  a_sizes : Forall (λ f, cf_size f = Z.of_nat (String.length (cf_content f))
                         ∧ cf_size f ≤ MAX_SOURCE_FILE_BYTES) (files c)
}.

Lemma empty_accounted : accounted [] empty_copy.
Proof. split; try done; constructor. Qed.

Lemma register_accounted pending parts c v c' :
  accounted pending c → register_path portable parts c = (Ok v, c') →
  v = Json.join "/" parts ∧ accounted (v :: pending) c'.
Proof.
  intros [Hs Hu Hc Ht Hz] Hr. unfold register_path in Hr. cbv zeta in Hr. inv_M. subst.
  cbn [files directories seen_portable_paths total_bytes path_bytes_total tree_nodes id] in *. bool_split.
  split; [done|]. split; cbn; try done; [|by constructor].
  rewrite Hs. unfold paths_of. cbn. rewrite !fmap_app, !app_assoc. cbn. by rewrite Permutation_middle.
Qed.

Lemma directory_accounted pending v c u c' :
  accounted (v :: pending) c → add_directory v c = (Ok u, c') → accounted pending c'.
Proof.
  intros [Hs Hu Hc Ht Hz] Hr. unfold add_directory in Hr. inv_M. subst. split; cbn; try done.
  rewrite Hs. unfold paths_of. cbn. by rewrite <- (app_assoc (directories c)).
Qed.

Lemma read_sealed_ok o content after b : read_sealed o content after = Ok b →
  content = Some b ∧ after = o ∧ st_size o = Z.of_nat (String.length b).
Proof.
  unfold read_sealed. destruct content as [x|]; [|done]. intros Hr. inv_res. bool_split. subst.
  repeat split. lia.
Qed.

Lemma file_accounted pending v linked s uid c u c' :
  accounted (v :: pending) c → copy_file v linked s uid c = (Ok u, c') → accounted pending c'.
Proof.
  intros [Hs Hu Hc Ht Hz] Hr. unfold copy_file in Hr. inv_M. subst.
  destruct s as [o content after|]; [|inv_M; done]. unfold add_file in Hr. inv_M. subst.
  match goal with E : read_sealed _ _ _ = Ok _ |- _ => apply read_sealed_ok in E as (-> & -> & Hsize) end.
  cbn [files directories seen_portable_paths total_bytes path_bytes_total tree_nodes id] in *. bool_split. subst.
  split; cbn; try done.
  - rewrite Hs. apply fmap_Permutation. unfold paths_of. cbn [files directories]. rewrite fmap_app.
    rewrite <- app_assoc. apply Permutation_app_head. cbn. by rewrite Permutation_middle.
  - rewrite length_app. cbn. lia.
  - destruct Ht as [Ht ?]. split; [|lia]. rewrite Ht, fmap_app, foldr_app. cbn. clear Ht.
    generalize (cf_size <$> files c). intros l. clear. induction l as [|x l IH]; cbn; lia.
  - apply Forall_app. split; [done|]. constructor; [|done]. cbn. split; [done|]. lia.
Qed.

Lemma tree_accounted s : ∀ parts uid pending c c',
  accounted pending c → copy_directory portable s parts uid c = (Ok tt, c') → accounted pending c'.
Proof.
  induction s as [|o before names linked child IH names_after after]; intros parts uid pending c c' Ha Hr;
    cbn [copy_directory] in Hr; [inv_M; done|].
  inv_M. subst.
  match goal with E : iterM _ _ _ = (Ok ?u, _) |- _ =>
    destruct u; refine (iterM_ok _ (accounted pending) _ _ _ _ Ha E) end.
  clear Ha. intros name u v _ Ha He. cbv zeta in He. apply M_bind_ok in He as (u1 & w1 & [_ ->]%raise_ifM_ok & He).
  apply M_bind_ok in He as (relative & w2 & Hreg & He).
  apply (register_accounted _ _ _ _ _ Ha) in Hreg as [_ Hp].
  apply M_bind_ok in He as (entry & w3 & [_ ->]%liftM_ok & He).
  destruct (bool_decide _) in He.
  - inv_M. subst. eapply directory_accounted; [|exact He].
    match goal with E : copy_directory _ (child name) _ _ _ = (Ok ?u, _) |- _ => destruct u; exact (IH _ _ _ _ _ _ Hp E) end.
  - apply M_bind_ok in He as (u2 & w4 & [_ ->]%raise_ifM_ok & He). exact (file_accounted _ _ _ _ _ _ _ _ Hp He).
Qed.

(** ** The files of a source *)

(** What a source holds, read off the observations alone: every file below the
    directory with its path, its executable bit and its bytes, and every
    directory, in the order of the names. *)
Definition entry_path (parts : list string) (name : string) : string := Json.join "/" (parts ++ [name]).

Fixpoint source_files (s : source) (parts : list string) : list copied_file :=
  match s with
  | SourceDirectory _ _ names _ child _ _ =>
      concat ((λ name, match child name with
                       | SourceFile (Some opened) (Some content) _ =>
                           [CopiedFile (entry_path parts name) (st_mode opened =? S_0555)
                              (Z.of_nat (String.length content)) content]
                       | _ => source_files (child name) (parts ++ [name])
                       end) <$> merge_sort String.le (default [] names))
  | SourceFile _ _ _ => []
  end.

Fixpoint source_directories (s : source) (parts : list string) : list string :=
  match s with
  | SourceDirectory _ _ names _ child _ _ =>
      concat ((λ name, match child name with
                       | SourceFile _ _ _ => []
                       | _ => source_directories (child name) (parts ++ [name]) ++ [entry_path parts name]
                       end) <$> merge_sort String.le (default [] names))
  | SourceFile _ _ _ => []
  end.

(** The copy has grown by these files and directories. *)
Definition grown (c c' : copying) (fs : list copied_file) (ds : list string) : Prop :=
  files c' = files c ++ fs ∧ directories c' = directories c ++ ds.

Lemma grown_refl c : grown c c [] [].
Proof. split; by rewrite app_nil_r. Qed.
Lemma grown_trans c1 c2 c3 fs1 ds1 fs2 ds2 :
  grown c1 c2 fs1 ds1 → grown c2 c3 fs2 ds2 → grown c1 c3 (fs1 ++ fs2) (ds1 ++ ds2).
Proof. intros [F1 D1] [F2 D2]. split; [by rewrite F2, F1, app_assoc|by rewrite D2, D1, app_assoc]. Qed.

Lemma iterM_grown (f : string → M copying unit) fs ds l c c' :
  (∀ x u v, f x u = (Ok tt, v) → grown u v (fs x) (ds x)) →
  iterM f l c = (Ok tt, c') → grown c c' (concat (fs <$> l)) (concat (ds <$> l)).
Proof.
  intros Hf. revert c. induction l as [|x l IH]; intros c; cbn; [intros [= <-]; apply grown_refl|].
  intros ([] & c1 & H1%Hf & H2%IH)%M_bind_ok. by eapply grown_trans.
Qed.

Lemma register_grown parts c v c' :
  register_path portable parts c = (Ok v, c') → v = Json.join "/" parts ∧ grown c c' [] [].
Proof.
  intros Hr. unfold register_path in Hr. cbv zeta in Hr. inv_M. subst. split; [done|]. split; cbn; by rewrite app_nil_r.
Qed.

Lemma file_grown v linked s uid c u c' : copy_file v linked s uid c = (Ok u, c') →
  ∃ o content after, s = SourceFile (Some o) (Some content) after ∧
    grown c c' [CopiedFile v (st_mode o =? S_0555) (Z.of_nat (String.length content)) content] [].
Proof.
  intros Hr. unfold copy_file in Hr. inv_M. subst.
  destruct s as [o content after|]; [|inv_M; done]. unfold add_file in Hr. inv_M. subst.
  match goal with E : read_sealed _ _ _ = Ok _ |- _ => apply read_sealed_ok in E as (-> & -> & Hsize) end.
  destruct o as [o|]; cbn [opened_stat res_of_option] in *; [|done]. simplify_eq.
  eexists _, _, _. split; [reflexivity|]. split; cbn; by rewrite ?app_nil_r, ?Hsize.
Qed.

Lemma sorted_names_ok names l : _bounded_sorted_directory_names names = Ok l →
  l = merge_sort String.le (default [] names).
Proof.
  unfold _bounded_sorted_directory_names. destruct names as [x|]; [|done]. intros Hr. inv_res. by subst.
Qed.

(** A copy that succeeds holds exactly the files and directories of the source. *)
Lemma tree_grown s : ∀ parts uid c c', copy_directory portable s parts uid c = (Ok tt, c') →
  grown c c' (source_files s parts) (source_directories s parts).
Proof.
  induction s as [|o before names linked child IH names_after after]; intros parts uid c c' Hr;
    cbn [copy_directory] in Hr; [inv_M; done|].
  inv_M. subst. cbn [source_files source_directories].
  match goal with E : _bounded_sorted_directory_names names = Ok _ |- _ => apply sorted_names_ok in E as -> end.
  match goal with E : iterM _ _ _ = (Ok ?u, _) |- _ => destruct u; revert E end.
  apply iterM_grown. intros name u v He. cbv zeta in He. cbv beta.
  apply M_bind_ok in He as (u1 & w1 & [_ ->]%raise_ifM_ok & He).
  apply M_bind_ok in He as (relative & w2 & [-> Hreg]%register_grown & He).
  apply M_bind_ok in He as (entry & w3 & [_ ->]%liftM_ok & He).
  destruct (bool_decide _) in He.
  - apply M_bind_ok in He as (op & w4 & [_ ->]%liftM_ok & He).
    apply M_bind_ok in He as (u2 & w5 & [_ ->]%raise_ifM_ok & He).
    apply M_bind_ok in He as (u3 & w6 & [_ ->]%liftM_ok & He).
    apply M_bind_ok in He as ([] & w7 & Hc & Ha). pose proof (IH _ _ _ _ _ Hc) as Hg.
    assert (Hadd : grown w7 v [] [entry_path parts name])
      by (unfold add_directory in Ha; injection Ha as <-; split; cbn; by rewrite ?app_nil_r).
    pose proof (grown_trans _ _ _ _ _ _ _ Hreg (grown_trans _ _ _ _ _ _ _ Hg Hadd)) as Hall.
    rewrite app_nil_r in Hall. destruct (child name); [discriminate Hc|exact Hall].
  - apply M_bind_ok in He as (u2 & w4 & [_ ->]%raise_ifM_ok & He).
    apply file_grown in He as (op & content & aft & -> & Hg). apply (grown_trans _ _ _ _ _ _ _ Hreg Hg).
Qed.

(** ** The manifest's digest *)

Lemma jobj_field l m k : jobj l = jobj m → get (dict_of l) k = get (dict_of m) k.
Proof. intros E%JObj_inj. exact (f_equal (λ d : dict, get d k) E). Qed.

Lemma file_entry_pins f g : file_entry f = file_entry g → f = g ∨ ∃ x y, collision x y.
Proof.
  intros E. pose proof (jobj_field _ _ "path" E) as E1. pose proof (jobj_field _ _ "mode" E) as E2.
  pose proof (jobj_field _ _ "size" E) as E3. pose proof (jobj_field _ _ "sha256" E) as E4.
  change (JStr (cf_path f) = JStr (cf_path g)) in E1.
  change (JStr (if cf_executable f then "100755" else "100644") = JStr (if cf_executable g then "100755" else "100644")) in E2.
  change (JInt (cf_size f) = JInt (cf_size g)) in E3.
  change (JStr (sha256_hex (cf_content f)) = JStr (sha256_hex (cf_content g))) in E4.
  injection E1 as E1. injection E3 as E3. injection E4 as E4. clear E.
  destruct f as [p x n c], g as [p' x' n' c']. cbn [cf_path cf_executable cf_size cf_content] in *.
  destruct (decide (c = c')) as [->|Hn]; [left|right; by exists c, c'].
  assert (x = x') as -> by (clear -E2; by destruct x, x'). by subst.
Qed.

Lemma file_entries_pin (l m : list copied_file) : file_entry <$> l = file_entry <$> m → l = m ∨ ∃ x y, collision x y.
Proof.
  revert m. induction l as [|f l IH]; intros [|g m] E; try discriminate E; [by left|].
  rewrite !fmap_cons in E. apply (inj2 (::)) in E as [E1 E2]. destruct (file_entry_pins f g) as [->|?]; [by rewrite E1| |by right].
  destruct (IH m E2) as [->|?]; [by left|by right].
Qed.

#[local] Instance JStr_inj : Inj (=) (=) JStr.
Proof. by intros s t [= ->]. Qed.

Lemma manifest_floats c : floats_ok (manifest_document c) = true.
Proof.
  apply floats_ok_dict_of. cbn [forallb snd]. rewrite andb_true_r, andb_true_iff, !floats_ok_list, !Forall_fmap.
  split; apply Forall_true; done.
Qed.

Lemma manifest_pins c c' :
  sha256_hex (canonical_json (manifest_document c)) = sha256_hex (canonical_json (manifest_document c')) →
  (sorted_files c = sorted_files c' ∧ sorted_directories c = sorted_directories c') ∨ ∃ x y, collision x y.
Proof.
  intros E. destruct (decide (canonical_json (manifest_document c) = canonical_json (manifest_document c'))) as [Ec|Hn].
  - apply (dumps_inj compact) in Ec; [|done|apply manifest_floats..].
    pose proof (jobj_field _ _ "directories" Ec) as E1. pose proof (jobj_field _ _ "files" Ec) as E2.
    change (JList (JStr <$> sorted_directories c) = JList (JStr <$> sorted_directories c')) in E1.
    change (JList (file_entry <$> sorted_files c) = JList (file_entry <$> sorted_files c')) in E2.
    injection E1 as E1. injection E2 as E2.
    destruct (file_entries_pin _ _ E2) as [E3|?]; [left|by right]. split; [done|].
    revert E1. apply (inj (fmap JStr)).
  - right. by exists (canonical_json (manifest_document c)), (canonical_json (manifest_document c')).
Qed.

(** A copy that returns: the state it ended in, and the manifest made of it. *)
Lemma copy_ok d uid commit oid m made :
  _copy_sealed_source_descriptor portable d uid commit oid = (Ok m, made) →
  ∃ c, copy_directory portable (d_tree d) [] uid empty_copy = (Ok tt, c) ∧
       m = snapshot_manifest c commit oid ∧ accounted [] c ∧ made = true.
Proof.
  unfold _copy_sealed_source_descriptor. destruct (_require_sealed_source_descriptor d uid); [|done].
  destruct (copy_directory portable (d_tree d) [] uid empty_copy) as [r c] eqn:E. intros Hr.
  assert (Hm : made = true) by congruence. apply (f_equal fst) in Hr. cbn [fst] in Hr.
  apply bind_ok in Hr as ([] & -> & Hr). apply bind_ok in Hr as (u & _ & <-%Ok_inj).
  exists c. split; [done|]. split; [done|]. split; [|done].
  exact (tree_accounted _ _ _ _ _ _ empty_accounted E).
Qed.

Lemma manifest_sha c commit oid :
  get (snapshot_manifest c commit oid) "sha256" = JStr (sha256_hex (canonical_json (manifest_document c))).
Proof. reflexivity. Qed.

(** The tree a source holds, in the order of a manifest. *)
Definition source_tree (s : source) : list copied_file * list string :=
  (merge_sort path_le (source_files s []), merge_sort String.le (source_directories s [])).

(** The manifest is the one of a copy of the source, which holds exactly the
    files and directories of the source. *)
Definition copied (d : descriptor) (uid : Z) (commit oid : json) (m : dict) : Prop :=
  ∃ c, copy_directory portable (d_tree d) [] uid empty_copy = (Ok tt, c) ∧
    m = snapshot_manifest c commit oid ∧ accounted [] c ∧
    files c = source_files (d_tree d) [] ∧ directories c = source_directories (d_tree d) [].

Lemma copy_copied d uid commit oid m made :
  _copy_sealed_source_descriptor portable d uid commit oid = (Ok m, made) → copied d uid commit oid m.
Proof.
  intros (c & Hc & -> & Ha & _)%copy_ok. exists c. by destruct (tree_grown _ _ _ _ _ Hc) as [F D].
Qed.

End Copied.
