(* ===== verification/SnapshotBroker.v ===== *)
(** * The snapshot broker's daemon ([snapshot_broker.py])

    The root daemon keeps leases on copied source trees: in memory, and on the
    disk as a record and a directory per lease.  Its state is that memory and
    the three directories; every access draws from an oracle of the environment
    ([Disk]), which may also kill the process.  The daemon's locks make each of
    [evict], [cached], [consume], [acquire], [release] and [rollback] atomic, so
    a history of several connections is a sequence of these. *)

From S2P Require Export Disk SnapshotTree.

Definition BROKER_STORE_ROOT : string := "/run/cogni-os/trusted-snapshots".
Definition MAX_ACTIVE_BROKER_LEASES : Z := 64.
Definition MAX_REPLAY_FILES_SCANNED : Z := 4096.
Definition MAX_NONCES_PER_UID : Z := 256.
Definition MAX_NONCES_TOTAL : Z := 4096.
Definition MAX_NONCE_UID_DIRECTORIES : Z := 1024.
Definition BROKER_LEASE_TTL_SECONDS : Z := 3600.
Definition MAX_PERSISTED_LEASE_FILES : Z := MAX_ACTIVE_BROKER_LEASES * 2.
Definition MAX_CLEANUP_TOMBSTONES : nat := 128.
Definition MAX_BROKER_ERROR_MESSAGE_BYTES : nat := 1024.
Definition MIN_BROKER_CLIENT_UID : Z := 1000.
Definition LEASE_RECORD_KEYS : list string :=
  ["schema_version"; "lease_id"; "caller_uid"; "caller_gid"; "caller_pid"; "snapshot_path";
   "snapshot_sha256"; "snapshot_device"; "snapshot_inode"; "acquire_attestation_sha256"; "expires_at";
   "task_id"; "attempt"; "actor"; "run_id"; "validation_contract_sha256"].

(** ** State *)

(** Of [snapshot] only the digest is ever read; [snapshot_path] is the store's
    directory named like the lease. *)
Record server_lease := ServerLease {
  lease_id : string; caller_uid : Z; caller_gid : Z; caller_pid : Z; snapshot_sha256 : json;
  snapshot_device : Z; snapshot_inode : Z; acquire_attestation_sha256 : json; expires_at : Z;
  task_id : json; attempt : json; actor : json; run_id : json; validation_contract_sha256 : json
}.

Record tombstone := Tombstone {
  t_caller_uid : Z; t_caller_gid : Z; t_request_sha256 : string; t_expires_at : Z; t_response : json
}.

(** A copied tree, as its directory; a file of the lease store. *)
Record namespace := Namespace { ns_kind : file_kind; ns_uid : Z; ns_mode : Z; ns_device : Z; ns_inode : Z }.
Record record_file := RecordFile { rf_kind : file_kind; rf_uid : Z; rf_mode : Z; rf_content : string }.

(** [_leases] and [_cleanup_tombstones] in the order of insertion; the
    directories by name, the nonces by directory and name; the responses that
    reached a peer; the number of accesses and clock readings. *)
Record daemon := Daemon {
  _leases : list (string * server_lease);
  _cleanup_tombstones : list (string * tombstone);
  _runtime_binding : option string;
  store_root : gmap string namespace;
  lease_root : gmap string record_file;
  nonce_root : gmap string (gmap string string);
  sent : list json;
  accesses : nat
}.

Record environment := Environment {
  clock : nat → Z;              (** [int(time.time())] *)
  io : nat → access;
  token_hex : nat → string;
  new_directory : nat → Z * Z;  (** device and inode of a new directory *)
  on_host : host;
  getpwuid : Z → option string;
  broker_group : option (Z * list string);
  nfc_casefold : string → string
}.

(** The exception of a killed process: nothing handles it, and no handler or
    [finally] runs after it. *)
Definition killed : exn := Exn RuntimeError "killed".

#[export] Instance exn_eq_dec : EqDecision exn.
Proof. solve_decision. Defined.

(** [try: m except BaseException: cleanup; raise] *)
Definition on_error {W A} (m : M W A) (cleanup : M W unit) : M W A := λ w,
  match m w with
  | (Ok a, w') => (Ok a, w')
  | (Err e, w') =>
      if bool_decide (e = killed) then (Err e, w')
      else match cleanup w' with (Ok _, w'') => (Err e, w'') | (Err e', w'') => (Err e', w'') end
  end.

(** Dictionaries in insertion order. *)
Definition lookup_key {A} (k : string) (l : list (string * A)) : option A :=
  snd <$> find_first (λ kv, bool_decide (kv.1 = k)) l.
Definition remove_key {A} (k : string) (l : list (string * A)) : list (string * A) :=
  List.filter (λ kv, negb (bool_decide (kv.1 = k))) l.
Definition set_key {A} (k : string) (a : A) (l : list (string * A)) : list (string * A) :=
  match lookup_key k l with
  | Some _ => (λ kv, if bool_decide (kv.1 = k) then (k, a) else kv) <$> l
  | None => l ++ [(k, a)]
  end.

(** ** Peers *)

(** What [SO_PEERCRED] gives. *)
Definition _peer_credentials (peer : option (Z * Z * Z)) : res (Z * Z * Z) :=
  match peer with
  | Some (pid, uid, gid) =>
      _ ← raise_if ((pid <=? 0) || (uid <? 0) || (gid <? 0)) broker_error
            "Unix peer credentials are invalid";
      Ok (pid, uid, gid)
  | None => raise broker_error "Cannot authenticate the Unix peer with SO_PEERCRED"
  end.

Definition _require_authorized_peer (env : environment) (uid gid : Z) : res unit :=
  _ ← raise_if (uid <? MIN_BROKER_CLIENT_UID) broker_error "Snapshot broker peer UID is not allowed";
  match broker_group env with
  | None => raise broker_error "Required broker group does not exist"
  | Some (gr_gid, gr_mem) =>
      match getpwuid env uid with
      | None => raise broker_error "Snapshot broker peer account does not exist"
      | Some username =>
          raise_if (negb (gid =? gr_gid) && negb (bool_decide (username ∈ gr_mem))) broker_error
            "Snapshot broker peer is not enrolled in cogni-broker"
      end
  end.

(** A received frame: the first chunk and what further [recv] calls deliver,
    the descriptors, and whether other data came with them. *)
Record message := Message {
  first : string; further : list string; descriptors : list descriptor;
  unsupported : bool; truncated : bool
}.

(** One [recv(n)]. *)
Definition recv (n : nat) (chunks : list string) : string * list string :=
  match chunks with
  | [] => ("", [])
  | c :: chunks =>
      if (n <? String.length c)%nat
      then (String.substring 0 n c, String.substring n (String.length c - n) c :: chunks)
      else (c, chunks)
  end.

(** [recv] until [missing] bytes are there, or the stream ends. *)
Fixpoint recv_all (fuel missing : nat) (chunks : list string) : option string :=
  match fuel, missing with
  | _, O => Some ""
  | O, _ => None
  | S fuel, _ =>
      let '(c, chunks) := recv missing chunks in
      if bool_decide (c = "") then None
      else rest ← recv_all fuel (missing - String.length c) chunks; Some (c +:+ rest)
  end.

Section Daemon.
Context `{Hashing} `{Sha1} `{OpenSSL} (env : environment).

Notation D := (M daemon).

Definition _receive_framed_json_with_fds (m : message) (maximum_descriptors : nat) (label : string) : res dict :=
  _ ← raise_if (unsupported m) broker_error ("Snapshot broker " +:+ label +:+ " carried unsupported ancillary data");
  _ ← raise_if (truncated m) broker_error ("Snapshot broker " +:+ label +:+ " or descriptor was truncated");
  _ ← raise_if (maximum_descriptors <? length (descriptors m))%nat broker_error
        ("Snapshot broker " +:+ label +:+ " delivered too many descriptors");
  _ ← raise_if (existsb d_inheritable (descriptors m)) broker_error
        ("Snapshot broker " +:+ label +:+ " descriptor was not close-on-exec");
  let '(start, chunks) :=
    if (String.length (first m) <? 4)%nat
    then let '(c, chunks) := recv (4 - String.length (first m)) (further m) in (first m +:+ c, chunks)
    else (first m, further m) in
  _ ← raise_if (String.length start <? 4)%nat broker_error ("Snapshot broker " +:+ label +:+ " was truncated");
  let length := unpack_length (String.substring 0 4 start) in
  _ ← raise_if ((length <? 2) || (MAX_BROKER_FRAME_BYTES <? length)) broker_error
        ("Snapshot broker " +:+ label +:+ " length is invalid");
  let payload := String.substring 4 (String.length start - 4) start in
  let missing := (Z.to_nat length - String.length payload)%nat in
  rest ← res_of_option (Exn broker_error ("Snapshot broker " +:+ label +:+ " was truncated")) (recv_all missing missing chunks);
  let payload := payload +:+ rest in
  _ ← raise_if (negb (Z.of_nat (String.length payload) =? length)) broker_error
        ("Snapshot broker " +:+ label +:+ " has trailing bytes");
  value ← (if utf8_valid payload
           then catch (json_loads payload) JSONDecodeError (λ _, raise broker_error ("Snapshot broker " +:+ label +:+ " is not JSON"))
           else raise broker_error ("Snapshot broker " +:+ label +:+ " is not JSON"));
  match value with
  | JObj d =>
      again ← canonical_json_bytes value;
      _ ← raise_if (negb (bool_decide (again = payload))) broker_error
            ("Snapshot broker " +:+ label +:+ " is not canonical JSON");
      Ok d
  | _ => raise broker_error ("Snapshot broker " +:+ label +:+ " is not canonical JSON")
  end.

(** ** Accesses *)

Definition tick : D nat := λ w,
  (Ok (accesses w), Daemon (_leases w) (_cleanup_tombstones w) (_runtime_binding w) (store_root w)
                      (lease_root w) (nonce_root w) (sent w) (S (accesses w))).
Definition now : D Z := n ← tick; mret (clock env n).

Definition set_leases (f : list (string * server_lease) → list (string * server_lease)) : D unit :=
  modifyM (λ w, Daemon (f (_leases w)) (_cleanup_tombstones w) (_runtime_binding w) (store_root w)
                  (lease_root w) (nonce_root w) (sent w) (accesses w)).
Definition set_tombstones (f : list (string * tombstone) → list (string * tombstone)) : D unit :=
  modifyM (λ w, Daemon (_leases w) (f (_cleanup_tombstones w)) (_runtime_binding w) (store_root w)
                  (lease_root w) (nonce_root w) (sent w) (accesses w)).
Definition set_runtime (r : option string) : D unit :=
  modifyM (λ w, Daemon (_leases w) (_cleanup_tombstones w) r (store_root w)
                  (lease_root w) (nonce_root w) (sent w) (accesses w)).
Definition set_store (f : gmap string namespace → gmap string namespace) : D unit :=
  modifyM (λ w, Daemon (_leases w) (_cleanup_tombstones w) (_runtime_binding w) (f (store_root w))
                  (lease_root w) (nonce_root w) (sent w) (accesses w)).
Definition set_records (f : gmap string record_file → gmap string record_file) : D unit :=
  modifyM (λ w, Daemon (_leases w) (_cleanup_tombstones w) (_runtime_binding w) (store_root w)
                  (f (lease_root w)) (nonce_root w) (sent w) (accesses w)).
Definition set_nonces (f : gmap string (gmap string string) → gmap string (gmap string string)) : D unit :=
  modifyM (λ w, Daemon (_leases w) (_cleanup_tombstones w) (_runtime_binding w) (store_root w)
                  (lease_root w) (f (nonce_root w)) (sent w) (accesses w)).
Definition deliver (response : json) : D unit :=
  modifyM (λ w, Daemon (_leases w) (_cleanup_tombstones w) (_runtime_binding w) (store_root w)
                  (lease_root w) (nonce_root w) (sent w ++ [response]) (accesses w)).

(** A system call that reads or only synchronises. *)
Definition look : D unit :=
  n ← tick; match io env n with Fine => mret tt | Fault e _ => liftM (Err e) end.

(** A system call that changes something: what [partly] and [wholly] leave. *)
Definition change {A} (partly : nat → D unit) (wholly : D unit) (a : A) : D A :=
  n ← tick;
  match io env n with
  | Fine => _ ← wholly; mret a
  | Fault e Nothing => liftM (Err e)
  | Fault e (Partial k) => _ ← partly k; liftM (Err e)
  | Fault e Whole => _ ← wholly; liftM (Err e)
  end.

(** ** Nonces *)

Definition uid_directory (uid : Z) : string := "uid-" +:+ string_of_Z uid.
Definition nonce_name (uid : Z) (nonce : string) : string :=
  sha256_hex (string_of_Z uid +:+ ":" +:+ nonce).

(** [int(text)] of a stripped ASCII text. *)
Fixpoint int_digits (digit_before : bool) (s : string) : bool :=
  match s with
  | EmptyString => digit_before
  | String c s => if is_digit c then int_digits true s
                  else digit_before && Ascii.eqb c "_" && int_digits false s
  end.
Fixpoint without_underscores (s : string) : string :=
  match s with
  | EmptyString => ""
  | String c s => if Ascii.eqb c "_" then without_underscores s else String c (without_underscores s)
  end.
Definition unsigned_int (s : string) : option Z :=
  if int_digits false s then Some (Z.of_N (digits_N 0 (without_underscores s))) else None.
Definition py_int (s : string) : option Z :=
  match s with
  | String c r => if Ascii.eqb c "-" then Z.opp <$> unsigned_int r
                  else if Ascii.eqb c "+" then unsigned_int r else unsigned_int s
  | EmptyString => None
  end.

(** The files of one directory; the entries of the store are its own. *)
Definition _count_files (files : gmap string string) (maximum : Z) : res Z :=
  let count := Z.of_nat (size files) in
  _ ← raise_if (maximum <? count) broker_error "Snapshot nonce store exceeds its bound";
  Ok count.

Fixpoint count_directories (dirs : list (string * gmap string string)) (uid_directories total : Z) : res Z :=
  match dirs with
  | [] => Ok total
  | (_, files) :: dirs =>
      let uid_directories := uid_directories + 1 in
      _ ← raise_if (MAX_NONCE_UID_DIRECTORIES <? uid_directories) broker_error
            "Snapshot nonce UID directory limit reached";
      n ← _count_files files MAX_NONCES_PER_UID;
      let total := total + n in
      _ ← raise_if (MAX_NONCES_TOTAL <? total) broker_error "Snapshot nonce store exceeds its global bound";
      count_directories dirs uid_directories total
  end.

Definition _total_count (nonces : gmap string (gmap string string)) : res Z :=
  count_directories (map_to_list nonces) 0 0.

(** One file of a directory: it is removed when its time is over. *)
Definition prune_file (at_time : Z) (directory : string) (scanned : Z) (file : string * string) : D Z :=
  let scanned := scanned + 1 in
  _ ← raise_ifM (MAX_REPLAY_FILES_SCANNED <? scanned) broker_error "Snapshot nonce prune bound exceeded";
  _ ← catchM look OSError (λ _, raiseM broker_error "Snapshot nonce state is malformed");
  value ← liftM (res_of_option (Exn broker_error "Snapshot nonce state is malformed")
                   (if all_chars is_ascii file.2 then py_int (strip file.2) else None));
  if value + 5 <? at_time
  then change (λ _, mret tt) (set_nonces (alter (delete file.1) directory)) scanned
  else mret scanned.

Fixpoint prune_files (at_time : Z) (directory : string) (scanned : Z) (files : list (string * string)) : D Z :=
  match files with
  | [] => mret scanned
  | f :: files => scanned ← prune_file at_time directory scanned f; prune_files at_time directory scanned files
  end.

Fixpoint prune_directories (at_time : Z) (scanned uid_directories : Z)
    (dirs : list (string * gmap string string)) : D unit :=
  match dirs with
  | [] => mret tt
  | (directory, files) :: dirs =>
      let uid_directories := uid_directories + 1 in
      _ ← raise_ifM (MAX_NONCE_UID_DIRECTORIES <? uid_directories) broker_error
            "Snapshot nonce UID directory limit reached";
      scanned ← prune_files at_time directory scanned (map_to_list files);
      remaining ← readM (λ w, nonce_root w !! directory);
      _ ← (if bool_decide (remaining = Some ∅)
           then change (λ _, mret tt) (set_nonces (delete directory)) tt else mret tt);
      prune_directories at_time scanned uid_directories dirs
  end.

(** [scandir] yields the entries in an order of its own. *)
Definition _prune_expired (at_time : Z) : D unit :=
  dirs ← readM (λ w, map_to_list (nonce_root w));
  prune_directories at_time 0 0 dirs.

(** [_consume_locked] after the pruning. *)
Definition add_nonce (uid : Z) (nonce : string) (until : Z) : D unit :=
  let directory := uid_directory uid in
  present ← readM (λ w, nonce_root w !! directory);
  _ ← (match present with
       | Some _ => look
       | None => change (λ _, mret tt) (set_nonces (insert directory ∅)) tt
       end);
  files ← readM (λ w, default ∅ (nonce_root w !! directory));
  active_for_uid ← liftM (_count_files files MAX_NONCES_PER_UID);
  _ ← raise_ifM (MAX_NONCES_PER_UID <=? active_for_uid) broker_error
        "Snapshot broker per-UID nonce rate limit reached";
  total ← askM (λ w, _total_count (nonce_root w));
  _ ← raise_ifM (MAX_NONCES_TOTAL <=? total) broker_error "Snapshot broker global nonce limit reached";
  let name := nonce_name uid nonce in
  let payload := string_of_Z until +:+ newline in
  _ ← look;
  _ ← raise_ifM (bool_decide (is_Some (files !! name))) broker_error "Snapshot broker nonce replay was rejected";
  change (λ k, set_nonces (alter (insert name (String.substring 0 k payload)) directory))
    (set_nonces (alter (insert name payload) directory)) tt.

Definition consume (uid : Z) (nonce : string) (until : Z) : D unit :=
  at_time ← now; _ ← _prune_expired at_time; add_nonce uid nonce until.

(** ** Lease records *)

Definition record_name (id : string) : string := id +:+ ".json".
Definition temporary_name (id hex : string) : string := "." +:+ record_name id +:+ "." +:+ hex +:+ ".tmp".
Definition snapshot_path (id : string) : string := BROKER_STORE_ROOT +:+ "/" +:+ id.

Definition _lease_record (l : server_lease) : json := jobj
  [("schema_version", JInt 1); ("lease_id", JStr (lease_id l)); ("caller_uid", JInt (caller_uid l));
   ("caller_gid", JInt (caller_gid l)); ("caller_pid", JInt (caller_pid l));
   ("snapshot_path", JStr (snapshot_path (lease_id l))); ("snapshot_sha256", snapshot_sha256 l);
   ("snapshot_device", JInt (snapshot_device l)); ("snapshot_inode", JInt (snapshot_inode l));
   ("acquire_attestation_sha256", acquire_attestation_sha256 l); ("expires_at", JInt (expires_at l));
   ("task_id", task_id l); ("attempt", attempt l); ("actor", actor l); ("run_id", run_id l);
   ("validation_contract_sha256", validation_contract_sha256 l)].

(** [0o600], [0o555] and [0o700] *)
Definition S_0600 : Z := 384.
Definition S_0700 : Z := 448.

Definition record_of (content : string) : record_file := RecordFile Regular 0 S_0600 content.

(** The record is written to a temporary file and renamed.  A failed write
    leaves the temporary file when its removal fails too or the process dies;
    a failed [fsync] of the directory comes after the rename. *)
Definition _persist_lease (l : server_lease) : D unit :=
  content ← liftM (canonical_json_bytes (_lease_record l));
  existing ← readM (λ w, lease_root w !! record_name (lease_id l));
  _ ← raise_ifM (bool_decide (is_Some existing)) broker_error "Snapshot broker lease record already exists";
  n ← readM accesses;
  change (λ k, set_records (insert (temporary_name (lease_id l) (token_hex env n))
                              (record_of (String.substring 0 k content))))
    (set_records (insert (record_name (lease_id l)) (record_of content))) tt.

Definition _delete_lease_record (id : string) : D unit :=
  change (λ _, mret tt) (set_records (delete (record_name id))) tt.

Definition lease_id_ok (id : string) : bool :=
  starts_with "lease-" id && re_hex 32 (String.substring 6 (String.length id - 6) id).

(** The value checks of [_decode_lease_record]. *)
Definition lease_document_ok (d : dict) (stem : string) : res unit :=
  _ ← raise_if (negb (py_eq (get d "schema_version") (JInt 1)
                      && py_eq (get d "lease_id") (JStr stem) && lease_id_ok stem
                      && py_eq (get d "snapshot_path") (JStr (snapshot_path stem))
                      && is_pure_int (get d "expires_at")
                      && bool_decide (is_Some (int_from 1 (get d "attempt"))))) broker_error
        "Snapshot broker lease record schema is invalid";
  _ ← raise_if (negb (forallb (λ f, bool_decide (is_Some (int_from 0 (get d f))))
                  ["caller_uid"; "caller_gid"; "caller_pid"; "snapshot_device"; "snapshot_inode"]))
        broker_error "Snapshot broker lease record identity is invalid";
  _ ← raise_if (negb (forallb (λ f, _is_hex (get d f) 64)
                  ["snapshot_sha256"; "acquire_attestation_sha256"; "validation_contract_sha256"]))
        broker_error "Snapshot broker lease digest is invalid";
  _ ← raise_if (negb (_valid_identifier (get d "task_id") 256 && _valid_identifier (get d "actor") 256))
        broker_error "Snapshot broker lease binding is invalid";
  raise_if (negb (_is_hex (get d "run_id") 32)) broker_error "Snapshot broker lease run id is invalid".

Definition int_field (d : dict) (key : string) : Z := match get d key with JInt z => z | _ => 0 end.

Definition lease_of (d : dict) : server_lease :=
  ServerLease (str_of (get d "lease_id")) (int_field d "caller_uid") (int_field d "caller_gid")
    (int_field d "caller_pid") (get d "snapshot_sha256") (int_field d "snapshot_device")
    (int_field d "snapshot_inode") (get d "acquire_attestation_sha256") (int_field d "expires_at")
    (get d "task_id") (get d "attempt") (get d "actor") (get d "run_id") (get d "validation_contract_sha256").

(** [path.stem] of a name that ends in [.json]. *)
Definition stem (name : string) : string := String.substring 0 (String.length name - 5) name.

Definition decode_record (name : string) (f : record_file) : res server_lease :=
  let size := Z.of_nat (String.length (rf_content f)) in
  _ ← raise_if (negb (bool_decide (rf_kind f = Regular)) || negb (rf_uid f =? 0) || negb (rf_mode f =? S_0600)
                || (size <? 2) || (MAX_BROKER_FRAME_BYTES <? size)) broker_error
        "Snapshot broker lease record is unsafe";
  value ← (if utf8_valid (rf_content f)
           then catch (json_loads (rf_content f)) JSONDecodeError
                  (λ _, raise broker_error "Snapshot broker lease record is malformed")
           else raise broker_error "Snapshot broker lease record is malformed");
  match value with
  | JObj d =>
      _ ← raise_if (negb (exact_keys d LEASE_RECORD_KEYS)) broker_error
            "Snapshot broker lease record schema is invalid";
      again ← canonical_json_bytes value;
      _ ← raise_if (negb (bool_decide (again = rf_content f))) broker_error
            "Snapshot broker lease record schema is invalid";
      _ ← lease_document_ok d (stem name);
      Ok (lease_of d)
  | _ => raise broker_error "Snapshot broker lease record schema is invalid"
  end.

Definition _decode_lease_record (name : string) : D server_lease :=
  _ ← look;
  f ← askM (λ w, res_of_option (Exn FileNotFoundError name) (lease_root w !! name));
  liftM (decode_record name f).

(** ** Directories of the store *)

Definition exists_namespace (id : string) : D bool := readM (λ w, bool_decide (is_Some (store_root w !! id))).

Definition identity_ok (l : server_lease) (ns : namespace) : bool :=
  bool_decide (ns_kind ns = Directory) && (ns_uid ns =? 0) && (ns_mode ns =? S_0555)
  && (ns_device ns =? snapshot_device l) && (ns_inode ns =? snapshot_inode l).

Definition _lease_namespace_identity (l : server_lease) : D unit :=
  _ ← look;
  ns ← askM (λ w, res_of_option (Exn FileNotFoundError (lease_id l)) (store_root w !! lease_id l));
  raise_ifM (negb (identity_ok l ns)) broker_error "Snapshot broker lease pathname identity changed".

Definition with_mode (mode : Z) (ns : namespace) : namespace :=
  Namespace (ns_kind ns) (ns_uid ns) mode (ns_device ns) (ns_inode ns).

(** The root of the tree is made writable first, so an interrupted removal
    leaves it with another mode. *)
Definition _remove_committed_snapshot (id : string) : D unit :=
  _ ← look;
  ns ← askM (λ w, res_of_option (Exn FileNotFoundError id) (store_root w !! id));
  _ ← raise_ifM (negb (bool_decide (ns_kind ns = Directory))) OSError id;
  _ ← raise_ifM (negb (ns_uid ns =? 0)) broker_error "Broker snapshot cleanup root is unsafe";
  change (λ _, set_store (alter (with_mode S_0700) id)) (set_store (delete id)) tt.

Definition _remove_lease_namespace (l : server_lease) : D unit :=
  _ ← _lease_namespace_identity l;
  _ ← _remove_committed_snapshot (lease_id l);
  still ← exists_namespace (lease_id l);
  raise_ifM still broker_error "Snapshot broker cleanup did not remove the lease".

(** [if path.exists(): remove; delete the record] *)
Definition drop_lease (l : server_lease) : D unit :=
  there ← exists_namespace (lease_id l);
  _ ← (if there : bool then _remove_lease_namespace l else mret tt);
  _delete_lease_record (lease_id l).

(** ** Recovery and expiry *)

Definition recover_record (at_time : Z) (name : string) : D unit :=
  kind ← readM (λ w, rf_kind <$> lease_root w !! name);
  _ ← raise_ifM (negb (bool_decide (kind = Some Regular)) || negb (ends_with ".json" name)) broker_error
        "Snapshot broker lease store contains an unsafe entry";
  l ← _decode_lease_record name;
  if expires_at l <? at_time then drop_lease l
  else
    there ← exists_namespace (lease_id l);
    if there : bool then
      _ ← _lease_namespace_identity l; set_leases (set_key (lease_id l) l)
    else _delete_lease_record (lease_id l).

Definition recover_namespace (name : string) : D unit :=
  kind ← readM (λ w, ns_kind <$> store_root w !! name);
  _ ← raise_ifM (negb (bool_decide (kind = Some Directory)) || negb (starts_with "lease-" name)) broker_error
        "Snapshot broker store contains an unsafe entry";
  live ← readM (λ w, bool_decide (is_Some (lookup_key name (_leases w))));
  if live : bool then mret tt
  else
    _ ← look;
    ns ← askM (λ w, res_of_option (Exn FileNotFoundError name) (store_root w !! name));
    _ ← raise_ifM (negb (ns_uid ns =? 0) || negb (ns_mode ns =? S_0555)) broker_error
          "Snapshot broker orphan is not root protected";
    _remove_committed_snapshot name.

Definition names_of {A} (m : gmap string A) : list string := merge_sort String.le (map_to_list m).*1.

Definition _recover_persisted_leases : D unit :=
  at_time ← now;
  _ ← set_leases (λ _, []);
  records ← readM (λ w, names_of (lease_root w));
  _ ← raise_ifM (MAX_PERSISTED_LEASE_FILES <? Z.of_nat (length records)) broker_error
        "Snapshot broker lease store exceeds its bound";
  _ ← iterM (recover_record at_time) records;
  namespaces ← readM (λ w, names_of (store_root w));
  _ ← raise_ifM (MAX_PERSISTED_LEASE_FILES <? Z.of_nat (length namespaces)) broker_error
        "Snapshot broker snapshot store exceeds its bound";
  iterM recover_namespace namespaces.

Definition evict_lease (l : server_lease) : D unit :=
  _ ← drop_lease l; set_leases (remove_key (lease_id l)).

Definition _evict_expired_leases (at_time : Z) : D unit :=
  expired ← readM (λ w, List.filter (λ l, expires_at l <? at_time) (_leases w).*2);
  iterM evict_lease expired.

Definition _rollback_acquire_response (id : string) : D unit :=
  l ← readM (λ w, lookup_key id (_leases w));
  match l with None => mret tt | Some l => evict_lease l end.

(** A new process: nothing in memory; then [_prepare], whose trust binding is
    that of [SnapshotProtocol]. *)
Definition start : D unit :=
  _ ← set_leases (λ _, []);
  _ ← set_tombstones (λ _, []);
  _ ← set_runtime None;
  _ ← look;
  binding ← liftM (match trusted_broker_runtime_binding (on_host env) BROKER_RUNTIME_MANIFEST_PATH true with
                   | Some r => r | None => raise broker_error "" end);
  _ ← set_runtime (binding !! "manifest_sha256");
  _recover_persisted_leases.

(** ** Acquiring *)

Definition new_namespace (n : nat) (mode : Z) : namespace :=
  Namespace Directory 0 mode (new_directory env n).1 (new_directory env n).2.

(** [_copy_sealed_source_descriptor] into the store: the directory is created
    with mode 0700 and sealed with 0555 at the end. *)
Definition copy_into (id : string) (d : descriptor) (uid : Z) (request : dict) : D dict :=
  n ← readM accesses;
  let '(r, made) := _copy_sealed_source_descriptor (nfc_casefold env) d uid (get request "source_commit")
                      (get request "tree_oid") in
  there ← exists_namespace id;
  _ ← raise_ifM (made && there) FileExistsError id;
  let unsealed := set_store (insert id (new_namespace n S_0700)) in
  match r with
  | Err e => _ ← (if made then change (λ _, unsealed) unsealed tt else mret tt); liftM (Err e)
  | Ok snapshot => change (λ _, unsealed) (set_store (insert id (new_namespace n S_0555))) snapshot
  end.

Definition attested_payload (request snapshot : dict) (pid uid gid : Z) (id : string) (ns : namespace)
    (issued_at : Z) (nonce manifest_sha256 : string) : dict := dict_of
  [("schema_version", JInt BROKER_SCHEMA_VERSION); ("protocol_id", JStr BROKER_PROTOCOL_ID);
   ("kind", JStr "snapshot-acquired"); ("request_sha256", JStr (sha256_hex (canonical_json (JObj request))));
   ("request_id", get request "request_id"); ("request_nonce", get request "nonce");
   ("caller_pid", JInt pid); ("caller_uid", JInt uid); ("caller_gid", JInt gid); ("lease_id", JStr id);
   ("source_commit", get snapshot "source_commit"); ("tree_oid", get snapshot "tree_oid");
   ("snapshot_sha256", get snapshot "sha256"); ("snapshot_device", JInt (ns_device ns));
   ("snapshot_inode", JInt (ns_inode ns)); ("snapshot_owner_uid", JInt (ns_uid ns));
   ("descriptor_type", JStr BROKER_DESCRIPTOR_TYPE); ("issued_at", JInt issued_at);
   ("expires_at", JInt (issued_at + BROKER_LEASE_TTL_SECONDS)); ("broker_nonce", JStr nonce);
   ("materialization_policy", get snapshot "materialization_policy"); ("task_id", get request "task_id");
   ("attempt", get request "attempt"); ("actor", get request "actor"); ("run_id", get request "run_id");
   ("validation_contract_sha256", get request "validation_contract_sha256");
   ("broker_runtime_manifest_sha256", JStr manifest_sha256)].

Definition sign (payload : dict) : res json :=
  sign_payload (on_host env) payload BROKER_PRIVATE_KEY_PATH BROKER_PUBLIC_KEY_PATH BROKER_OPENSSL_PATH
    BROKER_OPENSSL_SHA256_PATH.

(** What [_acquire] does with a copy: check it, sign for it, persist the lease. *)
Definition lease_copy (request : dict) (pid uid gid : Z) (id manifest_sha256 : string) (d : descriptor) : D json :=
  snapshot ← copy_into id d uid request;
  _ ← look;
  ns ← askM (λ w, res_of_option (Exn FileNotFoundError id) (store_root w !! id));
  _ ← raise_ifM (negb (ns_uid ns =? 0) || negb (ns_mode ns =? S_0555) || negb (bool_decide (ns_kind ns = Directory)))
        broker_error "Broker materialized an unsafe snapshot root";
  _ ← raise_ifM (py_neq (get snapshot "sha256") (get request "expected_snapshot_sha256")) broker_error
        "Broker snapshot does not match the requested manifest";
  issued_at ← now;
  _ ← liftM (canonical_json_sha256 (JObj request));
  n ← tick;
  let payload := attested_payload request snapshot pid uid gid id ns issued_at (token_hex env n) manifest_sha256 in
  attestation ← liftM (sign payload);
  attestation_sha256 ← liftM (canonical_json_sha256 attestation);
  let l := ServerLease id uid gid pid (get snapshot "sha256") (ns_device ns) (ns_inode ns)
             (JStr attestation_sha256) (issued_at + BROKER_LEASE_TTL_SECONDS) (get request "task_id")
             (get request "attempt") (get request "actor") (get request "run_id")
             (get request "validation_contract_sha256") in
  _ ← _persist_lease l;
  _ ← set_leases (set_key id l);
  mret (jobj [("schema_version", JInt BROKER_SCHEMA_VERSION); ("protocol_id", JStr BROKER_PROTOCOL_ID);
              ("operation", JStr "acquire"); ("request_id", get request "request_id"); ("ok", JBool true);
              ("snapshot", JObj snapshot); ("attestation", attestation)]).

(** Nothing after the record was persisted raises, so the handler never has a
    record to delete. *)
Definition undo_copy (id : string) : D unit :=
  _ ← set_leases (remove_key id);
  there ← exists_namespace id;
  if there : bool then _remove_committed_snapshot id else mret tt.

Definition _acquire (request : dict) (pid uid gid : Z) (d : descriptor) : D (string * json) :=
  active ← readM (λ w, Z.of_nat (length (_leases w)));
  _ ← raise_ifM (MAX_ACTIVE_BROKER_LEASES <=? active) broker_error
        "Snapshot broker active lease limit was reached";
  _ ← raise_ifM (py_neq (get request "materialization_policy") (JStr SNAPSHOT_MATERIALIZATION_POLICY_ID))
        broker_error "Snapshot materialization policy is unsupported";
  binding ← askM (λ w, res_of_option (Exn broker_error "Snapshot broker runtime provenance is unavailable")
                         (_runtime_binding w));
  _ ← liftM (_require_sealed_source_descriptor d uid);
  n ← tick;
  let id := "lease-" +:+ token_hex env n in
  response ← on_error (lease_copy request pid uid gid id binding d) (undo_copy id);
  mret (id, response).

(** ** Releasing *)

Definition cleanup_payload (request : dict) (pid uid gid : Z) (l : server_lease) (issued_at : Z)
    (nonce manifest_sha256 : string) : dict := dict_of
  [("schema_version", JInt BROKER_SCHEMA_VERSION); ("protocol_id", JStr BROKER_PROTOCOL_ID);
   ("kind", JStr "snapshot-cleaned"); ("request_sha256", JStr (sha256_hex (canonical_json (JObj request))));
   ("request_id", get request "request_id"); ("request_nonce", get request "nonce");
   ("caller_pid", JInt pid); ("caller_uid", JInt uid); ("caller_gid", JInt gid);
   ("lease_id", JStr (lease_id l)); ("acquire_attestation_sha256", acquire_attestation_sha256 l);
   ("snapshot_sha256", snapshot_sha256 l); ("snapshot_device", JInt (snapshot_device l));
   ("snapshot_inode", JInt (snapshot_inode l)); ("namespace_removed", JBool true);
   ("issued_at", JInt issued_at); ("broker_nonce", JStr nonce); ("task_id", task_id l);
   ("attempt", attempt l); ("actor", actor l); ("run_id", run_id l);
   ("validation_contract_sha256", validation_contract_sha256 l);
   ("receipt_preimage_sha256", get request "receipt_preimage_sha256");
   ("broker_runtime_manifest_sha256", JStr manifest_sha256)].

(** The oldest entries make room; [fuel] is the number of entries. *)
Fixpoint make_room {A} (fuel : nat) (l : list A) : list A :=
  match fuel, l with
  | S fuel, _ :: l' => if (MAX_CLEANUP_TOMBSTONES <=? length l)%nat then make_room fuel l' else l
  | _, _ => l
  end.

Definition _remember_cleanup_response (request : dict) (uid gid : Z) (response : json) : D unit :=
  _ ← set_tombstones (λ l, make_room (length l) l);
  request_sha256 ← liftM (canonical_json_sha256 (JObj request));
  set_tombstones (set_key (str_of (get request "lease_id"))
    (Tombstone uid gid request_sha256 (int_field request "expires_at") response)).

(** The tests of [_release] on the lease that the request names. *)
Definition release_allowed (request : dict) (uid gid : Z) (l : server_lease) : res unit :=
  _ ← raise_if (negb (caller_uid l =? uid) || negb (caller_gid l =? gid)) broker_error
        "Snapshot broker lease belongs to another caller";
  _ ← raise_if (py_neq (get request "acquire_attestation_sha256") (acquire_attestation_sha256 l)) broker_error
        "Snapshot broker release proof does not match acquisition";
  raise_if (py_neq (get request "task_id") (task_id l) || py_neq (get request "attempt") (attempt l)
            || py_neq (get request "actor") (actor l) || py_neq (get request "run_id") (run_id l)
            || py_neq (get request "validation_contract_sha256") (validation_contract_sha256 l)) broker_error
    "Snapshot broker release execution binding changed".

Definition _release (request : dict) (pid uid gid : Z) : D json :=
  l ← askM (λ w, res_of_option (Exn broker_error "Snapshot broker lease does not exist")
                   (lookup_key (str_of (get request "lease_id")) (_leases w)));
  _ ← liftM (release_allowed request uid gid l);
  binding ← askM (λ w, res_of_option (Exn broker_error "Snapshot broker runtime provenance is unavailable")
                         (_runtime_binding w));
  _ ← liftM (canonical_json_sha256 (JObj request));
  issued_at ← now;
  n ← tick;
  cleanup ← liftM (sign (cleanup_payload request pid uid gid l issued_at (token_hex env n) binding));
  _ ← _remove_lease_namespace l;
  let response := jobj [("schema_version", JInt BROKER_SCHEMA_VERSION); ("protocol_id", JStr BROKER_PROTOCOL_ID);
                        ("operation", JStr "release"); ("request_id", get request "request_id");
                        ("ok", JBool true); ("cleanup_attestation", cleanup)] in
  _ ← _remember_cleanup_response request uid gid response;
  _ ← _delete_lease_record (lease_id l);
  _ ← set_leases (remove_key (lease_id l));
  mret response.

(** The response of an earlier release to a retry of the same request. *)
Definition _cached_cleanup_response (request : dict) (uid gid : Z) : D (option json) :=
  at_time ← now;
  _ ← set_tombstones (List.filter (λ kv, negb (t_expires_at kv.2 <? at_time)));
  t ← readM (λ w, lookup_key (str_of (get request "lease_id")) (_cleanup_tombstones w));
  match t with
  | None => mret None
  | Some t =>
      sha ← liftM (canonical_json_sha256 (JObj request));
      _ ← raise_ifM (negb (t_caller_uid t =? uid) || negb (t_caller_gid t =? gid)
                     || negb (bool_decide (t_request_sha256 t = sha))) broker_error
            "Snapshot broker cleanup retry does not match the original";
      mret (Some (t_response t))
  end.

(** ** A connection *)

(** A failed send may have delivered the frame. *)
Definition _send_response (response : json) : D unit :=
  _ ← liftM (encode_frame response); change (λ _, mret tt) (deliver response) tt.

Definition class_name (c : exn_class) : string :=
  match c with
  | SnapshotBrokerError => "SnapshotBrokerError" | EvidenceError => "EvidenceError" | KeyError => "KeyError"
  | OSError => "OSError" | FileNotFoundError => "FileNotFoundError" | FileExistsError => "FileExistsError"
  | TypeError => "TypeError" | ValueError => "ValueError" | JSONDecodeError => "JSONDecodeError"
  | TimeoutError => "TimeoutError" | _ => "Exception"
  end.

(** The text of an exception is its message cut to the limit. *)
Definition _error_response (operation request_id : string) (e : exn) : json := jobj
  [("schema_version", JInt BROKER_SCHEMA_VERSION); ("protocol_id", JStr BROKER_PROTOCOL_ID);
   ("operation", JStr (if bool_decide (operation ∈ ["acquire"; "release"]) then operation else "error"));
   ("request_id", JStr (if bool_decide (request_id = "") then "unknown" else request_id));
   ("ok", JBool false); ("error_code", JStr (class_name (exn_cls e)));
   ("message", JStr (String.substring 0 MAX_BROKER_ERROR_MESSAGE_BYTES (exn_msg e)))].

Definition handled (e : exn) : bool :=
  existsb (is_a e) [EvidenceError; KeyError; OSError; TypeError; ValueError].

(** [except (...) as exc: try: send the error except (...): pass] *)
Definition reporting (operation request_id : string) (m : D unit) : D unit := λ w,
  match m w with
  | (Err e, w') =>
      if handled e then
        match _send_response (_error_response operation request_id e) w' with
        | (Err e', w'') =>
            if is_a e' OSError || is_a e' SnapshotBrokerError then (Ok tt, w'') else (Err e', w'')
        | r => r
        end
      else (Err e, w')
  | r => r
  end.

Record connection := Connection { peer : option (Z * Z * Z); frame : message }.

(** The part before the operation is known. *)
Definition accept_request (c : connection) : D (Z * Z * Z * dict * string) :=
  '(pid, uid, gid) ← liftM (_peer_credentials (peer c));
  _ ← liftM (_require_authorized_peer env uid gid);
  at_time ← now;
  _ ← _evict_expired_leases at_time;
  _ ← look;
  request ← liftM (_receive_framed_json_with_fds (frame c) 1 "request");
  at_time ← now;
  operation ← liftM (validate_request (JObj request) at_time);
  mret (pid, uid, gid, request, operation).

Definition serve (c : connection) (pid uid gid : Z) (request : dict) (operation : string) : D unit :=
  let acquiring := bool_decide (operation = "acquire") in
  _ ← raise_ifM (negb (length (descriptors (frame c)) =? if acquiring then 1 else 0)%nat) broker_error
        "Snapshot broker source descriptor count does not match the request";
  cached ← (if acquiring then mret None else _cached_cleanup_response request uid gid);
  match cached with
  | Some response => _send_response response
  | None =>
      _ ← consume uid (str_of (get request "nonce")) (int_field request "expires_at");
      match descriptors (frame c) with
      | d :: _ =>
          '(id, response) ← _acquire request pid uid gid d;
          on_error (_send_response response) (_rollback_acquire_response id)
      | [] => response ← _release request pid uid gid; _send_response response
      end
  end.

Definition handle_connection (c : connection) : D unit := λ w,
  match accept_request c w with
  | (Ok (pid, uid, gid, request, operation), w') =>
      reporting operation (str_of (get request "request_id")) (serve c pid uid gid request operation) w'
  | (Err e, w') => reporting "error" "unknown" (liftM (Err e)) w'
  end.
End Daemon.
