(* ===== verification/SnapshotBrokerSafety.v ===== *)
(** * What the snapshot broker promises

    A nonce is accepted once; what was cleaned up stays away; an interrupted
    cleanup blocks the daemon for good.  The theorems are about every history of
    the daemon's atomic sections, whatever accesses fail and whenever the process
    is killed and started again. *)

From S2P Require Export SnapshotBroker.
From Stdlib Require Import DecimalString DecimalPos.

#[local] Notation D := (M daemon).

(** A computation after which the world is related to the one before. *)
Class Along (R : daemon → daemon → Prop) {A} (m : D A) : Prop := along : ∀ w, R w (m w).2.

Section Rules.
Context (env : environment) (R : daemon → daemon → Prop) `{!PreOrder R}.

#[export] Instance along_lift {A} (r : res A) : Along R (liftM r).
Proof. by intros w. Qed.
#[export] Instance along_ret {A} (a : A) : Along R (mret a).
Proof. by intros w. Qed.
#[export] Instance along_guard b c msg : Along R (raise_ifM b c msg).
Proof. by intros w. Qed.
#[export] Instance along_raise {A} c msg : Along R (raiseM (A := A) c msg).
Proof. by intros w. Qed.
#[export] Instance along_read {A} (f : daemon → A) : Along R (readM f).
Proof. by intros w. Qed.
#[export] Instance along_ask {A} (f : daemon → res A) : Along R (askM f).
Proof. by intros w. Qed.
#[export] Instance along_bind {A B} (m : D A) (f : A → D B) :
  Along R m → (∀ a, Along R (f a)) → Along R (m ≫= f).
Proof.
  intros Hm Hf w. unfold mbind, M_bind. pose proof (Hm w) as Hw. destruct (m w) as [[a|e] w']; [|done].
  etransitivity; [exact Hw|apply Hf].
Qed.
#[export] Instance along_catch {A} (m : D A) c (h : exn → D A) :
  Along R m → (∀ e, Along R (h e)) → Along R (catchM m c h).
Proof.
  intros Hm Hh w. unfold catchM. pose proof (Hm w) as Hw. destruct (m w) as [[a|e] w']; [done|].
  destruct (is_a e c); [|done]. etransitivity; [exact Hw|apply Hh].
Qed.
#[export] Instance along_error {A} (m : D A) cleanup :
  Along R m → Along R cleanup → Along R (on_error m cleanup).
Proof.
  intros Hm Hc w. unfold on_error. pose proof (Hm w) as Hw. destruct (m w) as [[a|e] w']; [done|].
  destruct (bool_decide _); [done|]. pose proof (Hc w') as Hw'.
  destruct (cleanup w') as [[u|e'] w'']; (etransitivity; [exact Hw|exact Hw']).
Qed.
#[export] Instance along_iter {A} (f : A → D unit) l :
  (∀ a, Along R (f a)) → Along R (iterM f l).
Proof. intros Hf. induction l as [|a l IH]; [apply along_ret|exact (along_bind _ _ (Hf a) (λ _, IH))]. Qed.
#[export] Instance along_change {A} partly wholly (a : A) :
  Along R tick → (∀ k, Along R (partly k)) → Along R wholly → Along R (change env partly wholly a).
Proof. intros Ht Hp Hw. unfold change. apply along_bind; [done|]. intros n. destruct (io env n) as [|e []]; apply _. Qed.
#[export] Instance along_look : Along R tick → Along R (look env).
Proof. intros Ht. unfold look. apply along_bind; [done|]. intros n. destruct (io env n); apply _. Qed.
#[export] Instance along_now : Along R tick → Along R (now env).
Proof. intros Ht. unfold now. apply _. Qed.
End Rules.

(** A part of the world stays; the number of accesses grows. *)
Definition same {X} (part : daemon → X) (w w' : daemon) : Prop := part w' = part w.
#[export] Instance same_preorder {X} (part : daemon → X) : PreOrder (same part).
Proof. split; unfold same; [done|congruence]. Qed.
Definition later (w w' : daemon) : Prop := (accesses w ≤ accesses w')%nat.
#[export] Instance later_preorder : PreOrder later.
Proof. split; [intros w|intros u v w]; unfold later; lia. Qed.
(** A fact stays true; a fact about the nonces does. *)
Definition keeping (P : daemon → Prop) (w w' : daemon) : Prop := P w → P w'.
#[export] Instance keeping_preorder P : PreOrder (keeping P).
Proof. split; unfold keeping; auto. Qed.
Definition keeps (P : gmap string (gmap string string) → Prop) : daemon → daemon → Prop :=
  keeping (λ w, P (nonce_root w)).
#[export] Instance keeps_preorder P : PreOrder (keeps P).
Proof. apply keeping_preorder. Qed.

(** The primitive steps, on the parts they do not write. *)
Ltac along_step :=
  intros ?; first [reflexivity | unfold later; cbn; lia | let H := fresh in unfold keeps, keeping; intros H; exact H].
#[export] Hint Extern 5 (Along _ tick) => along_step : typeclass_instances.
#[export] Hint Extern 5 (Along _ (set_leases _)) => along_step : typeclass_instances.
#[export] Hint Extern 5 (Along _ (set_tombstones _)) => along_step : typeclass_instances.
#[export] Hint Extern 5 (Along _ (set_runtime _)) => along_step : typeclass_instances.
#[export] Hint Extern 5 (Along _ (set_store _)) => along_step : typeclass_instances.
#[export] Hint Extern 5 (Along _ (set_records _)) => along_step : typeclass_instances.
#[export] Hint Extern 5 (Along _ (set_nonces _)) => along_step : typeclass_instances.
#[export] Hint Extern 5 (Along _ (deliver _)) => along_step : typeclass_instances.

(** Follow the structure of a computation. *)
Ltac keep :=
  repeat first
    [ progress intros
    | apply _
    | match goal with |- Along _ (match ?x with _ => _ end) => destruct x end
    | apply along_bind | apply along_error | apply along_change | apply along_iter | apply along_catch ].

Ltac unfold_sections :=
  unfold start, _recover_persisted_leases, recover_record, recover_namespace, _decode_lease_record,
    _evict_expired_leases, _rollback_acquire_response, evict_lease, drop_lease, _release, _acquire, lease_copy,
    copy_into, undo_copy, _remove_lease_namespace, _lease_namespace_identity, _remove_committed_snapshot,
    _remember_cleanup_response, _cached_cleanup_response, _send_response, _persist_lease,
    _delete_lease_record, exists_namespace.

Section Histories.
Context `{Hashing} `{Sha1} `{OpenSSL} (env : environment).

(** The atomic sections.  A connection is a sequence of them; those of several
    connections may interleave. *)
Inductive section_call :=
  | Start
  | Evict (at_time : Z)
  | Cached (request : dict) (uid gid : Z)
  | Consume (uid : Z) (nonce : string) (until : Z)
  | Acquire (request : dict) (pid uid gid : Z) (d : descriptor)
  | Release (request : dict) (pid uid gid : Z)
  | Rollback (id : string)
  | Send (response : json)
  | Access.

Definition perform (s : section_call) : D unit :=
  match s with
  | Start => start env
  | Evict at_time => _evict_expired_leases env at_time
  | Cached request uid gid => _ ← _cached_cleanup_response env request uid gid; mret tt
  | Consume uid nonce until => consume env uid nonce until
  | Acquire request pid uid gid d => _ ← _acquire env request pid uid gid d; mret tt
  | Release request pid uid gid => _ ← _release env request pid uid gid; mret tt
  | Rollback id => _rollback_acquire_response env id
  | Send response => _send_response env response
  | Access => look env
  end.

(** The worlds that a history of sections leads to; a section that raised, or in
    which the process died, has changed what it had changed by then. *)
Inductive history (w : daemon) : list section_call → daemon → Prop :=
  | history_nil : history w [] w
  | history_snoc l w' s : history w l w' → history w (l ++ [s]) (perform s w').2.

(** Only [consume] writes nonces. *)
Lemma perform_keeps_nonces s w :
  (∀ u n t, s ≠ Consume u n t) → nonce_root (perform s w).2 = nonce_root w.
Proof.
  intros Hs. assert (Ha : Along (same nonce_root) (perform s)); [|exact (Ha w)].
  destruct s; try (by destruct (Hs uid nonce until)); unfold perform; unfold_sections; keep.
Qed.

(** ** A nonce is accepted once *)

Section ConsumeRules.
Context (R : daemon → daemon → Prop) `{!PreOrder R} (Ht : Along R tick).
Context (Hset : ∀ f, Along R (set_nonces f)).

#[local] Instance along_prune_files t dir scanned files : Along R (prune_files env t dir scanned files).
Proof using Type*.
  revert scanned. induction files as [|f files IH]; intros scanned; cbn [prune_files]; [apply _|].
  unfold prune_file. keep.
Qed.
#[local] Instance along_prune_directories t scanned n dirs : Along R (prune_directories env t scanned n dirs).
Proof using Type*.
  revert scanned n. induction dirs as [|[dir files] dirs IH]; intros scanned n; cbn [prune_directories]; [apply _|].
  keep.
Qed.
Lemma along_after_clock t uid nonce until :
  Along R (_ ← _prune_expired env t; add_nonce env uid nonce until).
Proof using Type*. unfold _prune_expired, add_nonce. keep. Qed.
Lemma along_consume uid nonce until : Along R (consume env uid nonce until).
Proof using Type*. intros w. etransitivity; [exact (Ht w)|]. exact (along_after_clock _ _ _ _ (tick w).2). Qed.
End ConsumeRules.

Lemma perform_later s : Along later (perform s).
Proof.
  destruct s; try (unfold perform; unfold_sections; keep; fail). apply along_consume; [apply _..|]. intros f. along_step.
Qed.

Lemma history_later w l w' : history w l w' → later w w'.
Proof. induction 1 as [|l w' s Hh IH]; [done|]. etransitivity; [exact IH|apply perform_later]. Qed.

Lemma int_digits_value s : all_chars is_digit s = true →
  (∀ b, b = true ∨ s ≠ "" → int_digits b s = true) ∧ without_underscores s = s.
Proof.
  induction s as [|c s IH]; intros Hs.
  - split; [|done]. intros b [->|Hb]; done.
  - cbn in Hs. apply andb_true_iff in Hs as [Hc Hs]. destruct (IH Hs) as [IH1 IH2]. cbn. rewrite Hc, IH2.
    assert (Ascii.eqb c "_" = false) as -> by (destruct c as [[] [] [] [] [] [] [] []]; done).
    split; [|done]. intros b _. apply IH1. by left.
Qed.

Lemma py_int_of_Z z : 0 ≤ z → py_int (string_of_Z z) = Some z.
Proof.
  intros Hz. destruct z as [|p|p]; [done| |lia].
  change (string_of_Z (Zpos p)) with (NilEmpty.string_of_uint (Pos.to_uint p)).
  destruct (pos_digits_head p) as (c & r & E & Hd & _).
  assert (Hall : all_chars is_digit (String c r) = true) by (rewrite <- E; apply string_of_uint_digits).
  assert (Hval : digits_N 0 (String c r) = Npos p) by (rewrite <- E, digits_N_uint; apply DecimalPos.Unsigned.of_to).
  rewrite E. unfold py_int.
  assert (Ascii.eqb c "-" = false ∧ Ascii.eqb c "+" = false) as [-> ->]
    by (split; destruct c as [[] [] [] [] [] [] [] []]; done).
  unfold unsigned_int. destruct (int_digits_value _ Hall) as [H2 ->]. rewrite H2 by by right. by rewrite Hval.
Qed.

Lemma digits_plain z : 0 ≤ z → all_chars plain_char (string_of_Z z) = true ∧ all_chars is_ascii (string_of_Z z) = true.
Proof.
  intros Hz. destruct z as [|p|p]; [done| |lia].
  change (string_of_Z (Zpos p)) with (NilEmpty.string_of_uint (Pos.to_uint p)).
  split; (eapply all_chars_impl; [|apply string_of_uint_digits]);
    intros [[] [] [] [] [] [] [] []]; vm_compute; done.
Qed.

Lemma nonce_text until : 0 ≤ until →
  all_chars is_ascii (string_of_Z until +:+ newline) = true ∧
  py_int (strip (string_of_Z until +:+ newline)) = Some until.
Proof.
  intros Hu. destruct (digits_plain until Hu) as [Hp Ha]. split.
  - by rewrite all_chars_app, Ha.
  - rewrite (strip_line _ Hp). by apply py_int_of_Z.
Qed.

(** The nonce is in the store, with its time. *)
Definition noted (uid : Z) (nonce : string) (until : Z) (N : gmap string (gmap string string)) : Prop :=
  ∃ files, N !! uid_directory uid = Some files ∧
    files !! nonce_name uid nonce = Some (string_of_Z until +:+ newline).

(** A rule that keeps what a pure step returned. *)
Lemma along_lift_bind (R : daemon → daemon → Prop) `{!PreOrder R} {A B} (r : res A) (f : A → D B) :
  (∀ a, r = Ok a → Along R (f a)) → Along R (liftM r ≫= f).
Proof. intros Hf w. unfold mbind, M_bind, liftM. destruct r as [a|e]; [by apply Hf|done]. Qed.

Lemma along_guard_bind (R : daemon → daemon → Prop) `{!PreOrder R} {B} b c msg (k : D B) :
  (b = false → Along R k) → Along R (_ ← raise_ifM b c msg; k).
Proof. intros Hk w. destruct b; [done|by apply Hk]. Qed.

Lemma keeping_ask_bind (P : daemon → Prop) {A B} (f : daemon → res A) (k : A → D B) :
  (∀ w a, P w → f w = Ok a → Along (keeping P) (k a)) → Along (keeping P) (askM f ≫= k).
Proof.
  intros Hk w HP. unfold mbind, M_bind, askM. destruct (f w) as [a|e] eqn:E; [exact (Hk w a HP E w HP)|exact HP].
Qed.

Lemma keeping_tick_bind (P : daemon → Prop) {B} (k : nat → D B) :
  Along (keeping P) tick → (∀ w, P w → Along (keeping P) (k (accesses w))) → Along (keeping P) (tick ≫= k).
Proof. intros Ht Hk w HP. exact (Hk w HP (tick w).2 (Ht w HP)). Qed.

Section Noted.
Context (uid : Z) (nonce : string) (until : Z) (Hu : 0 ≤ until).
Notation P := (noted uid nonce until).

Lemma noted_alter dir (g : gmap string string → gmap string string) N :
  (dir = uid_directory uid → ∀ files, g files !! nonce_name uid nonce = files !! nonce_name uid nonce) →
  P N → P (alter g dir N).
Proof.
  intros Hg (files & Hd & Hf). destruct (decide (dir = uid_directory uid)) as [->|Hne].
  - exists (g files). by rewrite lookup_alter_eq, Hd, Hg.
  - exists files. by rewrite lookup_alter_ne.
Qed.

Lemma along_set_nonces f : (∀ N, P N → P (f N)) → Along (keeps P) (set_nonces f).
Proof. intros Hf w HP. by apply Hf. Qed.

Lemma prune_file_noted t dir scanned file :
  t ≤ until + 5 →
  (dir = uid_directory uid → file.1 = nonce_name uid nonce → file.2 = string_of_Z until +:+ newline) →
  Along (keeps P) (prune_file env t dir scanned file).
Proof using Hu.
  intros Ht Hfile. unfold prune_file. apply along_bind; [apply _..|]. intros _.
  apply along_bind; [apply _|apply along_catch; apply _|]. intros _.
  apply along_lift_bind; [apply _|]. intros value Hv. destruct (value + 5 <? t) eqn:Ev; [|apply _].
  apply Z.ltb_lt in Ev. apply along_change; [apply _..|]. apply along_set_nonces. intros N.
  apply noted_alter. intros -> files. apply lookup_delete_ne. intros Hn.
  specialize (Hfile eq_refl Hn). destruct (nonce_text until Hu) as [Ha Hi].
  rewrite Hfile, Ha, Hi in Hv. injection Hv as <-. lia.
Qed.

(** The scan read [files] while the nonce was there. *)
Lemma prune_files_noted t dir scanned files :
  t ≤ until + 5 →
  (∀ file, file ∈ files → dir = uid_directory uid → file.1 = nonce_name uid nonce →
     file.2 = string_of_Z until +:+ newline) →
  Along (keeps P) (prune_files env t dir scanned files).
Proof using Hu.
  intros Ht. revert scanned. induction files as [|f files IH]; intros scanned Hf; [apply _|].
  cbn [prune_files]. apply along_bind; [apply _|apply prune_file_noted; [done|]; apply Hf; left|].
  intros n. apply IH. intros file Hin. apply Hf. by right.
Qed.

Lemma remove_empty_noted dir {B} (k : D B) :
  Along (keeps P) k →
  Along (keeps P)
    (remaining ← readM (λ w, nonce_root w !! dir);
     _ ← (if bool_decide (remaining = Some ∅)
          then change env (λ _, mret tt) (set_nonces (delete dir)) tt else mret tt);
     k).
Proof.
  intros Hk w HP. unfold mbind at 1, M_bind at 1, readM. case_bool_decide as He; [|by apply (Hk w HP)].
  assert (dir ≠ uid_directory uid) as Hne.
  { intros ->. destruct HP as (files & Hd & Hf). rewrite He in Hd. by simplify_eq. }
  revert HP. apply along_bind; [apply _| |by intros _]. apply along_change; [apply _..|].
  apply along_set_nonces. intros N (files & Hd & Hf). exists files. by rewrite lookup_delete_ne.
Qed.

Lemma prune_directories_noted t scanned n dirs :
  t ≤ until + 5 →
  (∀ files, (uid_directory uid, files) ∈ dirs → files !! nonce_name uid nonce = Some (string_of_Z until +:+ newline)) →
  Along (keeps P) (prune_directories env t scanned n dirs).
Proof using Hu.
  intros Ht. revert scanned n. induction dirs as [|[dir files] dirs IH]; intros scanned n Hd; [apply _|].
  cbn [prune_directories]. apply along_bind; [apply _..|]. intros _. apply along_bind; [apply _| |].
  - apply prune_files_noted; [done|]. intros [name content] Hin -> Hname. cbn in *. subst name.
    apply elem_of_map_to_list in Hin. rewrite (Hd files) in Hin by left. by simplify_eq.
  - intros m. apply remove_empty_noted, IH. intros files' Hin. apply Hd. by right.
Qed.

Lemma prune_noted t : t ≤ until + 5 → Along (keeps P) (_prune_expired env t).
Proof using Hu.
  intros Ht w HP. refine (prune_directories_noted t 0 0 (map_to_list (nonce_root w)) Ht _ w HP).
  intros files Hin. apply elem_of_map_to_list in Hin. destruct HP as (files' & Hd & Hf).
  rewrite Hin in Hd. by simplify_eq.
Qed.

Lemma keeps_read_bind {A B} (f : daemon → A) (k : A → D B) :
  (∀ w, P (nonce_root w) → Along (keeps P) (k (f w))) → Along (keeps P) (readM f ≫= k).
Proof. intros Hk w HP. exact (Hk w HP w HP). Qed.

(** The directory is there, or made; the new file has another name. *)
Lemma add_noted uid' nonce' until' : Along (keeps P) (add_nonce env uid' nonce' until').
Proof.
  unfold add_nonce. set (dir := uid_directory uid').
  apply keeps_read_bind. intros w (files & Hd & Hf). apply along_bind; [apply _| |intros _].
  { destruct (nonce_root w !! dir) eqn:E; [apply _|]. apply along_change; [apply _..|].
    apply along_set_nonces. intros N (files' & Hd' & Hf'). exists files'.
    rewrite lookup_insert_ne; [done|congruence]. }
  clear w files Hd Hf. apply keeps_read_bind. intros w (files & Hd & Hf).
  do 5 (apply along_bind; [apply _..|]; intros ?). apply along_guard_bind; [apply _|]. intros Hnew.
  apply bool_decide_eq_false in Hnew. apply along_change; [apply _..| |].
  all: intros; apply along_set_nonces; intros N; apply noted_alter; intros He files'; apply lookup_insert_ne.
  all: intros Hn; apply Hnew; rewrite He, Hn, Hd; by eexists.
Qed.

Lemma consume_noted uid' nonce' until' w :
  clock env (accesses w) ≤ until + 5 → P (nonce_root w) →
  P (nonce_root (consume env uid' nonce' until' w).2).
Proof using Hu.
  intros Ht HP. refine (_ (_ : Along (keeps P) (_ ← _prune_expired env (clock env (accesses w));
                                              add_nonce env uid' nonce' until'))).
  - intros Ha. exact (Ha (tick w).2 HP).
  - apply along_bind; [apply _|by apply prune_noted|]. intros _. apply add_noted.
Qed.

Lemma run_same {X A} (part : daemon → X) (m : D A) w a w' :
  m w = (Ok a, w') → Along (same part) m → part w' = part w.
Proof. intros Hr Hm. change w' with (Ok a, w').2. rewrite <- Hr. apply Hm. Qed.

(** The exclusive creation refuses a nonce that is there. *)
Lemma add_refuses until' w u w' :
  P (nonce_root w) → add_nonce env uid nonce until' w ≠ (Ok u, w').
Proof.
  intros (files & Hd & Hf) Hrun. unfold add_nonce in Hrun.
  apply M_bind_ok in Hrun as (present & w1 & Hp & Hrun). apply readM_ok in Hp as [-> ->].
  rewrite Hd in Hrun. apply M_bind_ok in Hrun as (u1 & w2 & Hl & Hrun).
  assert (nonce_root w2 = nonce_root w) as E2.
  { by apply (run_same nonce_root) in Hl; [|apply _]. }
  apply M_bind_ok in Hrun as (files' & w3 & Hp & Hrun). apply readM_ok in Hp as [-> ->].
  do 5 (apply M_bind_ok in Hrun as (? & ? & _ & Hrun)).
  apply M_bind_ok in Hrun as (? & ? & Hg & _). apply raise_ifM_ok in Hg as [Hg _].
  apply bool_decide_eq_false in Hg. apply Hg. rewrite E2, Hd. by eexists.
Qed.
End Noted.

(** After an acceptance the nonce is in the store. *)
Lemma add_stores uid nonce until w u w' :
  add_nonce env uid nonce until w = (Ok u, w') → noted uid nonce until (nonce_root w').
Proof.
  intros Hrun. unfold add_nonce in Hrun.
  apply M_bind_ok in Hrun as (present & w1 & Hp & Hrun). apply readM_ok in Hp as [-> ->].
  apply M_bind_ok in Hrun as (u1 & w1 & Hl & Hrun).
  assert (is_Some (nonce_root w1 !! uid_directory uid)) as [files Hd].
  { destruct (nonce_root w !! uid_directory uid) as [files|] eqn:Hd.
    - apply (run_same nonce_root) in Hl as ->; [by eexists|apply _].
    - unfold change, mbind, M_bind, tick in Hl. destruct (io env (accesses w)) as [|e []]; [|done..].
      injection Hl as _ <-. eexists. apply lookup_insert_eq. }
  apply M_bind_ok in Hrun as (files' & w2 & Hp & Hrun). apply readM_ok in Hp as [-> ->].
  do 6 (apply M_bind_ok in Hrun as (? & ? & Hs & Hrun); apply (run_same nonce_root) in Hs;
    [rewrite <- Hs in Hd; clear Hs|apply _]).
  unfold change, mbind, M_bind, tick in Hrun. destruct (io env _) as [|e []]; [|done..].
  injection Hrun as _ <-. eexists. split; [cbn; by rewrite lookup_alter_eq, Hd|]. apply lookup_insert_eq.
Qed.

(** The clock is read before anything else. *)
Lemma consume_ticks uid nonce until w :
  (accesses w < accesses (consume env uid nonce until w).2)%nat.
Proof.
  assert (∀ f, Along later (set_nonces f)) as Hset by (intros f; along_step).
  exact (along_after_clock later _ Hset (clock env (accesses w)) uid nonce until (tick w).2).
Qed.

Definition unexpired (until : Z) (w w' : daemon) : Prop :=
  ∀ n, (accesses w ≤ n < accesses w')%nat → clock env n ≤ until + 5.

Lemma perform_noted uid nonce until s w :
  0 ≤ until → unexpired until w (perform s w).2 →
  noted uid nonce until (nonce_root w) → noted uid nonce until (nonce_root (perform s w).2).
Proof.
  intros Hu Hc HP. destruct s; try (rewrite perform_keeps_nonces; [exact HP|done]).
  apply consume_noted; [done|apply Hc; split; [done|apply consume_ticks]|done].
Qed.

Lemma history_noted uid nonce until w l w' :
  0 ≤ until → history w l w' → unexpired until w w' →
  noted uid nonce until (nonce_root w) → noted uid nonce until (nonce_root w').
Proof.
  intros Hu. induction 1 as [|l w' s Hh IH]; intros Hc HP; [done|].
  pose proof (perform_later s w') as Hl. pose proof (history_later _ _ _ Hh) as Hl'.
  apply perform_noted; [done| |apply IH; [|done]]; intros n Hn; apply Hc; unfold later in *; lia.
Qed.

(** C8: A nonce that was accepted with a time is not accepted again from the same
    user, whatever happened in between - other requests, failed accesses, kills
    and restarts - unless the clock read a value more than five seconds after
    that time since. *)
Theorem nonce_accepted_once uid nonce until until' w w1 l w2 w3 :
  0 ≤ until →
  consume env uid nonce until w = (Ok tt, w1) →
  history w1 l w2 →
  consume env uid nonce until' w2 = (Ok tt, w3) →
  ∃ n, (accesses w1 ≤ n < accesses w3)%nat ∧ until + 5 < clock env n.
Proof.
  intros Hu Hfirst Hh Hagain.
  assert (noted uid nonce until (nonce_root w1)) as HP.
  { unfold consume in Hfirst. do 2 (apply M_bind_ok in Hfirst as (? & ? & _ & Hfirst)). by eapply add_stores. }
  destruct (decide (Exists (λ n, until + 5 < clock env n) (seq (accesses w1) (accesses w3 - accesses w1)))) as [He|He].
  { apply Exists_exists in He as (n & Hin%elem_of_seq & Hn). exists n. split; [lia|done]. }
  exfalso. assert (unexpired until w1 w3) as Hc.
  { intros n Hn. apply Z.nlt_ge. intros Hlt. apply He, Exists_exists. exists n. split; [apply elem_of_seq; lia|done]. }
  pose proof (history_later _ _ _ Hh) as Hl. pose proof (consume_ticks uid nonce until' w2) as Ht.
  rewrite Hagain in Ht. cbn [snd] in Ht. unfold later in Hl.
  assert (unexpired until w1 w2) as Hc' by (intros n Hn; apply Hc; lia).
  apply (history_noted _ _ _ _ _ _ Hu Hh Hc') in HP.
  unfold consume in Hagain. apply M_bind_ok in Hagain as (t & w2' & Hnow & Hagain).
  assert (t = clock env (accesses w2) ∧ w2' = (tick w2).2) as [-> ->] by (injection Hnow as <- <-; done).
  apply M_bind_ok in Hagain as (u & w2'' & Hprune & Hagain).
  assert (noted uid nonce until (nonce_root w2'')) as HP'.
  { change w2'' with (Ok u, w2'').2. rewrite <- Hprune. apply (prune_noted uid nonce until Hu); [apply Hc; lia|exact HP]. }
  exact (add_refuses _ _ _ _ _ _ _ HP' Hagain).
Qed.

(** ** What was cleaned up, and what was left half-way

    A name of the store is ["lease-"] and a drawn token; a token is drawn once. *)

Definition first_start : daemon := Daemon [] [] None ∅ ∅ ∅ [] 0.

Definition tokens_differ : Prop := ∀ m n, token_hex env m = token_hex env n → m = n.

Definition drawn (id : string) (w : daemon) : Prop :=
  ∃ n, (n < accesses w)%nat ∧ id = "lease-" +:+ token_hex env n.

Section Entry.
Context (Htokens : tokens_differ) (id : string) (o : option namespace).
Context (Ho : ∀ ns, o = Some ns → ns_mode ns ≠ S_0555).

(** The entry of a drawn name: gone, or a directory that is not sealed. *)
Definition entry (w : daemon) : Prop := store_root w !! id = o ∧ drawn id w.

#[local] Instance entry_tick : Along (keeping entry) tick.
Proof. intros w (E & n & Hn & Hid). split; [exact E|]. exists n. cbn. split; [lia|done]. Qed.

Lemma entry_set_store f : (∀ S, f S !! id = S !! id) → Along (keeping entry) (set_store f).
Proof. intros Hf w (E & Hd). split; [|exact Hd]. cbn. by rewrite Hf. Qed.

#[local] Instance entry_look : Along (keeping entry) (look env).
Proof. apply _. Qed.

Lemma remove_other id' : id' ≠ id → Along (keeping entry) (_remove_committed_snapshot env id').
Proof.
  intros Hne. unfold _remove_committed_snapshot. keep; apply entry_set_store; intros S;
    first [by apply lookup_alter_ne|by apply lookup_delete_ne].
Qed.

(** Its identity is never that of a lease. *)
Lemma identity_refused l w w' u :
  lease_id l = id → entry w → _lease_namespace_identity env l w ≠ (Ok u, w').
Proof.
  intros Hid HE Hrun. unfold _lease_namespace_identity in Hrun.
  apply M_bind_ok in Hrun as (u1 & w1 & Hl & Hrun). apply (run_same store_root) in Hl; [|apply _].
  apply M_bind_ok in Hrun as (ns & w2 & Hns & Hg). apply askM_ok in Hns as [Hns ->].
  apply raise_ifM_ok in Hg as [Hg _]. destruct HE as [HE _]. rewrite Hl, Hid, HE in Hns.
  destruct o as [ns'|]; [|done]. injection Hns as ->. apply negb_false_iff in Hg.
  unfold identity_ok in Hg. specialize (Ho ns eq_refl). bool_split.
  congruence.
Qed.

#[local] Instance entry_identity l : Along (keeping entry) (_lease_namespace_identity env l).
Proof. unfold _lease_namespace_identity. keep. Qed.

Lemma entry_after_identity l {A} (k : unit → D A) :
  (lease_id l ≠ id → Along (keeping entry) (k tt)) → Along (keeping entry) (_lease_namespace_identity env l ≫= k).
Proof using Ho.
  intros Hk w HE. unfold mbind, M_bind.
  pose proof (entry_identity l w HE) as HE'. destruct (_lease_namespace_identity env l w) as [[[]|e] w'] eqn:Hrun; [|done].
  apply Hk; [|exact HE']. intros Hid. exact (identity_refused _ _ _ _ Hid HE Hrun).
Qed.

#[local] Instance entry_remove_lease l : Along (keeping entry) (_remove_lease_namespace env l).
Proof using Ho.
  apply entry_after_identity. intros Hne. apply along_bind; [apply _|by apply remove_other|]. unfold exists_namespace. keep.
Qed.
#[local] Instance entry_delete_record i : Along (keeping entry) (_delete_lease_record env i).
Proof. unfold _delete_lease_record. keep. Qed.
#[local] Instance entry_drop l : Along (keeping entry) (drop_lease env l).
Proof using Ho. unfold drop_lease, exists_namespace. keep. Qed.
#[local] Instance entry_evict l : Along (keeping entry) (evict_lease env l).
Proof using Ho. unfold evict_lease. keep. Qed.
#[local] Instance entry_recover_record t name : Along (keeping entry) (recover_record env t name).
Proof using Ho. unfold recover_record, _decode_lease_record, exists_namespace. keep. Qed.

Lemma recover_namespace_refused w u w' : entry w → recover_namespace env id w = (Ok u, w') →
  is_Some (lookup_key id (_leases w)).
Proof using Ho.
  intros HE Hrun. unfold recover_namespace in Hrun.
  apply M_bind_ok in Hrun as (kind & w1 & Hk & Hrun). apply readM_ok in Hk as [-> ->].
  apply M_bind_ok in Hrun as (u1 & w1 & Hg & Hrun). apply raise_ifM_ok in Hg as [_ ->].
  apply M_bind_ok in Hrun as (live & w1 & Hk & Hrun). apply readM_ok in Hk as [-> ->].
  case_bool_decide as Hlive; [done|exfalso].
  apply M_bind_ok in Hrun as (u2 & w1 & Hl & Hrun). apply (run_same store_root) in Hl; [|apply _].
  apply M_bind_ok in Hrun as (ns & w2 & Hns & Hrun). apply askM_ok in Hns as [Hns ->].
  apply M_bind_ok in Hrun as (u3 & w3 & Hg & _). apply raise_ifM_ok in Hg as [Hg _].
  destruct HE as [HE _]. rewrite Hl, HE in Hns.
  destruct o as [ns'|]; [|done]. injection Hns as ->. specialize (Ho ns eq_refl). bool_split. congruence.
Qed.

#[local] Instance entry_recover_namespace name : Along (keeping entry) (recover_namespace env name).
Proof using Ho.
  unfold recover_namespace. do 3 (apply along_bind; [apply _..|]; intros ?).
  match goal with |- Along _ (if ?b then _ else _) => destruct b end; [apply _|].
  apply along_bind; [apply _..|]; intros _. apply keeping_ask_bind. intros w ns [HE _] Hns.
  apply along_guard_bind; [apply _|]. intros Hg. apply remove_other. intros ->. rewrite HE in Hns.
  destruct o as [ns'|]; [|done]. injection Hns as ->. specialize (Ho ns eq_refl). bool_split. congruence.
Qed.

#[local] Instance entry_start : Along (keeping entry) (start env).
Proof using Ho. unfold start, _recover_persisted_leases. keep. Qed.

(** A copy has a token of its own. *)
Lemma entry_copy request pid uid gid id' sha d :
  id' ≠ id → Along (keeping entry) (lease_copy env request pid uid gid id' sha d).
Proof.
  intros Hne. unfold lease_copy, copy_into, _persist_lease, exists_namespace. keep.
  all: apply entry_set_store; intros S; by apply lookup_insert_ne.
Qed.

#[local] Instance entry_acquire request pid uid gid d : Along (keeping entry) (_acquire env request pid uid gid d).
Proof using Htokens.
  unfold _acquire. do 5 (apply along_bind; [apply _..|]; intros ?).
  apply keeping_tick_bind; [apply _|]. intros w [_ (m & Hm & Hid)].
  assert ("lease-" +:+ token_hex env (accesses w) ≠ id) as Hne.
  { rewrite Hid. intros He. apply (inj (String.append "lease-")), Htokens in He. lia. }
  apply along_bind; [apply _| |apply _]. apply along_error; [apply _|by apply entry_copy|].
  unfold undo_copy, exists_namespace.
  do 2 (apply along_bind; [apply _..|]; intros ?). match goal with |- Along _ (if ?b then _ else _) => destruct b end; [by apply remove_other|apply _].
Qed.

Lemma perform_entry s : Along (keeping entry) (perform s).
Proof using Htokens Ho.
  destruct s; unfold perform, _evict_expired_leases, _rollback_acquire_response, _cached_cleanup_response,
    _send_response, _release, _remember_cleanup_response; try (keep; fail).
  apply along_consume; [apply _..|]. intros f. along_step.
Qed.

Lemma history_entry w l w' : history w l w' → entry w → entry w'.
Proof using Htokens Ho. induction 1 as [|l w' s Hh IH]; [done|]. intros HE. by apply perform_entry, IH. Qed.
End Entry.

(** The names of the store were drawn; the memory is keyed by the leases' names. *)
Definition named (w : daemon) : Prop := ∀ id, is_Some (store_root w !! id) → drawn id w.
Definition keyed (w : daemon) : Prop := ∀ id l, lookup_key id (_leases w) = Some l → lease_id l = id.

Lemma drawn_tick id w : drawn id w → drawn id (tick w).2.
Proof. intros (n & Hn & ->). exists n. cbn. split; [lia|done]. Qed.

#[local] Instance named_tick : Along (keeping named) tick.
Proof. intros w Hw id Hid. by apply drawn_tick, Hw. Qed.

Lemma named_set_store f :
  (∀ S id, is_Some (f S !! id) → is_Some (S !! id)) → Along (keeping named) (set_store f).
Proof. intros Hf w Hw id Hid. apply (Hw id), Hf, Hid. Qed.
#[local] Instance named_delete id : Along (keeping named) (set_store (delete id)).
Proof. apply named_set_store. intros S id' [ns Hid']. apply lookup_delete_Some in Hid' as [_ ->]. by eexists. Qed.
#[local] Instance named_alter g id : Along (keeping named) (set_store (alter g id)).
Proof.
  apply named_set_store. intros S id' [ns Hid']. destruct (decide (id' = id)) as [->|Hne].
  - rewrite lookup_alter_eq in Hid'. destruct (S !! id); [by eexists|done].
  - rewrite lookup_alter_ne in Hid' by done. by eexists.
Qed.

(** A copy is made under the name just drawn. *)
Definition named_with (id : string) (w : daemon) : Prop := named w ∧ drawn id w.
#[local] Instance named_with_tick id : Along (keeping (named_with id)) tick.
Proof. intros w [Hw Hd]. split; [by apply named_tick|by apply drawn_tick]. Qed.
#[local] Instance named_with_insert id ns : Along (keeping (named_with id)) (set_store (insert id ns)).
Proof.
  intros w [Hw Hd]. split; [|exact Hd]. intros id' Hid'. destruct (decide (id' = id)) as [->|Hne]; [exact Hd|].
  cbn in Hid'. rewrite lookup_insert_ne in Hid' by done. by apply Hw.
Qed.
#[local] Instance named_with_copy request pid uid gid id sha d :
  Along (keeping (named_with id)) (lease_copy env request pid uid gid id sha d).
Proof. unfold lease_copy, copy_into, _persist_lease, exists_namespace. keep. Qed.
#[local] Instance named_with_undo id : Along (keeping (named_with id)) (undo_copy env id).
Proof.
  assert (∀ m, Along (keeping named) (A := unit) m → Along (same accesses) m → Along (keeping (named_with id)) m) as Hboth.
  { intros m Hm Ha w [Hw Hd]. split; [by apply Hm|]. unfold drawn. by rewrite (Ha w : accesses _ = _). }
  unfold undo_copy, _remove_committed_snapshot, exists_namespace. keep; apply Hboth; try apply _; by intros w.
Qed.

#[local] Instance named_acquire request pid uid gid d : Along (keeping named) (_acquire env request pid uid gid d).
Proof.
  unfold _acquire. do 5 (apply along_bind; [apply _..|]; intros ?). intros w Hw.
  assert (named_with ("lease-" +:+ token_hex env (accesses w)) (tick w).2) as Hd.
  { split; [by apply named_tick|]. exists (accesses w). cbn. split; [lia|done]. }
  match goal with |- named ((tick ≫= ?k) w).2 =>
    enough (Along (keeping (named_with ("lease-" +:+ token_hex env (accesses w)))) (k (accesses w))) as Ha
      by exact (proj1 (Ha _ Hd)) end.
  keep.
Qed.

Lemma perform_named s : Along (keeping named) (perform s).
Proof.
  destruct s; try (unfold perform; unfold_sections; keep; fail).
  apply along_consume; [apply _..|]. intros f. along_step.
Qed.

Lemma history_named w l w' : history w l w' → named w → named w'.
Proof. induction 1 as [|l w' s Hh IH]; [done|]. intros Hw. by apply perform_named, IH. Qed.

(** The memory. *)
Lemma lookup_key_cons {A} k k1 (a : A) l :
  lookup_key k ((k1, a) :: l) = if bool_decide (k1 = k) then Some a else lookup_key k l.
Proof. unfold lookup_key. cbn. by case_bool_decide. Qed.

Lemma lookup_remove_key {A} k k' (l : list (string * A)) :
  lookup_key k (remove_key k' l) = if bool_decide (k = k') then None else lookup_key k l.
Proof.
  induction l as [|[k1 a] l IH]; [by case_bool_decide|]. rewrite lookup_key_cons.
  unfold remove_key in *. cbn [List.filter fst].
  destruct (decide (k1 = k')) as [->|Hne].
  - rewrite bool_decide_eq_true_2 by done. cbn [negb]. rewrite IH. by repeat case_bool_decide; simplify_eq.
  - rewrite (bool_decide_eq_false_2 (k1 = k')) by done. cbn [negb]. rewrite lookup_key_cons, IH.
    by repeat case_bool_decide; simplify_eq.
Qed.

Lemma lookup_replaced {A} k k' (a : A) l :
  lookup_key k ((λ kv : string * A, if bool_decide (kv.1 = k') then (k', a) else kv) <$> l)
  = if bool_decide (k = k') then (λ _, a) <$> lookup_key k l else lookup_key k l.
Proof.
  induction l as [|[k1 b] l IH]; [by case_bool_decide|]. rewrite fmap_cons, lookup_key_cons. cbn [fst].
  destruct (decide (k1 = k')) as [->|Hne].
  - rewrite (bool_decide_eq_true_2 (k' = k')) by done. rewrite lookup_key_cons, IH.
    by repeat case_bool_decide; simplify_eq.
  - rewrite (bool_decide_eq_false_2 (k1 = k')) by done. rewrite lookup_key_cons, IH.
    by repeat case_bool_decide; simplify_eq.
Qed.

Lemma lookup_key_set {A} k k' a (l : list (string * A)) :
  lookup_key k (set_key k' a l) = if bool_decide (k = k') then Some a else lookup_key k l.
Proof.
  unfold set_key. destruct (lookup_key k' l) as [a'|] eqn:E.
  - rewrite lookup_replaced. case_bool_decide; [|done]. subst k'. by rewrite E.
  - induction l as [|[k1 b] l IH]; [cbn [app]; rewrite lookup_key_cons; by repeat case_bool_decide; simplify_eq|].
    rewrite <- app_comm_cons, !lookup_key_cons. rewrite lookup_key_cons in E.
    destruct (decide (k1 = k)) as [->|Hne].
    + rewrite (bool_decide_eq_true_2 (k = k)) by done. by repeat case_bool_decide; simplify_eq.
    + rewrite (bool_decide_eq_false_2 (k1 = k)) by done. apply IH.
      destruct (bool_decide (k1 = k')); [done|exact E].
Qed.

(** Every lease of the memory is under its name. *)
#[local] Instance keyed_clear : Along (keeping keyed) (set_leases (λ _, [])).
Proof. intros w _ id l Hl. done. Qed.
#[local] Instance keyed_remove id : Along (keeping keyed) (set_leases (remove_key id)).
Proof.
  intros w Hw id' l Hl. change (lookup_key id' (remove_key id (_leases w)) = Some l) in Hl. rewrite lookup_remove_key in Hl. case_bool_decide; [done|]. by apply Hw.
Qed.
Lemma keyed_set id l : lease_id l = id → Along (keeping keyed) (set_leases (set_key id l)).
Proof.
  intros Hid w Hw id' l' Hl. change (lookup_key id' (set_key id l (_leases w)) = Some l') in Hl. rewrite lookup_key_set in Hl. case_bool_decide; [|by apply Hw]. by simplify_eq.
Qed.

Lemma perform_keyed s : Along (keeping keyed) (perform s).
Proof.
  destruct s; try (unfold perform; unfold_sections; keep; by apply keyed_set).
  apply along_consume; [apply _..|]. intros f. along_step.
Qed.

Lemma history_keyed w l w' : history w l w' → keyed w → keyed w'.
Proof. induction 1 as [|l w' s Hh IH]; [done|]. intros Hw. by apply perform_keyed, IH. Qed.

#[local] Existing Instance entry_tick.

Lemma run_keeps {A} (P : daemon → Prop) (m : D A) w a w' :
  m w = (Ok a, w') → Along (keeping P) m → P w → P w'.
Proof. intros Hr Hm HP. change w' with (Ok a, w').2. rewrite <- Hr. by apply Hm. Qed.

(** A removal that returned found the directory and left none. *)
Lemma remove_lease_done l w u w' :
  named w → _remove_lease_namespace env l w = (Ok u, w') → entry (lease_id l) None w'.
Proof.
  intros Hnamed Hrun. unfold _remove_lease_namespace in Hrun.
  pose proof Hrun as Hid. apply M_bind_ok in Hid as (u1 & w1 & Hid & _).
  assert (drawn (lease_id l) w) as Hd.
  { apply Hnamed. unfold _lease_namespace_identity in Hid.
    apply M_bind_ok in Hid as (? & ? & Hs & Hid). apply (run_same store_root) in Hs as <-; [|apply _].
    apply M_bind_ok in Hid as (ns & ? & Hns & _). apply askM_ok in Hns as [Hns _].
    by destruct (store_root _ !! _). }
  assert (drawn (lease_id l) w') as Hd'.
  { refine (run_keeps (drawn (lease_id l)) _ w u w' Hrun _ Hd).
    assert (Along (keeping (drawn (lease_id l))) tick) by exact (drawn_tick (lease_id l)).
    unfold _lease_namespace_identity, _remove_committed_snapshot, exists_namespace. keep; by intros ?. }
  split; [|exact Hd'].
  do 2 (apply M_bind_ok in Hrun as (? & ? & _ & Hrun)).
  apply M_bind_ok in Hrun as (still & w3 & Hs & Hg). apply readM_ok in Hs as [-> ->].
  apply raise_ifM_ok in Hg as [Hg ->]. apply bool_decide_eq_false in Hg.
  by destruct (store_root _ !! _); [destruct Hg; eexists|].
Qed.

Lemma delete_record_done id w u w' :
  _delete_lease_record env id w = (Ok u, w') → lease_root w' !! record_name id = None.
Proof.
  intros Hrun. unfold _delete_lease_record, change, mbind, M_bind, tick in Hrun.
  destruct (io env _) as [|e []]; [|done..]. injection Hrun as _ <-. apply lookup_delete_eq.
Qed.

(** What a release that returned had found and left. *)
Lemma release_done request pid uid gid w response w' :
  named w → keyed w → _release env request pid uid gid w = (Ok response, w') →
  ∃ l id, id = str_of (get request "lease_id") ∧ lookup_key id (_leases w) = Some l ∧
    release_allowed request uid gid l = Ok tt ∧
    entry id None w' ∧ lease_root w' !! record_name id = None ∧ lookup_key id (_leases w') = None.
Proof.
  intros Hnamed Hkeyed Hrun. unfold _release in Hrun.
  apply M_bind_ok in Hrun as (l & w1 & Hl & Hrun). apply askM_ok in Hl as [Hl ->].
  destruct (lookup_key _ (_leases w)) as [l'|] eqn:Hlookup; [|done]. injection Hl as ->.
  pose proof (Hkeyed _ _ Hlookup) as Hid.
  apply M_bind_ok in Hrun as ([] & w1 & Ha & Hrun). apply liftM_ok in Ha as [Ha ->].
  do 5 (apply M_bind_ok in Hrun as (? & ? & Hs & Hrun); apply (run_keeps named) in Hs; [|apply _|done];
    clear Hnamed; rename Hs into Hnamed).
  apply M_bind_ok in Hrun as (u & w2 & Hr & Hrun). apply (remove_lease_done _ _ _ _ Hnamed) in Hr.
  apply M_bind_ok in Hrun as (u1 & w3 & Hm & Hrun).
  apply (run_keeps (entry (lease_id l) None)) in Hm; [|unfold _remember_cleanup_response; apply _|done].
  apply M_bind_ok in Hrun as (u2 & w4 & Hdel & Hrun). pose proof (delete_record_done _ _ _ _ Hdel) as Hrec.
  apply (run_keeps (entry (lease_id l) None)) in Hdel; [|unfold _delete_lease_record; apply _|done].
  injection Hrun as <- <-. exists l, (lease_id l). rewrite <- Hid. split_and!; try done.
  - by rewrite Hid.
  - cbn [_leases]. rewrite lookup_remove_key. by rewrite bool_decide_eq_true_2.
Qed.

Lemma first_named : named first_start.
Proof. intros id [ns Hns]. done. Qed.
Lemma first_keyed : keyed first_start.
Proof. intros id l Hl. done. Qed.

(** C9: A release that returned was asked for by the caller that acquired the lease,
    with the proof of that acquisition; it removed the directory, the record and
    the lease in memory, and the directory stays away in everything the daemon
    does later, failures and restarts included: the signed [namespace_removed] is
    true and remains so. *)
Theorem released_lease_stays_away request pid uid gid l w response w' l' w'' :
  tokens_differ →
  history first_start l w →
  _release env request pid uid gid w = (Ok response, w') →
  history w' l' w'' →
  ∃ lease id, id = str_of (get request "lease_id") ∧
    lookup_key id (_leases w) = Some lease ∧
    release_allowed request uid gid lease = Ok tt ∧
    lease_root w' !! record_name id = None ∧ lookup_key id (_leases w') = None ∧
    store_root w'' !! id = None.
Proof.
  intros Htokens Hh Hrun Hlater.
  destruct (release_done _ _ _ _ _ _ _ (history_named _ _ _ Hh first_named) (history_keyed _ _ _ Hh first_keyed) Hrun)
    as (lease & id & Hid & Hl & Ha & He & Hr & Hm).
  exists lease, id. split_and!; try done.
  by apply (history_entry Htokens id None (λ ns Hn, ltac:(done)) _ _ _ Hlater) in He as [He _].
Qed.

(** ** The answer to a release is kept *)

Lemma lookup_filter {A} (p : string * A → bool) k a l :
  lookup_key k l = Some a → p (k, a) = true → lookup_key k (List.filter p l) = Some a.
Proof.
  induction l as [|[k1 b] l IH]; [done|]. rewrite lookup_key_cons. cbn [List.filter].
  destruct (decide (k1 = k)) as [->|Hne].
  - rewrite bool_decide_eq_true_2 by done. intros [= ->] Hp. rewrite Hp, lookup_key_cons. by rewrite bool_decide_eq_true_2.
  - rewrite bool_decide_eq_false_2 by done. intros Hl Hp. specialize (IH Hl Hp).
    destruct (p (k1, b)); [|exact IH]. rewrite lookup_key_cons. by rewrite bool_decide_eq_false_2.
Qed.

(** The sections that neither end the process nor add an entry. *)
Definition quiet (s : section_call) : Prop :=
  match s with Start | Release _ _ _ _ => False | _ => True end.

Definition recalls (id : string) (t : tombstone) (w : daemon) : Prop := lookup_key id (_cleanup_tombstones w) = Some t.

Section Recalled.
Context (id : string) (t : tombstone).
Notation R := (keeping (recalls id t)).

Lemma expiry_recalls at_time : at_time ≤ t_expires_at t →
  Along R (set_tombstones (List.filter (λ kv, negb (t_expires_at kv.2 <? at_time)))).
Proof.
  intros Ht w Hr. apply lookup_filter; [exact Hr|]. by apply negb_true_iff, Z.ltb_ge.
Qed.

Lemma cached_recalls request uid gid w :
  clock env (accesses w) ≤ t_expires_at t → recalls id t w →
  recalls id t (_cached_cleanup_response env request uid gid w).2.
Proof.
  intros Ht Hr. unfold _cached_cleanup_response.
  match goal with |- recalls _ _ ((now env ≫= ?k) w).2 =>
    enough (Along R (k (clock env (accesses w)))) as Ha by exact (Ha (tick w).2 Hr) end.
  apply along_bind; [apply _|by apply expiry_recalls|intros _]. keep.
Qed.

Lemma cached_answers request uid gid w sha :
  clock env (accesses w) ≤ t_expires_at t → recalls id t w →
  id = str_of (get request "lease_id") → canonical_json_sha256 (JObj request) = Ok sha →
  t_caller_uid t = uid → t_caller_gid t = gid → t_request_sha256 t = sha →
  (_cached_cleanup_response env request uid gid w).1 = Ok (Some (t_response t)).
Proof.
  intros Ht Hr Hid Hsha <- <- Hreq. unfold _cached_cleanup_response.
  pose proof (expiry_recalls _ Ht (tick w).2 Hr) as Hf.
  rewrite (M_bind_run _ (now env) w (clock env (accesses w)) (tick w).2) by reflexivity.
  set (F := List.filter _) in *. rewrite (M_bind_run _ (set_tombstones F) (tick w).2 tt (set_tombstones F (tick w).2).2 eq_refl).
  revert Hf. generalize (set_tombstones F (tick w).2).2. intros w' Hf.
  rewrite (M_bind_run _ (readM _) w' (Some t) w') by (unfold readM; rewrite <- Hid; by rewrite (Hf : lookup_key id _ = _)).
  rewrite (lift_bind_run _ _ _ _ Hsha), Hreq, !Z.eqb_refl, bool_decide_eq_true_2 by done. reflexivity.
Qed.

Lemma quiet_recalls s w : quiet s → clock env (accesses w) ≤ t_expires_at t →
  recalls id t w → recalls id t (perform s w).2.
Proof.
  intros Hs Hc Hr. destruct s; try done.
  all: try (refine ((_ : Along R (perform _)) w Hr); unfold perform; unfold_sections; keep; fail).
  - pose proof (cached_recalls request uid gid w Hc Hr) as Hr'. unfold perform, mbind, M_bind.
    by destruct (_cached_cleanup_response env request uid gid w) as [[?|?] ?].
  - refine ((_ : Along R (perform _)) w Hr). apply along_consume; [apply _..|]. intros f. along_step.
Qed.

Lemma history_recalls w l w' : history w l w' → Forall quiet l →
  (∀ n, (accesses w ≤ n ≤ accesses w')%nat → clock env n ≤ t_expires_at t) →
  recalls id t w → recalls id t w'.
Proof.
  induction 1 as [|l w' s Hh IH]; [done|]. intros [Hl Hs]%Forall_app Hc Hr. rewrite Forall_singleton in Hs.
  pose proof (perform_later s w') as Hlater. pose proof (history_later _ _ _ Hh) as Hbefore. unfold later in *.
  apply quiet_recalls; [done|apply Hc; lia|]. apply IH; [done| |done]. intros n Hn. apply Hc. lia.
Qed.
End Recalled.

(** What a release that returned remembers. *)
Lemma release_remembers request pid uid gid w response w' :
  _release env request pid uid gid w = (Ok response, w') →
  ∃ sha, canonical_json_sha256 (JObj request) = Ok sha ∧
    recalls (str_of (get request "lease_id")) (Tombstone uid gid sha (int_field request "expires_at") response) w'.
Proof.
  intros Hrun. unfold _release in Hrun.
  do 8 (apply M_bind_ok in Hrun as (? & ? & _ & Hrun)).
  apply M_bind_ok in Hrun as (u & w1 & Hm & Hrun). apply M_bind_ok in Hrun as (u1 & w2 & Hd & Hrun).
  injection Hrun as <- <-. unfold _remember_cleanup_response in Hm.
  apply M_bind_ok in Hm as (? & ? & _ & Hm). apply M_bind_ok in Hm as (sha & w3 & Hsha & Hm).
  apply liftM_ok in Hsha as [Hsha ->]. exists sha. split; [exact Hsha|]. injection Hm as _ <-.
  unfold recalls. cbn [_cleanup_tombstones].
  assert (Along (same _cleanup_tombstones) (_delete_lease_record env (lease_id x))) as Hs by (unfold _delete_lease_record; keep).
  rewrite (run_same _cleanup_tombstones _ _ _ _ Hd Hs). cbn [_cleanup_tombstones].
  by rewrite lookup_key_set, bool_decide_eq_true_2.
Qed.

(** C30: A release whose answer was lost is answered again: until the request expires,
    the same request from the same caller gets the same signed response, whatever
    other requests, evictions, failures or expiries happened in between, unless
    the process was restarted or another release was served. *)
Theorem release_retry_is_answered request pid uid gid w response w' l w'' :
  _release env request pid uid gid w = (Ok response, w') →
  history w' l w'' → Forall quiet l →
  (∀ n, (accesses w' ≤ n ≤ accesses w'')%nat → clock env n ≤ int_field request "expires_at") →
  (_cached_cleanup_response env request uid gid w'').1 = Ok (Some response).
Proof.
  intros Hrun Hh Hl Hc. destruct (release_remembers _ _ _ _ _ _ _ Hrun) as (sha & Hsha & Hr).
  pose proof (history_later _ _ _ Hh) as Hlater. unfold later in Hlater.
  apply (history_recalls _ (Tombstone uid gid sha (int_field request "expires_at") response) _ _ _ Hh Hl Hc) in Hr.
  assert (clock env (accesses w'') ≤ int_field request "expires_at") as Ht by (apply Hc; lia).
  exact (cached_answers _ (Tombstone uid gid sha (int_field request "expires_at") response) request uid gid w'' sha
    Ht Hr eq_refl Hsha eq_refl eq_refl eq_refl).
Qed.

(** ** A start with an unsealed directory *)

Lemma iterM_keeps {A} (P : daemon → Prop) (f : A → D unit) l w u w' :
  (∀ a, Along (keeping P) (f a)) → P w → iterM f l w = (Ok u, w') →
  P w' ∧ ∀ a, a ∈ l → ∃ v v' u', P v ∧ f a v = (Ok u', v').
Proof.
  intros Hf. revert w. induction l as [|x l IH]; intros w HP Hrun.
  - injection Hrun as _ <-. split; [done|]. intros a Ha. by apply elem_of_nil in Ha.
  - apply M_bind_ok in Hrun as (u1 & w1 & Hx & Hrun). pose proof (run_keeps _ _ _ _ _ Hx (Hf x) HP) as HP1.
    destruct (IH w1 HP1 Hrun) as [HP' Hall]. split; [done|]. intros a [->|Ha]%elem_of_cons; [|by apply Hall].
    exists w, w1, u1. split; [exact HP|exact Hx].
Qed.

Lemma names_of_elem {A} (m : gmap string A) k : k ∈ names_of m ↔ is_Some (m !! k).
Proof.
  unfold names_of. rewrite merge_sort_Permutation, list_elem_of_fmap. split.
  - intros ([k' a] & -> & Ha). apply elem_of_map_to_list in Ha. by eexists.
  - intros [a Ha]. exists (k, a). by rewrite elem_of_map_to_list.
Qed.

Section Unsealed.
Context (Htokens : tokens_differ) (id : string) (o : option namespace).
Context (Ho : ∀ ns, o = Some ns → ns_mode ns ≠ S_0555).

(** No lease of that name comes into the memory. *)
Definition unknown (w : daemon) : Prop := entry id o w ∧ lookup_key id (_leases w) = None.
#[local] Instance unknown_tick : Along (keeping unknown) tick.
Proof. intros w [He Hl]. split; [by apply entry_tick|exact Hl]. Qed.

Lemma unknown_same {A} (m : D A) : Along (keeping (entry id o)) m → Along (same _leases) m → Along (keeping unknown) m.
Proof. intros He Hs w [Hw Hl]. split; [by apply He|]. by rewrite (Hs w : _leases _ = _). Qed.

#[local] Instance unknown_drop l : Along (keeping unknown) (drop_lease env l).
Proof using Ho.
  apply unknown_same; [by apply entry_drop|].
  unfold drop_lease, exists_namespace, _remove_lease_namespace, _lease_namespace_identity, _remove_committed_snapshot,
    exists_namespace, _delete_lease_record. keep.
Qed.
#[local] Instance unknown_delete_record i : Along (keeping unknown) (_delete_lease_record env i).
Proof. apply unknown_same; [apply entry_delete_record|]. unfold _delete_lease_record. keep. Qed.

#[local] Instance unknown_enter l :
  Along (keeping unknown) (_ ← _lease_namespace_identity env l; set_leases (set_key (lease_id l) l)).
Proof using Ho.
  intros w [He Hl]. unfold mbind, M_bind.
  assert (Along (same _leases) (_lease_namespace_identity env l)) as Hs by (unfold _lease_namespace_identity; keep).
  pose proof (entry_identity id o l w He) as He'. specialize (Hs w). unfold same in Hs.
  destruct (_lease_namespace_identity env l w) as [[[]|e] w'] eqn:Hrun; cbn [snd] in *; [|split; congruence].
  split; [exact He'|]. change (lookup_key id (set_key (lease_id l) l (_leases w')) = None).
  rewrite lookup_key_set, Hs, bool_decide_eq_false_2; [done|]. intros Hid.
  exact (identity_refused id o Ho l w w' tt (eq_sym Hid) He Hrun).
Qed.

#[local] Instance unknown_record t name : Along (keeping unknown) (recover_record env t name).
Proof using Ho. unfold recover_record, _decode_lease_record, exists_namespace. keep. Qed.

#[local] Instance unknown_namespace name : Along (keeping unknown) (recover_namespace env name).
Proof using Ho.
  apply unknown_same; [by apply entry_recover_namespace|].
  unfold recover_namespace, _remove_committed_snapshot. keep.
Qed.

Lemma start_refused ns w u w' : o = Some ns → entry id o w → start env w ≠ (Ok u, w').
Proof using Ho.
  intros Hns He Hrun. unfold start in Hrun.
  do 6 (apply M_bind_ok in Hrun as (? & ? & Hs & Hrun); apply (run_keeps (entry id o)) in Hs; [|apply _|done];
    clear He; rename Hs into He).
  unfold _recover_persisted_leases in Hrun. apply M_bind_ok in Hrun as (t & w1 & Hnow & Hrun).
  apply (run_keeps (entry id o)) in Hnow; [|apply _|done].
  apply M_bind_ok in Hrun as (u1 & w2 & Hset & Hrun).
  assert (unknown w2) as Hunk by (injection Hset as _ <-; by split).
  apply M_bind_ok in Hrun as (records & ? & Hr & Hrun). apply readM_ok in Hr as [-> ->].
  apply M_bind_ok in Hrun as (u2 & w3 & Hg & Hrun). apply raise_ifM_ok in Hg as [_ ->].
  apply M_bind_ok in Hrun as (u3 & w3 & Hi & Hrun).
  apply (iterM_keeps unknown) in Hi as [Hunk3 _]; [|apply _|done].
  apply M_bind_ok in Hrun as (names & ? & Hr & Hrun). apply readM_ok in Hr as [-> ->].
  apply M_bind_ok in Hrun as (u4 & w4 & Hg & Hrun). apply raise_ifM_ok in Hg as [_ ->].
  apply (iterM_keeps unknown) in Hrun as [_ Hall]; [|apply _|done].
  destruct (Hall id) as (v & v' & u' & [Hev Hlv] & Hv).
  { apply names_of_elem. destruct Hunk3 as [[-> _] _]. rewrite Hns. by eexists. }
  apply (recover_namespace_refused id o Ho) in Hv; [|done]. rewrite Hlv in Hv. by destruct Hv.
Qed.
End Unsealed.

(** C35: A directory of the store that is not sealed - what an acquisition that is
    killed in the middle of its copy leaves, or a removal that failed half-way -
    is never removed, and the daemon does not start again: every later start
    raises, although recovery is to remove the directories without a record. *)
Theorem unsealed_directory_blocks_start l w id ns l' w' :
  tokens_differ →
  history first_start l w →
  store_root w !! id = Some ns → ns_mode ns ≠ S_0555 →
  history w l' w' →
  store_root w' !! id = Some ns ∧ is_ok (start env w').1 = false.
Proof.
  intros Htokens Hh Hns Hmode Hlater.
  assert (∀ ns', Some ns = Some ns' → ns_mode ns' ≠ S_0555) as Ho by (intros ns' E; by simplify_eq).
  assert (entry id (Some ns) w) as He.
  { split; [done|]. apply (history_named _ _ _ Hh first_named). by rewrite Hns. }
  apply (history_entry Htokens id _ Ho _ _ _ Hlater) in He. split; [by destruct He|].
  destruct (start env w') as [[u|e] w''] eqn:Hrun; [|done].
  by destruct (start_refused id _ Ho ns w' u w'' eq_refl He).
Qed.

(** ** A connection is a history of sections *)

Definition by_sections (w w' : daemon) : Prop := ∃ l, history w l w'.

Lemma history_app w l w' l' w'' : history w l w' → history w' l' w'' → history w (l ++ l') w''.
Proof.
  intros Hh. induction 1 as [|l' w'' s Hh' IH]; [by rewrite app_nil_r|]. rewrite app_assoc. by constructor.
Qed.
#[export] Instance by_sections_preorder : PreOrder by_sections.
Proof.
  split; [intros w; exists []; constructor|]. intros u v w [l Hl] [l' Hl']. exists (l ++ l'). by eapply history_app.
Qed.

Lemma section_by_sections {A} (m : D A) s : (∀ w, (perform s w).2 = (m w).2) → Along by_sections m.
Proof. intros Hs w. exists ([] ++ [s]). rewrite <- Hs. repeat constructor. Qed.

Ltac one_section s :=
  apply (section_by_sections _ s); intros w; unfold perform, mbind, M_bind; first
    [reflexivity | match goal with |- (match ?m w with _ => _ end).2 = _ => destruct (m w) as [[?|?] ?]; reflexivity end].

#[local] Instance tick_by_sections : Along by_sections tick.
Proof.
  apply (section_by_sections _ Access). intros w. unfold perform, look, mbind, M_bind, tick.
  destruct (io env (accesses w)); reflexivity.
Qed.
#[local] Instance evict_by_sections t : Along by_sections (_evict_expired_leases env t).
Proof. one_section (Evict t). Qed.
#[local] Instance cached_by_sections r u g : Along by_sections (_cached_cleanup_response env r u g).
Proof. one_section (Cached r u g). Qed.
#[local] Instance consume_by_sections u n t : Along by_sections (consume env u n t).
Proof. one_section (Consume u n t). Qed.
#[local] Instance acquire_by_sections r p u g d : Along by_sections (_acquire env r p u g d).
Proof. one_section (Acquire r p u g d). Qed.
#[local] Instance release_by_sections r p u g : Along by_sections (_release env r p u g).
Proof. one_section (Release r p u g). Qed.
#[local] Instance rollback_by_sections id : Along by_sections (_rollback_acquire_response env id).
Proof. one_section (Rollback id). Qed.
#[local] Instance send_by_sections r : Along by_sections (_send_response env r).
Proof. one_section (Send r). Qed.

#[local] Instance reporting_by_sections operation request_id m :
  Along by_sections m → Along by_sections (reporting env operation request_id m).
Proof.
  intros Hm w. unfold reporting. pose proof (Hm w) as Hw. destruct (m w) as [[u|e] w']; [exact Hw|].
  destruct (handled e); [|exact Hw]. etransitivity; [exact Hw|].
  pose proof (send_by_sections (_error_response operation request_id e) w') as Hs.
  destruct (_send_response _ _ w') as [[u|e'] w'']; [exact Hs|]. by destruct (_ || _).
Qed.

Lemma serve_by_sections c pid uid gid request operation :
  Along by_sections (serve env c pid uid gid request operation).
Proof. unfold serve. keep. Qed.

Lemma connection_is_history c w : by_sections w (handle_connection env c w).2.
Proof.
  assert (Along by_sections (accept_request env c)) as Ha by (unfold accept_request; keep).
  unfold handle_connection. specialize (Ha w).
  destruct (accept_request env c w) as [[[[[[pid uid] gid] request] operation]|e] w'].
  - etransitivity; [exact Ha|]. apply reporting_by_sections, serve_by_sections.
  - etransitivity; [exact Ha|]. apply reporting_by_sections. apply _.
Qed.
End Histories.
