(* ===== verification/SnapshotClient.v ===== *)
(** * The snapshot broker's client ([snapshot_broker.py], last part)

    An unprivileged process asks the daemon for a lease, checks what comes back
    against its request and the broker's key, and gives the lease back.  The peer
    of the connection is the environment: its answer is a function of the request
    sent to it. *)

From S2P Require Export SnapshotBroker.

Definition ACQUIRE_RESPONSE_KEYS : list string :=
  ["schema_version"; "protocol_id"; "operation"; "request_id"; "ok"; "snapshot"; "attestation"].
Definition RELEASE_RESPONSE_KEYS : list string :=
  ["schema_version"; "protocol_id"; "operation"; "request_id"; "ok"; "cleanup_attestation"].
Definition ERROR_RESPONSE_KEYS : list string :=
  ["schema_version"; "protocol_id"; "operation"; "request_id"; "ok"; "error_code"; "message"].
Definition BROKER_SOCKET_PATH : string := "/run/cogni-os/trusted-snapshot-broker.sock".

(** What [stat] gives of the socket. *)
Record socket_stat := SocketStat { s_is_socket : bool; s_uid : Z; s_gid : Z; s_mode : Z }.
Definition S_0660 : Z := 432.

Record client_environment := ClientEnvironment {
  time : nat → Z;               (** [int(time.time())] *)
  token : nat → string;         (** [secrets.token_hex] *)
  geteuid : Z;
  client_host : host;
  broker_gid : option Z;        (** the group's [gr_gid] *)
  socket_at : option socket_stat;
  source_at : string → option descriptor;
  peer_of : option (option (Z * Z * Z));   (** [connect], then [SO_PEERCRED] *)
  answer : dict → option message           (** sending the request, then receiving *)
}.

(** The execution a lease is for. *)
Record execution := Execution {
  x_task_id : json; x_attempt : json; x_actor : json; x_run_id : json; x_validation_contract_sha256 : json
}.

Record broker_lease := BrokerLease {
  l_lease_id : json; l_descriptor_open : bool; l_snapshot : dict; l_acquire_attestation : json;
  l_acquire_attestation_sha256 : string; l_execution : execution;
  l_released : bool; l_release_started : bool; l_release_request : option dict
}.

(** [runtime_binding], and how often the clock or the token source was read. *)
Record client := Client { runtime : option string; readings : nat }.

(** The arguments of [acquire]. *)
Record acquisition := Acquisition {
  a_source_commit : json; a_tree_oid : json; a_execution : execution; a_expected_snapshot_sha256 : json;
  a_materialization_policy : json
}.

Section Client.
Context `{Hashing} `{OpenSSL} (env : client_environment).
Notation h := (client_host env).

(** ** Connecting *)

Definition _require_socket_trust : res unit :=
  match socket_at env, lstat h "/run/cogni-os" with
  | Some s, Some parent =>
      group ← (if s_is_socket s && (s_uid s =? 0)
               then res_of_option (Exn broker_error "Required broker group does not exist") (broker_gid env)
               else Ok 0);
      raise_if (negb (s_is_socket s) || negb (s_uid s =? 0) || negb (s_gid s =? group) || negb (s_mode s =? S_0660)
                || negb (is_kind Directory parent) || negb (m_uid parent =? 0) || others_write parent) broker_error
        "Privileged snapshot broker socket path is unsafe"
  | _, _ => raise broker_error "Privileged snapshot broker socket is unavailable"
  end.

Definition new_client : res client :=
  _ ← raise_if (geteuid env =? 0) broker_error
        "Snapshot broker client must run unprivileged; root collapses separation";
  Ok (Client None 0).

Definition preflight : M client unit :=
  _ ← liftM _require_socket_trust;
  r ← readM runtime;
  match r with
  | Some _ => mret tt
  | None =>
      binding ← liftM (match trusted_broker_runtime_binding h BROKER_RUNTIME_MANIFEST_PATH false with
                       | Some r => r | None => raise broker_error "" end);
      modifyM (λ c, Client (binding !! "manifest_sha256") (readings c))
  end.

Definition _connect : M client unit :=
  _ ← preflight;
  peer ← liftM (res_of_option (Exn OSError "connect") (peer_of env));
  '(_, uid, _) ← liftM (_peer_credentials peer);
  raise_ifM (negb (uid =? 0)) broker_error "Snapshot broker peer is not uid 0".

Definition reading {A} (f : nat → A) : M client A :=
  n ← readM readings; _ ← modifyM (λ c, Client (runtime c) (S n)); mret (f n).

(** ** Requests *)

Definition request_document (now : Z) (request_id nonce operation : string) (bindings : list (string * json)) : dict :=
  dict_of ([("schema_version", JInt BROKER_SCHEMA_VERSION); ("protocol_id", JStr BROKER_PROTOCOL_ID);
            ("operation", JStr operation); ("request_id", JStr request_id); ("nonce", JStr nonce);
            ("issued_at", JInt now); ("expires_at", JInt (now + 60))] ++ bindings).

Definition _request (operation : string) (bindings : list (string * json)) : M client dict :=
  now ← reading (time env);
  request_id ← reading (token env);
  nonce ← reading (token env);
  let request := request_document now request_id nonce operation bindings in
  later ← reading (time env);
  _ ← liftM (validate_request (JObj request) later);
  mret request.

Definition execution_fields (x : execution) : list (string * json) :=
  [("task_id", x_task_id x); ("attempt", x_attempt x); ("actor", x_actor x); ("run_id", x_run_id x);
   ("validation_contract_sha256", x_validation_contract_sha256 x)].

Definition acquire_bindings (a : acquisition) : list (string * json) :=
  [("source_descriptor_type", JStr BROKER_SOURCE_DESCRIPTOR_TYPE); ("source_commit", a_source_commit a);
   ("tree_oid", a_tree_oid a); ("materialization_policy", a_materialization_policy a)]
  ++ execution_fields (a_execution a) ++ [("expected_snapshot_sha256", a_expected_snapshot_sha256 a)].

(** ** Acquiring *)

Definition _open_sealed_source_for_send (path : string) : res unit :=
  d ← res_of_option (Exn OSError path) (source_at env path);
  _ ← _require_sealed_source_descriptor d (geteuid env);
  Ok tt.

(** The descriptor that came with the response, as [fstat] of it. *)
Definition _receive_response_with_fd (m : message) : res (dict * option source_stat) :=
  response ← _receive_framed_json_with_fds m 1 "response";
  _ ← raise_if (negb (length (descriptors m) =? match get response "ok" with JBool true => 1 | _ => 0 end)%nat)
        broker_error "Snapshot broker descriptor count does not match the response";
  Ok (response, d_first <$> head (descriptors m)).

(** [response.get("ok") is not True] *)
Definition refused (response : dict) (schema refusal : string) : res unit :=
  match get response "ok" with
  | JBool true => Ok tt
  | _ =>
      _ ← raise_if (negb (exact_keys response ERROR_RESPONSE_KEYS)) broker_error
            schema;
      raise broker_error (refusal +:+ str_of (get response "message"))
  end.

Definition response_ok (response request : dict) (keys : list string) (operation : string) : bool :=
  exact_keys response keys && py_eq (get response "schema_version") (JInt BROKER_SCHEMA_VERSION)
  && py_eq (get response "protocol_id") (JStr BROKER_PROTOCOL_ID)
  && py_eq (get response "operation") (JStr operation)
  && py_eq (get response "request_id") (get request "request_id").

Definition verify (envelope : json) (kind : string) : res dict :=
  verify_signed_envelope h envelope kind BROKER_PUBLIC_KEY_PATH BROKER_OPENSSL_PATH BROKER_OPENSSL_SHA256_PATH.

(** The payload's fields against the values they must have. *)
Definition bound_to (payload : dict) (fields : list (string * json)) : bool :=
  forallb (λ f, py_eq (get payload f.1) f.2) fields.

Definition check_acquisition (a : acquisition) (request response : dict) (d : option source_stat)
    (manifest_sha256 : option string) (now : Z) : res broker_lease :=
  _ ← refused response "Snapshot broker error response schema is not exact" "Snapshot broker rejected acquisition: ";
  d ← res_of_option (Exn broker_error "Snapshot broker success response omitted the lease descriptor") d;
  _ ← raise_if (negb (response_ok response request ACQUIRE_RESPONSE_KEYS "acquire")) broker_error
        "Snapshot broker acquisition response schema is not exact";
  payload ← verify (get response "attestation") "snapshot-acquired";
  manifest_sha256 ← res_of_option (Exn broker_error "Snapshot broker runtime provenance was not checked")
                      manifest_sha256;
  request_sha256 ← canonical_json_sha256 (JObj request);
  _ ← raise_if (negb (bound_to payload
                       ([("request_sha256", JStr request_sha256); ("request_nonce", get request "nonce");
                         ("source_commit", a_source_commit a); ("tree_oid", a_tree_oid a);
                         ("materialization_policy", a_materialization_policy a)]
                        ++ execution_fields (a_execution a)
                        ++ [("snapshot_sha256", a_expected_snapshot_sha256 a);
                            ("broker_runtime_manifest_sha256", JStr manifest_sha256)]))
                || (int_field payload "expires_at" <? now)) broker_error
        "Snapshot broker acquisition proof does not match the request";
  _ ← raise_if (negb (bool_decide (st_kind d = Directory)) || negb (st_uid d =? 0) || negb (st_mode d =? S_0555)
                || negb (py_eq (JInt (st_dev d)) (get payload "snapshot_device"))
                || negb (py_eq (JInt (st_ino d)) (get payload "snapshot_inode"))) broker_error
        "Received snapshot descriptor identity is invalid";
  snapshot ← (match get response "snapshot" with
              | JObj s => Ok s
              | _ => raise broker_error "Broker snapshot manifest does not match its signature"
              end);
  _ ← raise_if (negb (bound_to snapshot [("source_commit", a_source_commit a); ("tree_oid", a_tree_oid a);
                                         ("sha256", get payload "snapshot_sha256")])) broker_error
        "Broker snapshot manifest does not match its signature";
  attestation_sha256 ← canonical_json_sha256 (get response "attestation");
  Ok (BrokerLease (get payload "lease_id") true snapshot (get response "attestation") attestation_sha256
        (a_execution a) false false None).

Definition acquire (source_root : string) (a : acquisition) : M client broker_lease :=
  request ← _request "acquire" (acquire_bindings a);
  _ ← liftM (_open_sealed_source_for_send source_root);
  _ ← _connect;
  _ ← liftM (encode_frame (JObj request));
  m ← liftM (res_of_option (Exn OSError "recvmsg") (answer env request));
  '(response, d) ← liftM (_receive_response_with_fd m);
  manifest_sha256 ← readM runtime;
  now ← reading (time env);
  liftM (check_acquisition a request response d manifest_sha256 now).

(** ** Releasing *)

Definition release_bindings (l : broker_lease) (receipt_preimage_sha256 : json) : list (string * json) :=
  [("lease_id", l_lease_id l); ("acquire_attestation_sha256", JStr (l_acquire_attestation_sha256 l))]
  ++ execution_fields (l_execution l) ++ [("receipt_preimage_sha256", receipt_preimage_sha256)].

Definition attested_of (envelope : json) : dict :=
  match envelope with JObj e => match get e "payload" with JObj p => p | _ => ∅ end | _ => ∅ end.

Definition check_cleanup (l : broker_lease) (request response : dict) (receipt_preimage_sha256 : json)
    (manifest_sha256 : option string) : res json :=
  _ ← refused response "Snapshot broker cleanup error schema is not exact" "Snapshot broker refused cleanup: ";
  _ ← raise_if (negb (response_ok response request RELEASE_RESPONSE_KEYS "release")) broker_error
        "Snapshot broker cleanup response schema is not exact";
  let cleanup := get response "cleanup_attestation" in
  payload ← verify cleanup "snapshot-cleaned";
  manifest_sha256 ← res_of_option (Exn broker_error "Snapshot broker runtime provenance was not checked")
                      manifest_sha256;
  let acquired := attested_of (l_acquire_attestation l) in
  request_sha256 ← canonical_json_sha256 (JObj request);
  _ ← raise_if (negb (bound_to payload
                       ([("request_sha256", JStr request_sha256); ("request_nonce", get request "nonce");
                         ("lease_id", l_lease_id l);
                         ("acquire_attestation_sha256", JStr (l_acquire_attestation_sha256 l));
                         ("snapshot_sha256", get (l_snapshot l) "sha256");
                         ("snapshot_device", get acquired "snapshot_device");
                         ("snapshot_inode", get acquired "snapshot_inode")]
                        ++ execution_fields (l_execution l)
                        ++ [("receipt_preimage_sha256", receipt_preimage_sha256);
                            ("broker_runtime_manifest_sha256", JStr manifest_sha256)]))
                || negb (is_true (get payload "namespace_removed"))) broker_error
        "Snapshot broker cleanup proof does not match the lease";
  Ok cleanup.

(** The lease is an object of the caller: what a failed release wrote stays. *)
Definition holder : Type := client * broker_lease.
Definition on_client {A} (m : M client A) : M holder A := λ w,
  let '(r, c) := m w.1 in (r, (c, w.2)).
Definition set_lease (f : broker_lease → broker_lease) : M holder unit := modifyM (λ w, (w.1, f w.2)).

Definition with_request (request : dict) (l : broker_lease) : broker_lease :=
  BrokerLease (l_lease_id l) (l_descriptor_open l) (l_snapshot l) (l_acquire_attestation l)
    (l_acquire_attestation_sha256 l) (l_execution l) (l_released l) (l_release_started l) (Some request).
Definition closed (l : broker_lease) : broker_lease :=
  BrokerLease (l_lease_id l) false (l_snapshot l) (l_acquire_attestation l)
    (l_acquire_attestation_sha256 l) (l_execution l) (l_released l) true (l_release_request l).
Definition given_back (l : broker_lease) : broker_lease :=
  BrokerLease (l_lease_id l) (l_descriptor_open l) (l_snapshot l) (l_acquire_attestation l)
    (l_acquire_attestation_sha256 l) (l_execution l) true (l_release_started l) (l_release_request l).

(** [SnapshotBrokerClient.release]; a response is read with the stream decoder. *)
Definition client_release (receipt_preimage_sha256 : json) : M holder json :=
  l ← readM snd;
  request ← (match l_release_request l with
             | Some request => mret request
             | None =>
                 request ← on_client (_request "release" (release_bindings l receipt_preimage_sha256));
                 _ ← set_lease (with_request request);
                 mret request
             end);
  _ ← raise_ifM (negb (py_eq (get request "receipt_preimage_sha256") receipt_preimage_sha256)) broker_error
        "Snapshot broker cleanup retry changed the receipt preimage";
  _ ← on_client _connect;
  _ ← liftM (encode_frame (JObj request));
  m ← liftM (res_of_option (Exn OSError "recv") (answer env request));
  '(response, _) ← liftM (decode_frame_from_stream (first m :: further m));
  manifest_sha256 ← readM (λ w, runtime w.1);
  liftM (check_cleanup l request response receipt_preimage_sha256 manifest_sha256).

(** [BrokerLease.release] *)
Definition release (receipt_preimage_sha256 : json) : M holder json :=
  l ← readM snd;
  _ ← raise_ifM (l_released l) broker_error "Snapshot broker lease was already released";
  _ ← (if l_release_started l then mret tt
       else _ ← raise_ifM (negb (l_descriptor_open l)) broker_error "Snapshot broker lease descriptor is closed";
            set_lease closed);
  cleanup ← client_release receipt_preimage_sha256;
  _ ← set_lease given_back;
  mret cleanup.

Definition close_without_claiming_cleanup : M holder unit :=
  set_lease (λ l, BrokerLease (l_lease_id l) false (l_snapshot l) (l_acquire_attestation l)
    (l_acquire_attestation_sha256 l) (l_execution l) (l_released l) (l_release_started l) (l_release_request l)).
End Client.
