(* ===== verification/SnapshotExchange.v ===== *)
(** * What the daemon hands out the client takes, and can give back

    The daemon of [SnapshotBroker] and the client of [SnapshotClient] on one
    exchange: the answer to an acquisition passes the client's checks, and the
    client's release request passes the daemon's. *)

From S2P Require Export SnapshotClient SnapshotBrokerSafety.

Section Exchange.
Context `{Hashing} `{Sha1} `{OpenSSL} (env : environment) (cl : client_environment).
Notation D := (M daemon).

(** ** What an acquisition that returned did *)

(** The keys of the broker belong together, and both sides look at one host. *)
Definition broker_keys_match : Prop := ∀ message signature,
  run_sign BROKER_OPENSSL_PATH BROKER_PRIVATE_KEY_PATH message = Some (0, signature) →
  run_verify BROKER_OPENSSL_PATH BROKER_PUBLIC_KEY_PATH message signature = Some 0.

Lemma sent_envelope_verifies payload envelope kind :
  broker_keys_match → client_host cl = on_host env → str_of (get payload "kind") = kind →
  sign env payload = Ok envelope → verify cl envelope kind = Ok payload.
Proof.
  intros Hpair Hhost <- Hs. unfold verify. rewrite Hhost. by eapply signed_envelopes_verify.
Qed.

Record handed_out (request : dict) (pid uid gid : Z) (manifest_sha256 id : string) (w : daemon)
    (snapshot : dict) (ns : namespace) (issued_at : Z) (attestation : json) (l : server_lease) : Prop := HandedOut {
  ho_request : canonical_json_sha256 (JObj request) = Ok (sha256_hex (canonical_json (JObj request)));
  ho_payload : ∃ nonce, sign env (attested_payload request snapshot pid uid gid id ns issued_at nonce manifest_sha256) = Ok attestation;
  ho_namespace : ns_kind ns = Directory ∧ ns_uid ns = 0 ∧ ns_mode ns = S_0555;
  ho_snapshot : get snapshot "source_commit" = get request "source_commit" ∧
    get snapshot "tree_oid" = get request "tree_oid" ∧
    get snapshot "materialization_policy" = JStr SNAPSHOT_MATERIALIZATION_POLICY_ID ∧
    no_float (get snapshot "sha256") = true ∧
    py_neq (get snapshot "sha256") (get request "expected_snapshot_sha256") = false;
  ho_lease : ∃ sha, canonical_json_sha256 attestation = Ok sha ∧
    l = ServerLease id uid gid pid (get snapshot "sha256") (ns_device ns) (ns_inode ns) (JStr sha)
          (issued_at + BROKER_LEASE_TTL_SECONDS) (get request "task_id") (get request "attempt") (get request "actor")
          (get request "run_id") (get request "validation_contract_sha256")
}.

Lemma copy_into_snapshot id d uid request w snapshot w' :
  copy_into env id d uid request w = (Ok snapshot, w') →
  get snapshot "source_commit" = get request "source_commit" ∧ get snapshot "tree_oid" = get request "tree_oid" ∧
  get snapshot "materialization_policy" = JStr SNAPSHOT_MATERIALIZATION_POLICY_ID ∧
  no_float (get snapshot "sha256") = true.
Proof.
  intros Hrun. unfold copy_into in Hrun. apply M_bind_ok in Hrun as (n & w1 & _ & Hrun).
  destruct (_copy_sealed_source_descriptor _ _ _ _ _) as [r made] eqn:Hcopy.
  do 2 (apply M_bind_ok in Hrun as (? & ? & _ & Hrun)).
  destruct r as [s|e]; [|apply M_bind_ok in Hrun as (? & ? & _ & Hrun); done].
  assert (s = snapshot) as ->.
  { unfold change in Hrun. apply M_bind_ok in Hrun as (k & ? & _ & Hrun).
    destruct (io env k) as [|e []]; [|done|..]; apply M_bind_ok in Hrun as (? & ? & _ & Hrun); by inversion Hrun. }
  apply copy_ok in Hcopy as (c & _ & -> & _). repeat split.
Qed.

Lemma canonical_sha_value v sha : canonical_json_sha256 v = Ok sha → canonical_json_sha256 v = Ok (sha256_hex (canonical_json v)).
Proof.
  intros Hrun. rewrite Hrun. f_equal. revert Hrun. unfold canonical_json_sha256, canonical_sha256, canonical_bytes.
  intros Hrun. inv_res. subst. done.
Qed.
Lemma run_later {A} (m : D A) w a w' : m w = (Ok a, w') → Along later m → (accesses w ≤ accesses w')%nat.
Proof. intros Hr Hm. change w' with (Ok a, w').2. rewrite <- Hr. apply Hm. Qed.
Lemma copy_later id d uid request : Along later (copy_into env id d uid request).
Proof. unfold copy_into, exists_namespace. keep. Qed.
Lemma persist_later l : Along later (_persist_lease env l).
Proof. unfold _persist_lease. keep. Qed.
Lemma persist_store l : Along (same store_root) (_persist_lease env l).
Proof. unfold _persist_lease. keep. Qed.

Lemma lease_copy_done request pid uid gid id sha d w response w' :
  lease_copy env request pid uid gid id sha d w = (Ok response, w') →
  ∃ snapshot ns issued_at attestation l,
    handed_out request pid uid gid sha id w snapshot ns issued_at attestation l ∧
    response = jobj [("schema_version", JInt BROKER_SCHEMA_VERSION); ("protocol_id", JStr BROKER_PROTOCOL_ID);
              ("operation", JStr "acquire"); ("request_id", get request "request_id"); ("ok", JBool true);
              ("snapshot", JObj snapshot); ("attestation", attestation)] ∧
    store_root w' !! id = Some ns ∧ lookup_key id (_leases w') = Some l ∧
    ∃ n, (accesses w ≤ n < accesses w')%nat ∧ issued_at = clock env n.
Proof.
  intros Hrun. unfold lease_copy in Hrun.
  apply M_bind_ok in Hrun as (snapshot & w1 & Hcopy & Hrun). pose proof (copy_into_snapshot _ _ _ _ _ _ _ Hcopy) as Hsnap.
  apply M_bind_ok in Hrun as (? & w2 & Hlook & Hrun).
  apply M_bind_ok in Hrun as (ns & w3 & Hns & Hrun). apply askM_ok in Hns as [Hns ->].
  apply M_bind_ok in Hrun as (? & w3 & Hg & Hrun). apply raise_ifM_ok in Hg as [Hg ->].
  apply M_bind_ok in Hrun as (? & w3 & Hg' & Hrun). apply raise_ifM_ok in Hg' as [Hg' ->].
  apply M_bind_ok in Hrun as (issued_at & w3 & Hnow & Hrun).
  apply M_bind_ok in Hrun as (rsha & w4 & Hsha & Hrun). apply liftM_ok in Hsha as [Hsha ->].
  apply M_bind_ok in Hrun as (n & w4 & Ht & Hrun).
  apply M_bind_ok in Hrun as (attestation & w5 & Hsign & Hrun). apply liftM_ok in Hsign as [Hsign ->].
  apply M_bind_ok in Hrun as (asha & w5 & Hasha & Hrun). apply liftM_ok in Hasha as [Hasha ->].
  apply M_bind_ok in Hrun as (? & w5 & Hpersist & Hrun).
  apply M_bind_ok in Hrun as (? & w6 & Hset & Hrun). injection Hrun as <- <-.
  rewrite !orb_false_iff, !negb_false_iff, !Z.eqb_eq, bool_decide_eq_true in Hg. destruct Hg as [[Huid Hmode] Hkind].
  eexists snapshot, ns, issued_at, attestation, _. split; [|split; [reflexivity|]].
  - split.
    + exact (canonical_sha_value _ _ Hsha).
    + exists (token_hex env n). exact Hsign.
    + split; [exact Hkind|]. split; [exact Huid|exact Hmode].
    + destruct Hsnap as (? & ? & ? & ?). repeat (split; [assumption|]). assumption.
    + exists asha. split; [exact Hasha|reflexivity].
  - assert (accesses w ≤ accesses w2 ∧ accesses w3 ≤ accesses w6)%nat as [Hbefore Hafter].
    { split; etransitivity;
        [exact (run_later _ _ _ _ Hcopy (copy_later _ _ _ _))|exact (run_later _ _ _ _ Hlook _)| |].
      - exact (run_later _ _ _ _ Ht _).
      - etransitivity; [exact (run_later _ _ _ _ Hpersist (persist_later _))|exact (run_later _ _ _ _ Hset _)]. }
    assert (store_root w6 = store_root w2) as ->.
    { rewrite (run_same store_root _ _ _ _ Hset _), (run_same store_root _ _ _ _ Hpersist (persist_store _)).
      rewrite (run_same store_root _ _ _ _ Ht _). exact (run_same store_root _ _ _ _ Hnow _). }
    split; [by destruct (store_root w2 !! id); inversion Hns|]. split.
    + injection Hset as _ <-. cbn [_leases]. by rewrite lookup_key_set, bool_decide_eq_true_2.
    + injection Hnow as <- <-. exists (accesses w2). split; [|reflexivity]. cbn in Hafter. lia.
Qed.

(** ** The client's checks *)

(** What [fstat] of the passed descriptor gives. *)
Definition stat_of (ns : namespace) (st : source_stat) : Prop :=
  st_kind st = ns_kind ns ∧ st_uid st = ns_uid ns ∧ st_mode st = ns_mode ns ∧
  st_dev st = ns_device ns ∧ st_ino st = ns_inode ns.

Lemma identifier_plain v n : _valid_identifier v n = true → no_float v = true.
Proof. by destruct v. Qed.
Lemma hex_value_plain v n : _is_hex v n = true → no_float v = true.
Proof. by destruct v. Qed.
Lemma int_plain n v : is_Some (int_from n v) → no_float v = true.
Proof. destruct v; cbn; try done; by intros []. Qed.

(** The arguments of an accepted request. *)
Lemma acquisition_plain a now t rid nonce :
  validate_request (JObj (request_document t rid nonce "acquire" (acquire_bindings a))) now = Ok "acquire" →
  Forall (λ v, no_float v = true)
    [x_task_id (a_execution a); x_attempt (a_execution a); x_actor (a_execution a); x_run_id (a_execution a);
     x_validation_contract_sha256 (a_execution a); a_source_commit a; a_tree_oid a; a_expected_snapshot_sha256 a] ∧
  a_materialization_policy a = JStr SNAPSHOT_MATERIALIZATION_POLICY_ID.
Proof.
  set (request := request_document _ _ _ _ _). intros Hv. unfold validate_request in Hv.
  change (request_operation request) with (Some true) in Hv. cbv zeta in Hv.
  do 3 (apply bind_ok in Hv as (? & _ & Hv)).
  apply bind_ok in Hv as (? & He & Hv). unfold _validate_execution_binding, execution_binding_ok in He.
  apply raise_if_ok, negb_false_iff in He.
  apply bind_ok in Hv as (? & Ha & _). apply raise_if_ok, negb_false_iff in Ha. unfold acquire_binding_ok in Ha.
  rewrite !andb_true_iff in He, Ha. destruct He as [[[[E1 E2] E3] E4] E5], Ha as [[[[_ A2] A3] A4] A5].
  apply bool_decide_eq_true in E2. split; [|by apply py_eq_str in A4].
  repeat constructor; [exact (identifier_plain _ _ E1)|exact (int_plain _ _ E2)|exact (identifier_plain _ _ E3)
    |exact (hex_value_plain _ _ E4)|exact (hex_value_plain _ _ E5)|exact (hex_value_plain _ _ A2)|exact (hex_value_plain _ _ A3)|exact (hex_value_plain _ _ A5)].
Qed.

Lemma bound_to_all payload fields :
  Forall (λ f, py_eq (get payload f.1) f.2 = true) fields → bound_to payload fields = true.
Proof. unfold bound_to. induction 1 as [|f l Hf _ IH]; [done|]. cbn [forallb]. by rewrite Hf, IH. Qed.

Ltac same_value v P := change (py_eq v v = true); exact (py_eq_refl v P).

(** The payload is the one that was signed, and it is bound to the request. *)
Lemma payload_bound a t rid nonce now pid uid gid manifest id w snapshot ns issued_at attestation l n :
  let request := request_document t rid nonce "acquire" (acquire_bindings a) in
  validate_request (JObj request) now = Ok "acquire" →
  handed_out request pid uid gid manifest id w snapshot ns issued_at attestation l →
  bound_to (attested_payload request snapshot pid uid gid id ns issued_at n manifest)
    ([("request_sha256", JStr (sha256_hex (canonical_json (JObj request)))); ("request_nonce", get request "nonce");
      ("source_commit", a_source_commit a); ("tree_oid", a_tree_oid a);
      ("materialization_policy", a_materialization_policy a)]
     ++ execution_fields (a_execution a)
     ++ [("snapshot_sha256", a_expected_snapshot_sha256 a); ("broker_runtime_manifest_sha256", JStr manifest)]) = true.
Proof.
  intros request Hv Hho. destruct (acquisition_plain _ _ _ _ _ Hv) as [Hplain Hpolicy].
  destruct Hho as [_ _ _ (Hcommit & Htree & Hmat & Hstr & Hsha) _].
  rewrite !Forall_cons in Hplain. destruct Hplain as (P1 & P2 & P3 & P4 & P5 & P6 & P7 & P8 & _).
  apply bound_to_all. rewrite Hpolicy. cbn [execution_fields app].
  repeat (apply Forall_cons; split); [..|by apply Forall_nil].
  - same_value (JStr (sha256_hex (canonical_json (JObj request)))) (eq_refl true).
  - same_value (JStr nonce) (eq_refl true).
  - change (py_eq (get snapshot "source_commit") (a_source_commit a) = true). rewrite Hcommit.
    same_value (a_source_commit a) P6.
  - change (py_eq (get snapshot "tree_oid") (a_tree_oid a) = true). rewrite Htree. same_value (a_tree_oid a) P7.
  - change (py_eq (get snapshot "materialization_policy") (JStr SNAPSHOT_MATERIALIZATION_POLICY_ID) = true).
    rewrite Hmat. exact (py_eq_refl (JStr SNAPSHOT_MATERIALIZATION_POLICY_ID) eq_refl).
  - same_value (x_task_id (a_execution a)) P1.
  - same_value (x_attempt (a_execution a)) P2.
  - same_value (x_actor (a_execution a)) P3.
  - same_value (x_run_id (a_execution a)) P4.
  - same_value (x_validation_contract_sha256 (a_execution a)) P5.
  - exact (proj1 (py_neq_false _ _) Hsha).
  - same_value (JStr manifest) (eq_refl true).
Qed.

(** The response and the descriptor of an acquisition pass. *)
Lemma acquisition_accepted a t rid nonce later now pid uid gid manifest id w snapshot ns st issued_at attestation l :
  let request := request_document t rid nonce "acquire" (acquire_bindings a) in
  broker_keys_match → client_host cl = on_host env →
  validate_request (JObj request) later = Ok "acquire" →
  handed_out request pid uid gid manifest id w snapshot ns issued_at attestation l →
  stat_of ns st → now ≤ issued_at + BROKER_LEASE_TTL_SECONDS →
  ∃ sha, acquire_attestation_sha256 l = JStr sha ∧
    check_acquisition cl a request
      (dict_of [("schema_version", JInt BROKER_SCHEMA_VERSION); ("protocol_id", JStr BROKER_PROTOCOL_ID);
                ("operation", JStr "acquire"); ("request_id", get request "request_id"); ("ok", JBool true);
                ("snapshot", JObj snapshot); ("attestation", attestation)]) (Some st) (Some manifest) now
    = Ok (BrokerLease (JStr id) true snapshot attestation sha (a_execution a) false false None).
Proof.
  intros request Hkeys Hhost Hv Hho Hst Hnow.
  pose proof (λ n, payload_bound a t rid nonce later pid uid gid manifest id w snapshot ns issued_at attestation l n Hv Hho) as Hbound.
  destruct (acquisition_plain _ _ _ _ _ Hv) as [Hplain _].
  destruct Hho as [Hrequest (n & Hsign) (Hkind & Huid & Hmode) (Hcommit & Htree & Hmat & Hstr & Hsha) (sha & Hasha & ->)].
  exists sha. split; [reflexivity|]. set (response := dict_of _).
  set (payload := attested_payload request snapshot pid uid gid id ns issued_at n manifest) in *.
  unfold check_acquisition.
  rewrite (bind_run _ (refused response _ _) tt) by reflexivity.
  cbn [res_of_option]. rewrite (bind_run _ (Ok st) st) by reflexivity.
  assert (response_ok response request ACQUIRE_RESPONSE_KEYS "acquire" = true) as Hresponse.
  { unfold response_ok. rewrite !andb_true_iff. split; [repeat split; reflexivity|].
    same_value (JStr rid) (eq_refl true). }
  rewrite (bind_run _ _ tt) by (by rewrite Hresponse).
  change (get response "attestation") with attestation.
  rewrite (bind_run _ _ _ (sent_envelope_verifies payload attestation "snapshot-acquired" Hkeys Hhost eq_refl Hsign)).
  cbn [res_of_option]. rewrite (bind_run _ (Ok manifest) manifest) by reflexivity.
  rewrite (bind_run _ _ _ Hrequest).
  destruct Hst as (Ekind & Euid & Emode & Edev & Eino). rewrite !Forall_cons in Hplain.
  destruct Hplain as (_ & _ & _ & _ & _ & P6 & P7 & _).
  rewrite (bind_run _ _ tt).
  2: { unfold payload. rewrite Hbound. change (int_field _ "expires_at") with (issued_at + BROKER_LEASE_TTL_SECONDS).
       by rewrite (proj2 (Z.ltb_ge _ _) Hnow). }
  rewrite (bind_run _ _ tt).
  2: { rewrite Ekind, Euid, Emode, Edev, Eino, Hkind, Huid, Hmode.
       change (get payload "snapshot_device") with (JInt (ns_device ns)).
       change (get payload "snapshot_inode") with (JInt (ns_inode ns)). by rewrite !(py_eq_refl (JInt _) eq_refl). }
  rewrite (bind_run _ _ snapshot) by reflexivity.
  rewrite (bind_run _ _ tt).
  2: { rewrite bound_to_all; [done|]. repeat (apply Forall_cons; split); [..|by apply Forall_nil]; cbn [fst snd].
       - rewrite Hcommit. same_value (a_source_commit a) P6.
       - rewrite Htree. same_value (a_tree_oid a) P7.
       - same_value (get snapshot "sha256") Hstr. }
  rewrite (bind_run _ _ _ Hasha). reflexivity.
Qed.

(** The release request of the lease passes the daemon's tests. *)
Lemma release_accepted a t rid nonce later t' rid' nonce' preimage pid uid gid manifest id w snapshot ns issued_at attestation l sha :
  let request := request_document t rid nonce "acquire" (acquire_bindings a) in
  validate_request (JObj request) later = Ok "acquire" →
  handed_out request pid uid gid manifest id w snapshot ns issued_at attestation l →
  acquire_attestation_sha256 l = JStr sha →
  release_allowed (request_document t' rid' nonce' "release"
    (release_bindings (BrokerLease (JStr id) true snapshot attestation sha (a_execution a) false false None) preimage))
    uid gid l = Ok tt.
Proof.
  intros request Hv Hho Hsha. destruct (acquisition_plain _ _ _ _ _ Hv) as [Hplain _].
  rewrite !Forall_cons in Hplain. destruct Hplain as (P1 & P2 & P3 & P4 & P5 & _).
  destruct Hho as [_ _ _ _ (sha' & _ & ->)]. cbn [acquire_attestation_sha256] in Hsha. injection Hsha as ->.
  unfold release_allowed. cbn [caller_uid caller_gid acquire_attestation_sha256 task_id attempt actor run_id validation_contract_sha256].
  rewrite !Z.eqb_refl. rewrite (bind_run _ _ tt) by reflexivity.
  unfold py_neq. rewrite (bind_run _ _ tt).
  2: { assert (py_eq (get (request_document t' rid' nonce' "release" (release_bindings
         (BrokerLease (JStr id) true snapshot attestation sha (a_execution a) false false None) preimage))
         "acquire_attestation_sha256") (JStr sha) = true) as -> by same_value (JStr sha) (eq_refl true). done. }
  set (request' := request_document t' rid' nonce' "release" _).
  assert (∀ v k, no_float v = true → get request' k = v → py_eq (get request' k) v = true) as Hsame
    by (intros v k Hv' ->; by apply py_eq_refl).
  rewrite (Hsame (get request "task_id") "task_id" P1 eq_refl), (Hsame (get request "attempt") "attempt" P2 eq_refl),
    (Hsame (get request "actor") "actor" P3 eq_refl), (Hsame (get request "run_id") "run_id" P4 eq_refl),
    (Hsame (get request "validation_contract_sha256") "validation_contract_sha256" P5 eq_refl).
  reflexivity.
Qed.

(** C19: Daemon and client agree on an acquisition: when the daemon answers a valid
    request of the client, the client - on the same host, with the broker's key
    and runtime - accepts the response together with a descriptor of the
    directory, until the lease expires; the lease it gets carries the identifier
    and the proof the daemon keeps, and whatever release it asks for with that
    lease passes the daemon's tests. *)
Theorem granted_lease_is_accepted a t rid nonce later pid uid gid d w id response w' manifest :
  let request := request_document t rid nonce "acquire" (acquire_bindings a) in
  broker_keys_match → client_host cl = on_host env →
  validate_request (JObj request) later = Ok "acquire" →
  _runtime_binding w = Some manifest →
  _acquire env request pid uid gid d w = (Ok (id, response), w') →
  ∃ answer ns l lease, response = JObj answer ∧ store_root w' !! id = Some ns ∧
    lookup_key id (_leases w') = Some l ∧
    (∀ st now, stat_of ns st → now ≤ expires_at l →
      check_acquisition cl a request answer (Some st) (Some manifest) now = Ok lease) ∧
    l_lease_id lease = JStr id ∧ JStr (l_acquire_attestation_sha256 lease) = acquire_attestation_sha256 l ∧
    ∀ t' rid' nonce' preimage,
      release_allowed (request_document t' rid' nonce' "release" (release_bindings lease preimage)) uid gid l = Ok tt.
Proof.
  intros request Hkeys Hhost Hv Hruntime Hrun. unfold _acquire in Hrun.
  apply M_bind_ok in Hrun as (? & w1 & Hs & Hrun). apply readM_ok in Hs as [_ ->].
  do 2 (apply M_bind_ok in Hrun as (? & w1 & Hs & Hrun); apply raise_ifM_ok in Hs as [_ ->]).
  apply M_bind_ok in Hrun as (binding & w1 & Hs & Hrun). apply askM_ok in Hs as [Hs ->].
  rewrite Hruntime in Hs. injection Hs as <-.
  apply M_bind_ok in Hrun as (? & w1 & Hs & Hrun). apply liftM_ok in Hs as [_ ->].
  apply M_bind_ok in Hrun as (n & w1 & _ & Hrun). apply M_bind_ok in Hrun as (response' & w2 & Hcopy & Hrun).
  injection Hrun as <- <- <-. unfold on_error in Hcopy.
  destruct (lease_copy _ _ _ _ _ _ _ _ _) as [[r|e] w3] eqn:Elease; cbn in Hcopy.
  2: { destruct (bool_decide (e = killed)); [done|]. by destruct (undo_copy _ _ _) as [[?|?] ?]. }
  injection Hcopy as -> ->.
  apply lease_copy_done in Elease as (snapshot & ns & issued_at & attestation & l & Hho & -> & Hns & Hl & _).
  pose proof Hho as [_ _ _ _ (sha & _ & El)].
  eexists _, ns, l, (BrokerLease _ true snapshot attestation sha (a_execution a) false false None).
  split; [reflexivity|]. split; [exact Hns|]. split; [exact Hl|]. split; [|split; [reflexivity|]].
  - intros st now Hst Hnow. rewrite El in Hnow.
    destruct (acquisition_accepted _ _ _ _ _ now _ _ _ _ _ _ _ _ st _ _ _ Hkeys Hhost Hv Hho Hst Hnow) as (sha' & Esha & Hc).
    rewrite El in Esha. injection Esha as ->. exact Hc.
  - split; [by rewrite El|]. intros t' rid' nonce' preimage. eapply release_accepted; [exact Hv|exact Hho|by rewrite El].
Qed.
End Exchange.
