(* ===== verification/VerifierProtocol.v ===== *)
(** * The dedicated verifier's documents ([verifier_protocol.py])

    Schemas of dispatches, wake-ups, execution preimages and receipts, and the
    relations between them: a receipt holds a preimage, its digest, and the
    broker's cleanup proof of the same run. *)

From S2P Require Import SnapshotProtocol.
From S2P Require Export Host.

Definition VERIFIER_SCHEMA_VERSION : Z := 1.
Definition VERIFIER_PROTOCOL_ID : string := "cogni-os.verifier-service.v1".
Definition VERIFIER_LEDGER_DOMAIN : string := "cogni-os.ledger-event.v2".
Definition VERIFIER_RECEIPT_DOMAIN : string := "cogni-os.verification-receipt.v1".
Definition VERIFIER_SIGNATURE_ALGORITHM : string := "ed25519-openssl-pkeyutl-raw-v1".

Definition MAX_VERIFIER_DOCUMENT_BYTES : Z := 4 * 1024 * 1024.
Definition MAX_DISPATCH_TTL_SECONDS : Z := 600.
Definition MAX_CLOCK_SKEW_SECONDS : Z := 60.
Definition MAX_COMMANDS : Z := 128.
Definition MAX_ARGV_ITEMS : Z := 256.
Definition MAX_ARG_BYTES : Z := 16 * 1024.
Definition MAX_OUTPUT_BYTES : Z := 64 * 1024 * 1024.

Definition SOURCE_KEYS : list string :=
  ["artifact_id"; "bundle_sha256"; "size_bytes"; "commit_oid"; "tree_oid"].
Definition DISPATCH_KEYS : list string :=
  ["schema_version"; "protocol_id"; "kind"; "ledger_domain"; "dispatch_event_hash";
   "ledger_head_hash"; "workspace_id"; "task_id"; "attempt"; "actor"; "run_id"; "source";
   "verifier_manifest_sha256"; "validation_contract_sha256"; "capability_receipt_sha256";
   "network_allowed"; "gpu_allowed"; "nonce"; "issued_at"; "expires_at"].
Definition WAKEUP_KEYS : list string :=
  ["schema_version"; "protocol_id"; "kind"; "dispatch_event_hash"; "task_id"; "run_id"; "nonce"].
Definition RUNTIME_KEYS : list string :=
  ["runtime_manifest_sha256"; "entrypoint_sha256"; "interpreter_sha256"; "package_tree_sha256";
   "service_unit_sha256"; "policy_sha256"].
Definition COMMAND_KEYS : list string :=
  ["index"; "executable_path"; "executable_sha256"; "argv"; "cwd"; "environment_sha256";
   "exit_code"; "timed_out"; "output_truncated"; "stdout_sha256"; "stdout_size_bytes";
   "stderr_sha256"; "stderr_size_bytes"; "started_monotonic_ns"; "completed_monotonic_ns"].
Definition ISOLATION_KEYS : list string :=
  ["network_disabled"; "gpu_disabled"; "namespace_sha256"; "cgroup_sha256"].
Definition POSTCHECK_KEYS : list string := ["passed"; "observed_sha256"].
Definition EXECUTION_PREIMAGE_KEYS : list string :=
  ["schema_version"; "protocol_id"; "kind"; "domain"; "dispatch_event_hash";
   "request_event_hash"; "start_event_hash"; "ledger_head_hash"; "workspace_id"; "task_id";
   "attempt"; "actor"; "run_id"; "source"; "verifier_manifest_sha256";
   "validation_contract_sha256"; "snapshot_manifest_sha256"; "acquire_proof_sha256"; "runtime";
   "commands"; "isolation"; "source_postcheck"; "snapshot_postcheck"; "started_at";
   "completed_at"; "started_monotonic_ns"; "completed_monotonic_ns"; "result"; "failure_code"].
Definition RECEIPT_KEYS : list string :=
  ["schema_version"; "protocol_id"; "kind"; "domain"; "algorithm"; "public_key_sha256";
   "execution_preimage"; "execution_preimage_sha256"; "execution_signature_b64";
   "cleanup_proof"; "cleanup_proof_sha256"; "sealed_at"; "final_signature_b64"].

Notation protocol_error := VerifierProtocolError.

Section VerifierProtocol.
Context `{Hashing}.

Definition canonical_json_bytes (value : json) : res string :=
  canonical_bytes protocol_error MAX_VERIFIER_DOCUMENT_BYTES value.
Definition canonical_json_sha256 (value : json) : res string :=
  canonical_sha256 protocol_error MAX_VERIFIER_DOCUMENT_BYTES value.
Definition _exact_object (value : json) (keys : list string) (label : string) : res dict :=
  exact_object protocol_error MAX_VERIFIER_DOCUMENT_BYTES value keys label.

(** ** Field checks *)

Definition _sha256 (value : json) (label : string) : res string :=
  checked protocol_error (re_hex 64) value (label +:+ " must be a lowercase SHA-256").
Definition _identifier (value : json) (label : string) : res string :=
  checked protocol_error wire_identifier value (label +:+ " is invalid").
(** [_HEX_32], and [_HEX_40_OR_64]. *)
Definition _run_id (value : json) : res string :=
  checked protocol_error (re_hex 32) value "run_id must be 32 lowercase hex characters".
Definition git_oid (s : string) : bool := re_hex 40 s || re_hex 64 s.

Definition _positive_int (value : json) (label : string) (allow_zero : bool) : res Z :=
  match int_from (if allow_zero then 0 else 1) value with
  | Some z => Ok z
  | None => raise protocol_error (label +:+ " must be a bounded integer")
  end.

Definition _timestamp (value : json) (label : string) : res spec_float :=
  let invalid {A} := raise (A := A) protocol_error (label +:+ " timestamp is invalid") in
  match value with
  | JStr s =>
      _ ← raise_if (bool_decide (s = "") || (64 <? py_len s)%nat) protocol_error
            (label +:+ " timestamp is invalid");
      parsed ← catch (fromisoformat (normalize_z s)) ValueError (λ _, invalid);
      match dt_off parsed with
      | Some off => Ok (timestamp_of parsed off)
      | None => raise protocol_error (label +:+ " timestamp has no timezone")
      end
  | _ => invalid
  end.

Definition _signature (value : json) (label : string) : res string :=
  match value with
  | JStr s =>
      _ ← raise_if (1024 <? Z.of_nat (py_len s)) protocol_error (label +:+ " encoding is invalid");
      decoded ← catch (Base64.strict_decode s) ValueError
                  (λ _, raise protocol_error (label +:+ " encoding is invalid"));
      _ ← raise_if (negb (String.length decoded =? 64)%nat) protocol_error
            (label +:+ " Ed25519 length is invalid");
      Ok decoded
  | _ => raise protocol_error (label +:+ " encoding is invalid")
  end.

(** [for key in keys: check(document[key], key)] *)
Definition each_field (check : json → string → res string) (document : dict) (keys : list string)
    : res unit :=
  res_iter (λ key, _ ← check (get document key) key; Ok tt) keys.

(** ** Dispatches and wake-ups *)

Definition _validate_source (value : json) : res dict :=
  source ← _exact_object value SOURCE_KEYS "Verifier source";
  _ ← _identifier (get source "artifact_id") "source.artifact_id";
  _ ← _sha256 (get source "bundle_sha256") "source.bundle_sha256";
  _ ← _positive_int (get source "size_bytes") "source.size_bytes" false;
  _ ← raise_if (negb match get source "commit_oid", get source "tree_oid" with
                     | JStr commit, JStr tree =>
                         git_oid commit && git_oid tree
                         && (String.length commit =? String.length tree)%nat
                     | _, _ => false
                     end) protocol_error "Verifier source Git OIDs are invalid";
  Ok source.

Definition validate_dispatch (document : json) (now : Z) : res dict :=
  dispatch ← _exact_object document DISPATCH_KEYS "Verifier dispatch";
  _ ← raise_if (py_neq (get dispatch "schema_version") (JInt VERIFIER_SCHEMA_VERSION)
                || py_neq (get dispatch "protocol_id") (JStr VERIFIER_PROTOCOL_ID)
                || py_neq (get dispatch "kind") (JStr "verification-dispatch")
                || py_neq (get dispatch "ledger_domain") (JStr VERIFIER_LEDGER_DOMAIN))
        protocol_error "Verifier dispatch identity is invalid";
  _ ← each_field _sha256 dispatch ["dispatch_event_hash"; "ledger_head_hash"];
  _ ← each_field _identifier dispatch ["workspace_id"; "task_id"; "actor"; "nonce"];
  _ ← _run_id (get dispatch "run_id");
  _ ← _positive_int (get dispatch "attempt") "attempt" false;
  _ ← _validate_source (get dispatch "source");
  _ ← each_field _sha256 dispatch
        ["verifier_manifest_sha256"; "validation_contract_sha256"; "capability_receipt_sha256"];
  _ ← raise_if (negb (is_false (get dispatch "network_allowed"))
                || negb (is_false (get dispatch "gpu_allowed"))) protocol_error
        "Verifier dispatch must deny network and GPU";
  issued_at ← _positive_int (get dispatch "issued_at") "issued_at" false;
  expires_at ← _positive_int (get dispatch "expires_at") "expires_at" false;
  _ ← raise_if ((expires_at <=? issued_at) || (MAX_DISPATCH_TTL_SECONDS <? expires_at - issued_at))
        protocol_error "Verifier dispatch lifetime is invalid";
  _ ← raise_if ((now + MAX_CLOCK_SKEW_SECONDS <? issued_at) || (expires_at <? now)) protocol_error
        "Verifier dispatch is expired or not yet valid";
  Ok dispatch.

Definition validate_wakeup (document : json) : res dict :=
  wakeup ← _exact_object document WAKEUP_KEYS "Verifier wakeup";
  _ ← raise_if (py_neq (get wakeup "schema_version") (JInt VERIFIER_SCHEMA_VERSION)
                || py_neq (get wakeup "protocol_id") (JStr VERIFIER_PROTOCOL_ID)
                || py_neq (get wakeup "kind") (JStr "verification-wakeup")) protocol_error
        "Verifier wakeup identity is invalid";
  _ ← _sha256 (get wakeup "dispatch_event_hash") "dispatch_event_hash";
  _ ← _identifier (get wakeup "task_id") "task_id";
  _ ← _identifier (get wakeup "nonce") "nonce";
  _ ← _run_id (get wakeup "run_id");
  b ← canonical_json_bytes (JObj wakeup);
  _ ← raise_if (4096 <? Z.of_nat (String.length b)) protocol_error "Verifier wakeup exceeds 4 KiB";
  Ok wakeup.

(** ** Execution preimages *)

Definition _validate_runtime (value : json) : res dict :=
  runtime ← _exact_object value RUNTIME_KEYS "Verifier runtime";
  _ ← each_field (λ v key, _sha256 v ("runtime." +:+ key)) runtime RUNTIME_KEYS;
  Ok runtime.

Definition canonical_component (c : string) : bool := negb (bool_decide (c ∈ [""; "."; ".."])).

Definition _canonical_posix_absolute_path (value : json) (label : string) (allow_root : bool)
    : res string :=
  match value with
  | JStr path =>
      _ ← raise_if (negb (starts_with "/" path) || existsb (λ c, Ascii.eqb c "000" || Ascii.eqb c backslash)
                      (String.list_ascii_of_string path)
                    || (4096 <? Z.of_nat (String.length path))) protocol_error
            (label +:+ " is not a canonical POSIX path");
      if bool_decide (path = "/") then
        if allow_root then Ok path
        else raise protocol_error (label +:+ " may not name the filesystem root")
      else
        _ ← raise_if (ends_with "/" path) protocol_error (label +:+ " has a trailing slash");
        let components := split_on "/" (String.substring 1 (String.length path - 1) path) in
        _ ← raise_if (negb (forallb canonical_component components)) protocol_error
              (label +:+ " has a noncanonical component");
        Ok path
  | _ => raise protocol_error (label +:+ " is not a canonical POSIX path")
  end.

Definition argument_ok (v : json) : bool :=
  match v with
  | JStr s => negb (bool_decide (s = "")) && (Z.of_nat (String.length s) <=? MAX_ARG_BYTES)
  | _ => false
  end.

Definition command_argv_ok (argv : json) (executable : string) : bool :=
  match argv with
  | JList ((JStr a :: _) as l) =>
      (Z.of_nat (length l) <=? MAX_ARGV_ITEMS) && forallb argument_ok l && bool_decide (a = executable)
  | _ => false
  end.

Definition _validate_command (value : json) (expected_index : Z) : res dict :=
  command ← _exact_object value COMMAND_KEYS "Verifier command";
  _ ← raise_if (py_neq (get command "index") (JInt expected_index)) protocol_error
        "Verifier command indexes are not contiguous";
  executable ← _canonical_posix_absolute_path (get command "executable_path")
                 "Verifier executable_path" false;
  _ ← _canonical_posix_absolute_path (get command "cwd") "Verifier cwd" true;
  _ ← raise_if (negb (command_argv_ok (get command "argv") executable)) protocol_error
        "Verifier command argv is invalid";
  _ ← each_field (λ v key, _sha256 v ("command." +:+ key)) command
        ["executable_sha256"; "environment_sha256"; "stdout_sha256"; "stderr_sha256"];
  _ ← raise_if (negb (is_pure_int (get command "exit_code"))) protocol_error
        "Verifier command exit_code is invalid";
  _ ← raise_if (negb (is_bool (get command "timed_out"))) protocol_error
        "Verifier command timed_out is invalid";
  _ ← raise_if (negb (is_bool (get command "output_truncated"))) protocol_error
        "Verifier command output_truncated is invalid";
  _ ← res_iter (λ key,
        size ← _positive_int (get command key) key true;
        raise_if (MAX_OUTPUT_BYTES <? size) protocol_error
          "Verifier command output exceeds its limit") ["stdout_size_bytes"; "stderr_size_bytes"];
  started ← _positive_int (get command "started_monotonic_ns") "started_monotonic_ns" false;
  completed ← _positive_int (get command "completed_monotonic_ns") "completed_monotonic_ns" false;
  _ ← raise_if (completed <? started) protocol_error
        "Verifier command monotonic interval is invalid";
  Ok command.

Fixpoint validate_commands (commands : list json) (index : Z) : res (list dict) :=
  match commands with
  | [] => Ok []
  | c :: commands =>
      d ← _validate_command c index;
      l ← validate_commands commands (index + 1);
      Ok (d :: l)
  end.

Definition _validate_postcheck (value : json) (label : string) : res dict :=
  postcheck ← _exact_object value POSTCHECK_KEYS label;
  _ ← raise_if (negb (is_bool (get postcheck "passed"))) protocol_error
        (label +:+ ".passed must be boolean");
  _ ← _sha256 (get postcheck "observed_sha256") (label +:+ ".observed_sha256");
  Ok postcheck.

(** The command ended with code 0, in time, with its whole output. *)
Definition command_clean (command : dict) : bool :=
  py_eq (get command "exit_code") (JInt 0) && negb (truthy (get command "timed_out"))
  && negb (truthy (get command "output_truncated")).

Definition SHARED_FIELDS : list string :=
  ["dispatch_event_hash"; "ledger_head_hash"; "workspace_id"; "task_id"; "attempt"; "actor";
   "run_id"; "source"; "verifier_manifest_sha256"; "validation_contract_sha256"].

Definition validate_isolation (value : json) : res unit :=
  isolation ← _exact_object value ISOLATION_KEYS "Isolation";
  _ ← raise_if (negb (is_true (get isolation "network_disabled"))
                || negb (is_true (get isolation "gpu_disabled"))) protocol_error
        "Verifier isolation must disable network and GPU";
  _ ← _sha256 (get isolation "namespace_sha256") "isolation.namespace_sha256";
  _ ← _sha256 (get isolation "cgroup_sha256") "isolation.cgroup_sha256";
  Ok tt.

(** [a < b] on floats. *)
Definition float_lt (a b : spec_float) : bool :=
  match SFcompare a b with Some Lt => true | _ => false end.

Definition validate_times (preimage : dict) : res unit :=
  started_at ← _timestamp (get preimage "started_at") "started_at";
  completed_at ← _timestamp (get preimage "completed_at") "completed_at";
  _ ← raise_if (float_lt completed_at started_at) protocol_error
        "Verifier wall-clock interval is invalid";
  monotonic_started ← _positive_int (get preimage "started_monotonic_ns") "started_monotonic_ns" false;
  monotonic_completed ← _positive_int (get preimage "completed_monotonic_ns")
                          "completed_monotonic_ns" false;
  raise_if (monotonic_completed <? monotonic_started) protocol_error
    "Verifier monotonic interval is invalid".

(** The result against the commands and the post-checks.  A [result] that is a
    list or a dict cannot be looked up in the set and raises [TypeError]. *)
Definition validate_result (preimage source_postcheck snapshot_postcheck : dict)
    (commands : list dict) : res unit :=
  let result := get preimage "result" in
  let failure_code := get preimage "failure_code" in
  known ← in_strings result ["passed"; "failed"];
  _ ← raise_if (negb known) protocol_error "Verifier result is invalid";
  _ ← (if is_null failure_code then Ok "" else _identifier failure_code "failure_code");
  if py_eq result (JStr "passed") then
    raise_if (negb (is_null failure_code) || negb (truthy (get source_postcheck "passed"))
              || negb (truthy (get snapshot_postcheck "passed"))
              || negb (forallb command_clean commands)) protocol_error
      "Passed verifier result contradicts its evidence"
  else raise_if (is_null failure_code) protocol_error
         "Failed verifier result requires a failure_code".

(** The comparison with the dispatch.  The dispatch is validated at its own
    [issued_at]; one that is not an integer fails before the clock is used. *)
Definition match_dispatch (preimage : dict) (dispatch : json) : res unit :=
  issued ← jitem dispatch "issued_at";
  validated ← validate_dispatch dispatch (match issued with JInt z => z | _ => 0 end);
  res_iter (λ key,
    raise_if (py_neq (get preimage key) (get validated key)) protocol_error
      ("Verifier execution preimage does not match dispatch field " +:+ key)) SHARED_FIELDS.

Definition validate_execution_preimage (document : json) (dispatch : option json) : res dict :=
  preimage ← _exact_object document EXECUTION_PREIMAGE_KEYS "Verifier execution preimage";
  _ ← raise_if (py_neq (get preimage "schema_version") (JInt VERIFIER_SCHEMA_VERSION)
                || py_neq (get preimage "protocol_id") (JStr VERIFIER_PROTOCOL_ID)
                || py_neq (get preimage "kind") (JStr "verification-execution-preimage")
                || py_neq (get preimage "domain") (JStr VERIFIER_RECEIPT_DOMAIN)) protocol_error
        "Verifier execution preimage identity is invalid";
  _ ← each_field _sha256 preimage
        ["dispatch_event_hash"; "request_event_hash"; "start_event_hash"; "ledger_head_hash";
         "verifier_manifest_sha256"; "validation_contract_sha256"; "snapshot_manifest_sha256";
         "acquire_proof_sha256"];
  _ ← each_field _identifier preimage ["workspace_id"; "task_id"; "actor"];
  _ ← _positive_int (get preimage "attempt") "attempt" false;
  _ ← _run_id (get preimage "run_id");
  _ ← _validate_source (get preimage "source");
  _ ← _validate_runtime (get preimage "runtime");
  commands ← match get preimage "commands" with
             | JList ((_ :: _) as l) =>
                 _ ← raise_if (MAX_COMMANDS <? Z.of_nat (length l)) protocol_error
                       "Verifier commands must be a bounded non-empty list";
                 validate_commands l 0
             | _ => raise protocol_error "Verifier commands must be a bounded non-empty list"
             end;
  _ ← validate_isolation (get preimage "isolation");
  source_postcheck ← _validate_postcheck (get preimage "source_postcheck") "Source postcheck";
  snapshot_postcheck ← _validate_postcheck (get preimage "snapshot_postcheck") "Snapshot postcheck";
  _ ← validate_times preimage;
  _ ← validate_result preimage source_postcheck snapshot_postcheck commands;
  _ ← match dispatch with
      | Some dispatch => match_dispatch preimage dispatch
      | None => Ok tt
      end;
  Ok preimage.

(** ** Receipts *)

Definition unsigned_receipt_payload (receipt : json) : res dict :=
  d ← _exact_object receipt RECEIPT_KEYS "Verifier receipt";
  Ok (delete "final_signature_b64" d).

Definition cleanup_fields : list string := ["task_id"; "attempt"; "actor"; "run_id"].

Definition validate_receipt_envelope (document : json) (dispatch : option json) : res dict :=
  receipt ← _exact_object document RECEIPT_KEYS "Verifier receipt";
  _ ← raise_if (py_neq (get receipt "schema_version") (JInt VERIFIER_SCHEMA_VERSION)
                || py_neq (get receipt "protocol_id") (JStr VERIFIER_PROTOCOL_ID)
                || py_neq (get receipt "kind") (JStr "verification-receipt")
                || py_neq (get receipt "domain") (JStr VERIFIER_RECEIPT_DOMAIN)
                || py_neq (get receipt "algorithm") (JStr VERIFIER_SIGNATURE_ALGORITHM))
        protocol_error "Verifier receipt identity is invalid";
  _ ← _sha256 (get receipt "public_key_sha256") "public_key_sha256";
  preimage ← validate_execution_preimage (get receipt "execution_preimage") dispatch;
  preimage_sha256 ← canonical_json_sha256 (JObj preimage);
  _ ← raise_if (py_neq (get receipt "execution_preimage_sha256") (JStr preimage_sha256))
        protocol_error "Verifier execution preimage hash is invalid";
  _ ← _signature (get receipt "execution_signature_b64") "execution_signature_b64";
  let cleanup_proof := get receipt "cleanup_proof" in
  cleanup_payload ← catch (SnapshotProtocol.validate_signed_envelope cleanup_proof "snapshot-cleaned")
    SnapshotBrokerError (λ _, raise protocol_error "Verifier cleanup proof is malformed");
  cleanup_sha256 ← canonical_json_sha256 cleanup_proof;
  _ ← raise_if (py_neq (get receipt "cleanup_proof_sha256") (JStr cleanup_sha256))
        protocol_error "Verifier cleanup proof hash is invalid";
  _ ← res_iter (λ key,
        raise_if (py_neq (get cleanup_payload key) (get preimage key)) protocol_error
          ("Verifier cleanup proof does not match execution field " +:+ key)) cleanup_fields;
  _ ← raise_if (py_neq (get cleanup_payload "receipt_preimage_sha256") (JStr preimage_sha256))
        protocol_error "Verifier cleanup proof does not bind the execution preimage";
  sealed_at ← _timestamp (get receipt "sealed_at") "sealed_at";
  completed_at ← _timestamp (get preimage "completed_at") "completed_at";
  _ ← raise_if (float_lt sealed_at completed_at) protocol_error
        "Verifier receipt was sealed before execution ended";
  _ ← _signature (get receipt "final_signature_b64") "final_signature_b64";
  Ok receipt.
End VerifierProtocol.

(** ** What acceptance means *)

(** One statement of a function's body that did not raise. *)
Ltac step H x Hx := apply bind_ok in H as (x & Hx & H).
Ltac skip H := let x := fresh in let Hx := fresh in step H x Hx; clear Hx; try clear x.

Lemma forallb_Forall {A} (f : A → bool) l : forallb f l = true → Forall (λ x, f x = true) l.
Proof. induction l as [|x l IH]; [done|]. intros [? ?]%andb_true_iff. constructor; auto. Qed.

Section Accepted.
Context `{Hashing}.

Lemma exact_ok value keys label d :
  _exact_object value keys label = Ok d → value = JObj d ∧ exact_keys d keys = true.
Proof. intros (-> & Hk & _)%exact_object_ok. done. Qed.

Lemma canonical_ok value b : canonical_json_bytes value = Ok b → b = canonical_json value.
Proof. by intros (-> & _)%canonical_bytes_ok. Qed.

Lemma source_ok v d : _validate_source v = Ok d → v = JObj d.
Proof. intros Hv. step Hv s Hs. apply exact_ok in Hs as [-> _]. do 4 skip Hv. by apply Ok_inj in Hv as ->. Qed.

Lemma command_ok v i d : _validate_command v i = Ok d → v = JObj d.
Proof.
  intros Hv. step Hv c Hc. apply exact_ok in Hc as [-> _]. do 12 skip Hv. by apply Ok_inj in Hv as ->.
Qed.

Lemma postcheck_ok v label d : _validate_postcheck v label = Ok d → v = JObj d.
Proof. intros Hv. step Hv c Hc. apply exact_ok in Hc as [-> _]. do 2 skip Hv. by apply Ok_inj in Hv as ->. Qed.

Lemma commands_ok l i ds : validate_commands l i = Ok ds → l = JObj <$> ds.
Proof.
  revert i ds. induction l as [|v l IH]; intros i ds Hv; cbn [validate_commands] in Hv.
  - by apply Ok_inj in Hv as <-.
  - step Hv d Hd. step Hv r Hr. apply Ok_inj in Hv as <-. apply command_ok in Hd as ->.
    cbn. f_equal. by apply (IH (i + 1)).
Qed.

Lemma isolation_ok v u : validate_isolation v = Ok u → ∃ d, v = JObj d ∧
  get d "network_disabled" = JBool true ∧ get d "gpu_disabled" = JBool true.
Proof.
  intros Hv. step Hv d Hd. apply exact_ok in Hd as [-> _]. exists d. split; [done|].
  step Hv u' Hi. apply raise_if_ok, orb_false_iff in Hi as [Hn%negb_false_iff Hg%negb_false_iff].
  destruct (get d "network_disabled") as [|[]| | | | |], (get d "gpu_disabled") as [|[]| | | | |]; done.
Qed.

(** The execution the preimage describes ended well: every command with code
    0, in time and with its whole output, and both post-checks passed. *)
Definition clean_execution (preimage : dict) (commands : list dict) : Prop :=
  get preimage "commands" = JList (JObj <$> commands) ∧
  Forall (λ c, command_clean c = true) commands ∧
  (∃ s t, get preimage "source_postcheck" = JObj s ∧ truthy (get s "passed") = true ∧
          get preimage "snapshot_postcheck" = JObj t ∧ truthy (get t "passed") = true) ∧
  get preimage "failure_code" = JNull.

Lemma result_ok preimage s t commands u :
  validate_result preimage s t commands = Ok u →
  (get preimage "result" = JStr "passed" ∧ Forall (λ c, command_clean c = true) commands ∧
   truthy (get s "passed") = true ∧ truthy (get t "passed") = true ∧
   get preimage "failure_code" = JNull) ∨
  (get preimage "result" = JStr "failed" ∧
   ∃ code, get preimage "failure_code" = JStr code ∧ wire_identifier code = true).
Proof.
  intros Hv. unfold validate_result in Hv. step Hv known Hk. step Hv u1 Hkn.
  apply raise_if_ok, negb_false_iff in Hkn. subst known. step Hv fc Hfc.
  unfold in_strings in Hk. destruct (get preimage "result") as [| | | |r| |]; try done.
  apply Ok_inj, bool_decide_eq_true in Hk.
  apply elem_of_cons in Hk as [->|[->|[]%elem_of_nil]%elem_of_cons].
  - left. cbn in Hv. apply raise_if_ok in Hv.
    apply orb_false_iff in Hv as [[[H1 H2%negb_false_iff]%orb_false_iff H3%negb_false_iff]%orb_false_iff
      H4%negb_false_iff]. apply negb_false_iff in H1.
    split; [done|]. split; [by apply forallb_Forall|].
    split; [done|]. split; [done|]. by destruct (get preimage "failure_code").
  - right. split; [done|]. cbn in Hv. apply raise_if_ok in Hv. rewrite Hv in Hfc.
    apply checked_ok in Hfc as [-> Hid]. by exists fc.
Qed.

Lemma preimage_ok document dispatch preimage :
  validate_execution_preimage document dispatch = Ok preimage →
  document = JObj preimage ∧ exact_keys preimage EXECUTION_PREIMAGE_KEYS = true ∧
  (∃ d, get preimage "isolation" = JObj d ∧ get d "network_disabled" = JBool true ∧
        get d "gpu_disabled" = JBool true) ∧
  ((get preimage "result" = JStr "passed" ∧ ∃ commands, clean_execution preimage commands) ∨
   (get preimage "result" = JStr "failed" ∧
    ∃ code, get preimage "failure_code" = JStr code ∧ wire_identifier code = true)) ∧
  (∀ d, dispatch = Some d → ∃ validated, d = JObj validated ∧
     Forall (λ key, py_eq (get preimage key) (get validated key) = true) SHARED_FIELDS).
Proof.
  intros Hv. step Hv p Hp. apply exact_ok in Hp as [-> Hkeys]. do 7 skip Hv.
  step Hv commands Hc. step Hv u Hi. step Hv s Hs. step Hv t Ht. skip Hv. step Hv u1 Hres.
  step Hv u2 Hd. apply Ok_inj in Hv as ->. apply postcheck_ok in Hs, Ht. apply isolation_ok in Hi.
  split; [done|]. split; [done|]. split; [done|]. split.
  - apply result_ok in Hres as [(Hr & Hcl & H1 & H2 & Hf)|?]; [left|by right].
    split; [done|]. exists commands. split.
    + destruct (get preimage "commands") as [| | | | |[|v l]|]; try done. skip Hc.
      by apply commands_ok in Hc as ->.
    + split; [done|]. split; [|done]. by exists s, t.
  - intros d ->. unfold match_dispatch in Hd. step Hd issued Hiss. step Hd validated Hval.
    step Hval dd Hdd. apply exact_ok in Hdd as [-> _]. do 12 skip Hval. apply Ok_inj in Hval as ->.
    exists validated. split; [done|]. destruct u2. apply res_iter_ok in Hd.
    eapply Forall_impl; [exact Hd|]. intros key Hk%raise_if_ok. by apply negb_false_iff in Hk.
Qed.
(** What binds an accepted receipt together. *)
Definition bound_receipt (receipt preimage cleanup : dict) : Prop :=
  get receipt "execution_preimage" = JObj preimage ∧
  get receipt "execution_preimage_sha256" = JStr (sha256_hex (canonical_json (JObj preimage))) ∧
  (∃ e, get receipt "cleanup_proof" = JObj e ∧ get e "payload" = JObj cleanup ∧
     get receipt "cleanup_proof_sha256" = JStr (sha256_hex (canonical_json (JObj e)))) ∧
  attested "snapshot-cleaned" cleanup ∧
  get cleanup "namespace_removed" = JBool true ∧
  get cleanup "receipt_preimage_sha256" = JStr (sha256_hex (canonical_json (JObj preimage))) ∧
  Forall (λ key, py_eq (get cleanup key) (get preimage key) = true) cleanup_fields.

Lemma canonical_sha_ok v h : canonical_json_sha256 v = Ok h → h = sha256_hex (canonical_json v).
Proof. by intros (b & ->%canonical_ok & ->)%canonical_sha256_ok. Qed.

Lemma receipt_ok document dispatch receipt :
  validate_receipt_envelope document dispatch = Ok receipt →
  document = JObj receipt ∧ ∃ preimage cleanup,
    validate_execution_preimage (JObj preimage) dispatch = Ok preimage ∧
    bound_receipt receipt preimage cleanup.
Proof.
  intros Hv. step Hv r Hr. apply exact_ok in Hr as [-> _]. do 2 skip Hv.
  step Hv preimage Hpre. step Hv psha Hpsha. step Hv u1 Heq. skip Hv. step Hv cleanup Hclean.
  step Hv csha Hcsha. step Hv u2 Hceq. step Hv u3 Hf. step Hv u4 Hbind. do 4 skip Hv.
  apply Ok_inj in Hv as ->.
  pose proof (preimage_ok _ _ _ Hpre) as (Hp & _). rewrite Hp in Hpre.
  apply canonical_sha_ok in Hpsha as ->, Hcsha as ->.
  apply raise_if_ok, py_neq_str in Heq, Hceq, Hbind.
  unfold catch in Hclean.
  destruct (SnapshotProtocol.validate_signed_envelope _ _) as [c|x] eqn:Hc;
    [|by destruct (is_a x SnapshotBrokerError)].
  apply Ok_inj in Hclean as ->.
  apply validate_signed_envelope_ok in Hc as (e & sig & He & _ & Hpay & Hat & _).
  split; [done|]. exists preimage, cleanup. split; [done|]. split; [done|]. split; [done|].
  split; [exists e; rewrite He in Hceq; done|]. split; [done|]. split.
  - destruct Hat as (_ & _ & _ & _ & _ & _ & Hk). rewrite bool_decide_false in Hk by done.
    unfold cleanup_ok in Hk. apply andb_true_iff in Hk as [_ Hk].
    by destruct (get cleanup "namespace_removed") as [|[]| | | | |].
  - split; [done|]. destruct u3. apply res_iter_ok in Hf.
    eapply Forall_impl; [exact Hf|]. intros key Hk%raise_if_ok. by apply negb_false_iff in Hk.
Qed.

(** An accepted receipt is one bound whole: it holds a valid execution
    preimage and its digest, and the broker's cleanup statement of the same
    task, attempt, actor and run, which says the namespace was removed and
    names the digest of that very preimage. *)
Theorem accepted_receipt_is_bound document dispatch receipt :
  validate_receipt_envelope document dispatch = Ok receipt →
  ∃ preimage cleanup,
    validate_execution_preimage (JObj preimage) dispatch = Ok preimage ∧
    bound_receipt receipt preimage cleanup.
Proof. intros (_ & Hr)%receipt_ok. exact Hr. Qed.

(** A preimage that says "passed" describes a clean execution: every
    command ended with code 0, in time and with its whole output, both
    post-checks passed, no failure code is given, and network and GPU were
    disabled; a dispatch it was compared with agrees on every shared field. *)
Theorem passed_execution_is_clean document dispatch preimage :
  validate_execution_preimage document dispatch = Ok preimage →
  (get preimage "result" = JStr "passed" → ∃ commands, clean_execution preimage commands) ∧
  (∃ d, get preimage "isolation" = JObj d ∧ get d "network_disabled" = JBool true ∧
        get d "gpu_disabled" = JBool true) ∧
  (∀ d, dispatch = Some d → ∃ validated, d = JObj validated ∧
     Forall (λ key, py_eq (get preimage key) (get validated key) = true) SHARED_FIELDS).
Proof.
  intros (_ & _ & Hi & Hr & Hd)%preimage_ok. split; [|done].
  intros Hp. destruct Hr as [[_ ?]|[Hf _]]; [done|]. congruence.
Qed.

(** The broker's cleanup proof pins the execution: two accepted receipts
    with the same cleanup proof hold the same execution preimage, unless two
    texts with one SHA-256 are at hand. *)
Theorem cleanup_proof_pins_execution d1 d2 dispatch1 dispatch2 r1 r2 :
  validate_receipt_envelope d1 dispatch1 = Ok r1 →
  validate_receipt_envelope d2 dispatch2 = Ok r2 →
  get r1 "cleanup_proof" = get r2 "cleanup_proof" →
  floats_ok (get r1 "execution_preimage") = true →
  floats_ok (get r2 "execution_preimage") = true →
  get r1 "execution_preimage" = get r2 "execution_preimage" ∨
  collision (canonical_json (get r1 "execution_preimage"))
            (canonical_json (get r2 "execution_preimage")).
Proof.
  intros (_ & p1 & c1 & _ & Hp1 & _ & (e1 & He1 & Hc1 & _) & _ & _ & Hd1 & _)%receipt_ok
         (_ & p2 & c2 & _ & Hp2 & _ & (e2 & He2 & Hc2 & _) & _ & _ & Hd2 & _)%receipt_ok Hsame F1 F2.
  rewrite Hp1, Hp2 in *. assert (c2 = c1) as -> by congruence.
  rewrite Hd1 in Hd2. injection Hd2 as Hsha.
  destruct (decide (canonical_json (JObj p1) = canonical_json (JObj p2))) as [E|E]; [left|by right].
  by apply (dumps_inj compact).
Qed.
End Accepted.
