(* ===== verification/VerifierReceipt.v ===== *)
(** * Sealing and verifying a verifier's receipt ([verifier_receipt.py])

    The verifier's key is a trust domain of its own, next to the ledger's and
    the snapshot broker's.  As in [SnapshotProtocol], the files and their
    metadata are the [host], and a run of the OpenSSL command is an operation of
    [OpenSSL]; the paths are the module's constants. *)

From S2P Require Import SnapshotProtocol.
From S2P Require Export VerifierProtocol.

Definition VERIFIER_PRIVATE_KEY_PATH : string := "/etc/cogni-os/verifier/ed25519-private.pem".
Definition VERIFIER_PUBLIC_KEY_PATH : string := "/etc/cogni-os/verifier/ed25519-public.pem".
Definition VERIFIER_OPENSSL_SHA256_PATH : string := "/etc/cogni-os/verifier/openssl.sha256".
Definition VERIFIER_SERVICE_UNIT_PATH : string := "/etc/systemd/system/cogni-verifier.service".

Notation receipt_error := VerifierReceiptError.

Definition S_IROTH : Z := 4.
(** [mode & stat.S_IROTH] *)
Definition world_readable (m : meta) : bool := negb (Z.land (m_mode m) S_IROTH =? 0).

(** What disqualifies a trust file and one of the directories above it. *)
Definition unprotected_file (m : meta) : bool :=
  is_kind Link m || negb (is_kind Regular m) || negb (m_uid m =? 0) || others_write m.
Definition unprotected_directory (m : meta) : bool :=
  is_kind Link m || negb (is_kind Directory m) || negb (m_uid m =? 0) || others_write m.

Section VerifierReceipt.
Context `{Hashing} `{OpenSSL}.

(** ** Trust material *)

Definition _require_root_owned_file (h : host) (path : string) (private executable : bool)
    : res string :=
  _ ← raise_if (negb (posix h) || negb (is_absolute path)) receipt_error
        "Verifier trust material requires POSIX";
  match lstat h path, lstats h (parents path) with
  | Some metadata, Some ancestors =>
      _ ← raise_if (unprotected_file metadata || existsb unprotected_directory ancestors)
            receipt_error "Verifier trust path is not root-protected";
      _ ← raise_if (private && world_readable metadata) receipt_error
            "Verifier private key is world-readable";
      _ ← raise_if (executable && negb (runnable h path)) receipt_error
            "Verifier OpenSSL binary is not executable";
      Ok path
  | _, _ => raise receipt_error "Verifier trust material is unavailable"
  end.

(** [digest.read_text(encoding="ascii").strip().lower()] *)
Definition read_openssl_digest (h : host) (path : string) : res string :=
  match bytes_at h path with
  | Some b => if all_chars is_ascii b then Ok (lower (strip b))
              else raise receipt_error "Verifier OpenSSL digest is unreadable"
  | None => raise receipt_error "Verifier OpenSSL digest is unreadable"
  end.

(** The path and the digest of the OpenSSL binary. *)
Definition _trusted_openssl_binding (h : host) (openssl_path digest_path : string)
    : res (string * string) :=
  openssl ← _require_root_owned_file h openssl_path false true;
  digest ← _require_root_owned_file h digest_path false false;
  expected ← read_openssl_digest h digest;
  _ ← raise_if (negb (re_hex 64 expected)) receipt_error "Verifier OpenSSL digest is invalid";
  observed ← file_sha256 h openssl;
  _ ← raise_if (negb (bool_decide (observed = expected))) receipt_error
        "Verifier OpenSSL binary digest mismatch";
  Ok (openssl, observed).

Definition _public_key_spki_sha256 (public_key_path openssl_path : string) : res string :=
  match run_pkey_der openssl_path public_key_path with
  | None => raise receipt_error "Verifier public-key SPKI conversion failed"
  | Some (code, der) =>
      _ ← raise_if (negb (code =? 0) || bool_decide (der = "")
                    || (4096 <? Z.of_nat (String.length der))) receipt_error
            "Verifier public-key SPKI is invalid";
      Ok (sha256_hex der)
  end.

(** The digests of the verifier's and of the broker's key. *)
Definition _distinct_public_key_binding (verifier_public_key_path snapshot_broker_public_key_path
    openssl_path : string) : res (string * string) :=
  verifier_spki ← _public_key_spki_sha256 verifier_public_key_path openssl_path;
  broker_spki ← _public_key_spki_sha256 snapshot_broker_public_key_path openssl_path;
  _ ← raise_if (bool_decide (verifier_spki = broker_spki)) receipt_error
        "Verifier and snapshot broker must use distinct Ed25519 keys";
  Ok (verifier_spki, broker_spki).

(** What a binding names: the key pair, the OpenSSL binary and their digests. *)
Record key_binding := KeyBinding {
  kb_public : string; kb_public_sha256 : string; kb_openssl : string; kb_openssl_sha256 : string;
  kb_spki : string; kb_broker_spki : string
}.

(** The rest of both bindings, once the keys were checked. *)
Definition bind_keys (h : host) (public broker_public : string) : res key_binding :=
  openssl ← _trusted_openssl_binding h BROKER_OPENSSL_PATH VERIFIER_OPENSSL_SHA256_PATH;
  distinct ← _distinct_public_key_binding public broker_public openssl.1;
  public_sha ← file_sha256 h public;
  Ok (KeyBinding public public_sha openssl.1 openssl.2 distinct.1 distinct.2).

Definition trusted_receipt_signing_binding (h : host) : res (string * key_binding) :=
  private ← _require_root_owned_file h VERIFIER_PRIVATE_KEY_PATH true false;
  public ← _require_root_owned_file h VERIFIER_PUBLIC_KEY_PATH false false;
  broker_public ← _require_root_owned_file h BROKER_PUBLIC_KEY_PATH false false;
  binding ← bind_keys h public broker_public;
  Ok (private, binding).

Definition trusted_receipt_verification_binding (h : host) : res key_binding :=
  public ← _require_root_owned_file h VERIFIER_PUBLIC_KEY_PATH false false;
  broker_public ← _require_root_owned_file h BROKER_PUBLIC_KEY_PATH false false;
  bind_keys h public broker_public.

(** ** Ed25519 *)

(** [_openssl_ed25519] with [signature=None] and with a signature. *)
Definition openssl_sign (openssl_path key_path payload : string) : res string :=
  match run_sign openssl_path key_path payload with
  | None => raise receipt_error "Verifier Ed25519 operation failed"
  | Some (code, result) =>
      _ ← raise_if (negb (code =? 0)) receipt_error "OpenSSL refused the verifier signature";
      _ ← raise_if (negb (String.length result =? 64)%nat) receipt_error
            "OpenSSL returned an invalid Ed25519 signature";
      Ok result
  end.

Definition openssl_verify (openssl_path key_path payload signature : string) : res bool :=
  _ ← raise_if (negb (String.length signature =? 64)%nat) receipt_error
        "Verifier Ed25519 signature is invalid";
  match run_verify openssl_path key_path payload signature with
  | None => raise receipt_error "Verifier Ed25519 operation failed"
  | Some code => Ok (code =? 0)
  end.

Definition signature_payload (kind : string) (payload_sha256 payload : json) : json := jobj
  [("schema_version", JInt VERIFIER_SCHEMA_VERSION); ("domain", JStr VERIFIER_RECEIPT_DOMAIN);
   ("kind", JStr kind); ("payload_sha256", payload_sha256); ("payload", payload)].

Definition _execution_signature_payload (preimage preimage_sha256 : json) : json :=
  signature_payload "execution-preimage-signature" preimage_sha256 preimage.

Definition _final_signature_payload (receipt : json) : res json :=
  unsigned ← unsigned_receipt_payload receipt;
  sha ← canonical_json_sha256 (JObj unsigned);
  Ok (signature_payload "final-receipt-signature" (JStr sha) (JObj unsigned)).

(** The bytes the two signatures are over. *)
Definition execution_message (preimage preimage_sha256 : json) : res string :=
  canonical_json_bytes (_execution_signature_payload preimage preimage_sha256).
Definition final_message (receipt : json) : res string :=
  p ← _final_signature_payload receipt; canonical_json_bytes p.

(** [base64.b64decode(v, validate=True)] *)
Definition b64_strict (v : json) : res string :=
  match v with
  | JStr s => Base64.strict_decode s
  | _ => raise TypeError "argument should be a bytes-like object or ASCII string"
  end.

(** ** Receipts *)

Definition verify_broker_cleanup (h : host) (cleanup_proof : json) : res dict :=
  catch (verify_signed_envelope h cleanup_proof "snapshot-cleaned" BROKER_PUBLIC_KEY_PATH
           BROKER_OPENSSL_PATH BROKER_OPENSSL_SHA256_PATH)
    Exception (λ _, raise receipt_error "Broker cleanup proof verification failed").

(** The receipt with a given final signature. *)
Definition sealed_receipt (public_key_sha256 : string) (preimage : dict) (preimage_sha256 : string)
    (execution_signature : string) (cleanup_proof : json) (cleanup_sha256 : string)
    (sealed_at : json) (final_signature : string) : json := jobj
  [("schema_version", JInt VERIFIER_SCHEMA_VERSION); ("protocol_id", JStr VERIFIER_PROTOCOL_ID);
   ("kind", JStr "verification-receipt"); ("domain", JStr VERIFIER_RECEIPT_DOMAIN);
   ("algorithm", JStr VERIFIER_SIGNATURE_ALGORITHM); ("public_key_sha256", JStr public_key_sha256);
   ("execution_preimage", JObj preimage); ("execution_preimage_sha256", JStr preimage_sha256);
   ("execution_signature_b64", JStr (b64 execution_signature)); ("cleanup_proof", cleanup_proof);
   ("cleanup_proof_sha256", JStr cleanup_sha256); ("sealed_at", sealed_at);
   ("final_signature_b64", JStr (b64 final_signature))].

(** [b"\x00" * 64] *)
Definition no_signature : string := Nat.iter 64 (String "000"%char) "".

Definition sign_verification_receipt (h : host) (execution_preimage cleanup_proof sealed_at : json)
    (dispatch : option json) : res dict :=
  preimage ← validate_execution_preimage execution_preimage dispatch;
  preimage_sha256 ← canonical_json_sha256 (JObj preimage);
  cleanup_payload ← verify_broker_cleanup h cleanup_proof;
  _ ← raise_if (py_neq (get cleanup_payload "receipt_preimage_sha256") (JStr preimage_sha256))
        receipt_error "Broker cleanup proof binds another preimage";
  '(private_key, binding) ← trusted_receipt_signing_binding h;
  execution_payload ← execution_message (JObj preimage) (JStr preimage_sha256);
  execution_signature ← openssl_sign (kb_openssl binding) private_key execution_payload;
  cleanup_sha256 ← canonical_json_sha256 cleanup_proof;
  let receipt := sealed_receipt (kb_public_sha256 binding) preimage preimage_sha256
                   execution_signature cleanup_proof cleanup_sha256 sealed_at in
  _ ← validate_receipt_envelope (receipt no_signature) dispatch;
  final_payload ← final_message (receipt no_signature);
  final_signature ← openssl_sign (kb_openssl binding) private_key final_payload;
  execution_verified ← openssl_verify (kb_openssl binding) (kb_public binding) execution_payload
                         execution_signature;
  final_payload ← final_message (receipt final_signature);
  final_verified ← openssl_verify (kb_openssl binding) (kb_public binding) final_payload
                     final_signature;
  _ ← raise_if (negb (execution_verified && final_verified)) receipt_error
        "Verifier public/private key pair does not match";
  validate_receipt_envelope (receipt final_signature) dispatch.

Definition verify_verification_receipt (h : host) (receipt : json) (dispatch : option json)
    : res dict :=
  document ← validate_receipt_envelope receipt dispatch;
  binding ← trusted_receipt_verification_binding h;
  _ ← raise_if (py_neq (get document "public_key_sha256") (JStr (kb_public_sha256 binding)))
        receipt_error "Verifier receipt names a different public key";
  _ ← verify_broker_cleanup h (get document "cleanup_proof");
  execution_signature ← b64_strict (get document "execution_signature_b64");
  final_signature ← b64_strict (get document "final_signature_b64");
  execution_payload ← execution_message (get document "execution_preimage")
                        (get document "execution_preimage_sha256");
  execution_verified ← openssl_verify (kb_openssl binding) (kb_public binding) execution_payload
                         execution_signature;
  _ ← raise_if (negb execution_verified) receipt_error "Verifier execution signature is invalid";
  final_payload ← final_message (JObj document);
  final_verified ← openssl_verify (kb_openssl binding) (kb_public binding) final_payload
                     final_signature;
  _ ← raise_if (negb final_verified) receipt_error "Verifier final receipt signature is invalid";
  Ok document.
End VerifierReceipt.

(** * What verification establishes *)

Section Verified.
Context `{Hashing} `{OpenSSL}.

(** The path and everything above it is root's own and not writable by others. *)
Definition root_file (h : host) (path : string) : Prop :=
  is_absolute path = true ∧ (∃ m, lstat h path = Some m ∧ unprotected_file m = false) ∧
  Forall (λ p, ∃ m, lstat h p = Some m ∧ unprotected_directory m = false) (parents path).

Lemma root_owned_file_ok h path private executable p :
  _require_root_owned_file h path private executable = Ok p → p = path ∧ root_file h path.
Proof.
  intros Hv. step Hv u Hp. apply raise_if_ok in Hp. bool_split.
  destruct (lstat h path) as [m|] eqn:Em; [|done].
  destruct (lstats h (parents path)) as [ms|] eqn:Ems; [|done].
  step Hv u1 Hu. apply raise_if_ok in Hu. bool_split. do 2 skip Hv. apply Ok_inj in Hv as <-.
  split; [done|]. split; [done|]. split; [by exists m|]. by eapply lstats_forallb.
Qed.

(** The administrator's binary: root's own, with the digest root wrote down. *)
Definition trusted_binary (h : host) (openssl digest : string) : Prop :=
  root_file h openssl ∧ root_file h digest ∧
  ∃ b, bytes_at h openssl = Some b ∧ read_openssl_digest h digest = Ok (sha256_hex b).

Lemma openssl_trusted h openssl digest o :
  _trusted_openssl_binding h openssl digest = Ok o → o.1 = openssl ∧ trusted_binary h openssl digest.
Proof.
  intros Hv. step Hv q1 H1. apply root_owned_file_ok in H1 as [-> H1].
  step Hv q2 H2. apply root_owned_file_ok in H2 as [-> H2].
  step Hv expected He. skip Hv. step Hv observed Ho. step Hv u Hu. apply Ok_inj in Hv as <-.
  apply raise_if_ok, negb_false_iff, bool_decide_eq_true in Hu as ->.
  unfold file_sha256 in Ho. destruct (bytes_at h openssl) as [b|] eqn:Eb; [|done].
  apply Ok_inj in Ho as <-. split; [done|]. split; [done|]. split; [done|]. by exists b.
Qed.

Lemma verifier_spki_ok key openssl sha : _public_key_spki_sha256 key openssl = Ok sha →
  ∃ der, run_pkey_der openssl key = Some (0, der) ∧ sha = sha256_hex der.
Proof.
  unfold _public_key_spki_sha256. destruct (run_pkey_der openssl key) as [[code der]|]; [|done].
  intros Hs. step Hs u Hu. apply Ok_inj in Hs as <-. apply raise_if_ok in Hu.
  apply orb_false_iff in Hu as [[->%negb_false_iff%Z.eqb_eq _]%orb_false_iff _]. by exists der.
Qed.

(** The verifier's and the broker's public key, in the form the administrator's
    OpenSSL gives them, are different keys, and so are their digests. *)
Definition distinct_keys (b : key_binding) : Prop := ∃ der broker_der,
  run_pkey_der BROKER_OPENSSL_PATH VERIFIER_PUBLIC_KEY_PATH = Some (0, der) ∧
  run_pkey_der BROKER_OPENSSL_PATH BROKER_PUBLIC_KEY_PATH = Some (0, broker_der) ∧
  kb_spki b = sha256_hex der ∧ kb_broker_spki b = sha256_hex broker_der ∧
  sha256_hex der ≠ sha256_hex broker_der ∧ der ≠ broker_der.

(** The keys a verified receipt rests on. *)
Definition trusted_keys (h : host) (b : key_binding) : Prop :=
  kb_public b = VERIFIER_PUBLIC_KEY_PATH ∧ kb_openssl b = BROKER_OPENSSL_PATH ∧
  root_file h VERIFIER_PUBLIC_KEY_PATH ∧ root_file h BROKER_PUBLIC_KEY_PATH ∧
  trusted_binary h BROKER_OPENSSL_PATH VERIFIER_OPENSSL_SHA256_PATH ∧
  (∃ content, bytes_at h VERIFIER_PUBLIC_KEY_PATH = Some content ∧ kb_public_sha256 b = sha256_hex content) ∧
  distinct_keys b.

Lemma verification_binding_ok h b :
  trusted_receipt_verification_binding h = Ok b → trusted_keys h b.
Proof.
  intros Hv. step Hv q1 H1. apply root_owned_file_ok in H1 as [-> H1].
  step Hv q2 H2. apply root_owned_file_ok in H2 as [-> H2].
  step Hv o Ho. apply openssl_trusted in Ho as [Eo Ho]. step Hv distinct Hd. step Hv sha Hs.
  apply Ok_inj in Hv as <-. unfold file_sha256 in Hs.
  destruct (bytes_at h VERIFIER_PUBLIC_KEY_PATH) as [c|] eqn:Ec; [|done]. apply Ok_inj in Hs as <-.
  split; [done|]. split; [done|]. split; [done|]. split; [done|]. split; [done|]. split; [by exists c|].
  rewrite Eo in Hd. step Hd s1 Hs1. step Hd s2 Hs2. step Hd u Hu. apply Ok_inj in Hd as <-.
  apply raise_if_ok, bool_decide_eq_false in Hu.
  apply verifier_spki_ok in Hs1 as (der & Hder & ->), Hs2 as (broker_der & Hbroker & ->).
  exists der, broker_der. split; [done|]. split; [done|]. split; [done|]. split; [done|].
  split; [exact Hu|]. by intros ->.
Qed.

(** The verifier's key signed the message, says the trusted binary. *)
Definition signed_by_verifier (message signature : string) : Prop :=
  String.length signature = 64%nat ∧
  run_verify BROKER_OPENSSL_PATH VERIFIER_PUBLIC_KEY_PATH message signature = Some 0.

Lemma openssl_verify_ok openssl key message signature :
  openssl_verify openssl key message signature = Ok true ↔
  String.length signature = 64%nat ∧ run_verify openssl key message signature = Some 0.
Proof.
  unfold openssl_verify. rewrite bind_ok. split.
  - intros (u & Hl%raise_if_ok%negb_false_iff%Nat.eqb_eq & Hr). split; [done|].
    destruct (run_verify _ _ _ _) as [code|]; [|done]. apply Ok_inj, Z.eqb_eq in Hr as ->. done.
  - intros [-> ->]. exists tt. done.
Qed.

(** The text the verifier signs: a document of the kind and its digest. *)
Definition signed_text (kind : string) (document : dict) : string := canonical_json (jobj
  [("schema_version", JInt VERIFIER_SCHEMA_VERSION); ("domain", JStr VERIFIER_RECEIPT_DOMAIN);
   ("kind", JStr kind); ("payload_sha256", JStr (sha256_hex (canonical_json (JObj document))));
   ("payload", JObj document)]).

(** The receipt's own field decodes to a signature of the document by the
    verifier. *)
Definition signed_in (receipt : dict) (field kind : string) (document : dict) : Prop :=
  ∃ encoded signature, get receipt field = JStr encoded ∧ Base64.strict_decode encoded = Ok signature ∧
    signed_by_verifier (signed_text kind document) signature.

(** Both signatures: over the execution preimage, and over the whole receipt but
    the final signature itself. *)
Definition doubly_signed (receipt preimage : dict) : Prop :=
  signed_in receipt "execution_signature_b64" "execution-preimage-signature" preimage ∧
  signed_in receipt "final_signature_b64" "final-receipt-signature"
    (delete "final_signature_b64" receipt).

Lemma execution_message_ok preimage m :
  execution_message (JObj preimage) (JStr (sha256_hex (canonical_json (JObj preimage)))) = Ok m →
  m = signed_text "execution-preimage-signature" preimage.
Proof. by intros [-> _]%canonical_bytes_ok. Qed.

Lemma final_message_ok receipt m : final_message (JObj receipt) = Ok m →
  m = signed_text "final-receipt-signature" (delete "final_signature_b64" receipt).
Proof.
  intros Hm. step Hm p Hp. apply canonical_bytes_ok in Hm as [-> _]. step Hp unsigned Hu.
  step Hu d Hd. apply exact_object_ok in Hd as [Hd _]. apply JObj_inj in Hd as <-. apply Ok_inj in Hu as <-.
  step Hp sha Hs. apply canonical_sha_ok in Hs as ->. by apply Ok_inj in Hp as <-.
Qed.

Lemma b64_strict_ok v b : b64_strict v = Ok b → ∃ s, v = JStr s ∧ Base64.strict_decode s = Ok b.
Proof. destruct v as [| | | |s| |]; try done. intros Hs. by exists s. Qed.

(** What a verified envelope returns is its payload. *)
Lemma envelope_payload h e kind payload public openssl digest p :
  verify_signed_envelope h (JObj e) kind public openssl digest = Ok p →
  get e "payload" = JObj payload → p = payload.
Proof.
  intros Hv Hp. apply bind_ok in Hv as (q & Hq & Hv).
  apply validate_signed_envelope_ok in Hq as (e' & s & He & _ & Hq & _).
  apply JObj_inj in He as <-. rewrite Hp in Hq. apply JObj_inj in Hq as <-.
  step Hv a1 H1. step Hv a2 H2. step Hv a3 H3. step Hv a4 H4. step Hv a5 H5. step Hv a6 H6.
  step Hv a7 H7. step Hv a8 H8. apply Ok_inj in Hv as <-. reflexivity.
Qed.

(** C13: A verified receipt is authentic: it is a bound receipt, the broker's
    signature in its cleanup proof is one of its cleanup statement under the
    broker's key, and the two signatures the receipt itself carries are the
    verifier's, of the execution preimage with its digest and of the whole
    receipt, according to an OpenSSL binary and keys that only root could have
    written.  The public key files of the verifier and of the broker hold
    different keys. *)
Theorem verified_receipt_is_authentic h document dispatch receipt :
  verify_verification_receipt h document dispatch = Ok receipt →
  ∃ preimage cleanup proof binding,
    validate_execution_preimage (JObj preimage) dispatch = Ok preimage ∧
    bound_receipt receipt preimage cleanup ∧
    get receipt "cleanup_proof" = JObj proof ∧
    verify_signed_envelope h (JObj proof) "snapshot-cleaned" BROKER_PUBLIC_KEY_PATH
      BROKER_OPENSSL_PATH BROKER_OPENSSL_SHA256_PATH = Ok cleanup ∧
    signature_checked h BROKER_PUBLIC_KEY_PATH BROKER_OPENSSL_PATH proof cleanup ∧
    trusted_keys h binding ∧ get receipt "public_key_sha256" = JStr (kb_public_sha256 binding) ∧
    doubly_signed receipt preimage.
Proof.
  intros Hv. step Hv r Hr. apply receipt_ok in Hr as (-> & preimage & cleanup & Hp & Hb).
  step Hv binding Hk. apply verification_binding_ok in Hk. step Hv u Hkey.
  apply raise_if_ok, py_neq_str in Hkey. step Hv c Hc. step Hv b1 H1. step Hv b2 H2.
  step Hv m1 Hm1. step Hv v1 Hv1. step Hv u1 Hu1. step Hv m2 Hm2. step Hv v2 Hv2. step Hv u2 Hu2.
  apply Ok_inj in Hv as ->. apply raise_if_ok, negb_false_iff in Hu1 as ->, Hu2 as ->.
  apply openssl_verify_ok in Hv1 as [L1 R1], Hv2 as [L2 R2].
  pose proof Hb as (Hpre & Hsha & (e & He & Hpay & _) & _). rewrite Hpre, Hsha in Hm1.
  apply execution_message_ok in Hm1 as ->. apply final_message_ok in Hm2 as ->.
  apply catch_raise_ok in Hc. rewrite He in Hc.
  rewrite (envelope_payload h e _ cleanup _ _ _ _ Hc Hpay) in Hc.
  pose proof (verified_envelope_ok _ _ _ _ _ _ _ Hc) as (_ & _ & e' & Ee & Hsig).
  apply JObj_inj in Ee as <-. exists preimage, cleanup, e, binding. do 7 (split; [done|]).
  destruct Hk as (Ep & Eo & _). rewrite Ep, Eo in *.
  apply b64_strict_ok in H1 as (s1 & E1 & D1), H2 as (s2 & E2 & D2).
  split; [exists s1, b1 | exists s2, b2]; (split; [assumption|]; split; [assumption|by split]).
Qed.

Lemma b64_strict_b64 s : b64_strict (JStr (b64 s)) = Ok s.
Proof. apply Base64.strict_decode_encode. Qed.

Lemma signing_binding_verifies h private b :
  trusted_receipt_signing_binding h = Ok (private, b) → trusted_receipt_verification_binding h = Ok b.
Proof.
  intros Hs. step Hs p Hp. step Hs q1 H1. step Hs q2 H2. step Hs b' Hb. apply Ok_inj in Hs.
  injection Hs as _ <-. unfold trusted_receipt_verification_binding.
  rewrite (bind_run _ _ _ H1), (bind_run _ _ _ H2). exact Hb.
Qed.

(** What the service seals, verification accepts: a receipt that signing
    returns verifies on the same host as the same document, whatever OpenSSL
    does, because signing only returns what it has verified. *)
Theorem sealed_receipts_verify h preimage cleanup_proof sealed_at dispatch receipt :
  sign_verification_receipt h preimage cleanup_proof sealed_at dispatch = Ok receipt →
  verify_verification_receipt h (JObj receipt) dispatch = Ok receipt.
Proof.
  intros Hs. step Hs p Hp. step Hs psha Hpsha. step Hs c Hc. step Hs u Hu. step Hs kb Hk.
  destruct kb as [private b]. step Hs m1 Hm1. step Hs s1 Hs1. step Hs csha Hcsha. step Hs u1 Hu1.
  step Hs m0 Hm0. step Hs s2 Hs2. step Hs v1 Hv1. step Hs m2 Hm2. step Hs v2 Hv2. step Hs u2 Hu2.
  apply raise_if_ok, negb_false_iff, andb_true_iff in Hu2 as [-> ->].
  pose proof Hs as (Hr & _)%receipt_ok. rewrite Hr in Hs, Hm2.
  apply JObj_inj in Hr. subst receipt. unfold verify_verification_receipt.
  rewrite (bind_run _ _ _ Hs), (bind_run _ _ _ (signing_binding_verifies _ _ _ Hk)).
  rewrite check_run by by apply py_neq_str. rewrite (bind_run _ _ _ Hc).
  rewrite (bind_run _ _ _ (b64_strict_b64 s1)), (bind_run _ _ _ (b64_strict_b64 s2)).
  rewrite (bind_run _ _ _ Hm1), (bind_run _ _ _ Hv1), check_run by reflexivity.
  rewrite (bind_run _ _ _ Hm2), (bind_run _ _ _ Hv2), check_run by reflexivity. reflexivity.
Qed.
End Verified.
