(* ===== verification/AuthorityV2.v ===== *)
(** * The Ed25519 v2 ledger domain ([ledger_authority_v2.py])

    Envelopes of signed events, the chain they form, the anchor of a v1
    ledger, and the dispatch that a full chain signs.  The keys and the OpenSSL
    binary are files of a [host]; OpenSSL itself is the class [OpenSSL]. *)

From S2P Require Import SnapshotProtocol VerifierProtocol VerifierReceipt.
From S2P Require Export Host.

Definition LEDGER_V2_SCHEMA_VERSION : Z := 2.
Definition LEDGER_V2_PROTOCOL_ID : string := "cogni-os.ledger-authority.v2".
Definition LEDGER_V2_DOMAIN : string := "cogni-os.ledger-event.v2".
Definition LEDGER_V2_SIGNATURE_ALGORITHM : string := "ed25519-openssl-pkeyutl-raw-v1".
Definition LEDGER_V2_GENESIS_HASH : string := zeros 64.
Definition LEDGER_AUTHORITY_PRIVATE_KEY_PATH : string := "/etc/cogni-os/ledger-authority/ed25519-private.pem".
Definition LEDGER_AUTHORITY_PUBLIC_KEY_PATH : string := "/etc/cogni-os/ledger-authority/ed25519-public.pem".
Definition LEDGER_AUTHORITY_OPENSSL_SHA256_PATH : string := "/etc/cogni-os/ledger-authority/openssl.sha256".
Definition MAX_LEDGER_V2_DOCUMENT_BYTES : Z := 4 * 1024 * 1024.
Definition MAX_LEDGER_V2_EVENTS : Z := 1000000.
Definition MAX_LEGACY_SNAPSHOT_BYTES : Z := 512 * 1024 * 1024.

Definition EVENT_KEYS : list string :=
  ["sequence"; "ledger_id"; "timestamp"; "actor"; "action"; "task_id"; "payload"; "previous_hash"].
Definition ENVELOPE_KEYS : list string :=
  ["schema_version"; "protocol_id"; "domain"; "kind"; "algorithm"; "key_id"; "event";
   "event_hash"; "signature_b64"].
Definition LEGACY_HMAC_V1_EVENT_KEYS : list string :=
  ["sequence"; "timestamp"; "actor"; "action"; "task_id"; "payload"; "previous_hash";
   "event_hash"; "signature"].
Definition SIGNED_DISPATCH_PAYLOAD_KEYS : list string :=
  List.filter (λ k, negb (bool_decide (k = "dispatch_event_hash"))) DISPATCH_KEYS.
Definition MIGRATION_PAYLOAD_KEYS : list string :=
  ["schema_version"; "kind"; "legacy_scheme"; "legacy_head_hash"; "legacy_event_count";
   "legacy_snapshot_sha256"; "legacy_snapshot_size_bytes"; "migration_policy";
   "legacy_authoritative"].
Definition MIGRATION_ACTION : string := "ledger.migration.v1-anchored".
Definition MIGRATION_POLICY : string := "audit-only-no-authority-inheritance".
Definition SIGNATURE_PREIMAGE_KEYS : list string :=
  ["schema_version"; "protocol_id"; "domain"; "kind"; "algorithm"; "key_id"; "ledger_id";
   "event_hash"; "event"].

Notation authority_error := LedgerAuthorityV2Error.

Section AuthorityV2.
Context `{Hashing}.

Definition canonical_json_bytes (value : json) : res string :=
  canonical_bytes authority_error MAX_LEDGER_V2_DOCUMENT_BYTES value.
Definition canonical_json_sha256 (value : json) : res string :=
  canonical_sha256 authority_error MAX_LEDGER_V2_DOCUMENT_BYTES value.
Definition _exact_object (value : json) (keys : list string) (label : string) : res dict :=
  exact_object authority_error MAX_LEDGER_V2_DOCUMENT_BYTES value keys label.
Definition _sha256 (value : json) (label : string) : res string :=
  checked authority_error (re_hex 64) value (label +:+ " must be a lowercase SHA-256").
Definition _identifier (value : json) (label : string) : res string :=
  checked authority_error wire_identifier value (label +:+ " is invalid").

Definition _timestamp (value : json) : res string :=
  match value with
  | JStr s =>
      _ ← raise_if (bool_decide (s = "") || (64 <? py_len s)%nat) authority_error
            "Ledger v2 timestamp is invalid";
      parsed ← catch (fromisoformat (normalize_z s)) ValueError
                 (λ _, raise authority_error "Ledger v2 timestamp is invalid");
      _ ← raise_if (bool_decide (dt_off parsed = None)) authority_error
            "Ledger v2 timestamp has no timezone";
      Ok s
  | _ => raise authority_error "Ledger v2 timestamp is invalid"
  end.

(** An [int] that is not a [bool], within the bounds. *)
Definition int_within (lo hi : Z) (v : json) : bool :=
  match v with JInt z => (lo <=? z) && (z <=? hi) | _ => false end.

(** ** Events and envelopes *)

Definition validate_v2_event (event : json) : res dict :=
  document ← _exact_object event EVENT_KEYS "Ledger v2 event";
  _ ← raise_if (negb (int_within 1 MAX_LEDGER_V2_EVENTS (get document "sequence"))) authority_error
        "Ledger v2 sequence is invalid";
  _ ← _identifier (get document "ledger_id") "Ledger v2 ledger_id";
  _ ← _timestamp (get document "timestamp");
  _ ← _identifier (get document "actor") "Ledger v2 actor";
  _ ← _identifier (get document "action") "Ledger v2 action";
  _ ← (if is_null (get document "task_id") then Ok ""
       else _identifier (get document "task_id") "Ledger v2 task_id");
  _ ← raise_if (negb (is_dict (get document "payload"))) authority_error
        "Ledger v2 payload must be an object";
  _ ← _sha256 (get document "previous_hash") "Ledger v2 previous_hash";
  Ok document.

Definition decode_signature (signature : json) : res string :=
  match signature with
  | JStr s =>
      _ ← raise_if (1024 <? Z.of_nat (py_len s)) authority_error
            "Ledger v2 signature encoding is invalid";
      decoded ← catch (Base64.strict_decode s) ValueError
                  (λ _, raise authority_error "Ledger v2 signature encoding is invalid");
      _ ← raise_if (negb (String.length decoded =? 64)%nat) authority_error
            "Ledger v2 Ed25519 signature length is invalid";
      Ok decoded
  | _ => raise authority_error "Ledger v2 signature encoding is invalid"
  end.

Definition validate_v2_envelope (envelope : json) : res dict :=
  document ← _exact_object envelope ENVELOPE_KEYS "Ledger v2 envelope";
  _ ← raise_if (py_neq (get document "schema_version") (JInt LEDGER_V2_SCHEMA_VERSION)
                || py_neq (get document "protocol_id") (JStr LEDGER_V2_PROTOCOL_ID)
                || py_neq (get document "domain") (JStr LEDGER_V2_DOMAIN)
                || py_neq (get document "kind") (JStr "ledger-event")
                || py_neq (get document "algorithm") (JStr LEDGER_V2_SIGNATURE_ALGORITHM))
        authority_error "Ledger v2 envelope identity is invalid";
  _ ← _sha256 (get document "key_id") "Ledger v2 key_id";
  event ← validate_v2_event (get document "event");
  event_hash ← canonical_json_sha256 (JObj event);
  _ ← raise_if (py_neq (get document "event_hash") (JStr event_hash)) authority_error
        "Ledger v2 event hash is invalid";
  _ ← decode_signature (get document "signature_b64");
  Ok document.

Definition decode_canonical_v2_envelope (encoded : string) : res dict :=
  _ ← raise_if (bool_decide (encoded = "")) authority_error "Ledger v2 encoded envelope is invalid";
  _ ← raise_if (MAX_LEDGER_V2_DOCUMENT_BYTES <? Z.of_nat (String.length encoded)) authority_error
        "Ledger v2 encoded envelope exceeds its limit";
  document ← (if utf8_valid encoded
              then catch (json_loads encoded) JSONDecodeError
                     (λ _, raise authority_error "Ledger v2 encoded envelope is invalid")
              else raise authority_error "Ledger v2 encoded envelope is invalid");
  again ← canonical_json_bytes document;
  _ ← raise_if (negb (bool_decide (again = encoded))) authority_error
        "Ledger v2 envelope bytes are not canonical";
  validate_v2_envelope document.

(** ** Trust material *)

Definition _require_root_owned_file (h : host) (path : string) (private executable : bool)
    : res string :=
  _ ← raise_if (negb (posix h) || negb (is_absolute path)) authority_error
        "Ledger v2 trust material requires POSIX";
  match lstat h path, lstats h (parents path) with
  | Some metadata, Some ancestors =>
      _ ← raise_if (negb (is_kind Regular metadata) || is_kind Link metadata
                    || negb (m_uid metadata =? 0) || others_write metadata
                    || existsb (λ parent, negb (is_kind Directory parent) || is_kind Link parent
                                          || negb (m_uid parent =? 0) || others_write parent) ancestors)
            authority_error "Ledger v2 trust path is not root-protected";
      _ ← raise_if (private && negb (m_mode metadata =? 384)) authority_error
            "Ledger v2 private key must be mode 0600";
      _ ← raise_if (executable && negb (runnable h path)) authority_error
            "Ledger v2 OpenSSL binary is not executable";
      Ok path
  | _, _ => raise authority_error "Ledger v2 trust material is unavailable"
  end.

(** The path and the digest of the OpenSSL binary. *)
Definition _trusted_openssl_binding (h : host) (openssl_path digest_path : string)
    : res (string * string) :=
  openssl ← _require_root_owned_file h openssl_path false true;
  digest ← _require_root_owned_file h digest_path false false;
  expected ← match bytes_at h digest with
             | Some b => if all_chars is_ascii b then Ok (lower (strip b))
                         else raise authority_error "Ledger v2 OpenSSL digest is unreadable"
             | None => raise authority_error "Ledger v2 OpenSSL digest is unreadable"
             end;
  _ ← _sha256 (JStr expected) "Ledger v2 OpenSSL digest";
  observed ← file_sha256 h openssl;
  _ ← raise_if (negb (bool_decide (observed = expected))) authority_error
        "Ledger v2 OpenSSL binary digest mismatch";
  Ok (openssl, observed).

Context `{OpenSSL}.

Definition _public_key_spki_sha256 (public_key_path openssl_path : string) : res string :=
  match run_pkey_der openssl_path public_key_path with
  | None => raise authority_error "Ledger v2 public-key SPKI conversion failed"
  | Some (code, stdout) =>
      _ ← raise_if (negb (code =? 0) || bool_decide (stdout = "")
                    || (4096 <? Z.of_nat (String.length stdout))) authority_error
            "Ledger v2 public-key SPKI is invalid";
      Ok (sha256_hex stdout)
  end.

(** The digests of the ledger's, the broker's and the verifier's key. *)
Record spki := Spki { ledger_spki : string; broker_spki : string; verifier_spki : string }.

Definition _distinct_authority_spki_binding
    (ledger_public_key_path broker_public_key_path verifier_public_key_path openssl_path : string)
    : res spki :=
  l ← _public_key_spki_sha256 ledger_public_key_path openssl_path;
  b ← _public_key_spki_sha256 broker_public_key_path openssl_path;
  v ← _public_key_spki_sha256 verifier_public_key_path openssl_path;
  _ ← raise_if (negb (bool_decide (NoDup [l; b; v]))) authority_error
        "Ledger, broker, and verifier must use distinct Ed25519 SPKI keys";
  Ok (Spki l b v).

Record binding := Binding { key_id : string; openssl : string; keys : spki }.

(** The paths are the module's defaults, the only ones the callers use. *)
Definition trusted_ledger_verification_binding (h : host) : res binding :=
  public ← _require_root_owned_file h LEDGER_AUTHORITY_PUBLIC_KEY_PATH false false;
  broker ← _require_root_owned_file h BROKER_PUBLIC_KEY_PATH false false;
  verifier ← _require_root_owned_file h VERIFIER_PUBLIC_KEY_PATH false false;
  openssl ← _trusted_openssl_binding h BROKER_OPENSSL_PATH LEDGER_AUTHORITY_OPENSSL_SHA256_PATH;
  distinct ← _distinct_authority_spki_binding public broker verifier openssl.1;
  Ok (Binding (ledger_spki distinct) openssl.1 distinct).

Definition trusted_ledger_signing_binding (h : host) : res binding :=
  _ ← _require_root_owned_file h LEDGER_AUTHORITY_PRIVATE_KEY_PATH true false;
  trusted_ledger_verification_binding h.

(** [_openssl_ed25519] without and with a signature. *)
Definition ed25519_sign (openssl_path key_path payload : string) : res string :=
  match run_sign openssl_path key_path payload with
  | None => raise authority_error "Ledger v2 Ed25519 operation failed"
  | Some (code, result) =>
      _ ← raise_if (negb (code =? 0)) authority_error "OpenSSL refused the Ledger v2 signature";
      _ ← raise_if (negb (String.length result =? 64)%nat) authority_error
            "OpenSSL returned an invalid Ledger v2 signature";
      Ok result
  end.
Definition ed25519_verify (openssl_path key_path payload signature : string) : res bool :=
  _ ← raise_if (negb (String.length signature =? 64)%nat) authority_error
        "Ledger v2 Ed25519 signature is invalid";
  match run_verify openssl_path key_path payload signature with
  | None => raise authority_error "Ledger v2 Ed25519 operation failed"
  | Some code => Ok (code =? 0)
  end.

(** ** Signing and verifying one event *)

Definition _signature_payload (event : dict) (event_hash key_id : json) : res dict :=
  ledger_id ← item event "ledger_id";
  _exact_object (jobj
    [("schema_version", JInt LEDGER_V2_SCHEMA_VERSION);
     ("protocol_id", JStr LEDGER_V2_PROTOCOL_ID);
     ("domain", JStr LEDGER_V2_DOMAIN);
     ("kind", JStr "ledger-event-signature");
     ("algorithm", JStr LEDGER_V2_SIGNATURE_ALGORITHM);
     ("key_id", key_id); ("ledger_id", ledger_id); ("event_hash", event_hash);
     ("event", JObj event)]) SIGNATURE_PREIMAGE_KEYS "Ledger v2 signature preimage".

Definition signature_message (event : dict) (event_hash key_id : json) : res string :=
  p ← _signature_payload event event_hash key_id; canonical_json_bytes (JObj p).

Definition v2_envelope (key_id : string) (event : dict) (event_hash signature : string) : json := jobj
  [("schema_version", JInt LEDGER_V2_SCHEMA_VERSION);
   ("protocol_id", JStr LEDGER_V2_PROTOCOL_ID);
   ("domain", JStr LEDGER_V2_DOMAIN);
   ("kind", JStr "ledger-event");
   ("algorithm", JStr LEDGER_V2_SIGNATURE_ALGORITHM);
   ("key_id", JStr key_id); ("event", JObj event); ("event_hash", JStr event_hash);
   ("signature_b64", JStr (b64 signature))].

Definition sign_v2_event (h : host) (event : json) : res json :=
  document ← validate_v2_event event;
  event_hash ← canonical_json_sha256 (JObj document);
  binding ← trusted_ledger_signing_binding h;
  key_id ← _sha256 (JStr (key_id binding)) "Ledger v2 signing key_id";
  message ← signature_message document (JStr event_hash) (JStr key_id);
  signature ← ed25519_sign (openssl binding) LEDGER_AUTHORITY_PRIVATE_KEY_PATH message;
  let envelope := v2_envelope key_id document event_hash signature in
  _ ← validate_v2_envelope envelope;
  verified ← ed25519_verify (openssl binding) LEDGER_AUTHORITY_PUBLIC_KEY_PATH message signature;
  _ ← raise_if (negb verified) authority_error "Ledger v2 public/private key pair does not match";
  Ok envelope.

(** [base64.b64decode(document["signature_b64"], validate=True)] of a
    validated envelope is [decode_signature]. *)
Definition verify_v2_event (h : host) (envelope : json) : res dict :=
  document ← validate_v2_envelope envelope;
  binding ← trusted_ledger_verification_binding h;
  key_id ← _sha256 (JStr (key_id binding)) "Ledger v2 verification key_id";
  _ ← raise_if (py_neq (get document "key_id") (JStr key_id)) authority_error
        "Ledger v2 envelope names another public key";
  signature ← decode_signature (get document "signature_b64");
  event ← as_dict (get document "event");
  message ← signature_message event (get document "event_hash") (get document "key_id");
  verified ← ed25519_verify (openssl binding) LEDGER_AUTHORITY_PUBLIC_KEY_PATH message signature;
  _ ← raise_if (negb verified) authority_error "Ledger v2 detached signature is invalid";
  Ok document.

(** ** The chain *)

(** The loop's variables: the hash the next event must name, whether a v1
    ledger was anchored, and the ledger's identifier once it is known. *)
Record chain_state := ChainState {
  previous_hash : string; migrated_from_v1 : bool; chain_ledger_id : option json
}.

Definition build_v1_migration_anchor_payload (legacy_head_hash legacy_event_count
    legacy_snapshot_sha256 legacy_snapshot_size_bytes : json) : res dict :=
  _ ← _sha256 legacy_head_hash "legacy_head_hash";
  _ ← _sha256 legacy_snapshot_sha256 "legacy_snapshot_sha256";
  _ ← raise_if (negb (int_within 0 MAX_LEDGER_V2_EVENTS legacy_event_count)) authority_error
        "legacy_event_count is invalid";
  _ ← raise_if (negb (int_within 0 MAX_LEGACY_SNAPSHOT_BYTES legacy_snapshot_size_bytes))
        authority_error "legacy_snapshot_size_bytes is invalid";
  Ok (dict_of
    [("schema_version", JInt 1); ("kind", JStr "ledger-v1-migration-anchor");
     ("legacy_scheme", JStr "cogni-os.ledger-hmac.v1"); ("legacy_head_hash", legacy_head_hash);
     ("legacy_event_count", legacy_event_count);
     ("legacy_snapshot_sha256", legacy_snapshot_sha256);
     ("legacy_snapshot_size_bytes", legacy_snapshot_size_bytes);
     ("migration_policy", JStr MIGRATION_POLICY); ("legacy_authoritative", JBool false)]).

Definition _validate_migration_event (envelope : dict) : res dict :=
  event ← as_dict (get envelope "event");
  payload ← _exact_object (get event "payload") MIGRATION_PAYLOAD_KEYS "Ledger v1 migration anchor";
  expected ← build_v1_migration_anchor_payload (get payload "legacy_head_hash")
    (get payload "legacy_event_count") (get payload "legacy_snapshot_sha256")
    (get payload "legacy_snapshot_size_bytes");
  _ ← raise_if (py_neq (get event "sequence") (JInt 1)
                || py_neq (get event "previous_hash") (JStr LEDGER_V2_GENESIS_HASH)
                || py_neq (get event "action") (JStr MIGRATION_ACTION)
                || negb (is_null (get event "task_id"))
                || py_neq (JObj payload) (JObj expected)) authority_error
        "Ledger v1 migration boundary is invalid";
  Ok payload.

(** One round of the loop: the event of a verified envelope. *)
Definition link (expected_sequence : Z) (st : chain_state) (document : dict) : res chain_state :=
  event ← as_dict (get document "event");
  _ ← raise_if (py_neq (get event "sequence") (JInt expected_sequence)) authority_error
        "Ledger v2 chain sequence is invalid";
  _ ← raise_if (py_neq (get event "previous_hash") (JStr (previous_hash st))) authority_error
        "Ledger v2 chain link is invalid";
  ledger_id ← match chain_ledger_id st with
              | None => Ok (get event "ledger_id")
              | Some id => _ ← raise_if (py_neq (get event "ledger_id") id) authority_error
                                 "Ledger v2 chain ledger_id changed";
                           Ok id
              end;
  migrated ← (if py_eq (get event "action") (JStr MIGRATION_ACTION) then
                _ ← raise_if (negb (expected_sequence =? 1)) authority_error
                      "Ledger v1 migration anchor must be the first v2 event";
                _ ← _validate_migration_event document;
                Ok true
              else Ok (migrated_from_v1 st));
  Ok (ChainState (str_of (get document "event_hash")) migrated (Some ledger_id)).

Fixpoint verify_links (h : host) (expected_sequence : Z) (st : chain_state) (envelopes : list json)
    : res chain_state :=
  match envelopes with
  | [] => Ok st
  | envelope :: envelopes =>
      document ← verify_v2_event h envelope;
      st ← link expected_sequence st document;
      verify_links h (expected_sequence + 1) st envelopes
  end.

Definition is_legacy_event (item : json) : bool :=
  match item with JObj d => exact_keys d LEGACY_HMAC_V1_EVENT_KEYS | _ => false end.

Definition verify_v2_chain (h : host) (envelopes : list json) : res dict :=
  _ ← raise_if (MAX_LEDGER_V2_EVENTS <? Z.of_nat (length envelopes)) authority_error
        "Ledger v2 chain exceeds its event limit";
  _ ← raise_if (existsb is_legacy_event envelopes) authority_error
        "HMAC v1 and Ed25519 v2 events must not be mixed";
  st ← verify_links h 1 (ChainState LEDGER_V2_GENESIS_HASH false None) envelopes;
  Ok (dict_of
    [("valid", JBool true); ("scheme", JStr LEDGER_V2_DOMAIN);
     ("events", JInt (Z.of_nat (length envelopes))); ("head", JStr (previous_hash st));
     ("ledger_id", default JNull (chain_ledger_id st));
     ("migrated_from_v1_audit_only", JBool (migrated_from_v1 st));
     ("release_ready", JBool false)]).

Definition verify_v1_migration_anchor (h : host) (envelope : json) : res dict :=
  document ← verify_v2_event h envelope; _validate_migration_event document.

(** ** Signed dispatches *)

(** [json.loads(canonical_json_bytes(envelope).decode("utf-8"))] *)
Definition snapshot (envelope : json) : res json :=
  b ← canonical_json_bytes envelope; json_loads b.

Definition verify_signed_dispatch (h : host) (full_chain : list json) (dispatch_event_hash : json)
    (now : Z) : res dict :=
  head ← _sha256 dispatch_event_hash "dispatch_event_hash";
  _ ← raise_if (is_nil full_chain) authority_error
        "Signed dispatch requires a non-empty full chain";
  chain_snapshot ← res_mapM snapshot full_chain;
  chain ← verify_v2_chain h chain_snapshot;
  _ ← raise_if (py_neq (get chain "head") (JStr head)) authority_error
        "Signed dispatch is not the current full-chain head";
  document ← verify_v2_event h (default JNull (last chain_snapshot));
  event ← as_dict (get document "event");
  _ ← raise_if (py_neq (get event "action") (JStr "verification.requested")
                || py_neq (get document "event_hash") (JStr head)) authority_error
        "Signed dispatch head event is invalid";
  payload ← _exact_object (get event "payload") SIGNED_DISPATCH_PAYLOAD_KEYS "Signed dispatch payload";
  _ ← raise_if (py_neq (get event "task_id") (get payload "task_id")
                || py_neq (get event "actor") (get payload "actor")
                || py_neq (get event "ledger_id") (get payload "workspace_id")
                || py_neq (get payload "ledger_domain") (JStr LEDGER_V2_DOMAIN)
                || py_neq (get payload "ledger_head_hash") (get event "previous_hash"))
        authority_error "Signed dispatch event binding is invalid";
  let dispatch := <["dispatch_event_hash" := get document "event_hash"]> payload in
  catch (validate_dispatch (JObj dispatch) now) Exception
    (λ _, raise authority_error "Signed dispatch contract is invalid").
End AuthorityV2.

(** ** Verified chains *)

Section Chains.
Context `{Hashing} `{OpenSSL}.

Lemma v2_object_ok value keys label d :
  _exact_object value keys label = Ok d → value = JObj d ∧ exact_keys d keys = true.
Proof. intros (-> & Hk & _)%exact_object_ok. done. Qed.

Lemma v2_digest_ok v h : canonical_json_sha256 v = Ok h → h = sha256_hex (canonical_json v).
Proof. by intros (b & (-> & _)%canonical_bytes_ok & ->)%canonical_sha256_ok. Qed.

(** The digest that names an event. *)
Definition event_digest (event : dict) : string := sha256_hex (canonical_json (JObj event)).

Lemma event_ok v event : validate_v2_event v = Ok event → v = JObj event.
Proof.
  intros Hv. step Hv d Hd. apply v2_object_ok in Hd as [-> _]. do 8 skip Hv. by apply Ok_inj in Hv as ->.
Qed.

Lemma envelope_ok v document : validate_v2_envelope v = Ok document →
  v = JObj document ∧ ∃ event, get document "event" = JObj event ∧
  get document "event_hash" = JStr (event_digest event) ∧
  validate_v2_event (JObj event) = Ok event.
Proof.
  intros Hv. step Hv d Hd. apply v2_object_ok in Hd as [-> _]. do 2 skip Hv.
  step Hv event He. step Hv eh Hh. step Hv u Hu. skip Hv. apply Ok_inj in Hv as ->.
  pose proof (event_ok _ _ He) as Hev. apply v2_digest_ok in Hh as ->.
  apply raise_if_ok, py_neq_str in Hu. split; [done|]. exists event. rewrite Hev in He. done.
Qed.

(** The bytes that the authority signs for an event. *)
Definition signed_text (event : dict) (event_hash key_id : string) : string := canonical_json (jobj
  [("schema_version", JInt LEDGER_V2_SCHEMA_VERSION); ("protocol_id", JStr LEDGER_V2_PROTOCOL_ID);
   ("domain", JStr LEDGER_V2_DOMAIN); ("kind", JStr "ledger-event-signature");
   ("algorithm", JStr LEDGER_V2_SIGNATURE_ALGORITHM); ("key_id", JStr key_id);
   ("ledger_id", get event "ledger_id"); ("event_hash", JStr event_hash); ("event", JObj event)]).

(** The envelope's own signature of its own event was checked: [signature_b64]
    decodes to 64 bytes that the administrator's OpenSSL accepts, under the
    ledger authority's public key, for the text of the event, its digest and
    the key's identifier; and the envelope names that key by the digest of its
    SPKI. *)
Definition signed_by_authority (h : host) (document : dict) : Prop :=
  ∃ b event der encoded signature,
    trusted_ledger_verification_binding h = Ok b ∧
    run_pkey_der BROKER_OPENSSL_PATH LEDGER_AUTHORITY_PUBLIC_KEY_PATH = Some (0, der) ∧
    get document "key_id" = JStr (sha256_hex der) ∧ get document "event" = JObj event ∧
    get document "signature_b64" = JStr encoded ∧ Base64.strict_decode encoded = Ok signature ∧
    String.length signature = 64%nat ∧
    run_verify BROKER_OPENSSL_PATH LEDGER_AUTHORITY_PUBLIC_KEY_PATH
      (signed_text event (event_digest event) (sha256_hex der)) signature = Some 0.

Lemma decode_signature_ok v b : decode_signature v = Ok b →
  ∃ s, v = JStr s ∧ Base64.strict_decode s = Ok b ∧ String.length b = 64%nat.
Proof.
  destruct v as [| | | |s| |]; try done. unfold decode_signature. intros Hv. skip Hv.
  step Hv d Hd. step Hv u Hl. apply Ok_inj in Hv as <-.
  apply raise_if_ok, negb_false_iff, Nat.eqb_eq in Hl. exists s. split; [done|]. split; [|done].
  by apply catch_raise_ok in Hd.
Qed.

Lemma signature_message_ok event eh key m : signature_message event (JStr eh) (JStr key) = Ok m →
  m = signed_text event eh key.
Proof.
  intros Hm. step Hm p Hp. apply canonical_bytes_ok in Hm as [-> _]. step Hp l Hl.
  apply v2_object_ok in Hp as [<- _]. unfold signed_text, item in *. unfold get at 1.
  destruct (event !! "ledger_id") as [v|]; [|done]. by apply Ok_inj in Hl as ->.
Qed.

Lemma ledger_spki_ok key openssl sha : _public_key_spki_sha256 key openssl = Ok sha →
  ∃ der, run_pkey_der openssl key = Some (0, der) ∧ sha = sha256_hex der.
Proof.
  unfold _public_key_spki_sha256. destruct (run_pkey_der openssl key) as [[code der]|]; [|done].
  intros Hs. step Hs u Hu. apply Ok_inj in Hs as <-. apply raise_if_ok in Hu.
  apply orb_false_iff in Hu as [[->%negb_false_iff%Z.eqb_eq _]%orb_false_iff _]. by exists der.
Qed.

Lemma required_file_ok h path private executable p :
  _require_root_owned_file h path private executable = Ok p → p = path.
Proof.
  intros Hv. skip Hv. destruct (lstat h path), (lstats h (parents path)); try done.
  do 3 skip Hv. by apply Ok_inj in Hv.
Qed.

(** The binding names the authority's key by its SPKI and the administrator's
    OpenSSL. *)
Lemma ledger_binding_ok h b : trusted_ledger_verification_binding h = Ok b →
  openssl b = BROKER_OPENSSL_PATH ∧
  ∃ der, run_pkey_der BROKER_OPENSSL_PATH LEDGER_AUTHORITY_PUBLIC_KEY_PATH = Some (0, der) ∧
         key_id b = sha256_hex der.
Proof.
  intros Hv. step Hv p1 H1. apply required_file_ok in H1 as ->. do 2 skip Hv.
  step Hv o Ho. step Hv d Hd. apply Ok_inj in Hv as <-. cbn [openssl key_id].
  assert (o.1 = BROKER_OPENSSL_PATH) as Eo.
  { step Ho q Hq. apply required_file_ok in Hq as ->. do 5 skip Ho. by apply Ok_inj in Ho as <-. }
  rewrite Eo in *. split; [done|]. step Hd l Hl. do 3 skip Hd. apply Ok_inj in Hd as <-. by apply ledger_spki_ok.
Qed.

Lemma verify_v2_event_ok h v document : verify_v2_event h v = Ok document →
  v = JObj document ∧ signed_by_authority h document ∧
  ∃ event, get document "event" = JObj event ∧ get document "event_hash" = JStr (event_digest event) ∧
           validate_v2_event (JObj event) = Ok event.
Proof.
  intros Hv. step Hv d Hd. step Hv b Hb. step Hv kid Hk. step Hv u Hu. step Hv signature Hs.
  step Hv event He. step Hv message Hm. step Hv verified Hver. step Hv u1 Hok.
  apply Ok_inj in Hv as ->. apply envelope_ok in Hd as (-> & event' & Hev & Hd & Hval).
  split; [done|]. split; [|by exists event'].
  rewrite Hev in He. apply Ok_inj in He as <-. unfold _sha256 in Hk. apply checked_ok in Hk as [[= <-] _].
  apply raise_if_ok, py_neq_str in Hu. rewrite Hu, Hd in Hm. apply signature_message_ok in Hm as ->.
  apply decode_signature_ok in Hs as (encoded & He64 & Hdec & Hlen).
  destruct (ledger_binding_ok _ _ Hb) as (Eo & der & Hder & Ek). rewrite Eo in *. rewrite Ek in *.
  exists b, event', der, encoded, signature. do 7 (split; [done|]).
  step Hver u2 H2. destruct (run_verify _ _ _ signature) as [code|]; [|done].
  apply Ok_inj in Hver as <-. apply raise_if_ok, negb_false_iff, Z.eqb_eq in Hok. by subst.
Qed.

(** Events in order: each one holds its position and the digest of the one
    before it; the last digest is the head. *)
Inductive linked : list dict → string → Prop :=
  | linked_nil : linked [] LEDGER_V2_GENESIS_HASH
  | linked_snoc events head event :
      linked events head →
      py_eq (get event "sequence") (JInt (Z.of_nat (length events) + 1)) = true →
      get event "previous_hash" = JStr head →
      linked (events ++ [event]) (event_digest event).

(** The events of the envelopes of a chain. *)
Definition event_of (envelope : json) : dict :=
  match envelope with
  | JObj e => match get e "event" with JObj event => event | _ => ∅ end
  | _ => ∅
  end.

Lemma link_ok n st document st' event :
  link n st document = Ok st' → get document "event" = JObj event →
  get document "event_hash" = JStr (event_digest event) →
  py_eq (get event "sequence") (JInt n) = true ∧
  get event "previous_hash" = JStr (previous_hash st) ∧
  previous_hash st' = event_digest event ∧
  (∃ id, chain_ledger_id st' = Some id ∧
     (chain_ledger_id st = None → id = get event "ledger_id") ∧
     (∀ i, chain_ledger_id st = Some i → id = i ∧ py_eq (get event "ledger_id") i = true)) ∧
  (get event "action" = JStr MIGRATION_ACTION → n = 1).
Proof.
  intros Hl He Hh. unfold link in Hl. rewrite He in Hl. step Hl ev Hev. apply Ok_inj in Hev as <-.
  step Hl u1 H1. step Hl u2 H2. step Hl lid Hid. step Hl m Hm. apply Ok_inj in Hl as <-.
  apply raise_if_ok, negb_false_iff in H1. apply raise_if_ok, py_neq_str in H2.
  cbn [previous_hash chain_ledger_id]. rewrite Hh. split; [done|]. split; [done|]. split; [done|].
  split.
  - exists lid. split; [done|]. destruct (chain_ledger_id st) as [i|].
    + step Hid u3 H3. apply Ok_inj in Hid as <-. apply raise_if_ok, negb_false_iff in H3.
      split; [done|]. intros i' [= <-]. done.
    + apply Ok_inj in Hid as <-. done.
  - intros Ha. rewrite Ha in Hm. rewrite (proj2 (py_eq_str _ _) eq_refl) in Hm.
    step Hm u3 H3. by apply raise_if_ok, negb_false_iff, Z.eqb_eq in H3.
Qed.

(** What the loop has established after the envelopes [past]. *)
Record walked (h : host) (past : list json) (st : chain_state) : Prop := {
  walked_linked : linked (event_of <$> past) (previous_hash st);
  walked_signed : Forall (λ e, ∃ document, e = JObj document ∧ signed_by_authority h document ∧
                     validate_v2_event (JObj (event_of e)) = Ok (event_of e)) past;
  walked_ledger : ∀ e, e ∈ past → ∃ id, chain_ledger_id st = Some id ∧
                    (head past = Some e ∧ get (event_of e) "ledger_id" = id ∨
                     py_eq (get (event_of e) "ledger_id") id = true);
  walked_start : chain_ledger_id st = None → past = [];
  walked_anchor : ∀ e, e ∈ past → get (event_of e) "action" = JStr MIGRATION_ACTION → head past = Some e
}.

Lemma walked_step h past st e document st' :
  walked h past st → verify_v2_event h e = Ok document →
  link (Z.of_nat (length past) + 1) st document = Ok st' → walked h (past ++ [e]) st'.
Proof.
  intros [Hlk Hsg Hlg Hst Han] Hv Hl.
  apply verify_v2_event_ok in Hv as (-> & Hsig & event & Hev & Hh & Hval).
  destruct (link_ok _ _ _ _ _ Hl Hev Hh) as (Hn & Hp & Hd & (id & Hid & Hnone & Hsome) & Ha).
  assert (event_of (JObj document) = event) as Heo by (unfold event_of; by rewrite Hev).
  split.
  - rewrite fmap_app. cbn [fmap list_fmap]. rewrite Heo, Hd. eapply linked_snoc; [exact Hlk| |exact Hp].
    by rewrite length_fmap.
  - apply Forall_app. split; [done|]. apply Forall_singleton. exists document.
    split; [done|]. split; [done|]. by rewrite Heo.
  - intros x [Hx|Hx%list_elem_of_singleton]%elem_of_app.
    + destruct (Hlg x Hx) as (i & Hi & Hcase). exists id. split; [done|].
      destruct (Hsome i Hi) as [-> _]. destruct Hcase as [[Hh' Hg]|Hg]; [left|by right].
      split; [|done]. destruct past; done.
    + subst x. exists id. split; [done|]. rewrite Heo. destruct (chain_ledger_id st) as [i|] eqn:Ei.
      * destruct (Hsome i eq_refl) as [-> ?]. by right.
      * left. rewrite (Hst eq_refl). rewrite (Hnone eq_refl). done.
  - congruence.
  - intros x [Hx|Hx%list_elem_of_singleton]%elem_of_app Hact.
    + specialize (Han x Hx Hact). destruct past; done.
    + subst x. rewrite Heo in Hact. specialize (Ha Hact). destruct past; [done|cbn in Ha; lia].
Qed.

Lemma verify_links_walked h envelopes past st st' :
  walked h past st → verify_links h (Z.of_nat (length past) + 1) st envelopes = Ok st' →
  walked h (past ++ envelopes) st'.
Proof.
  revert past st. induction envelopes as [|e envelopes IH]; intros past st Hw Hl; cbn in Hl.
  - apply Ok_inj in Hl as <-. by rewrite app_nil_r.
  - step Hl document Hd. step Hl st1 H1. pose proof (walked_step _ _ _ _ _ _ Hw Hd H1) as Hw1.
    change (e :: envelopes) with ([e] ++ envelopes). rewrite app_assoc. apply (IH _ st1 Hw1).
    rewrite length_app. cbn [length]. rewrite Nat2Z.inj_add. exact Hl.
Qed.

Lemma walked_nil h : walked h [] (ChainState LEDGER_V2_GENESIS_HASH false None).
Proof.
  split; [apply linked_nil | constructor | by intros ? ?%elem_of_nil | done | by intros ? ?%elem_of_nil].
Qed.

Lemma chain_ok h envelopes report : verify_v2_chain h envelopes = Ok report →
  ∃ st, walked h envelopes st ∧ get report "head" = JStr (previous_hash st) ∧
        get report "release_ready" = JBool false.
Proof.
  intros Hv. do 2 skip Hv. step Hv st Hst. apply Ok_inj in Hv as <-. exists st.
  split; [|done]. apply (verify_links_walked h envelopes [] (ChainState LEDGER_V2_GENESIS_HASH false None));
    [|exact Hst].
  apply walked_nil.
Qed.

(** Two linked lists with one head are one list, or two texts collide. *)
Lemma linked_unique l1 l2 head :
  linked l1 head → linked l2 head → length l1 = length l2 →
  Forall (λ e, floats_ok (JObj e) = true) l1 → Forall (λ e, floats_ok (JObj e) = true) l2 →
  l1 = l2 ∨ ∃ a b, collision a b.
Proof.
  intros H1. revert l2. induction H1 as [|l1 h1 e1 H1 IH Hs1 Hp1]; intros l2 H2 Hlen F1 F2.
  - destruct l2; [by left|done].
  - inversion H2 as [Hnil|l2' h2 e2 Hl2 Hs2 Hp2 El Eh]; subst l2.
    + rewrite length_app in Hlen. cbn in Hlen. lia.
    + apply Forall_app in F1 as [F1 [G1 _]%Forall_cons], F2 as [F2 [G2 _]%Forall_cons].
      destruct (decide (canonical_json (JObj e1) = canonical_json (JObj e2))) as [E|E];
        [|by right; exists (canonical_json (JObj e1)), (canonical_json (JObj e2))].
      assert (JObj e1 = JObj e2) as Ee by (by apply (dumps_inj compact)). injection Ee as ->.
      rewrite Hp1 in Hp2. injection Hp2 as ->. rewrite !length_app in Hlen. cbn in Hlen.
      destruct (IH l2') as [->|?]; [done|lia|done|done|by left|by right].
Qed.

Lemma linked_last_sequence l head e : linked (l ++ [e]) head →
  py_eq (get e "sequence") (JInt (Z.of_nat (length l) + 1)) = true ∧ head = event_digest e.
Proof.
  inversion 1 as [Hnil|l' h' e' _ Hs _ El Eh].
  - symmetry in Hnil. by apply app_nil in Hnil as [_ ?].
  - by apply app_inj_tail in El as [-> ->].
Qed.
Lemma event_ledger_id v event : validate_v2_event v = Ok event →
  ∃ s, get event "ledger_id" = JStr s.
Proof.
  intros Hv. step Hv d Hd. skip Hv. step Hv lid Hl. do 6 skip Hv. apply Ok_inj in Hv as ->.
  unfold _identifier in Hl. apply checked_ok in Hl as [Hl _]. by exists lid.
Qed.

Lemma walked_one_ledger h past st e first :
  walked h past st → e ∈ past → head past = Some first →
  get (event_of e) "ledger_id" = get (event_of first) "ledger_id".
Proof.
  intros [_ Hsg Hlg _ _] He Hfirst.
  assert (first ∈ past) as Hin by (destruct past; [done|]; injection Hfirst as ->; left).
  rewrite Forall_forall in Hsg.
  destruct (Hsg first Hin) as (? & _ & _ & [s Hs]%event_ledger_id).
  destruct (Hsg e He) as (? & _ & _ & [t Ht]%event_ledger_id).
  destruct (Hlg first Hin) as (i & Hi & Hf). destruct (Hlg e He) as (i' & Hi' & Hcase).
  rewrite Hi in Hi'. injection Hi' as <-.
  assert (i = JStr s) as ->.
  { destruct Hf as [[_ <-]|Hf]; [done|]. rewrite Hs in Hf. by apply py_eq_str_l in Hf. }
  destruct Hcase as [[_ Hcase]|Hcase]; [congruence|]. rewrite Ht in Hcase.
  apply py_eq_str in Hcase. congruence.
Qed.

(** C17: A verified chain is one linked history: the events are numbered from
    one, each names the digest of the event before it and the report's head is
    the last digest; every envelope carries a signature that the ledger
    authority's key verifies; all events are of one ledger, and only the first
    may anchor a v1 ledger. *)
Theorem verified_chain_is_linked h envelopes report :
  verify_v2_chain h envelopes = Ok report →
  ∃ digest, get report "head" = JStr digest ∧ linked (event_of <$> envelopes) digest ∧
    Forall (λ e, ∃ document, e = JObj document ∧ signed_by_authority h document) envelopes ∧
    ∀ e first, e ∈ envelopes → head envelopes = Some first →
      get (event_of e) "ledger_id" = get (event_of first) "ledger_id" ∧
      (get (event_of e) "action" = JStr MIGRATION_ACTION → e = first).
Proof.
  intros (st & Hw & Hh & _)%chain_ok. exists (previous_hash st). split; [done|].
  split; [by eapply walked_linked|]. split.
  - eapply Forall_impl; [by eapply walked_signed|]. intros e (d & ? & ? & _). by exists d.
  - intros e first He Hf. split; [by eapply walked_one_ledger|].
    intros Ha. pose proof (walked_anchor _ _ _ Hw e He Ha) as Hx. rewrite Hf in Hx. by injection Hx as ->.
Qed.

(** The head pins the history: two verified chains with the same head hold
    the same events, unless two texts with one SHA-256 are at hand.  So a
    history cannot be cut, reordered or edited under a head someone keeps. *)
Theorem chain_head_pins_history h1 h2 c1 c2 r1 r2 :
  verify_v2_chain h1 c1 = Ok r1 → verify_v2_chain h2 c2 = Ok r2 →
  c1 ≠ [] → c2 ≠ [] → get r1 "head" = get r2 "head" →
  Forall (λ e, floats_ok (JObj (event_of e)) = true) (c1 ++ c2) →
  event_of <$> c1 = event_of <$> c2 ∨ ∃ a b, collision a b.
Proof.
  intros (s1 & W1 & R1 & _)%chain_ok (s2 & W2 & R2 & _)%chain_ok N1 N2 Hhead [F1 F2]%Forall_app.
  apply walked_linked in W1, W2. rewrite R1, R2 in Hhead. injection Hhead as Hhead.
  rewrite Hhead in W1.
  apply (Forall_fmap event_of (λ e, floats_ok (JObj e) = true)) in F1, F2.
  destruct (exists_last N1) as (l1 & e1 & E1), (exists_last N2) as (l2 & e2 & E2).
  assert (Hlen : length c1 = length c2 ∨ ∃ a b, collision a b).
  { rewrite E1, fmap_app in W1. rewrite E2, fmap_app in W2.
    destruct (linked_last_sequence _ _ _ W1) as [S1 D1], (linked_last_sequence _ _ _ W2) as [S2 D2].
    destruct (decide (canonical_json (JObj (event_of e1)) = canonical_json (JObj (event_of e2)))) as [E|E].
    - left. rewrite E1, fmap_app in F1. rewrite E2, fmap_app in F2.
      apply Forall_app in F1 as [_ [G1 _]%Forall_cons], F2 as [_ [G2 _]%Forall_cons].
      assert (JObj (event_of e1) = JObj (event_of e2)) as Ee by (by apply (dumps_inj compact)).
      injection Ee as Ee. rewrite Ee in S1. pose proof (py_eq_int_inj _ _ _ S1 S2) as Hn.
      rewrite !length_fmap in Hn. rewrite E1, E2, !length_app. cbn. lia.
    - right. eexists _, _. split; [exact E|]. unfold event_digest in *; congruence. }
  destruct Hlen as [Hlen|?]; [|by right].
  apply (linked_unique _ _ (previous_hash s2)); [done|done| |done|done]. by rewrite !length_fmap.
Qed.

Lemma v2_envelope_fields key event eh signature d :
  v2_envelope key event eh signature = JObj d →
  get d "key_id" = JStr key ∧ get d "event" = JObj event ∧ get d "event_hash" = JStr eh ∧
  get d "signature_b64" = JStr (b64 signature).
Proof. intros [= <-]. done. Qed.

Lemma decode_signature_b64 signature : (String.length signature =? 64)%nat = true →
  decode_signature (JStr (b64 signature)) = Ok signature.
Proof.
  intros Hl. apply Nat.eqb_eq in Hl as H64. unfold decode_signature, b64.
  pose proof (Base64.py_len_le (Base64.encode false true signature)) as L1.
  pose proof (Base64.encode_std_length signature) as L2. rewrite H64 in L2. cbn in L2.
  destruct (Z.ltb_spec 1024 (Z.of_nat (py_len (Base64.encode false true signature)))); [lia|].
  cbn [raise_if mbind res_bind]. rewrite Base64.strict_decode_encode. cbn [catch mbind res_bind].
  by rewrite Hl.
Qed.

(** A signed event verifies on the same host and holds the event signed. *)
Lemma sign_verifies h event envelope :
  sign_v2_event h (JObj event) = Ok envelope →
  ∃ document, envelope = JObj document ∧ verify_v2_event h envelope = Ok document ∧
              event_of envelope = event.
Proof.
  intros Hs. step Hs d Hd. pose proof (event_ok _ _ Hd) as Hde. injection Hde as <-.
  step Hs eh Hh. step Hs b Hb. step Hs kid Hk.
  assert (kid = key_id b) as -> by (unfold _sha256 in Hk; by apply checked_ok in Hk as [[= <-] _]).
  step Hs message Hm. step Hs signature Hsig. step Hs doc Hdoc. step Hs verified Hver.
  step Hs u Hok. apply Ok_inj in Hs as <-. apply raise_if_ok, negb_false_iff in Hok. subst verified.
  pose proof (envelope_ok _ _ Hdoc) as (Hd' & _). exists doc. split; [done|]. split; [|done].
  assert (Hvb : trusted_ledger_verification_binding h = Ok b) by (by step Hb u1 H1).
  unfold verify_v2_event. rewrite Hdoc. cbn [mbind res_bind]. rewrite Hvb. cbn [mbind res_bind].
  apply v2_envelope_fields in Hd' as (Fk & Fe & Fh & Fs).
  unfold _sha256 in *. apply checked_ok in Hk as [_ Hhex]. cbn [checked]. rewrite Hhex.
  cbn [mbind res_bind]. rewrite Fk, Fe, Fh, Fs. unfold py_neq.
  rewrite (proj2 (py_eq_str _ _) eq_refl). cbn [negb raise_if mbind res_bind].
  step Hver u2 H2. apply raise_if_ok, negb_false_iff in H2.
  rewrite (decode_signature_b64 signature H2). cbn [as_dict mbind res_bind]. rewrite Hm.
  cbn [mbind res_bind]. unfold ed25519_verify. rewrite H2. cbn [negb raise_if mbind res_bind].
  rewrite Hver. reflexivity.
Qed.

Lemma verify_links_snoc h n st l e :
  verify_links h n st (l ++ [e]) =
  (st' ← verify_links h n st l;
   document ← verify_v2_event h e; link (n + Z.of_nat (length l)) st' document).
Proof.
  revert n st. induction l as [|x l IH]; intros n st; cbn [verify_links app length].
  - cbn. rewrite Z.add_0_r. destruct (verify_v2_event h e) as [d|]; [|done]. cbn.
    by destruct (link n st d).
  - destruct (verify_v2_event h x) as [d|]; [|done]. cbn [mbind res_bind].
    destruct (link n st d) as [st1|]; [|done]. cbn [mbind res_bind]. rewrite IH.
    by replace (n + 1 + Z.of_nat (length l)) with (n + Z.of_nat (S (length l))) by lia.
Qed.

Lemma link_accepts n st document event :
  get document "event" = JObj event → get document "event_hash" = JStr (event_digest event) →
  py_eq (get event "sequence") (JInt n) = true →
  get event "previous_hash" = JStr (previous_hash st) →
  (∀ i, chain_ledger_id st = Some i → py_eq (get event "ledger_id") i = true) →
  py_eq (get event "action") (JStr MIGRATION_ACTION) = false →
  ∃ i, link n st document = Ok (ChainState (event_digest event) (migrated_from_v1 st) (Some i)).
Proof.
  intros He Hh Hs Hp Hi Ha. unfold link. rewrite He. cbn [as_dict mbind res_bind].
  unfold py_neq. rewrite Hs. cbn [negb raise_if mbind res_bind]. rewrite Hp.
  rewrite (proj2 (py_eq_str _ _) eq_refl). cbn [negb raise_if mbind res_bind].
  rewrite Ha, Hh. destruct (chain_ledger_id st) as [i|] eqn:Ei.
  - rewrite (Hi i eq_refl). by exists i.
  - by eexists.
Qed.

(** An envelope of v2 has no v1 event's keys. *)
Lemma not_legacy h document : verify_v2_event h (JObj document) = Ok document →
  is_legacy_event (JObj document) = false.
Proof.
  intros Hv. step Hv d Hd. clear Hv. step Hd d' Hk. clear Hd. apply v2_object_ok in Hk as [[= <-] Hk].
  unfold exact_keys in Hk. apply andb_true_iff in Hk as [Hk Hsz%Nat.eqb_eq].
  cbn [is_legacy_event]. destruct (exact_keys document LEGACY_HMAC_V1_EVENT_KEYS) eqn:E; [|done].
  apply andb_true_iff in E as [E _].
  assert (Hsub : list_to_set (C := gset string) ("sequence" :: ENVELOPE_KEYS) ⊆ dom document).
  { intros k Hin%elem_of_list_to_set. apply elem_of_dom. apply forallb_Forall in Hk, E.
    rewrite Forall_forall in Hk, E.
    apply elem_of_cons in Hin as [->|Hin]; apply (bool_decide_unpack _); apply Is_true_true_2;
      [apply E; left|by apply Hk]. }
  apply subseteq_size in Hsub. rewrite size_dom, Hsz in Hsub.
  vm_compute in Hsub. lia.
Qed.

(** A verified chain can always be extended: an event that holds the next
    position, the current head and the chain's ledger, signed by the
    authority, gives a longer verified chain with the event's digest as head. *)
Theorem signed_event_extends_chain h chain report event envelope :
  verify_v2_chain h chain = Ok report →
  sign_v2_event h (JObj event) = Ok envelope →
  Z.of_nat (length chain) < MAX_LEDGER_V2_EVENTS →
  py_eq (get event "sequence") (JInt (Z.of_nat (length chain) + 1)) = true →
  get event "previous_hash" = get report "head" →
  chain = [] ∨ get event "ledger_id" = get report "ledger_id" →
  get event "action" ≠ JStr MIGRATION_ACTION →
  ∃ report', verify_v2_chain h (chain ++ [envelope]) = Ok report' ∧
             get report' "head" = JStr (event_digest event).
Proof.
  intros Hc Hs Hlen Hseq Hprev Hled Hact.
  destruct (sign_verifies h event envelope Hs) as (doc & -> & Hv & Heo).
  pose proof (verify_v2_event_ok _ _ _ Hv) as (_ & _ & ev & He & Hh & Hval).
  assert (ev = event) as -> by (unfold event_of in Heo; by rewrite He in Heo).
  unfold verify_v2_chain in Hc. step Hc u1 H1. step Hc u2 H2. step Hc st Hst.
  apply Ok_inj in Hc as <-. apply raise_if_ok in H2.
  assert (Hw : walked h chain st).
  { apply (verify_links_walked h chain [] (ChainState LEDGER_V2_GENESIS_HASH false None)); [|exact Hst].
    apply walked_nil. }
  destruct (link_accepts (Z.of_nat (length chain) + 1) st doc event He Hh Hseq) as [i Hi].
  - by rewrite Hprev.
  - intros i Hi. destruct Hled as [->|Hled].
    + cbn in Hst. apply Ok_inj in Hst as <-. done.
    + destruct (event_ledger_id _ _ Hval) as [s Hls]. rewrite Hls in Hled |- *.
      change (get _ "ledger_id") with (default JNull (chain_ledger_id st)) in Hled.
      rewrite Hi in Hled. cbn in Hled. subst i. by apply py_eq_str.
  - destruct (py_eq (get event "action") (JStr MIGRATION_ACTION)) eqn:E; [|done]. by apply py_eq_str in E.
  - eexists. split.
    + unfold verify_v2_chain. rewrite length_app. cbn [length].
      destruct (Z.ltb_spec MAX_LEDGER_V2_EVENTS (Z.of_nat (length chain + 1))); [lia|].
      cbn [raise_if mbind res_bind]. rewrite existsb_app, H2. cbn [existsb orb].
      rewrite (not_legacy _ _ Hv). cbn [orb raise_if mbind res_bind].
      rewrite verify_links_snoc, Hst. cbn [mbind res_bind]. rewrite Hv. cbn [mbind res_bind].
      replace (1 + Z.of_nat (length chain)) with (Z.of_nat (length chain) + 1) by lia.
      rewrite Hi. reflexivity.
    + reflexivity.
Qed.
(** What the head event of a chain and the dispatch it signs share. *)
Definition dispatched_by (event dispatch : dict) : Prop :=
  get event "action" = JStr "verification.requested" ∧
  get dispatch "dispatch_event_hash" = JStr (event_digest event) ∧
  py_eq (get dispatch "ledger_head_hash") (get event "previous_hash") = true ∧
  py_eq (get event "task_id") (get dispatch "task_id") = true ∧
  py_eq (get event "actor") (get dispatch "actor") = true ∧
  py_eq (get event "ledger_id") (get dispatch "workspace_id") = true.

Lemma dispatch_ok v now d : validate_dispatch v now = Ok d →
  v = JObj d ∧ ∃ issued expires, get d "issued_at" = JInt issued ∧ get d "expires_at" = JInt expires ∧
  issued < expires ≤ issued + MAX_DISPATCH_TTL_SECONDS ∧
  issued - MAX_CLOCK_SKEW_SECONDS ≤ now ≤ expires ∧
  get d "network_allowed" = JBool false ∧ get d "gpu_allowed" = JBool false.
Proof.
  intros Hv. step Hv p Hp. apply VerifierProtocol.exact_ok in Hp as [-> _]. do 7 skip Hv.
  step Hv u Hng. step Hv issued Hi. step Hv expires He. step Hv u1 H1. step Hv u2 H2.
  apply Ok_inj in Hv as ->. split; [done|]. exists issued, expires.
  apply raise_if_ok, orb_false_iff in Hng as [Hn%negb_false_iff Hg%negb_false_iff].
  apply raise_if_ok in H1, H2. bool_split. unfold _positive_int in *.
  destruct (int_from 1 (get d "issued_at")) as [z|] eqn:Ez; [|done]. apply Ok_inj in Hi as ->.
  destruct (int_from 1 (get d "expires_at")) as [y|] eqn:Ey; [|done]. apply Ok_inj in He as ->.
  apply int_from_Some in Ez as [-> _], Ey as [-> _]. split; [done|]. split; [done|].
  split; [lia|]. split; [lia|].
  destruct (get d "network_allowed") as [|[]| | | | |], (get d "gpu_allowed") as [|[]| | | | |]; done.
Qed.

Lemma keys_without (d : dict) k v k' : k' ≠ k → get (<[k := v]> d) k' = get d k'.
Proof. intros Hk. rewrite get_insert. by rewrite decide_False by congruence. Qed.

End Chains.
