(* ===== verification/AuthorityStore.v ===== *)
(** * The durable store of the v2 ledger ([ledger_authority_store_v2.py])

    A log of signed envelopes and an append-only journal of PREPARE and COMMIT
    records, a line each.  The two files are texts; a call's accesses draw from
    an oracle ([Disk]).  The descriptor lock makes the calls sequential, so a
    call is one computation over the store. *)

From S2P Require Import SnapshotProtocol VerifierProtocol.
From S2P Require Export Disk AuthorityV2.

Definition LEDGER_V2_CHECKPOINT_DOMAIN : string := "cogni-os.ledger-checkpoint.v2".
Definition LEDGER_V2_JOURNAL_DOMAIN : string := "cogni-os.ledger-append-journal.v2".
Definition LEDGER_V2_JOURNAL_GENESIS_HASH : string := zeros 64.
Definition MAX_STORE_LINE_BYTES : Z := MAX_LEDGER_V2_DOCUMENT_BYTES.
Definition MAX_STORE_BYTES : Z := 128 * 1024 * 1024.
Definition MAX_STORE_EVENTS : Z := 100000.
Definition MAX_JOURNAL_LINE_BYTES : Z := MAX_LEDGER_V2_DOCUMENT_BYTES + 16 * 1024.
Definition MAX_JOURNAL_BYTES : Z := 256 * 1024 * 1024.
Definition MAX_JOURNAL_ENTRIES : Z := MAX_STORE_EVENTS * 2.

Definition PREPARE_KEYS : list string :=
  ["schema_version"; "protocol_id"; "domain"; "kind"; "journal_sequence"; "previous_journal_hash";
   "tx_id"; "ledger_id"; "expected_sequence"; "expected_head"; "pre_log_sha256";
   "pre_log_size_bytes"; "post_log_sha256"; "post_log_size_bytes"; "event_hash";
   "envelope_sha256"; "envelope"; "journal_hash"].
Definition COMMIT_KEYS : list string :=
  ["schema_version"; "protocol_id"; "domain"; "kind"; "journal_sequence"; "previous_journal_hash";
   "tx_id"; "prepare_hash"; "ledger_id"; "expected_sequence"; "event_hash"; "post_log_sha256";
   "post_log_size_bytes"; "journal_hash"].
Definition CHECKPOINT_KEYS : list string :=
  ["schema_version"; "protocol_id"; "domain"; "kind"; "algorithm"; "key_id"; "ledger_id";
   "event_count"; "head_hash"; "log_sha256"; "log_size_bytes"; "journal_entry_count";
   "journal_head_hash"; "journal_sha256"; "journal_size_bytes"; "issued_at"; "signature_b64"].
Definition CHECKPOINT_PREIMAGE_KEYS : list string :=
  List.filter (λ k, negb (bool_decide (k = "signature_b64"))) CHECKPOINT_KEYS.

Notation store_error := LedgerAuthorityStoreV2Error.
Notation LF := "010"%char.
Definition line (body : string) : string := body +:+ String LF "".

Section AuthorityStore.
Context `{Hashing} `{OpenSSL}.

(** ** Field checks *)

Definition _sha256 (value : json) (label : string) : res string :=
  checked store_error (re_hex 64) value (label +:+ " must be a lowercase SHA-256").
Definition _identifier (value : json) (label : string) : res string :=
  checked store_error wire_identifier value (label +:+ " is invalid").
Definition bounded_int (minimum maximum : Z) (value : json) (label : string) : res Z :=
  match value with
  | JInt z => if (z <? minimum) || (maximum <? z) then raise store_error (label +:+ " is invalid") else Ok z
  | _ => raise store_error (label +:+ " is invalid")
  end.
Definition _positive_bounded_int (value : json) (maximum : Z) := bounded_int 1 maximum value.
Definition _bounded_nonnegative_int (value : json) (maximum : Z) := bounded_int 0 maximum value.
Definition _exact_object (value : json) (keys : list string) (label : string) : res dict :=
  match value with
  | JObj d =>
      _ ← raise_if (negb (exact_keys d keys)) store_error (label +:+ " schema is not exact");
      _ ← canonical_json_bytes value;
      Ok d
  | _ => raise store_error (label +:+ " schema is not exact")
  end.
Definition _timestamp (value : json) : res string :=
  match value with
  | JStr s =>
      _ ← raise_if (bool_decide (s = "") || (64 <? py_len s)%nat) store_error
            "Checkpoint timestamp is invalid";
      parsed ← catch (fromisoformat (normalize_z s)) ValueError
                 (λ _, raise store_error "Checkpoint timestamp is invalid");
      _ ← raise_if (bool_decide (dt_off parsed = None)) store_error
            "Checkpoint timestamp has no timezone";
      Ok s
  | _ => raise store_error "Checkpoint timestamp is invalid"
  end.

(** ** Lines *)

(** [handle.readline(limit)] *)
Fixpoint readline (limit : Z) (s : string) : string * string :=
  match s with
  | "" => ("", "")
  | String c t =>
      if limit <=? 0 then ("", s)
      else if ascii_dec c LF then (String c "", t)
      else let (l, r) := readline (limit - 1) t in (String c l, r)
  end.

(** A decoded line.  A duplicate key makes the text differ from the canonical
    one; a [NaN] or an infinity is rejected by the parser's hook or, written as
    an overflowing number, by [canonical_json_bytes]. *)
Definition _decode_json_object (body label : string) : res dict :=
  _ ← raise_if (bool_decide (body = "")) store_error (label +:+ " contains blank line");
  value ← (if utf8_valid body
           then catch (json_loads body) JSONDecodeError
                  (λ _, raise store_error (label +:+ " line is not UTF-8 JSON"))
           else raise store_error (label +:+ " line is not UTF-8 JSON"));
  match value with
  | JObj d =>
      again ← canonical_json_bytes value;
      _ ← raise_if (negb (bool_decide (again = body))) store_error
            (label +:+ " line is not canonical JSON");
      Ok d
  | _ => raise store_error (label +:+ " line is not an object")
  end.

Definition _decode_ledger_line (body : string) : res dict :=
  value ← _decode_json_object body "Ledger v2 log";
  _ ← raise_if (is_legacy_event (JObj value)) store_error
        "HMAC v1 event must not be mixed into the Ed25519 v2 store";
  validate_v2_envelope (JObj value).

(** What bounds a file and decodes its lines. *)
Record line_format := LineFormat {
  label : string; maximum_line : Z; maximum_bytes : Z; maximum_entries : Z;
  decoder : string → res dict
}.

(** The documents so far and the text they were read from. *)
Fixpoint read_lines (fuel : nat) (f : line_format) (documents : list dict) (read rest : string)
    : res (list dict * string) :=
  match fuel with
  | O => raise RecursionError "out of fuel"
  | S fuel =>
      let total := Z.of_nat (String.length read) in
      let (l, rest) := readline (Z.min (maximum_line f + 2) (maximum_bytes f - total + 1)) rest in
      if bool_decide (l = "") then Ok (documents, read)
      else
        let total := total + Z.of_nat (String.length l) in
        _ ← raise_if (maximum_bytes f <? total) store_error (label f +:+ " exceeds byte limit");
        _ ← raise_if (maximum_entries f <=? Z.of_nat (length documents)) store_error
              (label f +:+ " exceeds entry limit");
        _ ← raise_if (negb (ends_with (String LF "") l)) store_error
              (label f +:+ (if maximum_line f <? Z.of_nat (String.length l) then " line exceeds its limit"
                            else " non-empty file lacks terminal LF"));
        let body := String.substring 0 (String.length l - 1) l in
        _ ← raise_if (maximum_line f <? Z.of_nat (String.length body)) store_error
              (label f +:+ " line exceeds its limit");
        document ← decoder f body;
        read_lines fuel f (documents ++ [document]) (read +:+ l) rest
  end.

(** The documents of a file, the digest and the size of what was read. *)
Definition _read_jsonl (f : line_format) (content : string) : res (list dict * string * Z) :=
  '(documents, read) ← read_lines (S (String.length content)) f [] "" content;
  Ok (documents, sha256_hex read, Z.of_nat (String.length read)).

(** ** Journal records *)

Definition _with_journal_hash (unsigned : list (string * json)) : res dict :=
  sha ← canonical_json_sha256 (jobj unsigned);
  Ok (dict_of (unsigned ++ [("journal_hash", JStr sha)])).

(** The log of a store and the journal's figures. *)
Record VerifiedV2StoreSnapshot := StoreSnapshot {
  envelopes : list dict; event_count : Z; head_hash : json; ledger_id : json;
  log_sha256 : string; log_size_bytes : Z;
  journal_entry_count : Z; journal_head_hash : json; journal_sha256 : string; journal_size_bytes : Z
}.

Record V2TransactionState := TransactionState {
  t_id : string; t_status : string; t_prepare : option dict; t_commit : option dict
}.

Record _JournalSnapshot := JournalSnapshot {
  entries : list dict; transactions : gmap string V2TransactionState; entry_count : Z;
  j_head_hash : json; j_sha256 : string; j_size_bytes : Z
}.

Record _CombinedAudit := CombinedAudit { ledger : VerifiedV2StoreSnapshot; journal : _JournalSnapshot }.

Record DurableV2Append := Appended { a_tx : string; a_envelope : json; a_snapshot : VerifiedV2StoreSnapshot }.

Definition _make_prepare (tx_id : string) (journal_sequence : Z) (previous_journal_hash : json)
    (envelope : dict) (pre : VerifiedV2StoreSnapshot) (post_log_sha256 : string)
    (post_log_size_bytes : Z) : res dict :=
  event ← as_dict (get envelope "event");
  envelope_sha256 ← canonical_json_sha256 (JObj envelope);
  _with_journal_hash
    [("schema_version", JInt LEDGER_V2_SCHEMA_VERSION); ("protocol_id", JStr LEDGER_V2_PROTOCOL_ID);
     ("domain", JStr LEDGER_V2_JOURNAL_DOMAIN); ("kind", JStr "PREPARE");
     ("journal_sequence", JInt journal_sequence); ("previous_journal_hash", previous_journal_hash);
     ("tx_id", JStr tx_id); ("ledger_id", get event "ledger_id");
     ("expected_sequence", get event "sequence"); ("expected_head", get event "previous_hash");
     ("pre_log_sha256", JStr (log_sha256 pre)); ("pre_log_size_bytes", JInt (log_size_bytes pre));
     ("post_log_sha256", JStr post_log_sha256); ("post_log_size_bytes", JInt post_log_size_bytes);
     ("event_hash", get envelope "event_hash"); ("envelope_sha256", JStr envelope_sha256);
     ("envelope", JObj envelope)].

Definition _make_commit (prepare : dict) (j : _JournalSnapshot) : res dict :=
  _ ← raise_if (py_neq (j_head_hash j) (get prepare "journal_hash")) store_error
        "Ledger v2 PREPARE is not the current journal head";
  _with_journal_hash
    [("schema_version", JInt LEDGER_V2_SCHEMA_VERSION); ("protocol_id", JStr LEDGER_V2_PROTOCOL_ID);
     ("domain", JStr LEDGER_V2_JOURNAL_DOMAIN); ("kind", JStr "COMMIT");
     ("journal_sequence", JInt (entry_count j + 1)); ("previous_journal_hash", j_head_hash j);
     ("tx_id", get prepare "tx_id"); ("prepare_hash", get prepare "journal_hash");
     ("ledger_id", get prepare "ledger_id"); ("expected_sequence", get prepare "expected_sequence");
     ("event_hash", get prepare "event_hash"); ("post_log_sha256", get prepare "post_log_sha256");
     ("post_log_size_bytes", get prepare "post_log_size_bytes")].

(** [entry["kind"] == "PREPARE"] *)
Definition has_kind (kind : string) (entry : dict) : bool := py_eq (get entry "kind") (JStr kind).

(** That a PREPARE binds its envelope. *)
Definition validate_prepare (value : dict) : res unit :=
  _ ← _sha256 (get value "expected_head") "expected_head";
  _ ← _sha256 (get value "pre_log_sha256") "pre_log_sha256";
  pre ← _bounded_nonnegative_int (get value "pre_log_size_bytes") MAX_STORE_BYTES "pre_log_size_bytes";
  _ ← _sha256 (get value "envelope_sha256") "envelope_sha256";
  envelope ← validate_v2_envelope (get value "envelope");
  event ← as_dict (get envelope "event");
  encoded ← canonical_json_bytes (JObj envelope);
  raise_if (py_neq (JStr (sha256_hex encoded)) (get value "envelope_sha256")
            || py_neq (get envelope "event_hash") (get value "event_hash")
            || py_neq (get event "ledger_id") (get value "ledger_id")
            || py_neq (get event "sequence") (get value "expected_sequence")
            || py_neq (get event "previous_hash") (get value "expected_head")
            || py_neq (get value "post_log_size_bytes")
                 (JInt (pre + Z.of_nat (String.length encoded) + 1)))
    store_error "Ledger v2 PREPARE does not bind its exact envelope transition".

Definition _validate_journal_record (value : dict) : res dict :=
  let is_prepare := has_kind "PREPARE" value in
  _ ← raise_if (negb (if is_prepare then exact_keys value PREPARE_KEYS
                      else has_kind "COMMIT" value && exact_keys value COMMIT_KEYS))
        store_error "Ledger v2 journal schema is not exact";
  _ ← raise_if (py_neq (get value "schema_version") (JInt LEDGER_V2_SCHEMA_VERSION)
                || py_neq (get value "protocol_id") (JStr LEDGER_V2_PROTOCOL_ID)
                || py_neq (get value "domain") (JStr LEDGER_V2_JOURNAL_DOMAIN)) store_error
        "Ledger v2 journal identity is invalid";
  _ ← _positive_bounded_int (get value "journal_sequence") MAX_JOURNAL_ENTRIES "journal_sequence";
  _ ← _sha256 (get value "previous_journal_hash") "previous_journal_hash";
  _ ← _identifier (get value "tx_id") "tx_id";
  _ ← _identifier (get value "ledger_id") "journal ledger_id";
  _ ← _positive_bounded_int (get value "expected_sequence") MAX_STORE_EVENTS "expected_sequence";
  _ ← _sha256 (get value "event_hash") "journal event_hash";
  _ ← _sha256 (get value "post_log_sha256") "post_log_sha256";
  _ ← _bounded_nonnegative_int (get value "post_log_size_bytes") MAX_STORE_BYTES "post_log_size_bytes";
  _ ← (if is_prepare then validate_prepare value
       else _ ← _sha256 (get value "prepare_hash") "prepare_hash"; Ok tt);
  claimed ← _sha256 (get value "journal_hash") "journal_hash";
  unsigned ← canonical_json_sha256 (JObj (delete "journal_hash" value));
  _ ← raise_if (negb (bool_decide (unsigned = claimed))) store_error
        "Ledger v2 journal record hash is invalid";
  Ok value.

Definition _decode_journal_line (body : string) : res dict :=
  value ← _decode_json_object body "Ledger v2 journal"; _validate_journal_record value.

Definition log_format : line_format :=
  LineFormat "Ledger v2 log" MAX_STORE_LINE_BYTES MAX_STORE_BYTES MAX_STORE_EVENTS _decode_ledger_line.
Definition journal_format : line_format :=
  LineFormat "Ledger v2 journal" MAX_JOURNAL_LINE_BYTES MAX_JOURNAL_BYTES MAX_JOURNAL_ENTRIES
    _decode_journal_line.

(** ** The journal's chain *)

(** The loop's variables. *)
Record journal_walk := JournalWalk {
  w_previous : json; w_transactions : gmap string V2TransactionState; w_unresolved : option string
}.

(** The fields a COMMIT repeats. *)
Definition bound_keys : list string :=
  ["ledger_id"; "expected_sequence"; "event_hash"; "post_log_sha256"; "post_log_size_bytes"].

Definition chain_entry (index : Z) (w : journal_walk) (entry : dict) : res journal_walk :=
  _ ← raise_if (py_neq (get entry "journal_sequence") (JInt index)
                || py_neq (get entry "previous_journal_hash") (w_previous w)) store_error
        "Ledger v2 journal chain is discontinuous";
  let tx_id := str_of (get entry "tx_id") in
  if has_kind "PREPARE" entry then
    _ ← raise_if (negb (bool_decide (w_unresolved w = None))
                  || bool_decide (is_Some (w_transactions w !! tx_id))) store_error
          "Ledger v2 journal contains overlapping or reused tx_id";
    Ok (JournalWalk (get entry "journal_hash")
          (<[tx_id := TransactionState tx_id "prepared" (Some entry) None]> (w_transactions w)) (Some tx_id))
  else
    match w_transactions w !! tx_id with
    | Some (TransactionState _ _ (Some prepare) _) =>
        _ ← raise_if (negb (bool_decide (w_unresolved w = Some tx_id))) store_error
              "Ledger v2 COMMIT has no immediately pending PREPARE";
        _ ← raise_if (py_neq (get entry "prepare_hash") (get prepare "journal_hash")
                      || py_neq (get entry "previous_journal_hash") (get prepare "journal_hash")
                      || existsb (λ key, py_neq (get entry key) (get prepare key)) bound_keys) store_error
              "Ledger v2 COMMIT does not bind its PREPARE";
        Ok (JournalWalk (get entry "journal_hash")
              (<[tx_id := TransactionState tx_id "committed" (Some prepare) (Some entry)]> (w_transactions w)) None)
    | _ => raise store_error "Ledger v2 COMMIT has no immediately pending PREPARE"
    end.

Fixpoint chain_entries (index : Z) (w : journal_walk) (l : list dict) : res journal_walk :=
  match l with
  | [] => Ok w
  | entry :: l => w ← chain_entry index w entry; chain_entries (index + 1) w l
  end.

Definition journal_start : journal_walk := JournalWalk (JStr LEDGER_V2_JOURNAL_GENESIS_HASH) ∅ None.
Definition _validate_journal_chain (l : list dict) : res (gmap string V2TransactionState) :=
  w ← chain_entries 1 journal_start l; Ok (w_transactions w).

(** ** Reading both files *)

(** The digest and the size of the log after each envelope; [text] and [size]
    are what was hashed so far. *)
Fixpoint prefixes_from (text : string) (l : list dict) : res (list (string * Z)) :=
  match l with
  | [] => Ok [(sha256_hex text, Z.of_nat (String.length text))]
  | e :: l =>
      b ← canonical_json_bytes (JObj e);
      rest ← prefixes_from (text +:+ line b) l;
      Ok ((sha256_hex text, Z.of_nat (String.length text)) :: rest)
  end.
Definition _ledger_prefixes (l : list dict) : res (list (string * Z)) := prefixes_from "" l.
Definition _hash_envelope_lines (l : list dict) : res string :=
  prefixes ← _ledger_prefixes l; Ok (default "" (fst <$> last prefixes)).

Definition unresolved_of (txs : gmap string V2TransactionState) : list V2TransactionState :=
  List.filter (λ t, negb (bool_decide (t_status t = "committed"))) (map_to_list txs).*2.

(** The PREPAREs against the log, in order. *)
Fixpoint check_prepares (prefixes : list (string * Z)) (l : list dict) (ordinal : nat) (prepares : list dict)
    : res unit :=
  match prepares with
  | [] => Ok tt
  | prepare :: prepares =>
      _ ← raise_if (py_neq (get prepare "expected_sequence") (JInt (Z.of_nat ordinal))) store_error
            "Ledger v2 journal event sequence is not contiguous";
      let pre := nth (ordinal - 1) prefixes ("", 0) in
      _ ← raise_if (py_neq (get prepare "pre_log_sha256") (JStr pre.1)
                    || py_neq (get prepare "pre_log_size_bytes") (JInt pre.2)) store_error
            "Ledger v2 PREPARE pre-state does not match the event log";
      _ ← (if (ordinal <=? length l)%nat then
             let post := nth ordinal prefixes ("", 0) in
             raise_if (py_neq (get prepare "envelope") (JObj (nth (ordinal - 1) l ∅))
                       || py_neq (get prepare "post_log_sha256") (JStr post.1)
                       || py_neq (get prepare "post_log_size_bytes") (JInt post.2)) store_error
               "Ledger v2 PREPARE post-state does not match the event log"
           else Ok tt);
      check_prepares prefixes l (S ordinal) prepares
  end.

Definition _validate_combined (l : VerifiedV2StoreSnapshot) (j : _JournalSnapshot) (require_clean : bool)
    : res unit :=
  prefixes ← _ledger_prefixes (envelopes l);
  let prepares := List.filter (has_kind "PREPARE") (entries j) in
  let commits := List.filter (has_kind "COMMIT") (entries j) in
  _ ← raise_if ((event_count l + 1 <? Z.of_nat (length prepares))
                || (event_count l <? Z.of_nat (length commits))) store_error
        "Ledger v2 journal cardinality is inconsistent with the event log";
  _ ← check_prepares prefixes (envelopes l) 1 prepares;
  let unresolved := unresolved_of (transactions j) in
  _ ← raise_if (is_nil unresolved && negb (Z.of_nat (length commits) =? event_count l)) store_error
        "Ledger v2 contains an event without a committed journal transaction";
  match unresolved with
  | [] => Ok tt
  | state :: _ =>
      _ ← raise_if (match t_prepare state with
                    | None => true
                    | Some prepare =>
                        negb (existsb (λ n, py_eq (get prepare "expected_sequence") (JInt n))
                                [event_count l; event_count l + 1])
                    end) store_error
            "Ledger v2 unresolved transaction has an indeterminate log position";
      raise_if require_clean store_error "Ledger v2 transaction is unresolved"
  end.

Definition _require_snapshot_matches_prepare (s : VerifiedV2StoreSnapshot) (prepare : dict) (applied : bool)
    : res unit :=
  raise_if (negb (
    if applied then
      py_eq (JInt (event_count s)) (get prepare "expected_sequence")
      && py_eq (head_hash s) (get prepare "event_hash")
      && py_eq (JStr (log_sha256 s)) (get prepare "post_log_sha256")
      && py_eq (JInt (log_size_bytes s)) (get prepare "post_log_size_bytes")
      && match last (envelopes s) with
         | Some e => py_eq (JObj e) (get prepare "envelope") | None => false end
    else
      py_eq (JInt (event_count s + 1)) (get prepare "expected_sequence")
      && py_eq (head_hash s) (get prepare "expected_head")
      && py_eq (JStr (log_sha256 s)) (get prepare "pre_log_sha256")
      && py_eq (JInt (log_size_bytes s)) (get prepare "pre_log_size_bytes"))) store_error
    "Ledger v2 state matches neither the PREPARE pre-state nor requested state".

(** The log of a content, verified by the keys of the host. *)
Definition read_ledger (h : host) (content : string) : res VerifiedV2StoreSnapshot :=
  '(documents, digest, total) ← _read_jsonl log_format content;
  summary ← verify_v2_chain h (JObj <$> documents);
  Ok (StoreSnapshot documents (Z.of_nat (length documents)) (get summary "head") (get summary "ledger_id")
        digest total 0 (JStr LEDGER_V2_JOURNAL_GENESIS_HASH) (sha256_hex "") 0).

Definition read_journal (content : string) : res _JournalSnapshot :=
  '(documents, digest, total) ← _read_jsonl journal_format content;
  txs ← _validate_journal_chain documents;
  Ok (JournalSnapshot documents txs (Z.of_nat (length documents))
        match last documents with
        | Some entry => get entry "journal_hash" | None => JStr LEDGER_V2_JOURNAL_GENESIS_HASH end
        digest total).

(** ** The store *)

(** The two files, [None] before they are created, the transactions whose
    outcome this process does not know, and the number of accesses so far. *)
Record store := Store {
  s_log : option string; s_jnl : option string; s_indeterminate : gset string; s_tick : nat
}.

Record store_environment := StoreEnvironment {
  st_io : nat → access; st_host : host; st_posix : bool; st_overlap : bool; st_legacy_log : bool
}.

Inductive store_file := LogFile | JournalFile.

Definition content_of (f : store_file) (s : store) : option string :=
  match f with LogFile => s_log s | JournalFile => s_jnl s end.
Definition with_content (f : store_file) (c : option string) (s : store) : store :=
  match f with
  | LogFile => Store c (s_jnl s) (s_indeterminate s) (s_tick s)
  | JournalFile => Store (s_log s) c (s_indeterminate s) (s_tick s)
  end.
Definition with_indeterminate (g : gset string → gset string) (s : store) : store :=
  Store (s_log s) (s_jnl s) (g (s_indeterminate s)) (s_tick s).

Section Operations.
Context (env : store_environment).

Notation Op := (M store).

Definition draw : Op access := λ s,
  (Ok (st_io env (s_tick s)), Store (s_log s) (s_jnl s) (s_indeterminate s) (S (s_tick s))).

(** An access that changes nothing. *)
Definition touch : Op unit :=
  a ← draw; match a with Fine => mret tt | Fault e _ => liftM (Err e) end.

Definition mark (tx_id : string) : Op unit := modifyM (with_indeterminate (λ t, {[tx_id]} ∪ t)).
Definition unmark (tx_id : string) : Op unit := modifyM (with_indeterminate (λ t, t ∖ {[tx_id]})).

(** [with DurableV2DescriptorLock(...)]: the body's exception or result, unless
    the release fails too. *)
Definition acquire : Op unit := catchM touch Exception (λ _, raiseM store_error "Ledger v2 advisory lock failed").
Definition release : Op unit := catchM touch OSError (λ _, raiseM store_error "Ledger v2 advisory unlock failed").
Definition finally {A} (body : Op A) (last : Op unit) : Op A := λ s,
  let (r, s) := body s in
  match last s with (Ok _, s) => (r, s) | (Err e, s) => (Err e, s) end.
Definition locked {A} (body : Op A) : Op A := _ ← acquire; finally body release.

(** *** Files *)

(** [_open_regular] and the file's content. *)
Definition _open_regular (f : store_file) : Op string :=
  catchM touch Exception (λ _, raiseM store_error "open failed") ≫= λ _,
  askM (λ s, res_of_option (Exn store_error "unavailable") (content_of f s)).

(** Bytes at the end of a file. *)
Definition write_end (f : store_file) (bytes : string) : Op unit :=
  modifyM (λ s, with_content f (Some (default "" (content_of f s) +:+ bytes)) s).

Definition _fsync_parent : Op unit := if st_posix env then touch else mret tt.

Definition _append_record (f : store_file) (record : string) (maximum : Z) : Op unit :=
  content ← _open_regular f;
  _ ← raise_ifM (maximum <? Z.of_nat (String.length content + String.length record)) store_error
        "exceeds byte limit";
  _ ← catchM (catchM
        (a ← draw;
         match a with
         | Fine => write_end f record
         | Fault e l => _ ← write_end f (left_of l record); liftM (Err e)
         end) OSError (λ _, raiseM store_error "did not durably complete"))
        store_error (λ _, raiseM store_error "did not durably complete");
  _fsync_parent.

Definition _sync_existing (f : store_file) : Op unit := _ ← _open_regular f; touch.

Definition _read_ledger_unlocked : Op VerifiedV2StoreSnapshot :=
  content ← _open_regular LogFile; liftM (read_ledger (st_host env) content).
Definition _read_journal_unlocked : Op _JournalSnapshot :=
  content ← _open_regular JournalFile; liftM (read_journal content).

(** The ledger's snapshot with the journal's figures. *)
Definition combine (l : VerifiedV2StoreSnapshot) (j : _JournalSnapshot) : _CombinedAudit :=
  CombinedAudit (StoreSnapshot (envelopes l) (event_count l) (head_hash l) (ledger_id l) (log_sha256 l)
    (log_size_bytes l) (entry_count j) (j_head_hash j) (j_sha256 j) (j_size_bytes j)) j.

Definition _read_combined_unlocked (require_clean : bool) (allow_indeterminate_tx_id : option string)
    : Op _CombinedAudit :=
  l ← _read_ledger_unlocked;
  j ← _read_journal_unlocked;
  _ ← liftM (_validate_combined l j require_clean);
  pending ← readM s_indeterminate;
  let allowed : gset string := match allow_indeterminate_tx_id with Some t => {[t]} | None => ∅ end in
  _ ← raise_ifM (require_clean && negb (bool_decide (pending ∖ allowed = ∅))) store_error
        "Ledger v2 has an in-process indeterminate transaction";
  mret (combine l j).

(** *** Creation *)

Definition _create_empty_file (f : store_file) : Op unit :=
  a ← draw;
  existing ← readM (content_of f);
  match a, existing with
  | Fine, None => write_end f ""
  | Fault _ Nothing, None | _, Some _ => raiseM store_error "creation failed"
  | Fault _ _, None => _ ← write_end f ""; raiseM store_error "creation failed"
  end.

Definition _prepare_store_files : Op unit :=
  _ ← raise_ifM (st_overlap env) store_error "Ledger v2 root overlaps the forbidden legacy root";
  _ ← raise_ifM (st_legacy_log env) store_error
        "Ledger v2 root must be separate from the legacy HMAC ledger";
  _ ← catchM touch OSError (λ _, raiseM store_error "Ledger v2 root is unavailable");
  log ← readM s_log;
  jnl ← readM s_jnl;
  match log, jnl with
  | Some _, Some _ => mret tt
  | None, None =>
      _ ← _create_empty_file LogFile;
      _ ← _create_empty_file JournalFile;
      _fsync_parent
  | _, _ => raiseM store_error "Ledger v2 log and journal must either both exist or both be absent"
  end.

(** *** Transactions *)

Definition read_verified : Op VerifiedV2StoreSnapshot :=
  locked (audit ← _read_combined_unlocked true None; mret (ledger audit)).

Definition get_transaction (tx_id : string) : Op V2TransactionState :=
  _ ← liftM (_identifier (JStr tx_id) "tx_id");
  locked (
    audit ← _read_combined_unlocked false None;
    pending ← readM s_indeterminate;
    mret match transactions (journal audit) !! tx_id with
         | None => TransactionState tx_id "missing" None None
         | Some state =>
             if bool_decide (tx_id ∈ pending)
             then TransactionState tx_id "indeterminate" (t_prepare state) (t_commit state) else state
         end).

Definition indeterminate {A} (tx_id phase : string) : Op A :=
  raiseM IndeterminateCommit ("Ledger v2 transaction " +:+ tx_id +:+ " is indeterminate at " +:+ phase).

(** [except Exception: self._indeterminate_tx_ids.add(tx_id); raise ...] *)
Definition or_indeterminate {A} (tx_id phase : string) (body : Op A) : Op A :=
  catchM body Exception (λ _, _ ← mark tx_id; indeterminate tx_id phase).

Definition _require_same_intent (state : V2TransactionState) (envelope : dict) (expected_head : string)
    (expected_sequence : Z) : res unit :=
  raise_if match t_prepare state with
           | None => true
           | Some prepare =>
               py_neq (get prepare "envelope") (JObj envelope)
               || py_neq (get prepare "expected_head") (JStr expected_head)
               || py_neq (get prepare "expected_sequence") (JInt expected_sequence)
           end store_error "Ledger v2 tx_id was reused with a different intent".

(** [a == b] on the audits of one store. *)
Definition dicts_eq (l k : list dict) : bool :=
  bool_decide (length l = length k) && forallb (λ p, py_eq (JObj p.1) (JObj p.2)) (zip l k).
Definition snapshot_eq (a b : VerifiedV2StoreSnapshot) : bool :=
  dicts_eq (envelopes a) (envelopes b) && (event_count a =? event_count b)
  && py_eq (head_hash a) (head_hash b) && py_eq (ledger_id a) (ledger_id b)
  && bool_decide (log_sha256 a = log_sha256 b) && (log_size_bytes a =? log_size_bytes b)
  && (journal_entry_count a =? journal_entry_count b)
  && py_eq (journal_head_hash a) (journal_head_hash b)
  && bool_decide (journal_sha256 a = journal_sha256 b) && (journal_size_bytes a =? journal_size_bytes b).
(** The transactions are a function of the entries. *)
Definition audit_eq (a b : _CombinedAudit) : bool :=
  snapshot_eq (ledger a) (ledger b) && dicts_eq (entries (journal a)) (entries (journal b)).

Definition raw_record (d : dict) : res string := b ← canonical_json_bytes (JObj d); Ok (line b).

(** The locked part of [append], once nothing is pending. *)
Definition append_new (audit : _CombinedAudit) (encoded_body : string) (document : dict) (tx_id : string)
    (expected_head : string) (expected_sequence : Z) : Op DurableV2Append :=
  let before := ledger audit in
  _ ← raise_ifM (py_neq (head_hash before) (JStr expected_head)) store_error
        "Ledger v2 expected head changed before append";
  _ ← raise_ifM (negb (event_count before + 1 =? expected_sequence)) store_error
        "Ledger v2 expected sequence changed before append";
  event ← liftM (as_dict (get document "event"));
  _ ← raise_ifM (py_neq (get event "sequence") (JInt expected_sequence)
                 || py_neq (get event "previous_hash") (JStr expected_head)) store_error
        "Ledger v2 candidate position does not match compare-and-append";
  _ ← liftM (verify_v2_chain (st_host env) (JObj <$> (envelopes before ++ [document])));
  let record := line encoded_body in
  _ ← raise_ifM (MAX_STORE_LINE_BYTES <? Z.of_nat (String.length encoded_body)) store_error
        "Ledger v2 record exceeds line limit";
  _ ← raise_ifM (MAX_STORE_BYTES <? log_size_bytes before + Z.of_nat (String.length record)) store_error
        "Ledger v2 store exceeds byte limit";
  post_hash ← liftM (_hash_envelope_lines (envelopes before ++ [document]));
  prepare ← liftM (_make_prepare tx_id (entry_count (journal audit) + 1) (j_head_hash (journal audit))
                     document before post_hash (log_size_bytes before + Z.of_nat (String.length record)));
  _ ← catchM (r ← liftM (raw_record prepare); _append_record JournalFile r MAX_JOURNAL_BYTES) Exception (λ _,
        observed ← catchM (catchM (a ← _read_combined_unlocked true None; mret (Some a))
                             OSError (λ _, mret None)) LedgerAuthorityV2Error (λ _, mret None);
        if match observed with Some a => audit_eq a audit | None => false end then
          _ ← unmark tx_id; raiseM RetryableAppendNotApplied "Ledger v2 transaction was not applied"
        else _ ← mark tx_id; indeterminate tx_id "prepare");
  _ ← or_indeterminate tx_id "event"
        (_ ← _append_record LogFile record MAX_STORE_BYTES;
         after_event ← _read_ledger_unlocked;
         liftM (_require_snapshot_matches_prepare after_event prepare true));
  journal_after_prepare ← _read_journal_unlocked;
  commit ← liftM (_make_commit prepare journal_after_prepare);
  _ ← or_indeterminate tx_id "commit"
        (r ← liftM (raw_record commit); _append_record JournalFile r MAX_JOURNAL_BYTES);
  final ← or_indeterminate tx_id "postcheck" (_read_combined_unlocked true None);
  _ ← unmark tx_id;
  mret (Appended tx_id (JObj document) (ledger final)).

Definition append (envelope : json) (tx_id expected_head : string) (expected_sequence : Z)
    : Op DurableV2Append :=
  _ ← liftM (_identifier (JStr tx_id) "tx_id");
  _ ← liftM (_sha256 (JStr expected_head) "expected_head");
  _ ← liftM (_positive_bounded_int (JInt expected_sequence) MAX_STORE_EVENTS "expected_sequence");
  encoded_body ← liftM (canonical_json_bytes envelope);
  loaded ← liftM (json_loads encoded_body);
  document ← liftM (validate_v2_envelope loaded);
  locked (
    audit ← _read_combined_unlocked false None;
    let existing := transactions (journal audit) !! tx_id in
    _ ← liftM match existing with
              | Some state => _require_same_intent state document expected_head expected_sequence
              | None => Ok tt
              end;
    pending ← readM s_indeterminate;
    if bool_decide (tx_id ∈ pending) then indeterminate tx_id "existing-indeterminate" else
    _ ← raise_ifM (negb (bool_decide (pending = ∅))) store_error
          "Ledger v2 has an in-process indeterminate transaction";
    if match existing with Some t => negb (bool_decide (t_status t = "committed")) | None => false end
    then indeterminate tx_id "existing-prepare" else
    _ ← raise_ifM (negb (is_nil (unresolved_of (transactions (journal audit))))) store_error
          "Ledger v2 journal has an unresolved transaction";
    match existing with
    | Some t => mret (Appended tx_id (get (default ∅ (t_prepare t)) "envelope") (ledger audit))
    | None => append_new audit encoded_body document tx_id expected_head expected_sequence
    end).

(** What is left to do for a PREPARE without its COMMIT. *)
Definition complete (prepare : dict) (audit : _CombinedAudit) (tx_id : string) : Op DurableV2Append :=
  _ ← match _require_snapshot_matches_prepare (ledger audit) prepare false with
      | Err e =>
          if is_a e store_error then liftM (_require_snapshot_matches_prepare (ledger audit) prepare true)
          else liftM (Err e)
      | Ok _ =>
          body ← liftM (canonical_json_bytes (get prepare "envelope"));
          _ ← or_indeterminate tx_id "reconcile-event" (_append_record LogFile (line body) MAX_STORE_BYTES);
          ledger_after ← _read_ledger_unlocked;
          liftM (_require_snapshot_matches_prepare ledger_after prepare true)
      end;
  journal_now ← _read_journal_unlocked;
  commit ← liftM (_make_commit prepare journal_now);
  _ ← or_indeterminate tx_id "reconcile-commit"
        (r ← liftM (raw_record commit); _append_record JournalFile r MAX_JOURNAL_BYTES);
  clean ← catchM (_read_combined_unlocked true (Some tx_id)) Exception
            (λ _, indeterminate tx_id "reconcile-postcheck");
  _ ← unmark tx_id;
  mret (Appended tx_id (get prepare "envelope") (ledger clean)).

Definition reconcile_transaction (tx_id : string) : Op DurableV2Append :=
  _ ← liftM (_identifier (JStr tx_id) "tx_id");
  locked (
    audit ← _read_combined_unlocked false None;
    match transactions (journal audit) !! tx_id with
    | Some (TransactionState _ _ (Some prepare) commit) =>
        _ ← raise_ifM (existsb (λ t, negb (bool_decide (t_id t = tx_id)))
                         (unresolved_of (transactions (journal audit)))) store_error
              "Ledger v2 has another unresolved transaction";
        pending ← readM s_indeterminate;
        _ ← raise_ifM (negb (bool_decide (pending ∖ {[tx_id]} = ∅))) store_error
              "Ledger v2 has another in-process indeterminate transaction";
        _ ← mark tx_id;
        match commit with
        | Some _ =>
            _ ← or_indeterminate tx_id "reconcile-sync"
                  (_ ← _sync_existing LogFile; _ ← _sync_existing JournalFile; _fsync_parent);
            clean ← catchM (_read_combined_unlocked true (Some tx_id)) Exception
                      (λ _, indeterminate tx_id "reconcile-postcheck");
            _ ← unmark tx_id;
            mret (Appended tx_id (get prepare "envelope") (ledger clean))
        | None => complete prepare audit tx_id
        end
    | _ => raiseM store_error "Ledger v2 transaction does not exist"
    end).

(** *** Checkpoints *)

Definition _validate_checkpoint_preimage (value : json) : res dict :=
  document ← _exact_object value CHECKPOINT_PREIMAGE_KEYS "Checkpoint preimage";
  _ ← raise_if (py_neq (get document "schema_version") (JInt LEDGER_V2_SCHEMA_VERSION)
                || py_neq (get document "protocol_id") (JStr LEDGER_V2_PROTOCOL_ID)
                || py_neq (get document "domain") (JStr LEDGER_V2_CHECKPOINT_DOMAIN)
                || py_neq (get document "kind") (JStr "ledger-checkpoint")
                || py_neq (get document "algorithm") (JStr LEDGER_V2_SIGNATURE_ALGORITHM)) store_error
        "Checkpoint identity is invalid";
  _ ← _sha256 (get document "key_id") "Checkpoint key_id";
  _ ← _identifier (get document "ledger_id") "Checkpoint ledger_id";
  _ ← _positive_bounded_int (get document "event_count") MAX_STORE_EVENTS "event_count";
  _ ← _positive_bounded_int (get document "journal_entry_count") MAX_JOURNAL_ENTRIES "journal_entry_count";
  _ ← _bounded_nonnegative_int (get document "log_size_bytes") MAX_STORE_BYTES "log_size_bytes";
  _ ← _bounded_nonnegative_int (get document "journal_size_bytes") MAX_JOURNAL_BYTES "journal_size_bytes";
  _ ← _sha256 (get document "head_hash") "Checkpoint head_hash";
  _ ← _sha256 (get document "log_sha256") "Checkpoint log_sha256";
  _ ← _sha256 (get document "journal_head_hash") "Checkpoint journal_head_hash";
  _ ← _sha256 (get document "journal_sha256") "Checkpoint journal_sha256";
  _ ← _timestamp (get document "issued_at");
  Ok document.

(** The checkpoint without its signature. *)
Definition preimage_of (document : dict) : json := JObj (delete "signature_b64" document).

(** The signature of a document as bytes. *)
Definition checkpoint_signature (document : dict) : res string :=
  match get document "signature_b64" with
  | JStr s =>
      _ ← raise_if (1024 <? Z.of_nat (py_len s)) store_error "Checkpoint signature encoding is invalid";
      decoded ← catch (Base64.strict_decode s) ValueError
                  (λ _, raise store_error "Checkpoint signature encoding is invalid");
      _ ← raise_if (negb (String.length decoded =? 64)%nat) store_error
            "Checkpoint signature length is invalid";
      Ok decoded
  | _ => raise store_error "Checkpoint signature encoding is invalid"
  end.

Definition validate_signed_checkpoint (value : json) : res dict :=
  document ← _exact_object value CHECKPOINT_KEYS "Signed checkpoint";
  _ ← _validate_checkpoint_preimage (preimage_of document);
  _ ← checkpoint_signature document;
  Ok document.

(** [base64.b64decode] of a validated document is [checkpoint_signature]. *)
Definition verify_signed_checkpoint (value : json) : res dict :=
  document ← validate_signed_checkpoint value;
  binding ← trusted_ledger_verification_binding (st_host env);
  _ ← raise_if (py_neq (get document "key_id") (JStr (key_id binding))) store_error
        "Checkpoint names another authority key";
  message ← canonical_json_bytes (preimage_of document);
  signature ← checkpoint_signature document;
  verified ← ed25519_verify (openssl binding) LEDGER_AUTHORITY_PUBLIC_KEY_PATH message signature;
  _ ← raise_if (negb verified) store_error "Checkpoint signature is invalid";
  Ok document.

(** The fields of a snapshot a checkpoint states. *)
Definition pinned_fields (s : VerifiedV2StoreSnapshot) : list (string * json) :=
  [("ledger_id", ledger_id s); ("event_count", JInt (event_count s)); ("head_hash", head_hash s);
   ("log_sha256", JStr (log_sha256 s)); ("log_size_bytes", JInt (log_size_bytes s));
   ("journal_entry_count", JInt (journal_entry_count s)); ("journal_head_hash", journal_head_hash s);
   ("journal_sha256", JStr (journal_sha256 s)); ("journal_size_bytes", JInt (journal_size_bytes s))].

Definition checkpoint_preimage (s : VerifiedV2StoreSnapshot) (key_id issued_at : json) : json := jobj
  ([("schema_version", JInt LEDGER_V2_SCHEMA_VERSION); ("protocol_id", JStr LEDGER_V2_PROTOCOL_ID);
    ("domain", JStr LEDGER_V2_CHECKPOINT_DOMAIN); ("kind", JStr "ledger-checkpoint");
    ("algorithm", JStr LEDGER_V2_SIGNATURE_ALGORITHM); ("key_id", key_id)]
   ++ pinned_fields s ++ [("issued_at", issued_at)]).

(** The part of [sign_checkpoint] after the store was read. *)
Definition signed_checkpoint (s : VerifiedV2StoreSnapshot) (issued_at : json) : res dict :=
  _ ← raise_if ((event_count s <? 1) || is_null (ledger_id s)) store_error
        "An empty Ledger v2 store cannot produce a checkpoint";
  _ ← _timestamp issued_at;
  binding ← trusted_ledger_signing_binding (st_host env);
  preimage ← _validate_checkpoint_preimage (checkpoint_preimage s (JStr (key_id binding)) issued_at);
  message ← canonical_json_bytes (JObj preimage);
  signature ← ed25519_sign (openssl binding) LEDGER_AUTHORITY_PRIVATE_KEY_PATH message;
  verified ← ed25519_verify (openssl binding) LEDGER_AUTHORITY_PUBLIC_KEY_PATH message signature;
  _ ← raise_if (negb verified) store_error "Ledger v2 checkpoint public/private key pair does not match";
  validate_signed_checkpoint (JObj (<["signature_b64" := JStr (b64 signature)]> preimage)).

Definition sign_checkpoint (issued_at : json) : Op dict :=
  snapshot ← read_verified; liftM (signed_checkpoint snapshot issued_at).

Definition verify_pinned_checkpoint (checkpoint : json) : Op VerifiedV2StoreSnapshot :=
  locked (
    audit ← _read_combined_unlocked true None;
    document ← liftM (verify_signed_checkpoint checkpoint);
    _ ← raise_ifM (existsb (λ f, py_neq (get document f.1) f.2) (pinned_fields (ledger audit))) store_error
          "Signed checkpoint is not pinned to the current v2 ledger and journal";
    mret (ledger audit)).
End Operations.
End AuthorityStore.
