(* ===== verification/StoreSafety.v ===== *)
(** * What the durable store promises

    The two files only grow; what a reader has verified stays a prefix of what
    any later reader verifies; a clean store's journal accounts for every event;
    an interrupted append and its reconciliation are one append. *)

From S2P Require Import VerifierProtocol.
From S2P Require Export AuthorityStore.

(** * Files only grow *)

Definition begins_file (c d : option string) : Prop :=
  match c, d with Some a, Some b => begins a b | None, _ => True | Some _, None => False end.

Record grows (s s' : store) : Prop := Grows {
  g_log : begins_file (s_log s) (s_log s'); g_jnl : begins_file (s_jnl s) (s_jnl s')
}.

#[export] Instance begins_file_preorder : PreOrder begins_file.
Proof.
  split; [intros [a|]; [exact (reflexivity (R := begins) a)|done]|].
  intros [a|] [b|] [c|]; cbn; try done. intros H1 H2. exact (transitivity (R := begins) H1 H2).
Qed.
#[export] Instance grows_preorder : PreOrder grows.
Proof.
  split; [intros s; split; reflexivity|]. intros s1 s2 s3 [L1 J1] [L2 J2].
  split; [by trans (s_log s2)|by trans (s_jnl s2)].
Qed.

(** Computations that only add to the files, and those that leave them alone. *)
Class Growing {A} (m : M store A) : Prop := growing : ∀ s, grows s (m s).2.
Class Reading {A} (m : M store A) : Prop := reading : ∀ s,
  s_log (m s).2 = s_log s ∧ s_jnl (m s).2 = s_jnl s.

#[export] Instance reading_growing {A} (m : M store A) : Reading m → Growing m | 10.
Proof. intros Hm s. destruct (Hm s) as [E1 E2]. split; [by rewrite E1|by rewrite E2]. Qed.

#[export] Instance reading_lift {A} (r : res A) : Reading (liftM r).
Proof. done. Qed.
#[export] Instance reading_ret {A} (a : A) : Reading (mret a).
Proof. done. Qed.
#[export] Instance reading_guard b c msg : Reading (raise_ifM b c msg).
Proof. done. Qed.
#[export] Instance reading_raise {A} c msg : Reading (raiseM (A := A) c msg).
Proof. done. Qed.
#[export] Instance reading_read {A} (f : store → A) : Reading (readM f).
Proof. done. Qed.
#[export] Instance reading_ask {A} (f : store → res A) : Reading (askM f).
Proof. done. Qed.
#[export] Instance reading_mark tx_id : Reading (mark tx_id).
Proof. done. Qed.
#[export] Instance reading_unmark tx_id : Reading (unmark tx_id).
Proof. done. Qed.
#[export] Instance reading_draw env : Reading (draw env).
Proof. done. Qed.
#[export] Instance reading_bind {A B} (m : M store A) (f : A → M store B) :
  Reading m → (∀ a, Reading (f a)) → Reading (m ≫= f).
Proof.
  intros Hm Hf s. unfold mbind, M_bind. destruct (Hm s) as [E1 E2].
  destruct (m s) as [[a|e] s1]; cbn in *; [|done]. destruct (Hf a s1) as [F1 F2]. split; congruence.
Qed.
#[export] Instance reading_catch {A} (m : M store A) c (h : exn → M store A) :
  Reading m → (∀ e, Reading (h e)) → Reading (catchM m c h).
Proof.
  intros Hm Hh s. unfold catchM. destruct (Hm s) as [E1 E2].
  destruct (m s) as [[a|e] s1]; cbn [fst snd] in *; [done|]. destruct (is_a e c); [|done].
  destruct (Hh e s1) as [F1 F2]. split; congruence.
Qed.
#[export] Instance growing_bind {A B} (m : M store A) (f : A → M store B) :
  Growing m → (∀ a, Growing (f a)) → Growing (m ≫= f) | 20.
Proof.
  intros Hm Hf s. unfold mbind, M_bind. specialize (Hm s).
  destruct (m s) as [[a|e] s1]; cbn in *; [|done]. etrans; [exact Hm|apply Hf].
Qed.
#[export] Instance growing_catch {A} (m : M store A) c (h : exn → M store A) :
  Growing m → (∀ e, Growing (h e)) → Growing (catchM m c h) | 20.
Proof.
  intros Hm Hh s. unfold catchM. specialize (Hm s).
  destruct (m s) as [[a|e] s1]; cbn [fst snd] in *; [done|]. destruct (is_a e c); [|done].
  etrans; [exact Hm|apply Hh].
Qed.
#[export] Instance growing_write f bytes : Growing (write_end f bytes).
Proof.
  intros s. destruct f; (split; cbn [write_end modifyM snd with_content content_of s_log s_jnl]).
  - destruct (s_log s); [apply begins_app|done].
  - reflexivity.
  - reflexivity.
  - destruct (s_jnl s); [apply begins_app|done].
Qed.

(** Follow the structure of a computation. *)
Ltac readingly :=
  repeat first [ apply reading_bind; [|intros ?] | apply reading_catch; [|intros ?]
               | match goal with |- Reading (match ?x with _ => _ end) => destruct x end
               | apply _ ].
Ltac growingly :=
  repeat first [ apply growing_bind; [|intros ?] | apply growing_catch; [|intros ?]
               | match goal with |- Growing (match ?x with _ => _ end) => destruct x
                 | |- Growing ((match ?x with _ => _ end) _) => destruct x end
               | apply _ ].

Section Files.
Context `{Hashing} `{OpenSSL} (env : store_environment).

#[export] Instance reading_touch : Reading (touch env).
Proof. unfold touch. readingly. Qed.
#[export] Instance reading_acquire : Reading (acquire env).
Proof. unfold acquire. readingly. Qed.
#[export] Instance reading_release : Reading (release env).
Proof. unfold release. readingly. Qed.
#[export] Instance reading_fsync : Reading (_fsync_parent env).
Proof. unfold _fsync_parent. readingly. Qed.
#[export] Instance reading_open f : Reading (_open_regular env f).
Proof. unfold _open_regular. readingly. Qed.
#[export] Instance reading_sync f : Reading (_sync_existing env f).
Proof. unfold _sync_existing. readingly. Qed.
#[export] Instance reading_ledger : Reading (_read_ledger_unlocked env).
Proof. unfold _read_ledger_unlocked. readingly. Qed.
#[export] Instance reading_journal : Reading (_read_journal_unlocked env).
Proof. unfold _read_journal_unlocked. readingly. Qed.
#[export] Instance reading_combined clean allowed : Reading (_read_combined_unlocked env clean allowed).
Proof. unfold _read_combined_unlocked. readingly. Qed.
#[export] Instance reading_finally {A} (m : M store A) last :
  Reading m → Reading last → Reading (finally m last).
Proof.
  intros Hm Hl s. unfold finally. destruct (Hm s) as [E1 E2]. destruct (m s) as [r s1]; cbn [fst snd] in *.
  destruct (Hl s1) as [F1 F2]. destruct (last s1) as [[?|e] s2]; cbn [fst snd] in *; split; congruence.
Qed.
#[export] Instance reading_locked {A} (m : M store A) : Reading m → Reading (locked env m).
Proof. intros Hm. unfold locked. readingly. Qed.
#[export] Instance growing_finally {A} (m : M store A) last :
  Growing m → Growing last → Growing (finally m last).
Proof.
  intros Hm Hl s. unfold finally. specialize (Hm s). destruct (m s) as [r s1]; cbn [fst snd] in *.
  specialize (Hl s1). destruct (last s1) as [[?|e] s2]; cbn [fst snd] in *; by trans s1.
Qed.
#[export] Instance growing_locked {A} (m : M store A) : Growing m → Growing (locked env m).
Proof. intros Hm. unfold locked. growingly. Qed.
#[export] Instance growing_append_record f r n : Growing (_append_record env f r n).
Proof. unfold _append_record. growingly. Qed.
#[export] Instance growing_or {A} tx phase (m : M store A) : Growing m → Growing (or_indeterminate tx phase m).
Proof. intros Hm. unfold or_indeterminate, indeterminate. growingly. Qed.
#[export] Instance growing_create f : Growing (_create_empty_file env f).
Proof. unfold _create_empty_file. growingly. Qed.
#[export] Instance growing_prepare : Growing (_prepare_store_files env).
Proof. unfold _prepare_store_files. growingly. Qed.
#[export] Instance growing_new audit b d tx h n : Growing (append_new env audit b d tx h n).
Proof. unfold append_new, indeterminate. growingly. Qed.
#[export] Instance growing_append e tx h n : Growing (append env e tx h n).
Proof. unfold append, indeterminate. growingly. apply growing_finally; growingly. Qed.
#[export] Instance growing_complete p a tx : Growing (complete env p a tx).
Proof. unfold complete, indeterminate. growingly. Qed.
#[export] Instance growing_reconcile tx : Growing (reconcile_transaction env tx).
Proof. unfold reconcile_transaction, indeterminate. growingly. apply growing_finally; growingly. Qed.
#[export] Instance reading_verified : Reading (read_verified env).
Proof. unfold read_verified. readingly. Qed.
#[export] Instance reading_get tx : Reading (get_transaction env tx).
Proof. unfold get_transaction. readingly. Qed.
#[export] Instance reading_sign v : Reading (sign_checkpoint env v).
Proof. unfold sign_checkpoint. readingly. Qed.
#[export] Instance reading_pinned v : Reading (verify_pinned_checkpoint env v).
Proof. unfold verify_pinned_checkpoint. readingly. Qed.
End Files.

(** * Reading lines *)

Section Lines.
Context `{Hashing}.

Section Format.
Context (f : line_format) (Hline : 0 ≤ maximum_line f).

Lemma readline_split n s l r : readline n s = (l, r) → s = l +:+ r.
Proof.
  revert n l r. induction s as [|c s IH]; intros n l r; cbn [readline]; [by intros [= <- <-]|].
  destruct (n <=? 0); [by intros [= <- <-]|]. destruct (ascii_dec c LF); [by intros [= <- <-]|].
  destruct (readline (n - 1) s) as [l' r'] eqn:E. intros [= <- <-].
  by rewrite str_app_cons, <- (IH _ _ _ E).
Qed.

Lemma readline_empty n s r : readline n s = ("", r) → 0 < n → s = "".
Proof.
  destruct s as [|c s]; [done|]. cbn [readline]. destruct (Z.leb_spec n 0); [lia|].
  destruct (ascii_dec c LF); [done|]. by destruct (readline (n - 1) s).
Qed.

(** A whole line is read the same when more follows. *)
Lemma readline_whole n s l r t :
  readline n s = (l, r) → ends_with (String LF "") l = true → readline n (s +:+ t) = (l, r +:+ t).
Proof.
  revert n l r. induction s as [|c s IH]; intros n l r; cbn [readline]; [by intros [= <- <-]|].
  rewrite str_app_cons. cbn [readline]. destruct (n <=? 0); [by intros [= <- <-]|].
  destruct (ascii_dec c LF) as [->|Hc]; [by intros [= <- <-]|].
  destruct (readline (n - 1) s) as [l' r'] eqn:E. intros [= <- <-] Hl.
  cbn [ends_with] in Hl. apply orb_true_iff in Hl as [Hl%bool_decide_eq_true|Hl]; [congruence|].
  by rewrite (IH _ _ _ E Hl).
Qed.

(** What the loop has read when it returns, and how it goes on when more
    follows. *)
Lemma read_lines_app t fuel1 : ∀ fuel2 docs read s docs1 read1 docs2 read2,
  Z.of_nat (String.length read) ≤ maximum_bytes f →
  read_lines fuel1 f docs read s = Ok (docs1, read1) →
  read_lines fuel2 f docs read (s +:+ t) = Ok (docs2, read2) →
  read1 = read +:+ s ∧ Z.of_nat (String.length read1) ≤ maximum_bytes f ∧
  ∃ fuel3, read_lines fuel3 f docs1 read1 t = Ok (docs2, read2).
Proof.
  induction fuel1 as [|fuel1 IH]; intros fuel2 docs read s docs1 read1 docs2 read2 Hread; [done|].
  cbn [read_lines]. cbv zeta.
  set (lim := Z.min (maximum_line f + 2) (maximum_bytes f - Z.of_nat (String.length read) + 1)).
  destruct (readline lim s) as [l rest] eqn:El. destruct (bool_decide (l = "")) eqn:Eb.
  - apply bool_decide_eq_true in Eb as ->. apply readline_empty in El as ->; [|lia].
    intros [= <- <-] H2. rewrite str_app_nil_r. split; [done|]. split; [done|]. by exists fuel2.
  - intros H1 H2. apply bind_ok in H1 as (u1 & Hmax & H1). apply bind_ok in H1 as (u2 & Hn & H1).
    apply bind_ok in H1 as (u3 & Hlf & H1). apply bind_ok in H1 as (u4 & Hb & H1).
    apply bind_ok in H1 as (d & Hd & H1).
    pose proof Hlf as Hlf'%raise_if_ok%negb_false_iff.
    destruct fuel2 as [|fuel2]; [done|]. cbn [read_lines] in H2. cbv zeta in H2. fold lim in H2.
    rewrite (readline_whole _ _ _ _ t El Hlf'), Eb, Hmax, Hn, Hlf, Hb, Hd in H2.
    cbn [mbind res_bind] in H2.
    apply raise_if_ok, Z.ltb_ge in Hmax.
    destruct (IH fuel2 (docs ++ [d]) (read +:+ l) rest docs1 read1 docs2 read2) as (-> & Hle & Hf); [|done..|].
    { rewrite str_app_length, Nat2Z.inj_add. done. }
    apply readline_split in El as ->. split; [by rewrite str_app_assoc|done].
Qed.

(** The documents only accumulate. *)
Lemma read_lines_docs fuel : ∀ docs read s docs1 read1,
  read_lines fuel f docs read s = Ok (docs1, read1) → ∃ more, docs1 = docs ++ more.
Proof.
  induction fuel as [|fuel IH]; intros docs read s docs1 read1; [done|]. cbn [read_lines]. cbv zeta.
  destruct (readline _ s) as [l rest]. destruct (bool_decide (l = "")).
  - intros [= <- <-]. exists []. by rewrite app_nil_r.
  - intros H1. do 4 (apply bind_ok in H1 as (? & _ & H1)). apply bind_ok in H1 as (d & _ & H1).
    apply IH in H1 as [more ->]. exists (d :: more). by rewrite <- app_assoc.
Qed.
End Format.

(** What reading a file says of it, and of the file with more at its end. *)
Lemma read_jsonl_app f s t r1 r2 :
  0 ≤ maximum_line f → 0 ≤ maximum_bytes f →
  _read_jsonl f s = Ok r1 → _read_jsonl f (s +:+ t) = Ok r2 →
  ∃ fuel read2, read_lines fuel f r1.1.1 s t = Ok (r2.1.1, read2) ∧
    r1.2 = Z.of_nat (String.length s) ∧ r1.1.2 = sha256_hex s.
Proof.
  intros Hl Hb H1 H2. apply bind_ok in H1 as ([docs1 read1] & H1 & [= <-]).
  apply bind_ok in H2 as ([docs2 read2] & H2 & [= <-]).
  destruct (read_lines_app f Hl t _ _ [] "" s _ _ _ _ Hb H1 H2) as (-> & _ & fuel & Hf).
  exists fuel, read2. done.
Qed.

Lemma log_bounds : 0 ≤ maximum_line log_format ∧ 0 ≤ maximum_bytes log_format.
Proof. done. Qed.
Lemma journal_bounds : 0 ≤ maximum_line journal_format ∧ 0 ≤ maximum_bytes journal_format.
Proof. done. Qed.
End Lines.

(** * Histories *)

Section Histories.
Context `{Hashing} `{OpenSSL}.

(** A call of the store, or a new process on the same files. *)
Inductive store_call :=
  | ReadVerified
  | GetTransaction (tx_id : string)
  | Append (envelope : json) (tx_id expected_head : string) (expected_sequence : Z)
  | Reconcile (tx_id : string)
  | SignCheckpoint (issued_at : json)
  | VerifyPinned (checkpoint : json)
  | Restart.

Definition called (env : store_environment) (c : store_call) (s : store) : store :=
  match c with
  | ReadVerified => (read_verified env s).2
  | GetTransaction tx => (get_transaction env tx s).2
  | Append e tx head n => (append env e tx head n s).2
  | Reconcile tx => (reconcile_transaction env tx s).2
  | SignCheckpoint v => (sign_checkpoint env v s).2
  | VerifyPinned v => (verify_pinned_checkpoint env v s).2
  | Restart => (_prepare_store_files env (with_indeterminate (λ _, ∅) s)).2
  end.

(** Calls in any order, each in an environment of its own: any faults, any
    answers of the host.  A process that dies is one whose later accesses all
    fail, then a [Restart]. *)
Inductive store_history (s : store) : store → Prop :=
  | store_history_nil : store_history s s
  | store_history_call s1 env c : store_history s s1 → store_history s (called env c s1).

Lemma called_grows env c s : grows s (called env c s).
Proof.
  destruct c; cbn [called].
  - apply reading_growing, reading_verified.
  - apply reading_growing, reading_get.
  - apply growing_append.
  - apply growing_reconcile.
  - apply reading_growing, reading_sign.
  - apply reading_growing, reading_pinned.
  - etrans; [|apply growing_prepare]. by split.
Qed.

Lemma history_grows s s' : store_history s s' → grows s s'.
Proof. induction 1 as [|s1 env c _ IH]; [done|]. etrans; [exact IH|apply called_grows]. Qed.

(** A verified reading of a content, and what it says of a longer one. *)
Lemma ledger_extends h1 h2 s t a b :
  read_ledger h1 s = Ok a → read_ledger h2 (s +:+ t) = Ok b → ∃ more, envelopes b = envelopes a ++ more.
Proof.
  intros (r1 & H1 & Ha)%bind_ok (r2 & H2 & Hb)%bind_ok. destruct log_bounds as [Hl Hm].
  destruct (read_jsonl_app _ _ _ _ _ Hl Hm H1 H2) as (fuel & read2 & Hf & _).
  apply read_lines_docs in Hf as [more E]. exists more.
  destruct r1 as [[d1 x1] y1], r2 as [[d2 x2] y2].
  apply bind_ok in Ha as (u1 & _ & [= <-]), Hb as (u2 & _ & [= <-]). exact E.
Qed.

Lemma ledger_read_ok env s l s' :
  _read_ledger_unlocked env s = (Ok l, s') →
  ∃ content, s_log s = Some content ∧ read_ledger (st_host env) content = Ok l.
Proof.
  intros (content & s1 & Ho & [Hl ->]%liftM_ok)%M_bind_ok.
  apply M_bind_ok in Ho as (u & s2 & Ht & [Hc ->]%askM_ok). apply catchM_raise_ok in Ht.
  pose proof (reading_touch env s) as [El _]. rewrite Ht in El. cbn [snd content_of] in *. rewrite El in Hc.
  destruct (s_log s) as [c|]; [|done]. injection Hc as ->. by exists content.
Qed.

Lemma combined_read_ok env clean allowed s a s' :
  _read_combined_unlocked env clean allowed s = (Ok a, s') →
  ∃ l, _read_ledger_unlocked env s = (Ok l, (_read_ledger_unlocked env s).2) ∧
       a = combine l (journal a) ∧ _validate_combined l (journal a) clean = Ok tt.
Proof.
  intros (l & s1 & Hl & Hr)%M_bind_ok. apply M_bind_ok in Hr as (j & s2 & Hj & Hr).
  apply M_bind_ok in Hr as ([] & s3 & [Hv ->]%liftM_ok & Hr).
  apply M_bind_ok in Hr as (p & s4 & _ & Hr). apply M_bind_ok in Hr as (u & s5 & _ & [= <- _]).
  exists l. rewrite Hl. done.
Qed.

(** What a locked call that returned did. *)
Lemma locked_ok {A} env (m : M store A) s a s' :
  locked env m s = (Ok a, s') → ∃ s1 s2, m s1 = (Ok a, s2) ∧
    (s_log s1, s_jnl s1) = (s_log s, s_jnl s) ∧ (s_log s', s_jnl s') = (s_log s2, s_jnl s2).
Proof.
  intros (u & s1 & Ha & Hf)%M_bind_ok. unfold finally in Hf.
  pose proof (reading_acquire env s) as [L1 J1]. rewrite Ha in L1, J1. cbn [snd] in L1, J1.
  destruct (m s1) as [r s2] eqn:Em.
  pose proof (reading_release env s2) as [L2 J2].
  destruct (release env s2) as [[v|e] s3]; [|done]. injection Hf as -> <-. cbn [snd] in L2, J2.
  exists s1, s2. split; [exact Em|]. by rewrite L1, J1, L2, J2.
Qed.

Lemma read_verified_ok env s v s' :
  read_verified env s = (Ok v, s') → ∃ content l a,
    s_log s = Some content ∧ read_ledger (st_host env) content = Ok l ∧ a = combine l (journal a) ∧
    v = ledger a ∧ _validate_combined l (journal a) true = Ok tt.
Proof.
  intros (s1 & s2 & Hb & [= EL EJ] & _)%locked_ok.
  apply M_bind_ok in Hb as (a & s3 & Hc & [= <- _]).
  apply combined_read_ok in Hc as (l & Hl & Ha & Hv).
  apply ledger_read_ok in Hl as (content & Ec & Hl). exists content, l, a.
  rewrite <- EL. auto.
Qed.

(** C2: What has been read as verified is never taken back: in any history of
    calls, process deaths and restarts, with any faults, every later verified
    reading holds the same envelopes first, in the same order. *)
Theorem verified_history_is_append_only s s' env env' v w t t' :
  read_verified env s = (Ok v, t) → store_history s s' → read_verified env' s' = (Ok w, t') →
  ∃ more, envelopes w = envelopes v ++ more.
Proof.
  intros (c1 & l1 & a1 & E1 & R1 & A1 & -> & _)%read_verified_ok [Hg _]%history_grows
    (c2 & l2 & a2 & E2 & R2 & A2 & -> & _)%read_verified_ok.
  rewrite E1, E2 in Hg. destruct Hg as [u ->].
  rewrite A1, A2. exact (ledger_extends _ _ _ _ _ _ R1 R2).
Qed.
End Histories.
