(* ===== verification/StoreChain.v ===== *)
(** * The journal's transactions

    What a chain of PREPARE and COMMIT records is: pairs, in order, one per
    event, and at most one PREPARE still open.  What one more line does to a
    file's reading. *)

From S2P Require Import VerifierProtocol.
From S2P Require Export StoreSafety.

(** * One more line *)

Section Lines.
Context `{Hashing}.

Lemma readline_line b : ∀ n l r, inline b = true → readline n (line b) = (l, r) →
  ends_with (String LF "") l = true → l = line b ∧ r = "".
Proof.
  induction b as [|c b IH]; intros n l r Hb; unfold line.
  - rewrite str_app_nil_l. cbn [readline]. destruct (n <=? 0); [by intros [= <- <-]|].
    destruct (ascii_dec LF LF); [by intros [= <- <-]|done].
  - cbn in Hb. apply andb_true_iff in Hb as [Hc Hb]. apply negb_true_iff, Ascii.eqb_neq in Hc.
    rewrite str_app_cons. cbn [readline]. destruct (n <=? 0); [by intros [= <- <-]|].
    destruct (ascii_dec c LF) as [?|_]; [done|].
    destruct (readline (n - 1) (b +:+ String LF "")) as [l' r'] eqn:E. intros [= <- <-] Hl.
    cbn [ends_with] in Hl. apply orb_true_iff in Hl as [Hl%bool_decide_eq_true|Hl]; [congruence|].
    destruct (IH _ _ _ Hb E Hl) as [-> ->]. done.
Qed.

Lemma line_length b : String.length (line b) = S (String.length b).
Proof. unfold line. rewrite str_app_length. cbn. lia. Qed.

Lemma substring_line b : String.substring 0 (String.length (line b) - 1) (line b) = b.
Proof.
  rewrite line_length. replace (S (String.length b) - 1)%nat with (String.length b) by lia.
  unfold line. induction b as [|c b IH]; [done|]. rewrite str_app_cons.
  cbn [String.length String.substring]. by rewrite IH.
Qed.

Context (f : line_format) (Hline : 0 ≤ maximum_line f) (Hbytes : 0 ≤ maximum_bytes f).

Lemma read_last_line fuel docs read b docs2 read2 :
  inline b = true → Z.of_nat (String.length read) ≤ maximum_bytes f →
  read_lines fuel f docs read (line b) = Ok (docs2, read2) →
  ∃ d, decoder f b = Ok d ∧ docs2 = docs ++ [d] ∧ read2 = read +:+ line b.
Proof.
  intros Hb Hread. destruct fuel as [|fuel]; [done|]. cbn [read_lines]. cbv zeta.
  destruct (readline _ (line b)) as [l rest] eqn:El. destruct (bool_decide (l = "")) eqn:Eb.
  { apply bool_decide_eq_true in Eb as ->. apply readline_empty in El; [|lia].
    by destruct b. }
  intros H2. do 2 (apply bind_ok in H2 as (? & _ & H2)). apply bind_ok in H2 as (u & Hlf & H2).
  apply raise_if_ok, negb_false_iff in Hlf. destruct (readline_line _ _ _ _ Hb El Hlf) as [-> ->].
  apply bind_ok in H2 as (? & _ & H2). rewrite substring_line in H2.
  apply bind_ok in H2 as (d & Hd & H2). exists d. split; [done|].
  destruct fuel as [|fuel]; [done|]. cbn [read_lines readline] in H2. by injection H2 as <- <-.
Qed.

(** The reading of a file with one more line, when both are readable. *)
Lemma read_jsonl_line s b r1 r2 :
  inline b = true → _read_jsonl f s = Ok r1 → _read_jsonl f (s +:+ line b) = Ok r2 →
  ∃ d, decoder f b = Ok d ∧ r2.1.1 = r1.1.1 ++ [d].
Proof.
  intros Hb H1 H2. apply bind_ok in H1 as ([docs1 read1] & H1 & [= <-]).
  apply bind_ok in H2 as ([docs2 read2] & H2 & [= <-]).
  destruct (read_lines_app f Hline (line b) _ _ [] "" s _ _ _ _ Hbytes H1 H2) as (-> & Hle & fuel & Hf).
  apply read_last_line in Hf as (d & Hd & E & _); [|done..]. by exists d.
Qed.

(** The digest and the size are those of the file. *)
Lemma read_jsonl_figures s r :
  _read_jsonl f s = Ok r → r.1.2 = sha256_hex s ∧ r.2 = Z.of_nat (String.length s).
Proof.
  intros H1. pose proof H1 as H2. rewrite <- (str_app_nil_r s) in H2.
  destruct (read_jsonl_app _ _ _ _ _ Hline Hbytes H1 H2) as (_ & _ & _ & E2 & E1). done.
Qed.
End Lines.

(** * Pairs of records *)

Section Chain.
Context `{Hashing} `{OpenSSL}.

Definition tx_of (entry : dict) : string := str_of (get entry "tx_id").

(** A COMMIT repeats what its PREPARE promised. *)
Record commits (prepare commit : dict) : Prop := Commits {
  c_tx : tx_of commit = tx_of prepare;
  c_hash : py_eq (get commit "prepare_hash") (get prepare "journal_hash") = true;
  c_fields : Forall (λ key, py_eq (get commit key) (get prepare key) = true) bound_keys
}.

Definition prepared (p : dict) : V2TransactionState := TransactionState (tx_of p) "prepared" (Some p) None.
Definition committed (t : dict * dict) : V2TransactionState :=
  TransactionState (tx_of t.1) "committed" (Some t.1) (Some t.2).

(** The journal of the transactions [closed] and of the one that is [open]. *)
Definition journal_of (closed : list (dict * dict)) (open : option dict) : list dict :=
  concat ((λ t, [t.1; t.2]) <$> closed) ++ option_list open.
Definition states_of (closed : list (dict * dict)) (open : option dict) : list (string * V2TransactionState) :=
  ((λ t, (tx_of t.1, committed t)) <$> closed) ++ ((λ p, (tx_of p, prepared p)) <$> option_list open).

Record chained (l : list dict) (w : journal_walk) (closed : list (dict * dict)) (open : option dict) : Prop := Chained {
  ch_entries : l = journal_of closed open;
  ch_states : w_transactions w = list_to_map (states_of closed open);
  ch_open : w_unresolved w = tx_of <$> open;
  ch_once : NoDup (states_of closed open).*1;
  ch_commits : Forall (λ t, commits t.1 t.2) closed;
  ch_prepares : Forall (λ p, has_kind "PREPARE" p = true) (closed.*1 ++ option_list open);
  ch_kinds : Forall (λ c, has_kind "PREPARE" c = false) closed.*2
}.

Lemma NoDup_snoc {A} (l : list A) x : NoDup (l ++ [x]) ↔ NoDup l ∧ x ∉ l.
Proof.
  rewrite NoDup_app. split.
  - intros (Hl & Hx & _). split; [done|]. intros Hin. apply (Hx _ Hin). by apply list_elem_of_singleton.
  - intros [Hl Hx]. split; [done|]. split; [|apply NoDup_singleton].
    intros y Hy ->%list_elem_of_singleton. done.
Qed.

Lemma journal_opened closed p : journal_of closed (Some p) = journal_of closed None ++ [p].
Proof. unfold journal_of. by rewrite <- app_assoc. Qed.
Lemma journal_closed closed p c : journal_of (closed ++ [(p, c)]) None = journal_of closed (Some p) ++ [c].
Proof. unfold journal_of. rewrite fmap_app, concat_app. cbn. by rewrite app_nil_r, <- !app_assoc. Qed.
Lemma states_opened closed p : states_of closed (Some p) = states_of closed None ++ [(tx_of p, prepared p)].
Proof. unfold states_of. by rewrite <- app_assoc. Qed.
Lemma states_closed closed p c :
  states_of (closed ++ [(p, c)]) None = states_of closed None ++ [(tx_of p, committed (p, c))].
Proof. unfold states_of. rewrite fmap_app. cbn. by rewrite !app_nil_r. Qed.

(** A PREPARE while nothing is open, its COMMIT while it is. *)
Lemma chain_step index l w closed open entry w' :
  chained l w closed open → chain_entry index w entry = Ok w' →
  match open with
  | None => chained (l ++ [entry]) w' closed (Some entry)
  | Some p => chained (l ++ [entry]) w' (closed ++ [(p, entry)]) None
  end.
Proof.
  intros [-> Hw Ho Hn Hc Hp Hk] He. skip He. cbv zeta in He. fold (tx_of entry) in He.
  destruct (has_kind "PREPARE" entry) eqn:Ek.
  - step He u2 H2. apply raise_if_ok, orb_false_iff in H2 as [H2 H3].
    apply negb_false_iff, bool_decide_eq_true in H2. apply bool_decide_eq_false in H3.
    apply Ok_inj in He as <-. rewrite Ho in H2. destruct open; [discriminate H2|].
    assert (Hnew : tx_of entry ∉ (states_of closed None).*1).
    { apply (not_elem_of_list_to_map_2 (M := gmap string)). rewrite <- Hw.
      by apply eq_None_not_Some. }
    cbn [option_list] in Hp. rewrite app_nil_r in Hp.
    split; cbn [w_transactions w_unresolved]; [by rewrite journal_opened| |done| |done| |done].
    + by rewrite Hw, states_opened, list_to_map_snoc.
    + rewrite states_opened, fmap_app. cbn. by apply NoDup_snoc.
    + apply Forall_app. split; [done|]. by apply Forall_singleton.
  - destruct (w_transactions w !! tx_of entry) as [[i st [p|] cm]|] eqn:El; [|done..].
    step He u2 H2. step He u3 H3. apply raise_if_ok, negb_false_iff, bool_decide_eq_true in H2.
    apply raise_if_ok, orb_false_iff in H3 as [[H3 _]%orb_false_iff H4].
    apply Ok_inj in He as <-. rewrite Ho in H2. destruct open as [q|]; [|discriminate H2].
    cbn in H2. injection H2 as Etx.
    rewrite states_opened in Hw, Hn. rewrite fmap_app in Hn. cbn in Hn. apply NoDup_snoc in Hn as [Hn Hnew].
    rewrite Hw, list_to_map_snoc, <- Etx, lookup_insert_eq in El by exact Hnew. injection El as <- <- <- <-.
    apply Forall_app in Hp as [Hp Hq].
    split; cbn [w_transactions w_unresolved option_list].
    + by rewrite journal_closed.
    + rewrite Hw, states_closed, !list_to_map_snoc, <- Etx, insert_insert_eq by exact Hnew. done.
    + done.
    + rewrite states_closed, fmap_app. cbn. by apply NoDup_snoc.
    + apply Forall_app. split; [done|]. apply Forall_singleton. split; [done|by apply py_neq_false|].
      eapply Forall_impl; [exact (proj1 (existsb_false _ _) H4)|]. intros k Hk'. by apply py_neq_false.
    + rewrite fmap_app, app_nil_r. apply Forall_app. split; [exact Hp|]. exact Hq.
    + rewrite fmap_app. apply Forall_app. split; [exact Hk|]. by constructor.
Qed.

Lemma chain_all l : ∀ index past w closed open w', chained past w closed open →
  chain_entries index w l = Ok w' → ∃ closed' open', chained (past ++ l) w' closed' open'.
Proof.
  induction l as [|entry l IH]; intros index past w closed open w' Hc He; cbn [chain_entries] in He.
  - apply Ok_inj in He as <-. rewrite app_nil_r. by exists closed, open.
  - step He w1 H1. apply (chain_step _ _ _ _ _ _ _ Hc) in H1.
    replace (past ++ entry :: l) with ((past ++ [entry]) ++ l) by by rewrite <- app_assoc.
    destruct open; by eapply IH.
Qed.

Lemma chain_start : chained [] journal_start [] None.
Proof. split; try done; constructor. Qed.

(** ** The journal of a file *)

Lemma read_lines_decoded f fuel : ∀ docs read s docs1 read1,
  Forall (λ d, ∃ body, decoder f body = Ok d) docs →
  read_lines fuel f docs read s = Ok (docs1, read1) → Forall (λ d, ∃ body, decoder f body = Ok d) docs1.
Proof.
  induction fuel as [|fuel IH]; intros docs read s docs1 read1 Hd; [done|]. cbn [read_lines]. cbv zeta.
  destruct (readline _ s) as [l rest]. destruct (bool_decide (l = "")); [by intros [= <- <-]|].
  intros H1. do 4 (apply bind_ok in H1 as (? & _ & H1)). apply bind_ok in H1 as (d & Hd' & H1).
  eapply IH; [|exact H1]. apply Forall_app. split; [done|]. constructor; [|done]. eauto.
Qed.

Lemma record_kind v d : _validate_journal_record v = Ok d →
  v = d ∧ (has_kind "PREPARE" d = false → has_kind "COMMIT" d = true).
Proof.
  intros Hv. unfold _validate_journal_record in Hv. cbv zeta in Hv. step Hv u1 H1.
  apply raise_if_ok, negb_false_iff in H1. do 10 skip Hv. step Hv claimed Hc. step Hv unsigned Hu. skip Hv.
  apply Ok_inj in Hv as <-. split; [done|]. intros Hk. rewrite Hk in H1. by apply andb_true_iff in H1 as [? _].
Qed.

(** What has been read of a journal. *)
Record journal_reading (content : string) (j : _JournalSnapshot) (closed : list (dict * dict))
    (open : option dict) : Prop := JournalReading {
  jr_chain : ∃ w, chained (entries j) w closed open ∧ transactions j = w_transactions w ∧
             chain_entries 1 journal_start (entries j) = Ok w;
  jr_commits : Forall (λ c, has_kind "COMMIT" c = true) closed.*2;
  jr_count : entry_count j = Z.of_nat (length (entries j));
  jr_head : j_head_hash j = match last (entries j) with
                            | Some e => get e "journal_hash" | None => JStr LEDGER_V2_JOURNAL_GENESIS_HASH end;
  jr_figures : j_sha256 j = sha256_hex content ∧ j_size_bytes j = Z.of_nat (String.length content)
}.

Lemma journal_read content j : read_journal content = Ok j → ∃ closed open, journal_reading content j closed open.
Proof.
  intros Hj. unfold read_journal in Hj. step Hj r Hr. destruct r as [[docs digest] total].
  step Hj txs Ht. apply Ok_inj in Hj as <-. step Ht w Hw. apply Ok_inj in Ht as <-.
  destruct (chain_all _ _ _ _ _ _ _ chain_start Hw) as (closed & open & Hc). cbn [app] in Hc.
  destruct journal_bounds as [B1 B2]. destruct (read_jsonl_figures journal_format B1 B2 _ _ Hr) as [Ed Es]. cbn [fst snd] in Ed, Es. subst digest total.
  exists closed, open. split; cbn [entries transactions entry_count j_head_hash j_sha256 j_size_bytes];
    [by exists w| |done..].
  step Hr r Hr'. destruct r as [docs1 read1]. injection Hr as -> _ _.
  apply read_lines_decoded in Hr'; [|constructor]. rewrite (ch_entries _ _ _ _ Hc) in Hr'.
  apply Forall_app in Hr' as [Hr' _]. pose proof (ch_kinds _ _ _ _ Hc) as Hk. clear Hc Hw.
  induction closed as [|t closed IH]; [constructor|]. cbn in Hr', Hk. inversion_clear Hr' as [|? ? _ Hr].
  inversion_clear Hr as [|? ? (body & Hb) Hr']. inversion_clear Hk as [|? ? Hk1 Hk2].
  constructor; [|by apply IH]. step Hb v Hv. apply record_kind in Hb as [-> Hb]. auto.
Qed.

Lemma filter_all {A} (p : A → bool) l : Forall (λ x, p x = true) l → List.filter p l = l.
Proof. induction 1 as [|x l Hx _ IH]; cbn; [done|]. by rewrite Hx, IH. Qed.

Lemma has_kind_exclusive e : has_kind "PREPARE" e = true → has_kind "COMMIT" e = false.
Proof.
  unfold has_kind. intros ->%py_eq_str. destruct (py_eq _ _) eqn:E; [|done].
  by apply py_eq_str in E.
Qed.

Section Reading.
Context (content : string) (j : _JournalSnapshot) (closed : list (dict * dict)) (open : option dict).
Context (Hj : journal_reading content j closed open).

Lemma prepares_read : List.filter (has_kind "PREPARE") (entries j) = closed.*1 ++ option_list open.
Proof.
  destruct (jr_chain _ _ _ _ Hj) as (w & [-> _ _ _ _ Hp Hk] & _ & _). clear Hj. unfold journal_of.
  rewrite List.filter_app. apply Forall_app in Hp as [Hp Hq]. rewrite (filter_all _ _ Hq). f_equal.
  induction closed as [|t l IH]; [done|]. cbn in *. inversion_clear Hp as [|? ? Hp1 Hp2].
  inversion_clear Hk as [|? ? Hk1 Hk2]. by rewrite Hp1, Hk1, IH.
Qed.

Lemma commits_read : List.filter (has_kind "COMMIT") (entries j) = closed.*2.
Proof.
  destruct (jr_chain _ _ _ _ Hj) as (w & [-> _ _ _ _ Hp Hk] & _ & _).
  pose proof (jr_commits _ _ _ _ Hj) as Hc. clear Hj. unfold journal_of.
  rewrite List.filter_app. apply Forall_app in Hp as [Hp Hq].
  assert (List.filter (has_kind "COMMIT") (option_list open) = []) as ->.
  { destruct open as [p|]; [|done]. cbn in *. inversion_clear Hq as [|? ? Hq' _].
    by rewrite (has_kind_exclusive _ Hq'). }
  rewrite app_nil_r. induction closed as [|t l IH]; [done|]. cbn in *. inversion_clear Hp as [|? ? Hp1 Hp2].
  inversion_clear Hk as [|? ? _ Hk2]. inversion_clear Hc as [|? ? Hc1 Hc2].
  by rewrite (has_kind_exclusive _ Hp1), Hc1, IH.
Qed.

Lemma unresolved_read : unresolved_of (transactions j) = prepared <$> option_list open.
Proof.
  destruct (jr_chain _ _ _ _ Hj) as (w & [_ Hs _ Hn _ _ _] & -> & _). rewrite Hs. unfold unresolved_of.
  pose proof (map_to_list_to_map (M := gmap string) _ Hn) as Hp.
  assert (List.filter (λ t, negb (bool_decide (t_status t = "committed"))) (states_of closed open).*2
          = prepared <$> option_list open) as E.
  { unfold states_of. rewrite fmap_app, List.filter_app. clear. induction closed as [|t l IH]; [by destruct open|].
    exact IH. }
  apply (fmap_Permutation snd) in Hp.
  assert (Hf : ∀ l k : list V2TransactionState, l ≡ₚ k →
            List.filter (λ t, negb (bool_decide (t_status t = "committed"))) l
            ≡ₚ List.filter (λ t, negb (bool_decide (t_status t = "committed"))) k).
  { induction 1; cbn; repeat case_match; try (by constructor); etrans; done. }
  apply Hf in Hp. rewrite E in Hp. destruct open as [p|]; cbn in *.
  - by apply Permutation_singleton_r in Hp.
  - by apply Permutation_nil_r in Hp.
Qed.
End Reading.

(** ** The journal against the log *)

(** The text of a log. *)
Fixpoint log_text (l : list dict) : string :=
  match l with [] => "" | e :: l => line (canonical_json (JObj e)) +:+ log_text l end.

Definition figures (text : string) : string * Z := (sha256_hex text, Z.of_nat (String.length text)).

Lemma log_text_snoc l e : log_text (l ++ [e]) = log_text l +:+ line (canonical_json (JObj e)).
Proof.
  induction l as [|d l IH]; cbn [log_text app]; [by rewrite str_app_nil_l, str_app_nil_r|].
  by rewrite IH, str_app_assoc.
Qed.

Lemma prefixes_are text l ps : prefixes_from text l = Ok ps →
  length ps = S (length l) ∧
  ∀ i, (i ≤ length l)%nat → nth i ps ("", 0) = figures (text +:+ log_text (take i l)).
Proof.
  revert text ps. induction l as [|e l IH]; intros text ps Hp; cbn [prefixes_from] in Hp.
  - apply Ok_inj in Hp as <-. split; [done|]. intros i Hi. assert (i = 0%nat) as -> by (cbn in Hi; lia).
    cbn [take log_text]. by rewrite str_app_nil_r.
  - step Hp b Hb. step Hp rest Hr. apply Ok_inj in Hp as <-. apply canonical_bytes_ok in Hb as [-> _].
    apply IH in Hr as [Hlen Hr]. split; [cbn; by rewrite Hlen|]. intros [|i] Hi.
    + cbn [take log_text nth]. by rewrite str_app_nil_r.
    + cbn [take log_text nth]. rewrite Hr by (cbn in Hi; lia). by rewrite str_app_assoc.
Qed.

(** A PREPARE at the position [n] of a log. *)
Record prepare_at (l : list dict) (n : nat) (p : dict) : Prop := PrepareAt {
  pa_sequence : py_eq (get p "expected_sequence") (JInt (Z.of_nat n)) = true;
  pa_pre_sha : get p "pre_log_sha256" = JStr (figures (log_text (take (n - 1) l))).1;
  pa_pre_size : py_eq (get p "pre_log_size_bytes") (JInt (figures (log_text (take (n - 1) l))).2) = true;
  pa_post : (n ≤ length l)%nat →
    py_eq (get p "envelope") (JObj (nth (n - 1) l ∅)) = true ∧
    get p "post_log_sha256" = JStr (figures (log_text (take n l))).1 ∧
    py_eq (get p "post_log_size_bytes") (JInt (figures (log_text (take n l))).2) = true
}.

Lemma check_prepares_ok l ps prepares : _ledger_prefixes l = Ok ps → ∀ n,
  (1 ≤ n)%nat → (n + length prepares ≤ S (S (length l)))%nat →
  check_prepares ps l n prepares = Ok tt ↔ ∀ i p, prepares !! i = Some p → prepare_at l (n + i) p.
Proof.
  intros Hps. apply prefixes_are in Hps as [_ Hps]. setoid_rewrite str_app_nil_l in Hps.
  induction prepares as [|p prepares IH]; intros n Hn Hlen; cbn [check_prepares]; [by split|].
  cbn [length] in Hlen. rewrite !(Hps (n - 1)%nat) by lia. split.
  - intros Hc. step Hc u1 H1. step Hc u2 H2. step Hc u3 H3.
    apply raise_if_ok, py_neq_false in H1. apply raise_if_ok, orb_false_iff in H2 as [H2%py_neq_str H2'%py_neq_false].
    intros [|i] q Hq.
    + injection Hq as <-. rewrite Nat.add_0_r. split; [done..|]. intros Hle. apply Nat.leb_le in Hle as Hle'.
      rewrite Hle', Hps in H3 by lia.
      apply raise_if_ok, orb_false_iff in H3 as [[H3%py_neq_false H4%py_neq_str]%orb_false_iff H5%py_neq_false]. done.
    + rewrite Nat.add_succ_r. eapply (IH (S n)); [lia|lia|exact Hc|done].
  - intros Hp. destruct (Hp 0%nat p eq_refl) as [P1 P2 P3 P4]. rewrite Nat.add_0_r in *.
    rewrite check_run by (by apply py_neq_false).
    rewrite check_run by (apply orb_false_iff; split; [by apply py_neq_str|by apply py_neq_false]).
    destruct (Nat.leb_spec n (length l)) as [Hle|_].
    + destruct (P4 Hle) as (Q1 & Q2 & Q3). rewrite Hps by lia.
      rewrite check_run; [|rewrite !orb_false_iff; split_and!; [by apply py_neq_false|by apply py_neq_str|by apply py_neq_false]].
      apply IH; [lia|lia|]. intros i q Hq. replace (S n + i)%nat with (n + S i)%nat by lia. by apply Hp.
    + cbn [mbind res_bind]. apply IH; [lia|lia|]. intros i q Hq.
      replace (S n + i)%nat with (n + S i)%nat by lia. by apply Hp.
Qed.

(** What the two files say together. *)
Record consistent (clean : bool) (l : list dict) (closed : list (dict * dict)) (open : option dict) : Prop := Consistent {
  co_prefixes : ∃ ps, _ledger_prefixes l = Ok ps;
  co_count : (length closed + length (option_list open) ≤ S (length l))%nat ∧ (length closed ≤ length l)%nat;
  co_prepares : ∀ i p, (closed.*1 ++ option_list open) !! i = Some p → prepare_at l (S i) p;
  co_open : match open with
            | None => length closed = length l
            | Some p => clean = false ∧ (length l ≤ S (length closed))%nat
            end
}.

Lemma open_position p n m : py_eq (get p "expected_sequence") (JInt (Z.of_nat n)) = true →
  existsb (λ k, py_eq (get p "expected_sequence") (JInt k)) [Z.of_nat m; Z.of_nat m + 1] = true ↔
  n = m ∨ n = S m.
Proof.
  intros Hn. cbn [existsb]. rewrite orb_false_r, orb_true_iff. split.
  - intros [E|E]; apply (py_eq_int_inj _ _ _ Hn) in E; lia.
  - intros [->| ->]; [by left|right]. by replace (Z.of_nat m + 1) with (Z.of_nat (S m)) by lia.
Qed.

Lemma combined_consistent content j closed open l clean :
  journal_reading content j closed open → event_count l = Z.of_nat (length (envelopes l)) →
  _validate_combined l j clean = Ok tt ↔ consistent clean (envelopes l) closed open.
Proof.
  intros Hj Hcount. unfold _validate_combined. cbv zeta.
  rewrite (prepares_read _ _ _ _ Hj), (commits_read _ _ _ _ Hj), (unresolved_read _ _ _ _ Hj), Hcount.
  rewrite length_app, !length_fmap.
  assert (Hlast : ∀ p, open = Some p → (closed.*1 ++ option_list open) !! length closed = Some p).
  { intros p ->. rewrite lookup_app_r by (by rewrite length_fmap). by rewrite length_fmap, Nat.sub_diag. }
  split.
  - intros Hv. step Hv ps Hps. step Hv u1 H1. step Hv u2 H2. step Hv u3 H3. destruct u2.
    apply raise_if_ok, orb_false_iff in H1 as [H1%Z.ltb_ge H1'%Z.ltb_ge].
    assert (Hp : ∀ i p, (closed.*1 ++ option_list open) !! i = Some p → prepare_at (envelopes l) (S i) p).
    { apply (check_prepares_ok _ _ _ Hps 1); [lia| |exact H2]. rewrite length_app, length_fmap. lia. }
    split; [by exists ps|lia|exact Hp|]. destruct open as [p|]; cbn [option_list fmap list_fmap] in *.
    + step Hv u4 H4. apply raise_if_ok in Hv, H4. split; [done|]. cbn [t_prepare prepared] in H4.
      apply negb_false_iff, (open_position _ (S (length closed))) in H4; [lia|].
      exact (pa_sequence _ _ _ (Hp _ _ (Hlast _ eq_refl))).
    + apply raise_if_ok in H3. cbn in H3. apply negb_false_iff, Z.eqb_eq in H3. lia.
  - intros [[ps Hps] [C1 C2] Hp Ho]. rewrite (bind_run _ _ _ Hps).
    rewrite check_run by (rewrite orb_false_iff, !Z.ltb_ge; lia).
    assert (check_prepares ps (envelopes l) 1 (closed.*1 ++ option_list open) = Ok tt) as Hc.
    { apply (check_prepares_ok _ _ _ Hps); [lia| |exact Hp]. rewrite length_app, length_fmap. lia. }
    rewrite (bind_run _ _ _ Hc). destruct open as [p|]; cbn [option_list fmap list_fmap] in *.
    + destruct Ho as [-> Ho]. rewrite check_run by done. change (prepared <$> option_list (Some p)) with [prepared p]; cbn [t_prepare prepared].
      rewrite check_run; [done|]. apply negb_false_iff.
      apply (open_position _ (S (length closed))); [|cbn in C1; lia].
      exact (pa_sequence _ _ _ (Hp _ _ (Hlast _ eq_refl))).
    + rewrite check_run; [done|]. rewrite Ho, Z.eqb_refl. done.
Qed.

(** Every event of a clean store has one transaction of its own. *)
Record accounted (l : list dict) (closed : list (dict * dict)) : Prop := Accounted {
  ac_count : length closed = length l;
  ac_once : NoDup (tx_of <$> closed.*1);
  ac_each : ∀ i p c e, closed !! i = Some (p, c) → l !! i = Some e →
    commits p c ∧ py_eq (get p "envelope") (JObj e) = true ∧
    py_eq (get p "expected_sequence") (JInt (Z.of_nat (S i))) = true ∧
    get p "pre_log_sha256" = JStr (sha256_hex (log_text (take i l))) ∧
    get p "post_log_sha256" = JStr (sha256_hex (log_text (take (S i) l)))
}.

Lemma consistent_accounted content j l closed open : journal_reading content j closed open →
  consistent true l closed open → open = None ∧ accounted l closed.
Proof.
  intros Hj [_ _ Hp Ho]. destruct open as [p|]; [by destruct Ho|]. split; [done|].
  cbn [option_list] in Hp. rewrite app_nil_r in Hp.
  destruct (jr_chain _ _ _ _ Hj) as (w & [_ _ _ Hn Hc _ _] & _ & _). split; [done| |].
  - unfold states_of in Hn. cbn [option_list fmap list_fmap] in Hn. rewrite app_nil_r in Hn.
    by rewrite <- !list_fmap_compose in *.
  - intros i q c e Hq He. rewrite Forall_lookup in Hc. split; [exact (Hc _ _ Hq)|].
    assert (Hi : closed.*1 !! i = Some q) by by rewrite list_lookup_fmap, Hq.
    destruct (Hp _ _ Hi) as [P1 P2 _ P4]. cbn [Nat.sub] in *. rewrite Nat.sub_0_r in *.
    assert (Hlt : (i < length l)%nat) by (by apply lookup_lt_Some in He).
    destruct (P4 Hlt) as (Q1 & Q2 & _). rewrite (nth_lookup_Some _ _ _ _ He) in Q1. done.
Qed.

(** ** What is in the files *)

Lemma decoded body label d : _decode_json_object body label = Ok d →
  body = canonical_json (JObj d) ∧ json_loads body = Ok (JObj d).
Proof.
  intros Hd. step Hd u1 H1. step Hd v Hv. destruct v as [| | | | | |m]; try done.
  step Hd again Ha. step Hd u2 H2. apply Ok_inj in Hd as <-.
  apply raise_if_ok, negb_false_iff, bool_decide_eq_true in H2. apply canonical_bytes_ok in Ha as [-> _].
  destruct (utf8_valid body); [|done]. apply catch_raise_ok in Hv. by rewrite H2.
Qed.

Lemma log_decoded body d : decoder log_format body = Ok d →
  _decode_json_object body "Ledger v2 log" = Ok d ∧ validate_v2_envelope (JObj d) = Ok d.
Proof.
  intros Hd. cbn [decoder log_format] in Hd. unfold _decode_ledger_line in Hd. step Hd v Hv. skip Hd.
  pose proof (envelope_ok _ _ Hd) as [E _]. apply JObj_inj in E as ->. done.
Qed.

Lemma journal_decoded body d : decoder journal_format body = Ok d →
  _decode_json_object body "Ledger v2 journal" = Ok d ∧ _validate_journal_record d = Ok d.
Proof.
  intros Hd. cbn [decoder journal_format] in Hd. unfold _decode_journal_line in Hd. step Hd v Hv.
  pose proof (record_kind _ _ Hd) as [-> _]. done.
Qed.

(** The lines of a file are the canonical texts of its documents. *)
Definition canonical_format (f : line_format) : Prop :=
  0 ≤ maximum_line f ∧ 0 ≤ maximum_bytes f ∧
  ∀ body d, decoder f body = Ok d → body = canonical_json (JObj d) ∧ json_loads body = Ok (JObj d).

Lemma log_canonical : canonical_format log_format.
Proof. split; [done|]. split; [done|]. intros body d Hd%log_decoded. eapply decoded, Hd. Qed.
Lemma journal_canonical : canonical_format journal_format.
Proof. split; [done|]. split; [done|]. intros body d Hd%journal_decoded. eapply decoded, Hd. Qed.

Lemma terminated l : l ≠ "" → ends_with (String LF "") l = true →
  l = line (String.substring 0 (String.length l - 1) l).
Proof.
  induction l as [|c l IH]; [done|]. intros _ Hl. cbn [ends_with] in Hl.
  apply orb_true_iff in Hl as [Hl%bool_decide_eq_true|Hl]; [by rewrite Hl|].
  destruct l as [|d l]; [done|]. specialize (IH ltac:(done) Hl).
  cbn [String.length]. replace (S (S (String.length l)) - 1)%nat with (S (String.length l)) by lia.
  cbn [String.length] in IH. replace (S (String.length l) - 1)%nat with (String.length l) in IH by lia.
  remember (String d l) as t eqn:Et. cbn [String.substring]. unfold line in *. rewrite str_app_cons. by rewrite <- IH.
Qed.

Lemma read_lines_text f fuel : canonical_format f → ∀ docs rest docs1 read1,
  read_lines fuel f docs (log_text docs) rest = Ok (docs1, read1) → read1 = log_text docs1.
Proof.
  intros (_ & _ & Hf). induction fuel as [|fuel IH]; intros docs rest docs1 read1; [done|].
  cbn [read_lines]. cbv zeta. destruct (readline _ rest) as [l r]. destruct (bool_decide (l = "")) eqn:El;
    [by intros [= <- <-]|]. intros Hr. do 2 (apply bind_ok in Hr as (? & _ & Hr)).
  apply bind_ok in Hr as (u & Hlf & Hr). apply raise_if_ok, negb_false_iff in Hlf.
  apply bool_decide_eq_false in El. apply bind_ok in Hr as (? & _ & Hr). apply bind_ok in Hr as (d & Hd & Hr).
  apply Hf in Hd as [Hd _]. rewrite (terminated _ El Hlf) in Hr. rewrite Hd, <- log_text_snoc in Hr.
  by eapply IH.
Qed.

Lemma read_jsonl_text f content r : canonical_format f → _read_jsonl f content = Ok r → content = log_text r.1.1.
Proof.
  intros Hf Hr. pose proof Hr as Hr'. step Hr docs Hd. destruct docs as [docs read]. apply Ok_inj in Hr as <-.
  apply (read_lines_text _ _ Hf []) in Hd as Ht. cbn [fst].
  destruct Hf as (B1 & B2 & _). rewrite <- (str_app_nil_r content) in Hr'.
  step Hr' docs2 Hd2. destruct docs2 as [docs2 read2].
  destruct (read_lines_app f B1 "" _ _ [] "" content _ _ _ _ B2 Hd Hd2) as (E & _). rewrite <- Ht. exact (eq_sym E).
Qed.

(** What has been read of a log. *)
Record log_reading (h : host) (content : string) (l : VerifiedV2StoreSnapshot) : Prop := LogReading {
  lr_text : content = log_text (envelopes l);
  lr_count : event_count l = Z.of_nat (length (envelopes l));
  lr_figures : log_sha256 l = sha256_hex content ∧ log_size_bytes l = Z.of_nat (String.length content);
  lr_chain : ∃ summary, verify_v2_chain h (JObj <$> envelopes l) = Ok summary ∧
             head_hash l = get summary "head" ∧ ledger_id l = get summary "ledger_id";
  lr_envelopes : Forall (λ e, validate_v2_envelope (JObj e) = Ok e) (envelopes l)
}.

Lemma log_read h content l : read_ledger h content = Ok l → log_reading h content l.
Proof.
  intros Hl. unfold read_ledger in Hl. step Hl r Hr. destruct r as [[docs digest] total].
  step Hl summary Hs. apply Ok_inj in Hl as <-. destruct log_bounds as [B1 B2].
  destruct (read_jsonl_figures log_format B1 B2 _ _ Hr) as [Ed Es]. cbn [fst snd] in Ed, Es. subst digest total.
  split; cbn; [exact (read_jsonl_text _ _ _ log_canonical Hr)|done..|by exists summary|].
  step Hr r Hr'. destruct r as [docs1 read1]. injection Hr as -> _ _.
  apply read_lines_decoded in Hr'; [|constructor]. eapply Forall_impl; [exact Hr'|].
  intros e (body & Hb). by apply log_decoded in Hb as [_ Hb].
Qed.

(** The journal with one more record. *)
Lemma chain_entries_app l1 l2 : ∀ i w w2, chain_entries i w (l1 ++ l2) = Ok w2 →
  ∃ w1, chain_entries i w l1 = Ok w1 ∧ chain_entries (i + Z.of_nat (length l1)) w1 l2 = Ok w2.
Proof.
  induction l1 as [|e l1 IH]; intros i w w2 He; cbn [app chain_entries] in *.
  - exists w. split; [done|]. by replace (i + Z.of_nat (length [])) with i by (cbn; lia).
  - step He w' H1. apply IH in He as (w1 & H2 & He). exists w1. split; [by rewrite (bind_run _ _ _ H1)|].
    by replace (i + Z.of_nat (length (e :: l1))) with (i + 1 + Z.of_nat (length l1)) by (cbn; lia).
Qed.

Lemma journal_line content j closed open b j' : journal_reading content j closed open →
  read_journal content = Ok j → inline b = true → read_journal (content +:+ line b) = Ok j' →
  ∃ d, decoder journal_format b = Ok d ∧ entries j' = entries j ++ [d] ∧
    match open with
    | None => journal_reading (content +:+ line b) j' closed (Some d)
    | Some p => journal_reading (content +:+ line b) j' (closed ++ [(p, d)]) None
    end.
Proof.
  intros Hr Hj Hb Hj'. destruct (jr_chain _ _ _ _ Hr) as (w & Hc & Ew & Hw).
  unfold read_journal in Hj, Hj'. destruct journal_bounds as [B1 B2].
  step Hj r1 H1. step Hj' r2 H2. destruct (read_jsonl_line journal_format B1 B2 _ _ _ _ Hb H1 H2) as (d & Hd & E).
  destruct (read_jsonl_figures journal_format B1 B2 _ _ H2) as [Ed Es].
  destruct r1 as [[docs1 ?] ?], r2 as [[docs2 digest] total]. cbn [fst snd] in *. subst docs2 digest total.
  step Hj txs1 Ht1. step Hj' txs2 Ht2. apply Ok_inj in Hj as <-, Hj' as <-. cbn [entries] in *.
  exists d. split; [done|]. split; [done|]. step Ht2 w2 Hw2. apply Ok_inj in Ht2 as <-.
  pose proof Hw2 as Hw2'. apply chain_entries_app in Hw2' as (w1 & E1 & Hs). rewrite Hw in E1.
  apply Ok_inj in E1 as <-. cbn [chain_entries] in Hs. step Hs w3 Hs'. apply Ok_inj in Hs as ->.
  apply (chain_step _ _ _ _ _ _ _ Hc) in Hs'. pose proof (jr_commits _ _ _ _ Hr) as Hk.
  destruct open as [p|]; (split; cbn [entries transactions entry_count j_head_hash j_sha256 j_size_bytes];
    [by exists w2| |done..]); [|done].
  rewrite fmap_app. apply Forall_app. split; [done|]. constructor; [|done]. cbn [snd].
  apply journal_decoded in Hd as [_ Hd]. apply (proj2 (record_kind _ _ Hd)).
  pose proof (ch_kinds _ _ _ _ Hs') as Hk'. rewrite fmap_app in Hk'.
  apply Forall_app in Hk' as [_ Hk']. by inversion_clear Hk'.
Qed.

(** C4: When a read returns, the journal explains the log: its records are
    alternately a PREPARE and the COMMIT that repeats its fields, one pair for
    each event, with one transaction identifier each; the pair of an event holds
    its envelope, its position and the digests of the log before and after it,
    and these pairs are the store's transactions, all of them committed. *)
Theorem clean_store_is_accounted env s v t : read_verified env s = (Ok v, t) →
  ∃ content j closed, s_jnl s = Some content ∧ read_journal content = Ok j ∧
    entries j = journal_of closed None ∧ accounted (envelopes v) closed ∧
    transactions j = list_to_map ((λ p, (tx_of p.1, committed p)) <$> closed).
Proof.
  intros (s1 & s2 & Hb & [= EL EJ] & _)%locked_ok. apply M_bind_ok in Hb as (a & s3 & Hc & [= <- _]).
  apply M_bind_ok in Hc as (l & s4 & Hl & Hc). pose proof Hl as (text & _ & Hl')%ledger_read_ok.
  apply M_bind_ok in Hc as (j & s5 & Hj & Hc). apply M_bind_ok in Hc as ([] & s6 & [Hv _]%liftM_ok & Hc).
  apply M_bind_ok in Hc as (p & s7 & _ & Hc). apply M_bind_ok in Hc as (u & s8 & _ & [= <- _]).
  apply M_bind_ok in Hj as (content & s9 & Ho & [Hj _]%liftM_ok).
  apply M_bind_ok in Ho as (u1 & s10 & Ht & [Ho _]%askM_ok). apply catchM_raise_ok in Ht.
  pose proof (reading_touch env s4) as [_ Et]. pose proof (reading_ledger env s1) as [_ E1].
  rewrite Ht in Et. rewrite Hl in E1. cbn [snd content_of] in Et, E1, Ho. rewrite Et, E1, EJ in Ho.
  destruct (s_jnl s) as [c|]; [|done]. injection Ho as ->.
  destruct (journal_read _ _ Hj) as (closed & open & Hr). apply log_read in Hl'.
  apply (combined_consistent _ _ _ _ _ _ Hr (lr_count _ _ _ Hl')) in Hv.
  destruct (consistent_accounted _ _ _ _ _ Hr Hv) as [-> Ha].
  destruct (jr_chain _ _ _ _ Hr) as (w & Hch & Ew & _). exists content, j, closed.
  split; [done|]. split; [exact Hj|]. split; [exact (ch_entries _ _ _ _ Hch)|]. split; [exact Ha|].
  rewrite Ew, (ch_states _ _ _ _ Hch). unfold states_of. cbn [option_list fmap list_fmap]. by rewrite app_nil_r.
Qed.
End Chain.
