(* ===== verification/StoreRecovery.v ===== *)
(** * One append

    What an append that returns has written (the refinement of an abstract log),
    and that an append cut short by a crash is finished by reconciling it. *)

From S2P Require Import VerifierProtocol.
From S2P Require Export StoreChain.

(** The files and the transactions in doubt, whatever the tick. *)
Record holds (L J : string) (I : gset string) (s : store) : Prop := Holds {
  h_log : s_log s = Some L; h_jnl : s_jnl s = Some J; h_doubt : s_indeterminate s = I
}.

Definition file (f : store_file) (L J : string) : string := match f with LogFile => L | JournalFile => J end.

Lemma content_held f L J I s : holds L J I s → content_of f s = Some (file f L J).
Proof. intros [HL HJ _]. by destruct f. Qed.

(** The two files with more at the end of one. *)
Definition log_with (f : store_file) (L r : string) : string := match f with LogFile => L +:+ r | JournalFile => L end.
Definition jnl_with (f : store_file) (J r : string) : string := match f with LogFile => J | JournalFile => J +:+ r end.

Section Returned.
Context `{Hashing} `{OpenSSL} (env : store_environment).

(** ** Calls that returned *)

Lemma touch_held L J I s u s' : holds L J I s → touch env s = (Ok u, s') → holds L J I s'.
Proof.
  intros [HL HJ HI] (a & s1 & Hd & Ht)%M_bind_ok. injection Hd as <- <-.
  destruct (st_io env (s_tick s)); [by injection Ht as _ <-|done].
Qed.

Lemma fsync_held L J I s u s' : holds L J I s → _fsync_parent env s = (Ok u, s') → holds L J I s'.
Proof.
  intros Hs. unfold _fsync_parent. destruct (st_posix env); [by apply touch_held|by intros [= _ <-]].
Qed.

Context (L J : string) (I : gset string).

Lemma open_held f s c s' : holds L J I s → _open_regular env f s = (Ok c, s') → holds L J I s' ∧ c = file f L J.
Proof.
  intros Hs (u & s1 & Ht & [Hc ->]%askM_ok)%M_bind_ok. apply catchM_raise_ok in Ht.
  apply (touch_held _ _ _ _ _ _ Hs) in Ht. split; [done|]. rewrite (content_held f _ _ _ _ Ht) in Hc. by injection Hc as <-.
Qed.

Lemma sync_held f s u s' : holds L J I s → _sync_existing env f s = (Ok u, s') → holds L J I s'.
Proof.
  intros Hs (c & s1 & [Ho _]%(open_held _ _ _ _ Hs) & Ht)%M_bind_ok. by eapply touch_held.
Qed.

Lemma ledger_held s l s' : holds L J I s → _read_ledger_unlocked env s = (Ok l, s') →
  holds L J I s' ∧ read_ledger (st_host env) L = Ok l.
Proof. intros Hs (c & s1 & [Ho ->]%(open_held _ _ _ _ Hs) & [Hl ->]%liftM_ok)%M_bind_ok. done. Qed.

Lemma journal_held s j s' : holds L J I s → _read_journal_unlocked env s = (Ok j, s') →
  holds L J I s' ∧ read_journal J = Ok j.
Proof. intros Hs (c & s1 & [Ho ->]%(open_held _ _ _ _ Hs) & [Hl ->]%liftM_ok)%M_bind_ok. done. Qed.

Definition doubts (allowed : option string) : gset string :=
  I ∖ match allowed with Some t => {[t]} | None => ∅ end.

(** A reading of both files. *)
Record both_read (clean : bool) (allowed : option string) (a : _CombinedAudit) : Prop := BothRead {
  br_log : ∃ l, read_ledger (st_host env) L = Ok l ∧ a = combine l (journal a) ∧
                _validate_combined l (journal a) clean = Ok tt;
  br_jnl : read_journal J = Ok (journal a);
  br_doubts : clean = true → doubts allowed = ∅
}.

Lemma combined_held clean allowed s a s' : holds L J I s →
  _read_combined_unlocked env clean allowed s = (Ok a, s') → holds L J I s' ∧ both_read clean allowed a.
Proof.
  intros Hs (l & s1 & [H1 Hl]%(ledger_held _ _ _ Hs) & Hr)%M_bind_ok.
  apply M_bind_ok in Hr as (j & s2 & [H2 Hj]%(journal_held _ _ _ H1) & Hr).
  apply M_bind_ok in Hr as ([] & s3 & [Hv ->]%liftM_ok & Hr).
  apply M_bind_ok in Hr as (p & s4 & [-> ->]%readM_ok & Hr).
  apply M_bind_ok in Hr as (u & s5 & [Hd ->]%raise_ifM_ok & [= <- <-]). split; [done|].
  split; cbn [journal combine]; [by exists l|done|]. intros ->. rewrite (h_doubt _ _ _ _ H2) in Hd.
  by apply negb_false_iff, bool_decide_eq_true in Hd.
Qed.

Lemma record_held f r maximum s u s' : holds L J I s → _append_record env f r maximum s = (Ok u, s') →
  holds (log_with f L r) (jnl_with f J r) I s' ∧
  Z.of_nat (String.length (file f L J) + String.length r) ≤ maximum.
Proof.
  intros Hs (c & s1 & [H1 ->]%(open_held _ _ _ _ Hs) & Hr)%M_bind_ok.
  apply M_bind_ok in Hr as (u1 & s2 & [Hm ->]%raise_ifM_ok & Hr). apply Z.ltb_ge in Hm.
  apply M_bind_ok in Hr as (u2 & s3 & Hw & Hr). rewrite !catchM_raise_ok in Hw.
  apply M_bind_ok in Hw as (a & s4 & Hd & Hw). injection Hd as <- <-.
  assert (Hw' : holds (log_with f L r) (jnl_with f J r) I s3).
  { destruct H1 as [HL HJ HI]. destruct (st_io env (s_tick s1)) as [|e l].
    - injection Hw as _ <-. destruct f; split; cbn; by rewrite ?HL, ?HJ.
    - apply M_bind_ok in Hw as (? & ? & _ & [? _]%liftM_ok). done. }
  split; [|done]. exact (fsync_held _ _ _ _ _ _ Hw' Hr).
Qed.

Lemma lock_held {A} (m : M store A) s a s' : holds L J I s → locked env m s = (Ok a, s') →
  ∃ s1 s2, holds L J I s1 ∧ m s1 = (Ok a, s2) ∧ ∀ L' J' I', holds L' J' I' s2 → holds L' J' I' s'.
Proof.
  intros Hs (u & s1 & Ha & Hf)%M_bind_ok. apply catchM_raise_ok in Ha. apply (touch_held _ _ _ _ _ _ Hs) in Ha.
  unfold finally in Hf. destruct (m s1) as [r s2] eqn:Em. destruct (release env s2) as [[v|e] s3] eqn:Er; [|done].
  injection Hf as -> <-. exists s1, s2. split; [done|]. split; [done|]. intros L' J' I' Hh.
  apply catchM_raise_ok in Er. exact (touch_held _ _ _ _ _ _ Hh Er).
Qed.

End Returned.

Section Appending.
Context `{Hashing} `{OpenSSL}.

(** What an append that returned has done. *)
Record appended (h : host) (L J : string) (audit : _CombinedAudit) (body : string) (document : dict) (tx_id expected_head : string)
    (expected_sequence : Z) (prepare commit : dict) (r : DurableV2Append) : Prop := HasAppended {
  ap_head : head_hash (ledger audit) = JStr expected_head;
  ap_count : event_count (ledger audit) + 1 = expected_sequence;
  ap_event : ∃ event, as_dict (get document "event") = Ok event ∧
    py_eq (get event "sequence") (JInt expected_sequence) = true ∧
    get event "previous_hash" = JStr expected_head;
  ap_chain : ∃ summary,
    verify_v2_chain h (JObj <$> (envelopes (ledger audit) ++ [document])) = Ok summary;
  ap_sizes : Z.of_nat (String.length body) ≤ MAX_STORE_LINE_BYTES ∧
    log_size_bytes (ledger audit) + Z.of_nat (String.length (line body)) ≤ MAX_STORE_BYTES;
  ap_prepare : ∃ post, _hash_envelope_lines (envelopes (ledger audit) ++ [document]) = Ok post ∧
    _make_prepare tx_id (entry_count (journal audit) + 1) (j_head_hash (journal audit)) document
      (ledger audit) post (log_size_bytes (ledger audit) + Z.of_nat (String.length (line body))) = Ok prepare;
  ap_after : ∃ after j,
    read_ledger h (L +:+ line body) = Ok after ∧
    _require_snapshot_matches_prepare after prepare true = Ok tt ∧
    read_journal (J +:+ line (canonical_json (JObj prepare))) = Ok j ∧ _make_commit prepare j = Ok commit;
  ap_records : raw_record prepare = Ok (line (canonical_json (JObj prepare))) ∧
    raw_record commit = Ok (line (canonical_json (JObj commit)));
  ap_fits : Z.of_nat (String.length J + String.length (line (canonical_json (JObj prepare)))) ≤ MAX_JOURNAL_BYTES ∧
    Z.of_nat (String.length L + String.length (line body)) ≤ MAX_STORE_BYTES ∧
    Z.of_nat (String.length (J +:+ line (canonical_json (JObj prepare)))
              + String.length (line (canonical_json (JObj commit)))) ≤ MAX_JOURNAL_BYTES;
  ap_final : ∃ final,
    (∃ l, read_ledger h (L +:+ line body) = Ok l ∧ final = combine l (journal final) ∧
          _validate_combined l (journal final) true = Ok tt) ∧
    read_journal ((J +:+ line (canonical_json (JObj prepare))) +:+ line (canonical_json (JObj commit)))
      = Ok (journal final) ∧
    r = Appended tx_id (JObj document) (ledger final)
}.

Lemma raw_record_line d r : raw_record d = Ok r → r = line (canonical_json (JObj d)).
Proof. intros Hr. step Hr b Hb. apply Ok_inj in Hr as <-. by apply canonical_bytes_ok in Hb as [-> _]. Qed.

(** [except Exception: ... raise] does not change what returned. *)
Lemma or_indeterminate_ok {A} tx_id phase (m : M store A) s a s' :
  or_indeterminate tx_id phase m s = (Ok a, s') → m s = (Ok a, s').
Proof.
  unfold or_indeterminate, catchM. destruct (m s) as [[b|e] s1]; [done|]. by destruct (is_a e Exception).
Qed.

Lemma append_new_returned env L J I audit body document tx_id expected_head expected_sequence s r s' :
  holds L J I s → append_new env audit body document tx_id expected_head expected_sequence s = (Ok r, s') →
  ∃ prepare commit, appended (st_host env) L J audit body document tx_id expected_head expected_sequence prepare commit r ∧
    holds (L +:+ line body)
      ((J +:+ line (canonical_json (JObj prepare))) +:+ line (canonical_json (JObj commit))) (I ∖ {[tx_id]}) s'.
Proof.
  intros Hs Ha. unfold append_new in Ha. cbv zeta in Ha.
  apply M_bind_ok in Ha as (u1 & s1 & [G1%py_neq_str ->]%raise_ifM_ok & Ha).
  apply M_bind_ok in Ha as (u2 & s2 & [G2%negb_false_iff%Z.eqb_eq ->]%raise_ifM_ok & Ha).
  apply M_bind_ok in Ha as (event & s3 & [He ->]%liftM_ok & Ha).
  apply M_bind_ok in Ha as (u3 & s4 & [[G3%py_neq_false G4%py_neq_str]%orb_false_iff ->]%raise_ifM_ok & Ha).
  apply M_bind_ok in Ha as (summary & s5 & [Hc ->]%liftM_ok & Ha).
  apply M_bind_ok in Ha as (u4 & s6 & [G5%Z.ltb_ge ->]%raise_ifM_ok & Ha).
  apply M_bind_ok in Ha as (u5 & s7 & [G6%Z.ltb_ge ->]%raise_ifM_ok & Ha).
  apply M_bind_ok in Ha as (post & s8 & [Hpost ->]%liftM_ok & Ha).
  apply M_bind_ok in Ha as (prepare & s9 & [Hp ->]%liftM_ok & Ha).
  apply M_bind_ok in Ha as (u6 & s10 & Hjp & Ha).
  unfold catchM at 1 in Hjp. destruct ((r ← liftM (raw_record prepare); _append_record env JournalFile r MAX_JOURNAL_BYTES) s)
    as [[u|e] s11] eqn:Ejp.
  2:{ destruct (is_a e Exception); [|done]. apply M_bind_ok in Hjp as (o & ? & _ & Hjp).
      destruct (match o with Some a => audit_eq a audit | None => false end);
        by apply M_bind_ok in Hjp as (? & ? & _ & Hjp). }
  injection Hjp as _ <-. apply M_bind_ok in Ejp as (P & s12 & [HP ->]%liftM_ok & Ejp).
  pose proof (raw_record_line _ _ HP) as EP. rewrite EP in HP, Ejp.
  eapply record_held in Ejp as [H1 F1]; [|exact Hs]. cbn [log_with jnl_with file] in H1, F1.
  apply M_bind_ok in Ha as (u7 & s13 & Hev%or_indeterminate_ok & Ha).
  apply M_bind_ok in Hev as (u8 & s14 & Hev & Hra).
  eapply record_held in Hev as [H2 F2]; [|exact H1]. cbn [log_with jnl_with file] in H2, F2.
  apply M_bind_ok in Hra as (after & s15 & Hafter & [Hm ->]%liftM_ok).
  eapply ledger_held in Hafter as [H3 Hafter]; [|exact H2].
  apply M_bind_ok in Ha as (j & s16 & Hj & Ha). eapply journal_held in Hj as [H4 Hj]; [|exact H3].
  apply M_bind_ok in Ha as (commit & s17 & [Hcm ->]%liftM_ok & Ha).
  apply M_bind_ok in Ha as (u9 & s18 & Hjc%or_indeterminate_ok & Ha).
  apply M_bind_ok in Hjc as (C & s19 & [HC ->]%liftM_ok & Hjc).
  pose proof (raw_record_line _ _ HC) as EC. rewrite EC in HC, Hjc.
  eapply record_held in Hjc as [H5 F3]; [|exact H4]. cbn [log_with jnl_with file] in H5, F3.
  apply M_bind_ok in Ha as (final & s20 & Hf%or_indeterminate_ok & Ha).
  eapply combined_held in Hf as [H6 Hf]; [|exact H5].
  apply M_bind_ok in Ha as (u10 & s21 & Hu & [= <- <-]). injection Hu as _ <-. destruct u7.
  exists prepare, commit. split; [|destruct H6 as [HL HJ <-]; by split].
  destruct Hf as [Hl Hjf _]. split; [done|done|by exists event|by exists summary|done|by exists post|
    by exists after, j|done|done|by exists final].
Qed.
End Appending.

(** * The records of an append *)

Section Records.
Context `{Hashing} `{OpenSSL}.

Lemma hashed_record unsigned d : _with_journal_hash unsigned = Ok d →
  ∃ sha, d = dict_of (unsigned ++ [("journal_hash", JStr sha)]).
Proof. intros Hd. step Hd sha Hs. apply Ok_inj in Hd as <-. by exists sha. Qed.

(** What a PREPARE says. *)
Record promises (tx_id : string) (document : dict) (before : VerifiedV2StoreSnapshot)
    (sequence : Z) (previous : json) (post : string) (size : Z) (prepare : dict) : Prop := Promises {
  pr_tx : get prepare "tx_id" = JStr tx_id;
  pr_kind : has_kind "PREPARE" prepare = true;
  pr_envelope : get prepare "envelope" = JObj document;
  pr_hash : get prepare "event_hash" = get document "event_hash";
  pr_event : ∃ event, as_dict (get document "event") = Ok event ∧
    get prepare "expected_sequence" = get event "sequence" ∧ get prepare "expected_head" = get event "previous_hash";
  pr_pre : get prepare "pre_log_sha256" = JStr (log_sha256 before) ∧
           get prepare "pre_log_size_bytes" = JInt (log_size_bytes before);
  pr_post : get prepare "post_log_sha256" = JStr post ∧ get prepare "post_log_size_bytes" = JInt size;
  pr_floats : floats_ok (JObj document) = true → floats_ok previous = true → floats_ok (JObj prepare) = true
}.

Lemma prepare_promises tx_id n previous document before post size prepare :
  _make_prepare tx_id n previous document before post size = Ok prepare →
  promises tx_id document before n previous post size prepare.
Proof.
  intros Hp. step Hp event He. step Hp sha Hs. apply hashed_record in Hp as [sha' ->].
  split; try reflexivity; [by exists event|done|done|].
  intros Hd Hprev. apply floats_ok_dict_of. cbn [app forallb snd]. rewrite Hprev, Hd.
  assert (He' : floats_ok (JObj event) = true).
  { pose proof (floats_ok_get _ "event" Hd) as Hf. destruct (get document "event"); try done.
    by apply Ok_inj in He as <-. }
  rewrite !floats_ok_get by done. done.
Qed.

Lemma commit_tx prepare j commit : _make_commit prepare j = Ok commit →
  get commit "tx_id" = get prepare "tx_id" ∧ j_head_hash j = get commit "previous_journal_hash".
Proof. intros Hc. step Hc u Hu. by apply hashed_record in Hc as [sha ->]. Qed.

(** The line of a record is read as the record. *)
Lemma decoded_record f d r : canonical_format f → floats_ok (JObj r) = true →
  decoder f (canonical_json (JObj r)) = Ok d → d = r.
Proof.
  intros (_ & _ & Hf) Hr [_ Hd]%Hf. rewrite (loads_canonical _ Hr) in Hd.
  apply Ok_inj, JObj_inj in Hd. by symmetry.
Qed.

Lemma inline_canonical v : inline (canonical_json v) = true.
Proof. apply inline_dumps. Qed.

(** The journal's head is a text. *)
Lemma head_floats content j : read_journal content = Ok j → floats_ok (j_head_hash j) = true.
Proof.
  intros Hj. destruct (journal_read _ _ Hj) as (closed & open & Hr). rewrite (jr_head _ _ _ _ Hr).
  destruct (last (entries j)) as [e|] eqn:El; [|done].
  unfold read_journal in Hj. step Hj r Hr'. destruct r as [[docs digest] total]. step Hj txs Ht.
  apply Ok_inj in Hj as <-. cbn [entries] in *. step Hr' r Hl. destruct r as [docs1 read1]. injection Hr' as -> _ _.
  apply read_lines_decoded in Hl; [|constructor]. rewrite Forall_forall in Hl.
  assert (Hin : e ∈ docs) by by apply last_Some_elem_of.
  destruct (Hl e Hin) as (body & Hb). apply journal_decoded in Hb as [_ Hb].
  unfold _validate_journal_record in Hb. cbv zeta in Hb. do 11 skip Hb. step Hb claimed Hc.
  unfold _sha256 in Hc. apply checked_ok in Hc as [-> _]. done.
Qed.
End Records.

(** * The store as a log *)

Section Refinement.
Context `{Hashing} `{OpenSSL}.

(** The abstract log: the envelopes in order, the hash of the last one, and what
    each transaction has appended. *)
Record abstract_log := AbstractLog { log_events : list dict; log_head : json; log_known : gmap string json }.

(** Compare and append, once per transaction. *)
Inductive spec_append (a : abstract_log) (tx_id : string) (d : dict) (expected_head : string)
    (expected_sequence : Z) : json → abstract_log → Prop :=
  | spec_again e : log_known a !! tx_id = Some e → py_eq e (JObj d) = true →
      spec_append a tx_id d expected_head expected_sequence e a
  | spec_next : log_known a !! tx_id = None → log_head a = JStr expected_head →
      Z.of_nat (length (log_events a)) + 1 = expected_sequence →
      spec_append a tx_id d expected_head expected_sequence (JObj d)
        (AbstractLog (log_events a ++ [d]) (get d "event_hash") (<[tx_id := JObj d]> (log_known a))).

Definition known_of (txs : gmap string V2TransactionState) : gmap string json :=
  (λ t, get (default ∅ (t_prepare t)) "envelope") <$> txs.

(** The files of a store with no transaction in doubt that hold an abstract log. *)
Record represents (h : host) (s : store) (a : abstract_log) : Prop := Represents {
  rp : ∃ L J l j closed, holds L J ∅ s ∧ read_ledger h L = Ok l ∧ read_journal J = Ok j ∧
       journal_reading J j closed None ∧ consistent true (envelopes l) closed None ∧
       a = AbstractLog (envelopes l) (head_hash l) (known_of (transactions j))
}.

Lemma represented h L J s l j : holds L J ∅ s → read_ledger h L = Ok l → read_journal J = Ok j →
  _validate_combined l j true = Ok tt →
  represents h s (AbstractLog (envelopes l) (head_hash l) (known_of (transactions j))).
Proof.
  intros Hs Hl Hj Hv. destruct (journal_read _ _ Hj) as (closed & open & Hr).
  apply (combined_consistent _ _ _ _ _ _ Hr (lr_count _ _ _ (log_read _ _ _ Hl))) in Hv.
  destruct (consistent_accounted _ _ _ _ _ Hr Hv) as [-> _]. constructor. by exists L, J, l, j, closed.
Qed.

(** The states of the transactions when one has been prepared and committed. *)
Lemma known_closed closed p c :
  NoDup (states_of (closed ++ [(p, c)]) None).*1 →
  known_of (list_to_map (states_of (closed ++ [(p, c)]) None))
  = <[tx_of p := get p "envelope"]> (known_of (list_to_map (states_of closed None))).
Proof.
  rewrite states_closed. intros Hn. rewrite fmap_app in Hn. cbn in Hn. apply NoDup_snoc in Hn as [_ Hn].
  rewrite list_to_map_snoc by done. unfold known_of. by rewrite fmap_insert.
Qed.

(** The log with one more line. *)
Lemma log_line h1 h2 L l b l' : read_ledger h1 L = Ok l → read_ledger h2 (L +:+ line b) = Ok l' → inline b = true →
  ∃ d, decoder log_format b = Ok d ∧ envelopes l' = envelopes l ++ [d].
Proof.
  intros Hl Hl' Hb. unfold read_ledger in *. destruct log_bounds as [B1 B2].
  step Hl r1 H1. step Hl' r2 H2. destruct (read_jsonl_line log_format B1 B2 _ _ _ _ Hb H1 H2) as (d & Hd & E).
  destruct r1 as [[docs1 ?] ?], r2 as [[docs2 ?] ?]. cbn [fst snd] in *. subst docs2.
  step Hl u1 Hu1. step Hl' u2 Hu2. apply Ok_inj in Hl as <-, Hl' as <-. by exists d.
Qed.

(** The journal after an append: one more pair. *)
Lemma journal_of_append J j closed prepare commit j1 j2 :
  read_journal J = Ok j → journal_reading J j closed None →
  floats_ok (JObj prepare) = true → floats_ok (JObj commit) = true →
  read_journal (J +:+ line (canonical_json (JObj prepare))) = Ok j1 →
  read_journal ((J +:+ line (canonical_json (JObj prepare))) +:+ line (canonical_json (JObj commit))) = Ok j2 →
  journal_reading (J +:+ line (canonical_json (JObj prepare))) j1 closed (Some prepare) ∧
  journal_reading ((J +:+ line (canonical_json (JObj prepare))) +:+ line (canonical_json (JObj commit))) j2
    (closed ++ [(prepare, commit)]) None.
Proof.
  intros Hj Hr Fp Fc H1 H2.
  destruct (journal_line _ _ _ _ _ _ Hr Hj (inline_canonical _) H1) as (p & Hp & _ & R1).
  apply (decoded_record _ _ _ journal_canonical Fp) in Hp as ->.
  destruct (journal_line _ _ _ _ _ _ R1 H1 (inline_canonical _) H2) as (c & Hc & _ & R2).
  by apply (decoded_record _ _ _ journal_canonical Fc) in Hc as ->.
Qed.

(** A COMMIT repeats fields of its PREPARE and the journal's head. *)
Lemma commit_floats prepare j commit content : _make_commit prepare j = Ok commit →
  read_journal content = Ok j → floats_ok (JObj prepare) = true → floats_ok (JObj commit) = true.
Proof.
  intros Hc Hj%head_floats Hp. step Hc u Hu. apply hashed_record in Hc as [sha ->].
  apply floats_ok_dict_of. cbn [app forallb snd]. rewrite Hj, !floats_ok_get by done. done.
Qed.

(** What the snapshot after an event says of its PREPARE. *)
Lemma applied_head after prepare : _require_snapshot_matches_prepare after prepare true = Ok tt →
  py_eq (head_hash after) (get prepare "event_hash") = true.
Proof. intros [[[[_ Hh]%andb_true_iff _]%andb_true_iff _]%andb_true_iff _]%raise_if_ok%negb_false_iff%andb_true_iff. done. Qed.

(** What is in the files after the PREPARE, the event and the COMMIT of an append. *)
Record written (h : host) (L J : string) (l : VerifiedV2StoreSnapshot) (j : _JournalSnapshot)
    (closed : list (dict * dict)) (d : dict) (tx_id : string) (prepare commit : dict) (r : DurableV2Append)
    (after : VerifiedV2StoreSnapshot) (j1 j2 : _JournalSnapshot) : Prop := Written {
  wr_log : read_ledger h (L +:+ line (canonical_json (JObj d))) = Ok after;
  wr_events : envelopes after = envelopes l ++ [d] ∧ head_hash after = get d "event_hash";
  wr_prepared : read_journal (J +:+ line (canonical_json (JObj prepare))) = Ok j1 ∧
    journal_reading (J +:+ line (canonical_json (JObj prepare))) j1 closed (Some prepare);
  wr_committed :
    read_journal ((J +:+ line (canonical_json (JObj prepare))) +:+ line (canonical_json (JObj commit))) = Ok j2 ∧
    journal_reading ((J +:+ line (canonical_json (JObj prepare))) +:+ line (canonical_json (JObj commit))) j2
      (closed ++ [(prepare, commit)]) None;
  wr_consistent : consistent true (envelopes after) (closed ++ [(prepare, commit)]) None;
  wr_applied : _require_snapshot_matches_prepare after prepare true = Ok tt;
  wr_commit : _make_commit prepare j1 = Ok commit;
  wr_promises : ∃ n previous post size, promises tx_id d (ledger (combine l j)) n previous post size prepare;
  wr_answer : r = Appended tx_id (JObj d) (ledger (combine after j2))
}.

Lemma appended_written h L J l j closed d tx_id expected_head expected_sequence prepare commit r :
  read_ledger h L = Ok l → read_journal J = Ok j → journal_reading J j closed None →
  floats_ok (JObj d) = true → validate_v2_envelope (JObj d) = Ok d →
  appended h L J (combine l j) (canonical_json (JObj d)) d tx_id expected_head expected_sequence prepare commit r →
  ∃ after j1 j2, written h L J l j closed d tx_id prepare commit r after j1 j2.
Proof.
  intros Hl Hj Hr Hd Hval [_ _ _ _ _ (post & _ & A3) (after & j1 & A4 & A5 & A6 & A7) _ _
    (final & (lf & F1 & F2 & F3) & F4 & ->)]. cbn [ledger combine head_hash event_count journal] in *.
  pose proof (prepare_promises _ _ _ _ _ _ _ _ A3) as Hp.
  assert (Fp : floats_ok (JObj prepare) = true) by exact (pr_floats _ _ _ _ _ _ _ _ Hp Hd (head_floats _ _ Hj)).
  pose proof (commit_floats _ _ _ _ A7 A6 Fp) as Fc.
  destruct (journal_of_append _ _ _ _ _ _ _ Hj Hr Fp Fc A6 F4) as [R1 R2].
  destruct (log_line _ _ _ _ _ _ Hl F1 (inline_canonical _)) as (d' & Hd' & Ed).
  apply (decoded_record _ _ _ log_canonical Hd) in Hd' as ->.
  rewrite A4 in F1. apply Ok_inj in F1 as ->.
  destruct (envelope_ok _ _ Hval) as (_ & event & _ & Heh & _).
  pose proof (applied_head _ _ A5) as Hh. rewrite (pr_hash _ _ _ _ _ _ _ _ Hp), Heh in Hh. apply py_eq_str in Hh.
  exists lf, j1, (journal final). split; [exact A4|split; [done|by rewrite Heh]|done|done| |done|done|by do 4 eexists|by rewrite <- F2].
  by apply (combined_consistent _ _ _ _ _ _ R2); [exact (lr_count _ _ _ (log_read _ _ _ A4))|].
Qed.

Lemma append_new_refines env L J l j closed d tx_id expected_head expected_sequence prepare commit r s' :
  read_ledger (st_host env) L = Ok l → read_journal J = Ok j → journal_reading J j closed None →
  floats_ok (JObj d) = true → validate_v2_envelope (JObj d) = Ok d → transactions j !! tx_id = None →
  appended (st_host env) L J (combine l j) (canonical_json (JObj d)) d tx_id expected_head expected_sequence prepare commit r →
  holds (L +:+ line (canonical_json (JObj d)))
    ((J +:+ line (canonical_json (JObj prepare))) +:+ line (canonical_json (JObj commit))) ∅ s' →
  ∃ a', spec_append (AbstractLog (envelopes l) (head_hash l) (known_of (transactions j)))
          tx_id d expected_head expected_sequence (a_envelope r) a' ∧
        represents (st_host env) s' a' ∧ envelopes (a_snapshot r) = log_events a'.
Proof.
  intros Hl Hj Hr Hd Hval Hnew Hap Hs'.
  destruct (appended_written _ _ _ _ _ _ _ _ _ _ _ _ _ Hl Hj Hr Hd Hval Hap)
    as (after & j1 & j2 & [W1 [W2 W3] _ [W4 W5] W6 _ _ (n & previous & post & size & Hp) ->]).
  pose proof (ap_head _ _ _ _ _ _ _ _ _ _ _ _ Hap) as A1. pose proof (ap_count _ _ _ _ _ _ _ _ _ _ _ _ Hap) as A2.
  cbn [ledger combine head_hash event_count] in A1, A2.
  assert (Etx : tx_of prepare = tx_id) by (unfold tx_of; by rewrite (pr_tx _ _ _ _ _ _ _ _ Hp)).
  destruct (jr_chain _ _ _ _ W5) as (w2 & Hc2 & Ew2 & _). destruct (jr_chain _ _ _ _ Hr) as (w & Hc & Ew & _).
  assert (Ek : known_of (transactions j2) = <[tx_id := JObj d]> (known_of (transactions j))).
  { rewrite Ew2, Ew, (ch_states _ _ _ _ Hc2), (ch_states _ _ _ _ Hc), known_closed by exact (ch_once _ _ _ _ Hc2).
    by rewrite Etx, (pr_envelope _ _ _ _ _ _ _ _ Hp). }
  eexists. split; [|split].
  - apply spec_next; [|exact A1|by rewrite <- A2, (lr_count _ _ _ (log_read _ _ _ Hl))].
    cbn [log_known]. unfold known_of. by rewrite lookup_fmap, Hnew.
  - constructor. exists (L +:+ line (canonical_json (JObj d))),
      ((J +:+ line (canonical_json (JObj prepare))) +:+ line (canonical_json (JObj commit))), after, j2.
    eexists. split; [exact Hs'|]. split; [exact W1|]. split; [exact W4|]. split; [exact W5|].
    split; [exact W6|by rewrite W2, W3, Ek].
  - cbn. by rewrite W2.
Qed.

(** The envelope an append was called with. *)
Lemma encoded_ok envelope body loaded document : floats_ok envelope = true →
  canonical_json_bytes envelope = Ok body → json_loads body = Ok loaded →
  validate_v2_envelope loaded = Ok document →
  envelope = JObj document ∧ body = canonical_json (JObj document) ∧ validate_v2_envelope (JObj document) = Ok document.
Proof.
  intros Hf [-> _]%canonical_bytes_ok Hl Hv. rewrite (loads_canonical _ Hf) in Hl. apply Ok_inj in Hl as <-.
  pose proof (envelope_ok _ _ Hv) as [-> _]. done.
Qed.

(** What the checks of an append that returned have established. *)
Record entered (j : _JournalSnapshot) (envelope : json) (tx_id expected_head : string) (expected_sequence : Z)
    (d : dict) : Prop := Entered {
  en_envelope : envelope = JObj d;
  en_arguments : is_ok (_identifier (JStr tx_id) "tx_id") ∧ is_ok (_sha256 (JStr expected_head) "expected_head") ∧
    is_ok (_positive_bounded_int (JInt expected_sequence) MAX_STORE_EVENTS "expected_sequence");
  en_encoded : canonical_json_bytes envelope = Ok (canonical_json (JObj d)) ∧
    json_loads (canonical_json (JObj d)) = Ok (JObj d) ∧ validate_v2_envelope (JObj d) = Ok d;
  en_intent : match transactions j !! tx_id with
              | Some t => _require_same_intent t d expected_head expected_sequence = Ok tt ∧ t_status t = "committed"
              | None => True
              end;
  en_resolved : unresolved_of (transactions j) = []
}.

(** An append that returned: a repetition, or one that wrote its three lines. *)
Lemma append_returned env L J l j envelope tx_id expected_head expected_sequence s r s' :
  floats_ok envelope = true → holds L J ∅ s → read_ledger (st_host env) L = Ok l → read_journal J = Ok j →
  append env envelope tx_id expected_head expected_sequence s = (Ok r, s') →
  ∃ d, entered j envelope tx_id expected_head expected_sequence d ∧
    match transactions j !! tx_id with
    | Some t => r = Appended tx_id (get (default ∅ (t_prepare t)) "envelope") (ledger (combine l j)) ∧ holds L J ∅ s'
    | None => ∃ prepare commit,
        appended (st_host env) L J (combine l j) (canonical_json (JObj d)) d tx_id expected_head expected_sequence
          prepare commit r ∧
        holds (L +:+ line (canonical_json (JObj d)))
          ((J +:+ line (canonical_json (JObj prepare))) +:+ line (canonical_json (JObj commit))) ∅ s'
    end.
Proof.
  intros Hf Hs Hl Hj Ha. unfold append in Ha.
  apply M_bind_ok in Ha as (v1 & ? & [Hv1 ->]%liftM_ok & Ha).
  apply M_bind_ok in Ha as (v2 & ? & [Hv2 ->]%liftM_ok & Ha).
  apply M_bind_ok in Ha as (v3 & ? & [Hv3 ->]%liftM_ok & Ha).
  apply M_bind_ok in Ha as (body & ? & [Hb ->]%liftM_ok & Ha).
  apply M_bind_ok in Ha as (loaded & ? & [Hld ->]%liftM_ok & Ha).
  apply M_bind_ok in Ha as (d & ? & [Hv ->]%liftM_ok & Ha).
  destruct (encoded_ok _ _ _ _ Hf Hb Hld Hv) as (-> & -> & Hval). pose proof (loads_canonical _ Hf) as Hld'.
  eapply lock_held in Ha as (s1 & s2 & H1 & Ha & Hback); [|exact Hs].
  apply M_bind_ok in Ha as (audit & s3 & Hread & Ha). cbv zeta in Ha.
  eapply combined_held in Hread as [H3 [(l' & Hl' & Eau & _) Hj' _]]; [|exact H1].
  rewrite Hl in Hl'. apply Ok_inj in Hl' as <-. rewrite Hj in Hj'. apply Ok_inj in Hj' as Ej.
  rewrite <- Ej in Eau. subst audit. clear Ej.
  cbn [journal combine] in Ha. apply M_bind_ok in Ha as (u & s4 & [Hi ->]%liftM_ok & Ha). destruct u.
  apply M_bind_ok in Ha as (pending & s5 & [-> ->]%readM_ok & Ha).
  destruct (bool_decide _); [done|]. apply M_bind_ok in Ha as (u1 & s6 & [_ ->]%raise_ifM_ok & Ha).
  exists d. destruct (transactions j !! tx_id) as [t|] eqn:Et.
  - destruct (negb _) eqn:Est; [done|]. apply negb_false_iff, bool_decide_eq_true in Est.
    apply M_bind_ok in Ha as (u2 & s7 & [Hun%negb_false_iff%is_nil_true ->]%raise_ifM_ok & [= <- <-]).
    split; [|split; [done|by apply Hback]].
    split; [done|by rewrite Hv1, Hv2, Hv3|exact (conj Hb (conj Hld' Hval))|by rewrite Et|done].
  - cbn in Ha. apply M_bind_ok in Ha as (u2 & s7 & [Hun%negb_false_iff%is_nil_true ->]%raise_ifM_ok & Ha).
    eapply append_new_returned in Ha as (prepare & commit & Hap & Hs'); [|exact H3].
    split; [split; [done|by rewrite Hv1, Hv2, Hv3|exact (conj Hb (conj Hld' Hval))|by rewrite Et|done]|].
    exists prepare, commit. split; [exact Hap|].
    apply Hback. by replace (∅ : gset string) with ((∅ : gset string) ∖ {[tx_id]}) by set_solver.
Qed.

(** C1: The store refines a log with compare-and-append.  When [append] returns,
    under any faults of its accesses, the answer and the new files are those of
    the abstract append: an identifier that is known returns the envelope it
    appended before and changes nothing; a new one is appended, once, exactly when
    the expected head and position are the log's, and the envelopes the answer
    reports are the abstract log's. *)
Theorem append_refines_log env s a envelope tx_id expected_head expected_sequence r s' :
  floats_ok envelope = true → represents (st_host env) s a →
  append env envelope tx_id expected_head expected_sequence s = (Ok r, s') →
  ∃ d a', envelope = JObj d ∧
    spec_append a tx_id d expected_head expected_sequence (a_envelope r) a' ∧
    represents (st_host env) s' a' ∧ envelopes (a_snapshot r) = log_events a'.
Proof.
  intros Hf [(L & J & l & j & closed & Hs & Hl & Hj & Hr & Hc & ->)] Ha.
  eapply append_returned in Ha as (d & [-> _ (_ & _ & Hval) Hi _] & Ha); [|done..]. exists d.
  destruct (transactions j !! tx_id) as [t|] eqn:Et.
  - destruct Ha as [-> Hs']. exists (AbstractLog (envelopes l) (head_hash l) (known_of (transactions j))).
    split; [done|]. split; [|split; [|done]].
    + apply spec_again; [cbn [log_known a_envelope]; unfold known_of; by rewrite lookup_fmap, Et|].
      destruct Hi as [Hi%raise_if_ok _]. destruct (t_prepare t) as [p|]; [|done]. cbn [default a_envelope].
      by apply orb_false_iff in Hi as [[Hi%py_neq_false _]%orb_false_iff _].
    + constructor. by exists L, J, l, j, closed.
  - destruct Ha as (prepare & commit & Hap & Hs').
    destruct (append_new_refines _ _ _ _ _ _ _ _ _ _ _ _ _ _ Hl Hj Hr Hf Hval Et Hap Hs') as (a' & ?). by exists a'.
Qed.
End Refinement.
