(* ===== verification/StoreRestart.v ===== *)
(** * After a crash

    Forward runs of the store's calls: what a call does from known files, or
    where one of its accesses stopped it.  An append cut short between any two
    of its writes is finished by [reconcile_transaction]. *)

From S2P Require Import VerifierProtocol.
From S2P Require Export StoreRecovery.

(** No access fails; a failing write leaves all of its record or nothing. *)
Definition calm (env : store_environment) : Prop := ∀ n, st_io env n = Fine.
Definition sharp (env : store_environment) : Prop :=
  ∀ n, match st_io env n with Fault _ (Partial _) => False | _ => True end.

Section Outcomes.
Context `{Hashing} `{OpenSSL} (env : store_environment) (Q : string → string → Prop).

(** [m] returns [a] and leaves [L] and [J], or an access failed and it leaves
    files of [Q]. *)
Definition stopped (s : store) : Prop :=
  ¬ calm env ∧ ∃ L J, Q L J ∧ s_log s = Some L ∧ s_jnl s = Some J.
Definition outcome {A} (m : M store A) (s : store) (a : A) (L J : string) (I : gset string) : Prop :=
  match m s with (Ok b, s') => b = a ∧ holds L J I s' | (Err _, s') => stopped s' end.

Lemma stopped_at L J I s : ¬ calm env → Q L J → holds L J I s → stopped s.
Proof. intros Hc HQ [HL HJ _]. split; [done|]. by exists L, J. Qed.

Lemma stopped_files s s' : stopped s → s_log s' = s_log s → s_jnl s' = s_jnl s → stopped s'.
Proof. intros (Hc & L & J & HQ & HL & HJ) EL EJ. split; [done|]. exists L, J. by rewrite EL, EJ. Qed.

Lemma out_bind {A B} (m : M store A) (f : A → M store B) s a b L1 J1 I1 L2 J2 I2 :
  outcome m s a L1 J1 I1 → (∀ s1, holds L1 J1 I1 s1 → outcome (f a) s1 b L2 J2 I2) →
  outcome (m ≫= f) s b L2 J2 I2.
Proof.
  unfold outcome, mbind, M_bind. intros Hm Hf. destruct (m s) as [[a'|e] s1]; [|done].
  destruct Hm as [-> Hs]. by apply Hf.
Qed.

Lemma out_lift {A} (r : res A) s a L J I : r = Ok a → holds L J I s → outcome (liftM r) s a L J I.
Proof. by intros ->. Qed.

Lemma out_ret {A} (a : A) s L J I : holds L J I s → outcome (mret a) s a L J I.
Proof. done. Qed.

Lemma out_guard b c msg s L J I : b = false → holds L J I s → outcome (raise_ifM b c msg) s tt L J I.
Proof. by intros ->. Qed.

Lemma out_doubts s L J I : holds L J I s → outcome (readM s_indeterminate) s I L J I.
Proof. intros Hs. split; [by destruct Hs|done]. Qed.

Lemma out_mark tx_id s L J I : holds L J I s → outcome (mark tx_id) s tt L J ({[tx_id]} ∪ I).
Proof. intros [HL HJ HI]. split; [done|]. split; cbn; by rewrite ?HI. Qed.
Lemma out_unmark tx_id s L J I : holds L J I s → outcome (unmark tx_id) s tt L J (I ∖ {[tx_id]}).
Proof. intros [HL HJ HI]. split; [done|]. split; cbn; by rewrite ?HI. Qed.

(** A handler that only reads and always raises. *)
Lemma out_catch {A} (m : M store A) c (h : exn → M store A) s a L J I :
  outcome m s a L J I → (∀ e s1, ∃ e', (h e s1).1 = Err e') → (∀ e, Reading (h e)) →
  outcome (catchM m c h) s a L J I.
Proof.
  unfold outcome, catchM. intros Hm He Hr. destruct (m s) as [[a'|e] s1]; [done|].
  destruct (is_a e c); [|done]. destruct (He e s1) as [e' Ee]. pose proof (Hr e s1) as [EL EJ].
  destruct (h e s1) as [r s2]; cbn [fst snd] in *. subst r. by eapply stopped_files.
Qed.

Lemma out_catch_raise {A} (m : M store A) c d msg s a L J I :
  outcome m s a L J I → outcome (catchM m c (λ _, raiseM d msg)) s a L J I.
Proof. intros Hm. apply out_catch; [done|by eexists|apply _]. Qed.

Lemma out_or_indeterminate {A} tx_id phase (m : M store A) s a L J I :
  outcome m s a L J I → outcome (or_indeterminate tx_id phase m) s a L J I.
Proof.
  intros Hm. unfold or_indeterminate. apply out_catch; [done|by eexists|]. intros e. unfold indeterminate. readingly.
Qed.

Lemma out_touch s L J I : Q L J → holds L J I s → outcome (touch env) s tt L J I.
Proof.
  intros HQ Hs. unfold outcome, touch, mbind, M_bind, draw. destruct (st_io env (s_tick s)) as [|e l] eqn:E.
  - split; [done|]. by destruct Hs.
  - apply (stopped_at L J I); [|done|by destruct Hs]. intros Hc. by rewrite Hc in E.
Qed.

Lemma out_fsync s L J I : Q L J → holds L J I s → outcome (_fsync_parent env) s tt L J I.
Proof. intros HQ Hs. unfold _fsync_parent. destruct (st_posix env); [by apply out_touch|done]. Qed.

Lemma out_open f s L J I : Q L J → holds L J I s → outcome (_open_regular env f) s (file f L J) L J I.
Proof.
  intros HQ Hs. eapply out_bind; [by apply out_catch_raise, out_touch|]. intros s1 H1.
  unfold outcome, askM. by rewrite (content_held f _ _ _ _ H1).
Qed.

Lemma out_sync f s L J I : Q L J → holds L J I s → outcome (_sync_existing env f) s tt L J I.
Proof. intros HQ Hs. eapply out_bind; [by apply out_open|]. intros s1 H1. by apply out_touch. Qed.

Lemma out_ledger s L J I l : Q L J → holds L J I s → read_ledger (st_host env) L = Ok l →
  outcome (_read_ledger_unlocked env) s l L J I.
Proof. intros HQ Hs Hl. eapply out_bind; [by apply out_open|]. intros s1 H1. exact (out_lift _ _ _ _ _ _ Hl H1). Qed.

Lemma out_journal s L J I j : Q L J → holds L J I s → read_journal J = Ok j →
  outcome (_read_journal_unlocked env) s j L J I.
Proof. intros HQ Hs Hj. eapply out_bind; [by apply out_open|]. intros s1 H1. exact (out_lift _ _ _ _ _ _ Hj H1). Qed.

Lemma out_combined clean allowed s L J I l j : Q L J → holds L J I s →
  read_ledger (st_host env) L = Ok l → read_journal J = Ok j → _validate_combined l j clean = Ok tt →
  (clean = true → doubts I allowed = ∅) → outcome (_read_combined_unlocked env clean allowed) s (combine l j) L J I.
Proof.
  intros HQ Hs Hl Hj Hv Hd. eapply out_bind; [by apply out_ledger|]. intros s1 H1.
  eapply out_bind; [by apply out_journal|]. intros s2 H2. eapply out_bind; [by apply out_lift|]. intros s3 H3.
  eapply out_bind; [by apply out_doubts|]. intros s4 H4. eapply out_bind; [apply out_guard; [|done]|].
  - destruct clean; [|done]. cbn. rewrite bool_decide_true; [done|]. by apply Hd.
  - intros s5 H5. by apply out_ret.
Qed.

(** One record at the end of a file. *)
Lemma out_record f r maximum s L J I : sharp env → Q L J → Q (log_with f L r) (jnl_with f J r) → holds L J I s →
  Z.of_nat (String.length (file f L J) + String.length r) ≤ maximum →
  outcome (_append_record env f r maximum) s tt (log_with f L r) (jnl_with f J r) I.
Proof.
  intros Hsharp HQ HQ' Hs Hfit. eapply out_bind; [exact (out_open f _ _ _ _ HQ Hs)|]. intros s1 H1.
  eapply out_bind; [apply out_guard; [by apply Z.ltb_ge|done]|]. intros s2 H2.
  eapply out_bind; [do 2 apply out_catch_raise|intros s3 H3; by apply out_fsync].
  unfold outcome, mbind, M_bind, draw. pose proof (Hsharp (s_tick s2)) as Hx.
  destruct H2 as [HL HJ HI]. destruct (st_io env (s_tick s2)) as [|e [|n|]] eqn:E; [| |done|].
  - split; [done|]. destruct f; split; cbn; by rewrite ?HL, ?HJ.
  - apply (stopped_at L J I); [intros Hc; by rewrite Hc in E|done|].
    destruct f; split; cbn; by rewrite ?HL, ?HJ, ?str_app_nil_r.
  - apply (stopped_at (log_with f L r) (jnl_with f J r) I); [intros Hc; by rewrite Hc in E|done|].
    destruct f; split; cbn; by rewrite ?HL, ?HJ.
Qed.

Lemma out_locked {A} (m : M store A) s a L J I L' J' I' : Q L J → Q L' J' → holds L J I s →
  (∀ s1, holds L J I s1 → outcome m s1 a L' J' I') → outcome (locked env m) s a L' J' I'.
Proof.
  intros HQ HQ' Hs Hm. eapply out_bind; [apply out_catch_raise; exact (out_touch _ _ _ _ HQ Hs)|]. intros s1 H1.
  specialize (Hm s1 H1). unfold outcome, finally in *. destruct (m s1) as [[b|e] s2].
  - destruct Hm as [-> H2]. assert (Hr : outcome (release env) s2 tt L' J' I') by
      (apply out_catch_raise; exact (out_touch _ _ _ _ HQ' H2)).
    unfold outcome in Hr. destruct (release env s2) as [[v|e] s3]; [by destruct Hr|done].
  - pose proof (reading_release env s2) as [EL EJ]. destruct (release env s2) as [[v|e'] s3];
      cbn [snd] in *; by eapply stopped_files.
Qed.

(** Without faults there is no other outcome. *)
Lemma outcome_calm {A} (m : M store A) s a L J I : calm env → outcome m s a L J I →
  ∃ s', m s = (Ok a, s') ∧ holds L J I s'.
Proof.
  intros Hc. unfold outcome. destruct (m s) as [[b|e] s1]; [|by intros [? _]]. intros [-> Hs]. by exists s1.
Qed.

(** Either way the files are of [Q]. *)
Lemma outcome_files {A} (m : M store A) s a L J I : Q L J → outcome m s a L J I →
  ∃ L' J', Q L' J' ∧ s_log (m s).2 = Some L' ∧ s_jnl (m s).2 = Some J'.
Proof.
  intros HQ. unfold outcome. destruct (m s) as [[b|e] s1]; cbn [snd]; [|by intros [_ Hx]].
  intros [_ [HL HJ _]]. by exists L, J.
Qed.
End Outcomes.

Lemma calm_sharp env : calm env → sharp env.
Proof. intros Hc n. by rewrite Hc. Qed.

(** One step of a run, from the files [Hs] holds. *)
Ltac next Hs tac :=
  let s' := fresh "w" in let H' := fresh "Hh" in
  eapply out_bind; [tac|intros s' H'; clear Hs; rename H' into Hs].

(** * An append from known files *)

Section Restart.
Context `{Hashing} `{OpenSSL}.

(** Where an append of the records [R], [P] and [C] can be cut. *)
Inductive cut (L J R P C : string) : string → string → Prop :=
  | cut_before : cut L J R P C L J
  | cut_prepare : cut L J R P C L (J +:+ P)
  | cut_event : cut L J R P C (L +:+ R) (J +:+ P)
  | cut_commit : cut L J R P C (L +:+ R) ((J +:+ P) +:+ C).

Lemma out_raw env Q d s L J I : raw_record d = Ok (line (canonical_json (JObj d))) → holds L J I s →
  outcome env Q (liftM (raw_record d)) s (line (canonical_json (JObj d))) L J I.
Proof. intros Hd Hs. exact (out_lift _ _ _ _ _ _ _ _ Hd Hs). Qed.

(** The handler of a failed PREPARE only reads, and raises. *)
Lemma out_prepare_catch env Q audit tx_id (m : M store unit) s L J I :
  outcome env Q m s tt L J I →
  outcome env Q (catchM m Exception (λ _,
        observed ← catchM (catchM (a ← _read_combined_unlocked env true None; mret (Some a))
                             OSError (λ _, mret None)) LedgerAuthorityV2Error (λ _, mret None);
        if match observed with Some a => audit_eq a audit | None => false end then
          _ ← unmark tx_id; raiseM RetryableAppendNotApplied "Ledger v2 transaction was not applied"
        else _ ← mark tx_id; indeterminate tx_id "prepare")) s tt L J I.
Proof.
  intros Hm. apply out_catch; [done| |].
  - intros _ s1. unfold mbind, M_bind. destruct (catchM _ _ _ s1) as [[o|e] s2]; [|by eexists].
    destruct (match o with Some a => audit_eq a audit | None => false end); by eexists.
  - intros _. unfold indeterminate. readingly.
Qed.

Lemma append_new_runs env h L J l j d tx_id expected_head expected_sequence prepare commit r s :
  appended h L J (combine l j) (canonical_json (JObj d)) d tx_id expected_head expected_sequence prepare commit r →
  st_host env = h → sharp env → holds L J ∅ s →
  outcome env
    (cut L J (line (canonical_json (JObj d))) (line (canonical_json (JObj prepare))) (line (canonical_json (JObj commit))))
    (append_new env (combine l j) (canonical_json (JObj d)) d tx_id expected_head expected_sequence) s r
    (L +:+ line (canonical_json (JObj d)))
    ((J +:+ line (canonical_json (JObj prepare))) +:+ line (canonical_json (JObj commit))) ∅.
Proof.
  intros [A1 A2 (event & A3 & A4 & A5) [summary A6] [A7 A8] (post & A9 & A10) (after & j1 & B1 & B2 & B3 & B4)
    [B5 B6] (B7 & B8 & B9) (final & (lf & C1 & C2 & C3) & C4 & ->)] <- Hsharp Hs.
  set (Q := cut _ _ _ _ _). pose proof (cut_before L J (line (canonical_json (JObj d)))
    (line (canonical_json (JObj prepare))) (line (canonical_json (JObj commit)))) as Q1.
  assert (Q2 : Q L (J +:+ line (canonical_json (JObj prepare)))) by constructor.
  assert (Q3 : Q (L +:+ line (canonical_json (JObj d))) (J +:+ line (canonical_json (JObj prepare)))) by constructor.
  assert (Q4 : Q (L +:+ line (canonical_json (JObj d)))
    ((J +:+ line (canonical_json (JObj prepare))) +:+ line (canonical_json (JObj commit)))) by constructor.
  unfold append_new. cbv zeta.
  next Hs ltac:(apply out_guard; [by apply py_neq_str|exact Hs]).
  next Hs ltac:(apply out_guard; [by apply negb_false_iff, Z.eqb_eq|exact Hs]).
  next Hs ltac:(exact (out_lift _ _ _ _ _ _ _ _ A3 Hs)).
  next Hs ltac:(apply out_guard; [apply orb_false_iff; split; [by apply py_neq_false|by apply py_neq_str]|exact Hs]).
  next Hs ltac:(exact (out_lift _ _ _ _ _ _ _ _ A6 Hs)).
  next Hs ltac:(apply out_guard; [apply Z.ltb_ge; exact A7|exact Hs]).
  next Hs ltac:(apply out_guard; [apply Z.ltb_ge; exact A8|exact Hs]).
  next Hs ltac:(exact (out_lift _ _ _ _ _ _ _ _ A9 Hs)).
  next Hs ltac:(exact (out_lift _ _ _ _ _ _ _ _ A10 Hs)).
  eapply out_bind; [apply out_prepare_catch|intros s1 H1].
  { next Hs ltac:(exact (out_raw _ _ _ _ _ _ _ B5 Hs)).
    exact (out_record _ _ JournalFile _ _ _ _ _ _ Hsharp Q1 Q2 Hs B7). }
  cbn [log_with jnl_with] in H1. eapply out_bind; [apply out_or_indeterminate|intros s2 H2].
  { next H1 ltac:(exact (out_record _ _ LogFile _ _ _ _ _ _ Hsharp Q2 Q3 H1 B8)).
    next H1 ltac:(exact (out_ledger _ _ _ _ _ _ _ Q3 H1 B1)). exact (out_lift _ _ _ _ _ _ _ _ B2 H1). }
  next H2 ltac:(exact (out_journal _ _ _ _ _ _ _ Q3 H2 B3)).
  next H2 ltac:(exact (out_lift _ _ _ _ _ _ _ _ B4 H2)).
  eapply out_bind; [apply out_or_indeterminate|intros s3 H3].
  { next H2 ltac:(exact (out_raw _ _ _ _ _ _ _ B6 H2)).
    exact (out_record _ _ JournalFile _ _ _ _ _ _ Hsharp Q3 Q4 H2 B9). }
  eapply out_bind; [apply out_or_indeterminate|intros s4 H4].
  { eapply out_combined; [exact Q4|exact H3|exact C1|exact C4|exact C3|]. intros _. unfold doubts. set_solver. }
  next H4 ltac:(exact (out_unmark _ _ _ _ _ _ _ H4)).
  rewrite C2. apply out_ret. by replace (∅ : gset string) with ((∅ : gset string) ∖ {[tx_id]}) by set_solver.
Qed.

Lemma is_ok_run {A} (r : res A) : is_ok r → ∃ a, r = Ok a.
Proof. destruct r as [a|e]; [by exists a|done]. Qed.

(** The whole append, in an environment with the same keys. *)
Lemma append_runs env Q L J l j closed envelope tx_id expected_head expected_sequence d r L' J' s :
  holds L J ∅ s → read_ledger (st_host env) L = Ok l → read_journal J = Ok j → journal_reading J j closed None →
  consistent true (envelopes l) closed None → entered j envelope tx_id expected_head expected_sequence d →
  Q L J → Q L' J' →
  (∀ s1, holds L J ∅ s1 →
     match transactions j !! tx_id with
     | Some t => r = Appended tx_id (get (default ∅ (t_prepare t)) "envelope") (ledger (combine l j)) ∧
                 L' = L ∧ J' = J
     | None => outcome env Q (append_new env (combine l j) (canonical_json (JObj d)) d tx_id expected_head
                 expected_sequence) s1 r L' J' ∅
     end) →
  outcome env Q (append env envelope tx_id expected_head expected_sequence) s r L' J' ∅.
Proof.
  intros Hs Hl Hj Hr Hc [-> ([v1 E1]%is_ok_run & [v2 E2]%is_ok_run & [v3 E3]%is_ok_run) (E4 & E5 & E6) Hi Hun]
    HQ HQ' Hnew.
  unfold append. next Hs ltac:(exact (out_lift _ _ _ _ _ _ _ _ E1 Hs)). next Hs ltac:(exact (out_lift _ _ _ _ _ _ _ _ E2 Hs)).
  next Hs ltac:(exact (out_lift _ _ _ _ _ _ _ _ E3 Hs)). next Hs ltac:(exact (out_lift _ _ _ _ _ _ _ _ E4 Hs)).
  next Hs ltac:(exact (out_lift _ _ _ _ _ _ _ _ E5 Hs)). next Hs ltac:(exact (out_lift _ _ _ _ _ _ _ _ E6 Hs)).
  eapply out_locked; [exact HQ|exact HQ'|exact Hs|]. clear s w w0 w1 w2 w3 Hs. intros s Hs.
  assert (Hv : _validate_combined l j false = Ok tt).
  { apply (combined_consistent _ _ _ _ _ _ Hr (lr_count _ _ _ (log_read _ _ _ Hl))). by destruct Hc. }
  next Hs ltac:(eapply out_combined; [exact HQ|exact Hs|exact Hl|exact Hj|exact Hv|done]).
  cbv zeta. cbn [journal combine]. next Hs ltac:(apply out_lift; [|exact Hs]).
  { instantiate (1 := tt). destruct (transactions j !! tx_id); [by destruct Hi|done]. }
  next Hs ltac:(exact (out_doubts _ _ _ _ _ _ Hs)). rewrite bool_decide_false by set_solver.
  next Hs ltac:(apply out_guard; [by rewrite bool_decide_true|exact Hs]).
  destruct (transactions j !! tx_id) as [t|].
  - destruct Hi as [_ Est]. rewrite bool_decide_true by done. cbn [negb].
    next Hs ltac:(apply out_guard; [by rewrite Hun|exact Hs]).
    destruct (Hnew _ Hs) as (-> & -> & ->). by apply out_ret.
  - next Hs ltac:(apply out_guard; [by rewrite Hun|exact Hs]). exact (Hnew _ Hs).
Qed.

(** ** Reconciliation *)

(** [_prepare_store_files] finds both files and forgets the doubts. *)
Lemma restart_holds env L J s :
  s_log s = Some L → s_jnl s = Some J → holds L J ∅ (called env Restart s).
Proof.
  intros HL HJ. cbn [called]. set (s1 := with_indeterminate (λ _, ∅) s).
  assert (Hh : holds L J ∅ s1) by done. clearbody s1. unfold _prepare_store_files, mbind, M_bind, raise_ifM, liftM.
  destruct (raise_if _ _ _) as [?|e]; [|done]. destruct (raise_if (st_legacy_log env) _ _) as [?|e]; [|done].
  unfold catchM, touch, mbind, M_bind, draw. destruct (st_io env (s_tick s1)) as [|e l].
  - cbn [readM mret M_ret]. destruct Hh as [E1 E2 E3]. cbn. rewrite E1, E2. done.
  - cbn [liftM]. destruct Hh as [E1 E2 E3]. destruct (is_a e OSError); done.
Qed.

(** A transaction found in a journal, and the ones still open. *)
Lemma state_of_open content j closed p : journal_reading content j closed (Some p) →
  transactions j !! tx_of p = Some (prepared p) ∧ unresolved_of (transactions j) = [prepared p].
Proof.
  intros Hr. split; [|by rewrite (unresolved_read _ _ _ _ Hr)].
  destruct (jr_chain _ _ _ _ Hr) as (w & [_ -> _ Hn _ _ _] & -> & _).
  rewrite states_opened in *. rewrite fmap_app in Hn. cbn in Hn. apply NoDup_snoc in Hn as [_ Hn].
  rewrite list_to_map_snoc by done. by rewrite lookup_insert_eq.
Qed.

Lemma state_of_closed content j closed p c : journal_reading content j (closed ++ [(p, c)]) None →
  transactions j !! tx_of p = Some (committed (p, c)) ∧ unresolved_of (transactions j) = [].
Proof.
  intros Hr. split; [|by rewrite (unresolved_read _ _ _ _ Hr)].
  destruct (jr_chain _ _ _ _ Hr) as (w & [_ -> _ Hn _ _ _] & -> & _).
  rewrite states_closed in *. rewrite fmap_app in Hn. cbn in Hn. apply NoDup_snoc in Hn as [_ Hn].
  rewrite list_to_map_snoc by done. by rewrite lookup_insert_eq.
Qed.

(** A clean pair of files is consistent for any reader; one whose last PREPARE is
    open is consistent for a reader that allows it. *)
Lemma consistent_any clean l closed : consistent true l closed None → consistent clean l closed None.
Proof. intros [? ? ? ?]. by split. Qed.

Lemma consistent_event l closed p c :
  consistent true l (closed ++ [(p, c)]) None → consistent false l closed (Some p).
Proof.
  intros [Hp [C1 C2] Hq Ho]. rewrite !length_app in *. cbn in *. split; [done|cbn; lia| |split; [done|lia]].
  intros i q Hi. apply Hq. rewrite fmap_app, app_nil_r. exact Hi.
Qed.

Section Reconcile.
Context (env : store_environment) (L J : string) (l : VerifiedV2StoreSnapshot) (j : _JournalSnapshot).
Context (closed : list (dict * dict)) (d : dict) (tx_id expected_head : string) (expected_sequence : Z).
Context (prepare commit : dict) (r : DurableV2Append).
Context (Hcalm : calm env) (Hl : read_ledger (st_host env) L = Ok l) (Hj : read_journal J = Ok j).
Context (Hr : journal_reading J j closed None) (Hc : consistent true (envelopes l) closed None).
Context (Hval : validate_v2_envelope (JObj d) = Ok d).
Context (Henc : canonical_json_bytes (JObj d) = Ok (canonical_json (JObj d))) (Hid : is_ok (_identifier (JStr tx_id) "tx_id")).
Context (Hap : appended (st_host env) L J (combine l j) (canonical_json (JObj d)) d tx_id expected_head
                 expected_sequence prepare commit r).
Context (after : VerifiedV2StoreSnapshot) (j1 j2 : _JournalSnapshot).
Context (Hw : written (st_host env) L J l j closed d tx_id prepare commit r after j1 j2).

Let R := line (canonical_json (JObj d)).
Let P := line (canonical_json (JObj prepare)).
Let C := line (canonical_json (JObj commit)).
Let anywhere (_ _ : string) : Prop := True.

Lemma prepare_tx : tx_of prepare = tx_id.
Proof.
  destruct (wr_promises _ _ _ _ _ _ _ _ _ _ _ _ _ _ Hw) as (? & ? & ? & ? & Hp).
  unfold tx_of. by rewrite (pr_tx _ _ _ _ _ _ _ _ Hp).
Qed.

(** The position of the event is an exact integer. *)
Lemma prepare_position : get prepare "expected_sequence" = JInt expected_sequence ∧
  get prepare "expected_head" = JStr expected_head ∧ expected_sequence = Z.of_nat (S (length (envelopes l))).
Proof.
  destruct (wr_promises _ _ _ _ _ _ _ _ _ _ _ _ _ _ Hw) as (? & ? & ? & ? & Hp).
  destruct (pr_event _ _ _ _ _ _ _ _ Hp) as (event & He & -> & ->).
  destruct (ap_event _ _ _ _ _ _ _ _ _ _ _ _ Hap) as (event' & He' & Hseq & Hph).
  rewrite He in He'. apply Ok_inj in He' as <-. rewrite Hph.
  pose proof (ap_count _ _ _ _ _ _ _ _ _ _ _ _ Hap) as Hn. cbn [ledger combine event_count] in Hn.
  rewrite (lr_count _ _ _ (log_read _ _ _ Hl)) in Hn. split; [|split; [done|lia]].
  apply py_eq_int_pure; [|done]. destruct (envelope_ok _ _ Hval) as (_ & event' & Hev & _ & Hv).
  rewrite Hev in He. apply Ok_inj in He as ->. step Hv dd Hd. apply v2_object_ok in Hd as [E _]. apply JObj_inj in E as <-.
  step Hv u Hu. apply raise_if_ok, negb_false_iff in Hu. by destruct (get event "sequence").
Qed.

Lemma prepare_pre : get prepare "pre_log_sha256" = JStr (sha256_hex L) ∧
  get prepare "pre_log_size_bytes" = JInt (Z.of_nat (String.length L)).
Proof.
  destruct (wr_promises _ _ _ _ _ _ _ _ _ _ _ _ _ _ Hw) as (? & ? & ? & ? & Hp).
  destruct (pr_pre _ _ _ _ _ _ _ _ Hp) as [-> ->]. cbn [ledger combine log_sha256 log_size_bytes].
  by destruct (lr_figures _ _ _ (log_read _ _ _ Hl)) as [-> ->].
Qed.

(** The prefix of the log up to its end. *)
Lemma log_whole : log_text (take (length (envelopes l)) (envelopes l)) = L.
Proof. rewrite take_ge by done. by rewrite <- (lr_text _ _ _ (log_read _ _ _ Hl)). Qed.

Lemma consistent_prepared : consistent false (envelopes l) closed (Some prepare).
Proof.
  destruct Hc as [Hps [C1 C2] Hq Ho]. cbn in C1. split; [done|cbn; lia| |split; [done|lia]].
  intros i q Hi. cbn [option_list] in *. rewrite app_nil_r in Hq.
  destruct (decide (i < length closed)%nat) as [Hlt|Hge].
  - apply Hq. rewrite lookup_app_l in Hi by by rewrite length_fmap. done.
  - rewrite lookup_app_r in Hi by (rewrite length_fmap; lia). rewrite length_fmap in Hi.
    apply list_lookup_singleton_Some in Hi as [Hi <-]. assert (i = length (envelopes l)) as -> by lia.
    destruct prepare_position as (E1 & _ & En). destruct prepare_pre as [E2 E3].
    split; cbn [Nat.sub]; rewrite ?Nat.sub_0_r, ?log_whole, ?E1, ?E2, ?E3, ?En; cbn [py_eq]; try lia; try done.
    + apply Z.eqb_refl.
    + apply Z.eqb_refl.
Qed.

(** Which of the two positions the log is at. *)
Lemma py_eq_ints a b : py_eq (JInt a) (JInt b) = (a =? b).
Proof. done. Qed.

Lemma require_before : _require_snapshot_matches_prepare (ledger (combine l j1)) prepare false = Ok tt.
Proof.
  destruct prepare_position as (E1 & E2 & En). destruct prepare_pre as [E3 E4].
  pose proof (ap_head _ _ _ _ _ _ _ _ _ _ _ _ Hap) as Hh. cbn [ledger combine head_hash] in Hh.
  unfold _require_snapshot_matches_prepare. cbn [ledger combine head_hash event_count log_sha256 log_size_bytes].
  rewrite E1, E2, E3, E4, Hh, (lr_count _ _ _ (log_read _ _ _ Hl)).
  destruct (lr_figures _ _ _ (log_read _ _ _ Hl)) as [-> ->]. rewrite !(proj2 (py_eq_str _ _) eq_refl).
  rewrite !py_eq_ints, Z.eqb_refl. by replace (Z.of_nat (length (envelopes l)) + 1 =? expected_sequence) with true by lia.
Qed.

Lemma require_after : ∃ msg, _require_snapshot_matches_prepare (ledger (combine after j1)) prepare false
  = Err (Exn store_error msg).
Proof.
  destruct prepare_position as (E1 & _ & En). eexists. unfold _require_snapshot_matches_prepare.
  cbn [ledger combine event_count]. rewrite (lr_count _ _ _ (log_read _ _ _ (wr_log _ _ _ _ _ _ _ _ _ _ _ _ _ _ Hw))), E1.
  rewrite (proj1 (wr_events _ _ _ _ _ _ _ _ _ _ _ _ _ _ Hw)), length_app, py_eq_ints. cbn [length].
  rewrite (proj2 (Z.eqb_neq _ _)) by lia. done.
Qed.

Lemma commit_runs s : holds (L +:+ R) (J +:+ P) {[tx_id]} s →
  outcome env anywhere
    (journal_now ← _read_journal_unlocked env;
     commit ← liftM (_make_commit prepare journal_now);
     _ ← or_indeterminate tx_id "reconcile-commit"
           (r ← liftM (raw_record commit); _append_record env JournalFile r MAX_JOURNAL_BYTES);
     clean ← catchM (_read_combined_unlocked env true (Some tx_id)) Exception
               (λ _, indeterminate tx_id "reconcile-postcheck");
     _ ← unmark tx_id;
     mret (Appended tx_id (get prepare "envelope") (ledger clean))) s r (L +:+ R) ((J +:+ P) +:+ C) ∅.
Proof.
  intros Hs. destruct Hw as [W1 _ [W2 _] [W4 W5] W6 _ W7 (? & ? & ? & ? & Hp) W8].
  destruct Hap as [_ _ _ _ _ _ _ [_ B6] (_ & _ & B9) _].
  next Hs ltac:(exact (out_journal _ _ _ _ _ _ _ I Hs W2)). next Hs ltac:(exact (out_lift _ _ _ _ _ _ _ _ W7 Hs)).
  eapply out_bind; [apply out_or_indeterminate|intros s1 H1].
  { next Hs ltac:(exact (out_raw _ _ _ _ _ _ _ B6 Hs)).
    exact (out_record _ anywhere JournalFile _ _ _ _ _ _ (calm_sharp _ Hcalm) I I Hs B9). }
  cbn [log_with jnl_with] in H1. next H1 ltac:(apply out_catch_raise).
  { eapply out_combined; [exact I|exact H1|exact W1|exact W4| |intros _; unfold doubts; set_solver].
    by apply (combined_consistent _ _ _ _ _ _ W5); [exact (lr_count _ _ _ (log_read _ _ _ W1))|]. }
  next H1 ltac:(exact (out_unmark _ _ _ _ _ _ _ H1)).
  rewrite W8, (pr_envelope _ _ _ _ _ _ _ _ Hp). apply out_ret.
  by replace (∅ : gset string) with ({[tx_id]} ∖ {[tx_id]} : gset string) by set_solver.
Qed.

Lemma complete_runs Lx lx s : (Lx = L ∧ lx = l ∨ Lx = L +:+ R ∧ lx = after) → holds Lx (J +:+ P) {[tx_id]} s →
  outcome env anywhere (complete env prepare (combine lx j1) tx_id) s r (L +:+ R) ((J +:+ P) +:+ C) ∅.
Proof.
  intros Hx Hs. pose proof (wr_log _ _ _ _ _ _ _ _ _ _ _ _ _ _ Hw) as W1.
  pose proof (wr_applied _ _ _ _ _ _ _ _ _ _ _ _ _ _ Hw) as W6.
  destruct (wr_promises _ _ _ _ _ _ _ _ _ _ _ _ _ _ Hw) as (? & ? & ? & ? & Hp).
  pose proof (ap_fits _ _ _ _ _ _ _ _ _ _ _ _ Hap) as (_ & B8 & _).
  unfold complete. eapply out_bind; [|apply commit_runs].
  destruct Hx as [[-> ->]|[-> ->]].
  - rewrite require_before. next Hs ltac:(apply out_lift; [|exact Hs]).
    { rewrite (pr_envelope _ _ _ _ _ _ _ _ Hp). exact Henc. }
    next Hs ltac:(apply out_or_indeterminate; exact (out_record _ anywhere LogFile _ _ _ _ _ _ (calm_sharp _ Hcalm) I I Hs B8)).
    next Hs ltac:(exact (out_ledger _ anywhere _ _ _ _ _ I Hs W1)). exact (out_lift _ _ _ _ _ _ _ _ W6 Hs).
  - destruct require_after as [msg ->]. cbn [is_a]. exact (out_lift _ _ _ _ _ _ _ _ W6 Hs).
Qed.

(** The part of [reconcile_transaction] before it acts. *)
Lemma reconcile_runs Lx Jx lx jx commit_x s :
  holds Lx Jx ∅ s → read_ledger (st_host env) Lx = Ok lx → read_journal Jx = Ok jx →
  _validate_combined lx jx false = Ok tt →
  transactions jx !! tx_id = Some (TransactionState tx_id (match commit_x with Some _ => "committed" | None => "prepared" end)
                               (Some prepare) commit_x) →
  (unresolved_of (transactions jx) = [] ∨ unresolved_of (transactions jx) = [prepared prepare]) →
  (∀ s1, holds Lx Jx {[tx_id]} s1 →
     match commit_x with
     | Some _ => Lx = L +:+ R ∧ Jx = (J +:+ P) +:+ C ∧ lx = after ∧ jx = j2
     | None => outcome env anywhere (complete env prepare (combine lx jx) tx_id) s1 r (L +:+ R) ((J +:+ P) +:+ C) ∅
     end) →
  outcome env anywhere (reconcile_transaction env tx_id) s r (L +:+ R) ((J +:+ P) +:+ C) ∅.
Proof.
  intros Hs Hlx Hjx Hv Ht Hun Hgo. destruct (is_ok_run _ Hid) as [v1 E1].
  unfold reconcile_transaction. next Hs ltac:(exact (out_lift _ _ _ _ _ _ _ _ E1 Hs)).
  eapply out_locked; [exact I|exact I|exact Hs|]. clear s w Hs. intros s Hs.
  next Hs ltac:(eapply (out_combined _ anywhere); [exact I|exact Hs|exact Hlx|exact Hjx|exact Hv|done]).
  cbn [journal combine]. rewrite Ht.
  next Hs ltac:(apply out_guard; [|exact Hs]).
  { destruct Hun as [-> | ->]; [done|]. cbn [existsb prepared t_id]. rewrite prepare_tx. by rewrite bool_decide_true. }
  next Hs ltac:(exact (out_doubts _ _ _ _ _ _ Hs)).
  next Hs ltac:(apply out_guard; [|exact Hs]).
  { apply negb_false_iff, bool_decide_eq_true. set_solver. }
  next Hs ltac:(exact (out_mark _ _ _ _ _ _ _ Hs)). rewrite union_empty_r_L in Hs.
  destruct commit_x as [c|]; [|exact (Hgo _ Hs)]. destruct (Hgo _ Hs) as (-> & -> & -> & ->).
  next Hs ltac:(apply out_or_indeterminate).
  { next Hs ltac:(exact (out_sync _ anywhere LogFile _ _ _ _ I Hs)).
    next Hs ltac:(exact (out_sync _ anywhere JournalFile _ _ _ _ I Hs)). exact (out_fsync _ anywhere _ _ _ _ I Hs). }
  destruct Hw as [W1 _ _ [W4 W5] W6 _ _ (? & ? & ? & ? & Hp) ->].
  next Hs ltac:(apply out_catch_raise).
  { eapply out_combined; [exact I|exact Hs|exact Hlx|exact Hjx| |intros _; unfold doubts; set_solver].
    by apply (combined_consistent _ _ _ _ _ _ W5); [exact (lr_count _ _ _ (log_read _ _ _ W1))|]. }
  next Hs ltac:(exact (out_unmark _ _ _ _ _ _ _ Hs)).
  rewrite (pr_envelope _ _ _ _ _ _ _ _ Hp). apply out_ret.
  by replace (∅ : gset string) with ({[tx_id]} ∖ {[tx_id]} : gset string) by set_solver.
Qed.

(** Reconciliation from each place an append can be cut after its PREPARE. *)
Lemma reconcile_finishes Lx Jx s : cut L J R P C Lx Jx → (Lx, Jx) ≠ (L, J) → holds Lx Jx ∅ s →
  outcome env anywhere (reconcile_transaction env tx_id) s r (L +:+ R) ((J +:+ P) +:+ C) ∅.
Proof.
  intros Hcut Hne Hs. pose proof Hw as [W1 _ [W2 W3] [W4 W5] W6 _ _ _ _].
  pose proof (lr_count _ _ _ (log_read _ _ _ Hl)) as N0. pose proof (lr_count _ _ _ (log_read _ _ _ W1)) as N1.
  destruct (state_of_open _ _ _ _ W3) as [T1 U1]. destruct (state_of_closed _ _ _ _ _ W5) as [T2 U2].
  unfold prepared, committed in T1, T2. cbn [fst snd] in T2. rewrite prepare_tx in T1, T2. destruct Hcut.
  - done.
  - apply (reconcile_runs _ _ _ _ None _ Hs Hl W2); [|exact T1|by right|].
    + apply (combined_consistent _ _ _ _ _ _ W3 N0). exact consistent_prepared.
    + intros s1 H1. apply (complete_runs L l); [by left|exact H1].
  - apply (reconcile_runs _ _ _ _ None _ Hs W1 W2); [|exact T1|by right|].
    + apply (combined_consistent _ _ _ _ _ _ W3 N1). exact (consistent_event _ _ _ _ W6).
    + intros s1 H1. apply (complete_runs (L +:+ R) after); [by right|exact H1].
  - apply (reconcile_runs _ _ _ _ (Some commit) _ Hs W1 W4); [|exact T2|by left|done].
    apply (combined_consistent _ _ _ _ _ _ W5 N1). exact (consistent_any _ _ _ W6).
Qed.
End Reconcile.

(** ** A crash and a restart *)

Section Interrupted.
Context (h : host) (env' again : store_environment) (E2 : st_host env' = h) (E3 : st_host again = h).
Context (Hsharp : sharp env') (Hcalm : calm again).
Context (L J : string) (l : VerifiedV2StoreSnapshot) (j : _JournalSnapshot) (closed : list (dict * dict)).
Context (Hl : read_ledger h L = Ok l) (Hj : read_journal J = Ok j) (Hr : journal_reading J j closed None).
Context (Hc : consistent true (envelopes l) closed None).
Context (d : dict) (tx_id expected_head : string) (expected_sequence : Z) (Hf : floats_ok (JObj d) = true).
Context (Hen : entered j (JObj d) tx_id expected_head expected_sequence d) (r : DurableV2Append).

Let call (env : store_environment) := append env (JObj d) tx_id expected_head expected_sequence.

(** A call with the files [L] and [J], in any environment with these keys. *)
Lemma call_runs env Q L' J' s : st_host env = h → Q L J → Q L' J' → holds L J ∅ s →
  match transactions j !! tx_id with
  | Some t => r = Appended tx_id (get (default ∅ (t_prepare t)) "envelope") (ledger (combine l j)) ∧ L' = L ∧ J' = J
  | None => ∀ s1, holds L J ∅ s1 → outcome env Q (append_new env (combine l j) (canonical_json (JObj d)) d tx_id
              expected_head expected_sequence) s1 r L' J' ∅
  end → outcome env Q (call env) s r L' J' ∅.
Proof.
  intros Een HQ HQ' Hs Hm. unfold call. rewrite <- Een in Hl.
  apply (append_runs env Q L J l j closed _ _ _ _ d); [done..|].
  intros s1 H1. destruct (transactions j !! tx_id); [done|]. by apply Hm.
Qed.

(** What the new process does. *)
Definition resumed (s : store) (L' J' : string) : Prop :=
  let s1 := called again Restart (call env' s).2 in
  ∃ s2, s_log s2 = Some L' ∧ s_jnl s2 = Some J' ∧
    ((s_log s1 = Some L ∧ s_jnl s1 = Some J ∧ call again s1 = (Ok r, s2)) ∨
     reconcile_transaction again tx_id s1 = (Ok r, s2)).

Lemma repetition_resumes t s : transactions j !! tx_id = Some t → holds L J ∅ s →
  r = Appended tx_id (get (default ∅ (t_prepare t)) "envelope") (ledger (combine l j)) → resumed s L J.
Proof.
  intros Et Hs Er. set (Q := λ x y, x = L ∧ y = J). assert (HQ : Q L J) by done.
  assert (Hcall : ∀ env s1, st_host env = h → holds L J ∅ s1 → outcome env Q (call env) s1 r L J ∅).
  { intros env s1 Een H1. apply call_runs; [done..|]. by rewrite Et. }
  destruct (outcome_files env' Q _ _ _ _ _ _ HQ (Hcall env' s E2 Hs)) as (L' & J' & [-> ->] & EL & EJ). pose proof (restart_holds again _ _ _ EL EJ) as H1.
  destruct (outcome_calm again Q _ _ _ _ _ _ Hcalm (Hcall again _ E3 H1)) as (s2 & Ha & [HL2 HJ2 _]).
  exists s2. split; [done|]. split; [done|]. left. by destruct H1.
Qed.

Lemma append_resumes prepare commit s : transactions j !! tx_id = None → holds L J ∅ s →
  appended h L J (combine l j) (canonical_json (JObj d)) d tx_id expected_head expected_sequence prepare commit r →
  resumed s (L +:+ line (canonical_json (JObj d)))
    ((J +:+ line (canonical_json (JObj prepare))) +:+ line (canonical_json (JObj commit))).
Proof.
  intros Et Hs Hap. set (R := line (canonical_json (JObj d))). set (P := line (canonical_json (JObj prepare))).
  set (C := line (canonical_json (JObj commit))). set (Q := cut L J R P C).
  assert (HQ : Q L J) by constructor. assert (HQ' : Q (L +:+ R) ((J +:+ P) +:+ C)) by constructor.
  assert (Hcall : ∀ env s1, st_host env = h → sharp env → holds L J ∅ s1 →
            outcome env Q (call env) s1 r (L +:+ R) ((J +:+ P) +:+ C) ∅).
  { intros env s1 Een Hsh H1. apply call_runs; [done..|]. rewrite Et. intros s2 H2.
    exact (append_new_runs env h L J l j d _ _ _ prepare commit r s2 Hap Een Hsh H2). }
  destruct (outcome_files env' Q _ _ _ _ _ _ HQ' (Hcall env' s E2 Hsharp Hs)) as (Lx & Jx & Hx & EL & EJ). pose proof (restart_holds again _ _ _ EL EJ) as H1.
  destruct (decide ((Lx, Jx) = (L, J))) as [[= -> ->]|Hne].
  - destruct (outcome_calm again Q _ _ _ _ _ _ Hcalm (Hcall again _ E3 (calm_sharp _ Hcalm) H1))
      as (s2 & Ha & [HL2 HJ2 _]). exists s2. split; [done|]. split; [done|]. left. by destruct H1.
  - destruct Hen as [_ (Hid & _) (Henc & _ & Hval) _ _].
    destruct (appended_written _ _ _ _ _ _ _ _ _ _ _ _ _ Hl Hj Hr Hf Hval Hap) as (after & j1 & j2 & Hw).
    rewrite <- E3 in Hl, Hap, Hw.
    destruct (outcome_calm again _ _ _ _ _ _ _ Hcalm (reconcile_finishes again L J l j closed d tx_id _ _ prepare
      commit r Hcalm Hl Hj Hr Hc Hval Henc Hid Hap after j1 j2 Hw Lx Jx _ Hx Hne H1)) as (s2 & Ha & [HL2 HJ2 _]).
    exists s2. split; [done|]. split; [done|]. by right.
Qed.
End Interrupted.

(** C3: An append is atomic across a crash.  Take a call that would return, and
    run it with any of its accesses failing, each failed write leaving all of its
    record or nothing.  A new process on the files that are left either finds
    them as they were, and the same call returns the same answer, or reconciling
    the transaction returns the answer of the uninterrupted call; both ways the
    files end up the same, byte for byte. *)
Theorem interrupted_append_resumes h a envelope tx_id expected_head expected_sequence
    env env' again s r s' s1 :
  st_host env = h → st_host env' = h → st_host again = h → sharp env' → calm again →
  floats_ok envelope = true → represents h s a →
  append env envelope tx_id expected_head expected_sequence s = (Ok r, s') →
  s1 = called again Restart (append env' envelope tx_id expected_head expected_sequence s).2 →
  ∃ s2, s_log s2 = s_log s' ∧ s_jnl s2 = s_jnl s' ∧
    ((s_log s1 = s_log s ∧ s_jnl s1 = s_jnl s ∧
      append again envelope tx_id expected_head expected_sequence s1 = (Ok r, s2)) ∨
     reconcile_transaction again tx_id s1 = (Ok r, s2)).
Proof.
  intros E1 E2 E3 Hsharp Hcalm Hf [(L & J & l & j & closed & Hs & Hl & Hj & Hr & Hc & ->)] Ha ->.
  rewrite <- E1 in Hl. eapply append_returned in Ha as (d & Hen & Ha); [|done..]. rewrite E1 in *.
  pose proof (en_envelope _ _ _ _ _ _ Hen) as ->. pose proof Hs as [HL HJ _]. rewrite HL, HJ.
  destruct (transactions j !! tx_id) as [t|] eqn:Et.
  - destruct Ha as [Er [-> -> _]].
    exact (repetition_resumes h env' again E2 E3 Hcalm L J l j closed Hl Hj Hr Hc d _ _ _ Hen r t s Et Hs Er).
  - destruct Ha as (prepare & commit & Hap & [-> -> _]).
    exact (append_resumes h env' again E2 E3 Hsharp Hcalm L J l j closed Hl Hj Hr Hc d _ _ _ Hf Hen r
      prepare commit s Et Hs Hap).
Qed.
End Restart.
