(* ===== verification/StoreAudit.v ===== *)
(** * Torn files and checkpoints

    A file that does not end at a line end stops every call for good.  A signed
    checkpoint names one content of the two files. *)

From S2P Require Import SnapshotProtocol VerifierProtocol.
From S2P Require Export StoreRestart.

(** * Torn files *)

Section Torn.
Context `{Hashing} `{OpenSSL}.

Definition torn (content : string) : Prop := content ≠ "" ∧ ends_with (String LF "") content = false.

Lemma ends_with_longer suffix a t : ends_with suffix t = true → ends_with suffix (a +:+ t) = true.
Proof.
  intros Ht. induction a as [|c a IH]; [by rewrite str_app_nil_l|].
  rewrite str_app_cons. cbn [ends_with]. by rewrite IH, orb_true_r.
Qed.

Lemma text_whole l : ¬ torn (log_text l).
Proof.
  intros [Hne He]. destruct l as [|e l] using rev_ind; [done|]. rewrite log_text_snoc in He. unfold line in He.
  rewrite ends_with_longer in He; [done|]. by apply ends_with_longer.
Qed.

Lemma torn_log h content : torn content → ∃ e, read_ledger h content = Err e.
Proof.
  intros Ht. destruct (read_ledger h content) as [l|e] eqn:El; [|by exists e].
  rewrite (lr_text _ _ _ (log_read _ _ _ El)) in Ht. by apply text_whole in Ht.
Qed.

Lemma torn_journal content : torn content → ∃ e, read_journal content = Err e.
Proof.
  intros Ht. destruct (read_journal content) as [j|e] eqn:Ej; [|by exists e].
  unfold read_journal in Ej. step Ej r Hr. rewrite (read_jsonl_text _ _ _ journal_canonical Hr) in Ht.
  by apply text_whole in Ht.
Qed.

(** Files one of which is torn. *)
Definition unreadable (s : store) : Prop :=
  ∃ L J, s_log s = Some L ∧ s_jnl s = Some J ∧ (torn L ∨ torn J).

(** [m] raises and leaves the files. *)
Definition stuck {A} (m : M store A) : Prop := ∀ s, unreadable s →
  ∃ e, (m s).1 = Err e ∧ s_log (m s).2 = s_log s ∧ s_jnl (m s).2 = s_jnl s.

Lemma unreadable_files s s' : unreadable s → s_log s' = s_log s → s_jnl s' = s_jnl s → unreadable s'.
Proof. intros (L & J & HL & HJ & Ht) EL EJ. exists L, J. by rewrite EL, EJ. Qed.

Lemma stuck_bind {A B} (m : M store A) (f : A → M store B) : stuck m → stuck (m ≫= f).
Proof.
  intros Hm s Hs. destruct (Hm s Hs) as (e & He & Hf). unfold mbind, M_bind.
  destruct (m s) as [[a|e'] s']; cbn [fst snd] in *; [done|]. by exists e'.
Qed.

Lemma stuck_after {A B} (m : M store A) (f : A → M store B) : Reading m → (∀ a, stuck (f a)) → stuck (m ≫= f).
Proof.
  intros Hm Hf s Hs. destruct (Hm s) as [EL EJ]. unfold mbind, M_bind.
  destruct (m s) as [[a|e] s']; cbn [fst snd] in *; [|by exists e].
  destruct (Hf a s' (unreadable_files _ _ Hs EL EJ)) as (e & He & FL & FJ). exists e. split; [done|]. split; congruence.
Qed.

Lemma stuck_finally {A} (m : M store A) last : stuck m → Reading last → stuck (finally m last).
Proof.
  intros Hm Hl s Hs. destruct (Hm s Hs) as (e & He & EL & EJ). unfold finally.
  destruct (m s) as [r s1]; cbn [fst snd] in *. destruct (Hl s1) as [FL FJ].
  destruct (last s1) as [[u|e'] s2]; cbn [fst snd] in *; [exists e|exists e']; (split; [done|split; congruence]).
Qed.

Lemma stuck_combined env clean allowed : stuck (_read_combined_unlocked env clean allowed).
Proof.
  intros s (L & J & HL & HJ & Ht). destruct (reading_combined env clean allowed s) as [EL EJ].
  destruct (_read_combined_unlocked env clean allowed s) as [[a|e] s'] eqn:Ec; cbn [fst snd] in *; [|by exists e].
  exfalso. eapply combined_held in Ec as [_ [(l & Hl & _) Hj _]]; [|by split].
  destruct Ht as [[e He]%(torn_log (st_host env))|[e He]%torn_journal]; congruence.
Qed.

Lemma stuck_locked {A} env clean allowed (f : _ → M store A) :
  stuck (locked env (_read_combined_unlocked env clean allowed ≫= f)).
Proof.
  apply stuck_after; [apply _|]. intros _. apply stuck_finally; [|apply _]. apply stuck_bind, stuck_combined.
Qed.

(** What a call answers. *)
Definition answer (env : store_environment) (c : store_call) (s : store) : res unit :=
  match c with
  | ReadVerified => (_ ← (read_verified env s).1; Ok tt)
  | GetTransaction tx => (_ ← (get_transaction env tx s).1; Ok tt)
  | Append e tx head n => (_ ← (append env e tx head n s).1; Ok tt)
  | Reconcile tx => (_ ← (reconcile_transaction env tx s).1; Ok tt)
  | SignCheckpoint v => (_ ← (sign_checkpoint env v s).1; Ok tt)
  | VerifyPinned v => (_ ← (verify_pinned_checkpoint env v s).1; Ok tt)
  | Restart => (_prepare_store_files env (with_indeterminate (λ _, ∅) s)).1
  end.

Lemma calls_stuck env c s : unreadable s → c ≠ Restart →
  (∃ e, answer env c s = Err e) ∧ s_log (called env c s) = s_log s ∧ s_jnl (called env c s) = s_jnl s.
Proof.
  intros Hs Hc.
  assert (Hm : ∀ A (m : M store A), stuck m → (∃ e, (_ ← (m s).1; Ok tt) = Err e) ∧
                 s_log (m s).2 = s_log s ∧ s_jnl (m s).2 = s_jnl s).
  { intros A m Hst. destruct (Hst s Hs) as (e & -> & EL & EJ). split; [by exists e|done]. }
  destruct c; [| | | | | |done]; apply Hm.
  - apply stuck_locked.
  - apply stuck_after; [apply _|]. intros _. apply stuck_locked.
  - do 6 (apply stuck_after; [apply _|]; intros ?). apply stuck_locked.
  - apply stuck_after; [apply _|]. intros _. apply stuck_locked.
  - apply stuck_bind, stuck_locked.
  - apply stuck_locked.
Qed.

(** C36: A torn file stops the store for good.  From files one of which does not
    end at a line end, whatever calls, process deaths and restarts follow, the
    files stay as they are and every call raises, [reconcile_transaction]
    included. *)
Theorem torn_store_is_stuck s s' : unreadable s → store_history s s' →
  s_log s' = s_log s ∧ s_jnl s' = s_jnl s ∧
  ∀ env c, c ≠ Restart → ∃ e, answer env c s' = Err e.
Proof.
  intros Hs Hh. assert (Hf : s_log s' = s_log s ∧ s_jnl s' = s_jnl s).
  { induction Hh as [|s1 env c _ [EL EJ]]; [done|]. pose proof (unreadable_files _ _ Hs EL EJ) as H1.
    assert (c = Restart ∨ c ≠ Restart) as [->|Hc] by (destruct c; first [by left|by right]).
    - destruct H1 as (L & J & HL & HJ & _). destruct (restart_holds env _ _ _ HL HJ) as [HL' HJ' _]. split; congruence.
    - destruct (calls_stuck env c s1 H1 Hc) as (_ & FL & FJ). split; congruence. }
  destruct Hf as [EL EJ]. split; [done|]. split; [done|]. intros env c Hc.
  apply calls_stuck; [by eapply unreadable_files|done].
Qed.
End Torn.

(** * Checkpoints *)

Section Checkpoints.
Context `{Hashing} `{OpenSSL}.

Lemma checkpoint_preimage_ok v document : _validate_checkpoint_preimage v = Ok document →
  v = JObj document ∧ ∃ lid hh jhead, get document "ledger_id" = JStr lid ∧ get document "head_hash" = JStr hh ∧
    get document "journal_head_hash" = JStr jhead.
Proof.
  intros Hv. step Hv d Hd. assert (v = JObj d) as ->.
  { destruct v; try done. step Hd u1 H1. step Hd b Hb. by apply Ok_inj in Hd as ->. }
  skip Hv. skip Hv. step Hv lid Hid. do 4 skip Hv. step Hv hh Hh. skip Hv. step Hv jh Hjh.
  skip Hv. skip Hv. apply Ok_inj in Hv as <-. unfold _identifier, _sha256 in *.
  apply checked_ok in Hid as [-> _], Hh as [-> _], Hjh as [-> _]. split; [done|]. by exists lid, hh, jh.
Qed.

Lemma signed_document_ok v d : validate_signed_checkpoint v = Ok d → v = JObj d.
Proof.
  intros Hv. step Hv d' Hd. do 2 skip Hv. apply Ok_inj in Hv as <-.
  destruct v; try done. step Hd u1 H1. step Hd b Hb. by apply Ok_inj in Hd as ->.
Qed.

Lemma verified_document_ok env v d : verify_signed_checkpoint env v = Ok d → v = JObj d.
Proof. intros Hv. step Hv d' Hd. do 6 skip Hv. apply Ok_inj in Hv as <-. by apply signed_document_ok. Qed.

Lemma checkpoint_signature_b64 d signature : get d "signature_b64" = JStr (b64 signature) →
  (String.length signature =? 64)%nat = true → checkpoint_signature d = Ok signature.
Proof.
  intros Hs Hl. pose proof (decode_signature_b64 signature Hl) as Hd.
  unfold checkpoint_signature, decode_signature in *. rewrite Hs.
  step Hd u1 H1. apply raise_if_ok in H1. rewrite check_run by exact H1. step Hd dec H2.
  apply catch_raise_ok in H2. rewrite H2. step Hd u3 H3. apply Ok_inj in Hd as ->. apply raise_if_ok in H3.
  cbn [catch mbind res_bind]. by rewrite check_run.
Qed.

(** A checkpoint verifies under the keys that signed it and states the snapshot. *)
Lemma signed_verifies env snapshot issued_at d : signed_checkpoint env snapshot issued_at = Ok d →
  verify_signed_checkpoint env (JObj d) = Ok d ∧
  existsb (λ f, py_neq (get d f.1) f.2) (pinned_fields snapshot) = false.
Proof.
  intros Hs. step Hs u1 H1. step Hs t Ht. step Hs b Hb. step Hs preimage Hp. step Hs message Hm.
  step Hs signature Hsig. step Hs verified Hver. step Hs u2 H2. pose proof (signed_document_ok _ _ Hs) as E.
  apply JObj_inj in E. apply raise_if_ok, negb_false_iff in H2 as ->.
  apply checkpoint_preimage_ok in Hp as (Hp & lid & hh & jhead & E1 & E2 & E3). unfold checkpoint_preimage, jobj in Hp.
  apply JObj_inj in Hp. assert (Hnone : preimage !! "signature_b64" = None) by (rewrite <- Hp; reflexivity).
  assert (Hkey : get d "key_id" = JStr (key_id b)) by (rewrite <- E, <- Hp; reflexivity).
  assert (Hb64 : get d "signature_b64" = JStr (b64 signature)) by (rewrite <- E; unfold get; by rewrite lookup_insert_eq).
  assert (Hpre : preimage_of d = JObj preimage).
  { unfold preimage_of. f_equal. rewrite <- E. by rewrite delete_insert_id. }
  split.
  - unfold verify_signed_checkpoint. rewrite E in Hs. rewrite (bind_run _ _ _ Hs).
    assert (Hvb : trusted_ledger_verification_binding (st_host env) = Ok b) by (by step Hb u3 H3).
    rewrite (bind_run _ _ _ Hvb). rewrite check_run by (by apply py_neq_str). rewrite Hpre, (bind_run _ _ _ Hm).
    pose proof Hver as Hlen. step Hlen u4 H4. apply raise_if_ok, negb_false_iff in H4.
    rewrite (bind_run _ _ _ (checkpoint_signature_b64 _ _ Hb64 H4)), (bind_run _ _ _ Hver). done.
  - assert (Hid : ledger_id snapshot = JStr lid) by (rewrite <- E1, <- Hp; reflexivity).
    assert (Hhd : head_hash snapshot = JStr hh) by (rewrite <- E2, <- Hp; reflexivity).
    assert (Hjh : journal_head_hash snapshot = JStr jhead) by (rewrite <- E3, <- Hp; reflexivity).
    apply not_true_is_false. intros (f & Hin & Hf)%existsb_exists.
    assert (Hall : Forall (λ f, get d f.1 = f.2 ∧ no_float f.2 = true) (pinned_fields snapshot)).
    { rewrite <- E, <- Hp. unfold pinned_fields. rewrite Hid, Hhd, Hjh. by repeat constructor. }
    rewrite Forall_forall in Hall. apply list_elem_of_In, Hall in Hin as [Ef Hnf].
    unfold py_neq in Hf. rewrite Ef in Hf. by rewrite (py_eq_refl _ Hnf) in Hf.
Qed.

(** A clean reading of files that are known. *)
Lemma verified_held env L J I s v s' : holds L J I s → read_verified env s = (Ok v, s') →
  ∃ l j, read_ledger (st_host env) L = Ok l ∧ read_journal J = Ok j ∧ _validate_combined l j true = Ok tt ∧
    v = ledger (combine l j).
Proof.
  intros Hs Hr. unfold read_verified in Hr. eapply lock_held in Hr as (s1 & s2 & H1 & Hr & _); [|exact Hs].
  apply M_bind_ok in Hr as (a & s3 & Ha & [= <- _]).
  eapply combined_held in Ha as [_ [(l & Hl & Ea & Hv) Hj _]]; [|exact H1]. exists l, (journal a). by rewrite <- Ea.
Qed.

Lemma pinned_held env c L J I s v s' : holds L J I s → verify_pinned_checkpoint env c s = (Ok v, s') →
  ∃ l j d, read_ledger (st_host env) L = Ok l ∧ read_journal J = Ok j ∧ v = ledger (combine l j) ∧ c = JObj d ∧
    existsb (λ f, py_neq (get d f.1) f.2) (pinned_fields v) = false.
Proof.
  intros Hs Hr. unfold verify_pinned_checkpoint in Hr. eapply lock_held in Hr as (s1 & s2 & H1 & Hr & _); [|exact Hs].
  apply M_bind_ok in Hr as (a & s3 & Ha & Hr).
  eapply combined_held in Ha as [_ [(l & Hl & Ea & _) Hj _]]; [|exact H1].
  apply M_bind_ok in Hr as (d & s4 & [Hd _]%liftM_ok & Hr).
  apply M_bind_ok in Hr as (u & s5 & [Hp _]%raise_ifM_ok & [= <- _]).
  exists l, (journal a), d. rewrite <- Ea. apply verified_document_ok in Hd. done.
Qed.

(** Checkpoints round-trip.  What [sign_checkpoint] returns is verified by
    [verify_pinned_checkpoint] on every store that holds the same files under the
    same keys, with the snapshot it was signed for. *)
Theorem signed_checkpoints_verify env again issued_at s d s1 L J s2 :
  st_host again = st_host env → calm again → s_log s = Some L → s_jnl s = Some J →
  sign_checkpoint env issued_at s = (Ok d, s1) → holds L J ∅ s2 →
  ∃ v s3, verify_pinned_checkpoint again (JObj d) s2 = (Ok v, s3) ∧ (read_verified env s).1 = Ok v.
Proof.
  intros Eh Hcalm HL HJ Hs H2. apply M_bind_ok in Hs as (v & w & Hv & [Hd ->]%liftM_ok).
  pose proof Hv as Hv'. eapply verified_held in Hv' as (l & j & Hl & Hj & Hval & ->); [|by split].
  apply signed_verifies in Hd as [Hver Hpin]. exists (ledger (combine l j)).
  assert (Hver' : verify_signed_checkpoint again (JObj d) = Ok d) by (unfold verify_signed_checkpoint in *; by rewrite Eh).
  rewrite <- Eh in Hl. set (Q := λ _ _ : string, True).
  assert (Hrun : outcome again Q (verify_pinned_checkpoint again (JObj d)) s2 (ledger (combine l j)) L J ∅).
  { unfold verify_pinned_checkpoint. eapply out_locked; [exact I|exact I|exact H2|]. clear s2 H2. intros s2 H2.
    next H2 ltac:(eapply (out_combined _ Q); [exact I|exact H2|exact Hl|exact Hj|exact Hval|intros _; unfold doubts; set_solver]).
    next H2 ltac:(exact (out_lift _ _ _ _ _ _ _ _ Hver' H2)). next H2 ltac:(apply out_guard; [exact Hpin|exact H2]).
    by apply out_ret. }
  destruct (outcome_calm again Q _ _ _ _ _ _ Hcalm Hrun) as (s3 & Hs3 & _). exists s3. by rewrite Hv.
Qed.

(** C29: A checkpoint pins the store.  Two stores on which one checkpoint verifies,
    under whatever keys, hold the same log and the same journal, byte for byte, or
    two different texts with one SHA-256 are at hand. *)
Theorem checkpoint_pins_files env1 env2 c L1 J1 L2 J2 I1 I2 s1 s2 v1 v2 t1 t2 :
  holds L1 J1 I1 s1 → holds L2 J2 I2 s2 →
  verify_pinned_checkpoint env1 c s1 = (Ok v1, t1) → verify_pinned_checkpoint env2 c s2 = (Ok v2, t2) →
  (L1 = L2 ∨ collision L1 L2) ∧ (J1 = J2 ∨ collision J1 J2).
Proof.
  intros H1 H2 V1 V2. eapply pinned_held in V1 as (l1 & j1 & d & R1 & S1 & -> & -> & P1); [|exact H1].
  eapply pinned_held in V2 as (l2 & j2 & d' & R2 & S2 & -> & E & P2); [|exact H2]. apply JObj_inj in E as <-.
  assert (Hpin : ∀ k a b, (k, JStr a) ∈ pinned_fields (ledger (combine l1 j1)) →
            (k, JStr b) ∈ pinned_fields (ledger (combine l2 j2)) → a = b).
  { intros k a b Ha Hb. apply existsb_false in P1, P2. rewrite Forall_forall in P1, P2.
    apply P1 in Ha. apply P2 in Hb. cbn [fst snd] in *. apply py_neq_str in Ha, Hb. congruence. }
  destruct (lr_figures _ _ _ (log_read _ _ _ R1)) as [F1 _]. destruct (lr_figures _ _ _ (log_read _ _ _ R2)) as [F2 _].
  destruct (journal_read _ _ S1) as (? & ? & G1%jr_figures). destruct (journal_read _ _ S2) as (? & ? & G2%jr_figures).
  destruct G1 as [G1 _], G2 as [G2 _]. unfold collision. split.
  - destruct (decide (L1 = L2)) as [|Hne]; [by left|right]. split; [done|]. rewrite <- F1, <- F2.
    apply (Hpin "log_sha256"); unfold pinned_fields; cbn [ledger combine log_sha256]; set_solver.
  - destruct (decide (J1 = J2)) as [|Hne]; [by left|right]. split; [done|]. rewrite <- G1, <- G2.
    apply (Hpin "journal_sha256"); unfold pinned_fields; cbn [ledger combine journal_sha256]; set_solver.
Qed.
End Checkpoints.
