(* ===== verification/Attestation.v ===== *)
(** * The independent executor's attestation ([verifier_attestation_protocol.py])

    A second Ed25519 domain, next to the snapshot broker's: its signature states
    who executed a validation, with which runtime, and what the commands put
    out.  This file is the verifying side, the only one the repository has.  As
    in [SnapshotProtocol] the files are the [host] and OpenSSL a class. *)

From S2P Require Import VerifierProtocol.
From S2P Require Export SnapshotProtocol.
From Stdlib Require Import Floats.SpecFloat.

Definition EXECUTOR_ATTESTATION_PROTOCOL_ID : string := "cogni-os-independent-executor-attestation-v2".
Definition EXECUTOR_ATTESTATION_DOMAIN : string := "cogni-os-independent-executor-verifier-v2".
Definition EXECUTOR_ATTESTATION_SCHEMA_VERSION : Z := 2.
Definition EXECUTOR_ATTESTATION_ALGORITHM : string := "ed25519-openssl-pkeyutl-raw-v1".
Definition EXECUTOR_VERIFIER_ID : string := "cogni-independent-verifier".
Definition MAX_EXECUTOR_ATTESTATION_WINDOW_SECONDS : Z := 3900.
Definition MAX_EXECUTOR_ATTESTATION_DELAY_SECONDS : Z := 300.
Definition EXECUTOR_ATTESTATION_PUBLIC_KEY_PATH : string :=
  "/etc/cogni-os/verifier-attestation/ed25519-public.pem".
Definition EXECUTOR_ATTESTATION_OPENSSL_SHA256_PATH : string :=
  "/etc/cogni-os/verifier-attestation/openssl.sha256".
Definition EXECUTOR_RUNTIME_MANIFEST_PATH : string := "/etc/cogni-os/verifier-attestation/runtime.json".
Definition EXECUTOR_RUNTIME_ROOT : string := "/opt/cogni-os/verifier-v1".
Definition EXECUTOR_ENTRYPOINT_PATH : string := EXECUTOR_RUNTIME_ROOT +:+ "/bin/cogni-verifier".
Definition EXECUTOR_INTERPRETER_PATH : string := EXECUTOR_RUNTIME_ROOT +:+ "/venv/bin/python".
Definition EXECUTOR_PACKAGE_ROOT : string := EXECUTOR_RUNTIME_ROOT +:+ "/lib/cogni_os".
Definition EXECUTOR_SERVICE_UNIT_PATH : string := "/etc/systemd/system/cogni-verifier.service".

Definition EXECUTOR_RUNTIME_MANIFEST_KEYS : list string :=
  ["schema_version"; "runtime_id"; "entrypoint_path"; "entrypoint_sha256"; "interpreter_path";
   "interpreter_sha256"; "package_root"; "package_tree_sha256"; "service_unit_path";
   "service_unit_sha256"; "runtime_policy_sha256"].
Definition EXECUTOR_ATTESTATION_ENVELOPE_KEYS : list string :=
  ["schema_version"; "algorithm"; "public_key_sha256"; "payload"; "signature_b64"].
(** The digests among the payload's fields. *)
Definition payload_digests : list string :=
  ["verifier_identity_sha256"; "validation_contract_sha256"; "acquire_attestation_sha256";
   "cleanup_attestation_sha256"; "command_output_digest_sha256"; "command_runtime_digest_sha256";
   "verifier_runtime_manifest_sha256"; "verifier_entrypoint_sha256"; "verifier_interpreter_sha256";
   "verifier_package_tree_sha256"; "verifier_service_unit_sha256"; "verifier_policy_sha256";
   "receipt_preimage_sha256"; "receipt_sha256"].
Definition EXECUTOR_ATTESTATION_PAYLOAD_KEYS : list string :=
  ["schema_version"; "protocol_id"; "domain"; "kind"; "verifier_id"; "attestation_nonce"; "task_id";
   "attempt"; "actor"; "run_id"; "issued_at"] ++ payload_digests.

Notation attestation_error := VerifierAttestationError.

(** ** Fields *)

Definition _is_sha256 (value : json) : bool := _is_hex value 64.
Definition _run_id (value : json) : bool := _is_hex value 32.
Definition _identifier (value : json) : bool :=
  match value with
  | JStr s => negb (bool_decide (s = "")) && (Z.of_nat (String.length s) <=? 256)
              && all_chars (λ c, is_alnum c || char_in "-_." c) s
  | _ => false
  end.

Definition nonempty_text (v : json) : bool :=
  match v with JStr s => negb (bool_decide (s = "")) | _ => false end.

(** [int(x)] of a float: towards zero. *)
Definition float_trunc (f : spec_float) : Z :=
  match f with
  | S754_finite s m e =>
      let v := if s then Z.neg m else Z.pos m in
      if 0 <=? e then v * 2 ^ e else Z.quot v (2 ^ (- e))
  | _ => 0
  end.

(** A time without an offset raises, from the conversion or from the test
    after it, as the same class. *)
Definition _utc_epoch (value : json) (label : string) : res Z :=
  let invalid {A} := raise (A := A) attestation_error (label +:+ " timestamp is invalid") in
  match value with
  | JStr s =>
      _ ← raise_if (bool_decide (s = "") || (64 <? py_len s)%nat) attestation_error
            (label +:+ " timestamp is invalid");
      parsed ← catch (fromisoformat (normalize_z s)) ValueError (λ _, invalid);
      match dt_off parsed with
      | Some off => Ok (float_trunc (timestamp_of parsed off))
      | None => raise attestation_error (label +:+ " timestamp has no timezone")
      end
  | _ => invalid
  end.

(** [x.get(key)] when [x] is a dict, and [None] when it is not one. *)
Definition field_of (v : json) (key : string) : json :=
  match v with JObj d => get d key | _ => JNull end.

Definition _receipt_chronology_valid (receipt : dict) (attestation_issued_at : json) : bool :=
  match get receipt "snapshot_protection" with
  | JObj protection =>
      match field_of (get protection "acquire_attestation") "payload",
            field_of (get protection "cleanup_attestation") "payload" with
      | JObj acquire_payload, JObj cleanup_payload =>
          match _utc_epoch (get receipt "started_at") "receipt start",
                _utc_epoch (get receipt "completed_at") "receipt completion" with
          | Ok started_at, Ok completed_at =>
              match int_from 1 (get acquire_payload "issued_at"),
                    int_from 1 (get cleanup_payload "issued_at"), int_from 1 attestation_issued_at with
              | Some acquire_issued_at, Some cleanup_issued_at, Some issued_at =>
                  (started_at <=? acquire_issued_at) && (acquire_issued_at <=? completed_at)
                  && (completed_at <=? cleanup_issued_at) && (cleanup_issued_at <=? issued_at)
                  && (issued_at - started_at <=? MAX_EXECUTOR_ATTESTATION_WINDOW_SECONDS)
                  && (issued_at - cleanup_issued_at <=? MAX_EXECUTOR_ATTESTATION_DELAY_SECONDS)
              | _, _, _ => false
              end
          | _, _ => false
          end
      | _, _ => false
      end
  | _ => false
  end.

Section Attestation.
Context `{Hashing}.

Definition verifier_identity_sha256 (identity : json) : res string :=
  let malformed {A} := raise (A := A) attestation_error "Independent verifier identity binding is malformed" in
  match identity with
  | JObj d =>
      if py_eq (get d "schema_version") (JInt 1) && _identifier (get d "actor")
         && nonempty_text (get d "control_principal") && nonempty_text (get d "model_family")
         && is_list (get d "alias_chain")
      then canonical_json_sha256 identity else malformed
  | _ => malformed
  end.

Definition _digest (value : json) (domain : string) : res string :=
  canonical_json_sha256 (jobj [("domain", JStr domain); ("value", value)]).

(** ** What a receipt's commands put out and ran with *)

Definition project_command (item : json) : res json :=
  match item with
  | JObj item =>
      match get item "command_policy" with
      | JObj policy =>
          match get policy "executable_binding" with
          | JObj executable =>
              let output_sha256 := get item "output_sha256" in
              let executable_before := get executable "sha256" in
              let executable_after := get item "executable_sha256_after" in
              _ ← raise_if (negb (_is_sha256 output_sha256 && _is_sha256 executable_before
                                  && _is_sha256 executable_after)) attestation_error
                    "Trusted command digest is malformed";
              Ok (jobj [("index", get item "index"); ("executed_argv", get item "executed_argv");
                        ("isolation_launch_argv", get item "isolation_launch_argv");
                        ("exit_code", get item "exit_code"); ("timed_out", get item "timed_out");
                        ("output_truncated", get item "output_truncated");
                        ("output_sha256", output_sha256);
                        ("output_size_bytes", get item "output_size_bytes");
                        ("executable_sha256_before", executable_before);
                        ("executable_sha256_after", executable_after)])
          | _ => raise attestation_error "Trusted executable binding is malformed"
          end
      | _ => raise attestation_error "Trusted command policy is malformed"
      end
  | _ => raise attestation_error "Trusted command result is malformed"
  end.

Definition command_output_digest_sha256 (receipt : dict) : res string :=
  match get receipt "validations" with
  | JList validations =>
      _ ← raise_if (is_nil validations) attestation_error "Trusted receipt has no command results";
      projected ← res_mapM project_command validations;
      _digest (JList projected) "cogni-os-command-output-commitments-v1"
  | _ => raise attestation_error "Trusted receipt has no command results"
  end.

Definition executable_binding (item : json) : res json :=
  match field_of item "command_policy" with
  | JObj policy => Ok (get policy "executable_binding")
  | _ => raise attestation_error "Trusted runner command runtime binding is malformed"
  end.

Definition runtime_document (receipt backend : dict) (bindings : list json) : json := jobj
  [("runner", get receipt "runner"); ("schema_version", get receipt "schema_version");
   ("isolation_policy", get receipt "isolation_policy"); ("isolation_backend", JObj backend);
   ("sandbox_environment_sha256", get receipt "sandbox_environment_sha256");
   ("executable_bindings", JList bindings)].

Definition runner_runtime_digest_sha256 (receipt : dict) : res string :=
  match get receipt "isolation_backend", get receipt "validations" with
  | JObj backend, JList validations =>
      executable_bindings ← res_mapM executable_binding validations;
      _digest (runtime_document receipt backend executable_bindings)
        "cogni-os-immutable-runner-runtime-v1"
  | _, _ => raise attestation_error "Trusted runner runtime binding is malformed"
  end.

(** ** The envelope *)

Definition envelope_ok (envelope : dict) : bool :=
  exact_keys envelope EXECUTOR_ATTESTATION_ENVELOPE_KEYS
  && py_eq (get envelope "schema_version") (JInt EXECUTOR_ATTESTATION_SCHEMA_VERSION)
  && py_eq (get envelope "algorithm") (JStr EXECUTOR_ATTESTATION_ALGORITHM)
  && _is_sha256 (get envelope "public_key_sha256").

Definition payload_ok (payload : dict) : bool :=
  exact_keys payload EXECUTOR_ATTESTATION_PAYLOAD_KEYS
  && py_eq (get payload "schema_version") (JInt EXECUTOR_ATTESTATION_SCHEMA_VERSION)
  && py_eq (get payload "protocol_id") (JStr EXECUTOR_ATTESTATION_PROTOCOL_ID)
  && py_eq (get payload "domain") (JStr EXECUTOR_ATTESTATION_DOMAIN)
  && py_eq (get payload "kind") (JStr "execution-verified")
  && py_eq (get payload "verifier_id") (JStr EXECUTOR_VERIFIER_ID)
  && _identifier (get payload "attestation_nonce") && _identifier (get payload "task_id")
  && _identifier (get payload "actor") && _run_id (get payload "run_id")
  && bool_decide (is_Some (int_from 1 (get payload "attempt")))
  && bool_decide (is_Some (int_from 1 (get payload "issued_at"))).

(** [base64.b64decode(signature, validate=True)], 64 bytes. *)
Definition decoded_signature (signature : json) : res string :=
  match signature with
  | JStr s =>
      _ ← raise_if (1024 <? Z.of_nat (py_len s)) attestation_error
            "Independent verifier signature encoding is invalid";
      decoded ← catch (Base64.strict_decode s) ValueError
                  (λ _, raise attestation_error "Independent verifier signature encoding is invalid");
      _ ← raise_if (negb (String.length decoded =? 64)%nat) attestation_error
            "Independent verifier Ed25519 signature length is invalid";
      Ok decoded
  | _ => raise attestation_error "Independent verifier signature encoding is invalid"
  end.

Definition _validate_envelope (envelope : json) : res dict :=
  match envelope with
  | JObj e =>
      _ ← raise_if (negb (envelope_ok e)) attestation_error
            "Independent verifier envelope schema is invalid";
      match get e "payload" with
      | JObj payload =>
          _ ← raise_if (negb (payload_ok payload)) attestation_error
                "Independent verifier payload schema is invalid";
          _ ← raise_if (negb (forallb (λ key, _is_sha256 (get payload key)) payload_digests))
                attestation_error "Independent verifier payload digest is invalid";
          _ ← decoded_signature (get e "signature_b64");
          Ok payload
      | _ => raise attestation_error "Independent verifier payload schema is invalid"
      end
  | _ => raise attestation_error "Independent verifier envelope schema is invalid"
  end.

(** ** The verifier's runtime *)

(** The service identity and confinement contract. *)
Definition runtime_policy : json := jobj
  [("runtime_id", JStr "cogni-os-independent-verifier-runtime-v1");
   ("manifest_path", JStr EXECUTOR_RUNTIME_MANIFEST_PATH);
   ("entrypoint_path", JStr EXECUTOR_ENTRYPOINT_PATH);
   ("interpreter_path", JStr EXECUTOR_INTERPRETER_PATH);
   ("package_root", JStr EXECUTOR_PACKAGE_ROOT);
   ("service_unit_path", JStr EXECUTOR_SERVICE_UNIT_PATH);
   ("service_user", JStr "cogni-verifier"); ("service_group", JStr "cogni-verifier");
   ("network_policy", JStr "private-network-namespace");
   ("signing_policy", JStr "separate-ed25519-key-no-snapshot-broker-key-reuse")].

Definition executor_runtime_policy_sha256 : res string :=
  _digest runtime_policy "cogni-os-independent-verifier-runtime-policy-v1".

Definition read_runtime_manifest (h : host) (manifest_file : string) : res (string * json) :=
  let unreadable {A} := raise (A := A) attestation_error "Independent verifier runtime manifest is unreadable" in
  match bytes_at h manifest_file with
  | Some raw =>
      value ← (if utf8_valid raw then catch (json_loads raw) JSONDecodeError (λ _, unreadable)
               else unreadable);
      Ok (raw, value)
  | None => unreadable
  end.

Definition runtime_manifest_ok (manifest : dict) (raw : string) : res bool :=
  if exact_keys manifest EXECUTOR_RUNTIME_MANIFEST_KEYS then
    again ← canonical_json_bytes (JObj manifest);
    Ok (bool_decide (again = raw)
        && py_eq (get manifest "schema_version") (JInt 1)
        && py_eq (get manifest "runtime_id") (JStr "cogni-os-independent-verifier-runtime-v1")
        && py_eq (get manifest "entrypoint_path") (JStr EXECUTOR_ENTRYPOINT_PATH)
        && py_eq (get manifest "interpreter_path") (JStr EXECUTOR_INTERPRETER_PATH)
        && py_eq (get manifest "package_root") (JStr EXECUTOR_PACKAGE_ROOT)
        && py_eq (get manifest "service_unit_path") (JStr EXECUTOR_SERVICE_UNIT_PATH)
        && forallb (λ key, _is_sha256 (get manifest key))
             ["entrypoint_sha256"; "interpreter_sha256"; "package_tree_sha256";
              "service_unit_sha256"; "runtime_policy_sha256"])
  else Ok false.

(** The binding that is returned: the digests the manifest and the files share. *)
Record runtime_binding := RuntimeBinding {
  rt_manifest_sha256 : string; rt_entrypoint_sha256 : string; rt_interpreter_sha256 : string;
  rt_package_tree_sha256 : string; rt_service_unit_sha256 : string; rt_runtime_policy_sha256 : string
}.

Definition differs {A} : res A :=
  raise attestation_error "Independent verifier runtime differs from its manifest".

(** [actual != manifest[key]] *)
Definition must_match (manifest : dict) (key actual : string) : res unit :=
  if py_neq (JStr actual) (get manifest key) then differs else Ok tt.

Definition binding_of (manifest : dict) (raw : string) : runtime_binding :=
  RuntimeBinding (sha256_hex raw) (str_of (get manifest "entrypoint_sha256"))
    (str_of (get manifest "interpreter_sha256")) (str_of (get manifest "package_tree_sha256"))
    (str_of (get manifest "service_unit_sha256")) (str_of (get manifest "runtime_policy_sha256")).

(** The manifest, checked; the three files, protected; the first two, compared. *)
Definition checked_manifest (h : host) (manifest_path : string) : res (dict * string) :=
  manifest_file ← _require_posix_root_owned h manifest_path false;
  '(raw, value) ← read_runtime_manifest h manifest_file;
  match value with
  | JObj manifest =>
      ok ← runtime_manifest_ok manifest raw;
      _ ← raise_if (negb ok) attestation_error "Independent verifier runtime manifest schema is invalid";
      Ok (manifest, raw)
  | _ => raise attestation_error "Independent verifier runtime manifest schema is invalid"
  end.

Definition runtime_files (h : host) : res unit :=
  catch (_ ← _require_posix_root_owned h EXECUTOR_ENTRYPOINT_PATH false;
         _ ← _require_posix_root_owned h EXECUTOR_INTERPRETER_PATH false;
         _ ← _require_posix_root_owned h EXECUTOR_SERVICE_UNIT_PATH false;
         Ok tt)
    EvidenceError (λ _, raise attestation_error "Independent verifier runtime is not root-protected").

(** [None] as in [package_tree_sha256], which never gives it. *)
Definition trusted_executor_runtime_binding (h : host) (manifest_path : string)
    : option (res runtime_binding) :=
  let before :=
    '(manifest, raw) ← checked_manifest h manifest_path;
    _ ← runtime_files h;
    entrypoint ← file_sha256 h EXECUTOR_ENTRYPOINT_PATH;
    _ ← must_match manifest "entrypoint_sha256" entrypoint;
    interpreter ← file_sha256 h EXECUTOR_INTERPRETER_PATH;
    _ ← must_match manifest "interpreter_sha256" interpreter;
    Ok (manifest, raw) in
  match before with
  | Err e => Some (Err e)
  | Ok (manifest, raw) =>
      match package_tree_sha256 h EXECUTOR_PACKAGE_ROOT with
      | None => None
      | Some r => Some (
          tree ← r;
          _ ← must_match manifest "package_tree_sha256" tree;
          service_unit ← file_sha256 h EXECUTOR_SERVICE_UNIT_PATH;
          _ ← must_match manifest "service_unit_sha256" service_unit;
          policy ← executor_runtime_policy_sha256;
          _ ← must_match manifest "runtime_policy_sha256" policy;
          Ok (binding_of manifest raw))
      end
  end.

(** ** Verifying *)

Context `{OpenSSL}.

Definition _public_key_spki_sha256 (public_key_path openssl_path : string) : res string :=
  match run_pkey_der openssl_path public_key_path with
  | None => raise attestation_error "Independent verifier public key normalization failed"
  | Some (code, der) =>
      _ ← raise_if (negb (code =? 0) || bool_decide (der = "")
                    || (4096 <? Z.of_nat (String.length der))) attestation_error
            "Independent verifier public key normalization failed";
      Ok (sha256_hex der)
  end.

(** Everything up to the signature: the payload that the executor's key signed,
    which is not the broker's key. *)
Definition verify_signature (h : host) (envelope : json) : res dict :=
  payload ← _validate_envelope envelope;
  public ← trusted_public_key_binding h EXECUTOR_ATTESTATION_PUBLIC_KEY_PATH;
  named ← jitem envelope "public_key_sha256";
  _ ← raise_if (py_neq named (JStr public.2)) attestation_error
        "Independent verifier envelope names a different key";
  broker_public ← trusted_public_key_binding h BROKER_PUBLIC_KEY_PATH;
  _ ← raise_if (bool_decide (public.2 = broker_public.2)) attestation_error
        "Independent verifier key must differ from the snapshot broker key";
  openssl ← trusted_openssl_binding h BROKER_OPENSSL_PATH EXECUTOR_ATTESTATION_OPENSSL_SHA256_PATH;
  executor_spki ← _public_key_spki_sha256 EXECUTOR_ATTESTATION_PUBLIC_KEY_PATH openssl.1;
  broker_spki ← _public_key_spki_sha256 BROKER_PUBLIC_KEY_PATH openssl.1;
  _ ← raise_if (bool_decide (executor_spki = broker_spki)) attestation_error
        "Independent verifier key must differ from the snapshot broker key";
  s ← jitem envelope "signature_b64";
  signature ← decoded_signature s;
  valid ← pkeyutl_verify openssl.1 EXECUTOR_ATTESTATION_PUBLIC_KEY_PATH (JObj payload) signature;
  _ ← raise_if (negb valid) attestation_error "Independent verifier detached signature is invalid";
  Ok payload.

(** [expected], from the receipt, the recomputed digests and the runtime. *)
Definition expected_bindings (receipt protection : dict)
    (identity_sha256 cleanup_sha256 outputs_sha256 commands_sha256 : string)
    (runtime : runtime_binding) : list (string * json) :=
  [("verifier_identity_sha256", JStr identity_sha256);
   ("task_id", get receipt "task_id"); ("attempt", get receipt "attempt");
   ("actor", get receipt "actor"); ("run_id", get receipt "run_id");
   ("validation_contract_sha256", get receipt "validation_contract_sha256");
   ("acquire_attestation_sha256", get protection "acquire_attestation_sha256");
   ("cleanup_attestation_sha256", JStr cleanup_sha256);
   ("command_output_digest_sha256", JStr outputs_sha256);
   ("command_runtime_digest_sha256", JStr commands_sha256);
   ("verifier_runtime_manifest_sha256", JStr (rt_manifest_sha256 runtime));
   ("verifier_entrypoint_sha256", JStr (rt_entrypoint_sha256 runtime));
   ("verifier_interpreter_sha256", JStr (rt_interpreter_sha256 runtime));
   ("verifier_package_tree_sha256", JStr (rt_package_tree_sha256 runtime));
   ("verifier_service_unit_sha256", JStr (rt_service_unit_sha256 runtime));
   ("verifier_policy_sha256", JStr (rt_runtime_policy_sha256 runtime));
   ("receipt_preimage_sha256", get receipt "receipt_preimage_sha256");
   ("receipt_sha256", get receipt "receipt_sha256")].

(** The payload against the receipt. *)
Definition match_receipt (payload receipt : dict) (verifier_identity : json) (runtime : runtime_binding)
    : res dict :=
  match get receipt "snapshot_protection", get receipt "isolation_backend" with
  | JObj protection, JObj _ =>
      match get protection "cleanup_attestation" with
      | JObj cleanup_attestation =>
          _ ← raise_if (negb (_receipt_chronology_valid receipt (get payload "issued_at")))
                attestation_error "Independent verifier chronology is invalid or unbounded";
          identity_sha256 ← verifier_identity_sha256 verifier_identity;
          cleanup_sha256 ← canonical_json_sha256 (JObj cleanup_attestation);
          outputs_sha256 ← command_output_digest_sha256 receipt;
          commands_sha256 ← runner_runtime_digest_sha256 receipt;
          let expected := expected_bindings receipt protection identity_sha256 cleanup_sha256
                            outputs_sha256 commands_sha256 runtime in
          _ ← raise_if (existsb (λ kv, py_neq (get payload kv.1) kv.2) expected) attestation_error
                "Independent verifier proof does not match the trusted receipt";
          Ok payload
      | _ => raise attestation_error "Trusted receipt lacks the broker cleanup attestation"
      end
  | _, _ => raise attestation_error "Trusted receipt lacks executor attestation bindings"
  end.

Definition verify_executor_attestation (h : host) (envelope : json) (receipt : dict)
    (verifier_identity : json) : option (res dict) :=
  match verify_signature h envelope with
  | Err e => Some (Err e)
  | Ok payload =>
      match trusted_executor_runtime_binding h EXECUTOR_RUNTIME_MANIFEST_PATH with
      | None => None
      | Some runtime =>
          Some (runtime ← runtime; match_receipt payload receipt verifier_identity runtime)
      end
  end.

(** [Path.is_file()] follows links; the trust files are none. *)
Definition is_file (h : host) (path : string) : bool :=
  match lstat h (resolved h path) with Some m => is_kind Regular m | None => false end.

Definition attestation_verification_available (h : host) : bool :=
  posix h && is_file h EXECUTOR_ATTESTATION_PUBLIC_KEY_PATH
  && is_file h EXECUTOR_ATTESTATION_OPENSSL_SHA256_PATH
  && is_file h EXECUTOR_RUNTIME_MANIFEST_PATH.
End Attestation.

(** * What a verified attestation establishes *)

Section Verified.
Context `{Hashing} `{OpenSSL}.

(** Signed with the executor's key, by an OpenSSL binary the administrator
    vouches for; the broker's key is another one. *)
Definition executor_signed (h : host) (e payload : dict) : Prop :=
  root_owned h EXECUTOR_ATTESTATION_PUBLIC_KEY_PATH ∧ root_owned h BROKER_PUBLIC_KEY_PATH ∧
  root_owned h BROKER_OPENSSL_PATH ∧ root_owned h EXECUTOR_ATTESTATION_OPENSSL_SHA256_PATH ∧
  (∃ b, bytes_at h BROKER_OPENSSL_PATH = Some b ∧
        read_digest h EXECUTOR_ATTESTATION_OPENSSL_SHA256_PATH = Ok (sha256_hex b)) ∧
  (∃ key broker_key, bytes_at h EXECUTOR_ATTESTATION_PUBLIC_KEY_PATH = Some key ∧
     bytes_at h BROKER_PUBLIC_KEY_PATH = Some broker_key ∧
     get e "public_key_sha256" = JStr (sha256_hex key) ∧ sha256_hex key ≠ sha256_hex broker_key) ∧
  (∃ der broker_der, run_pkey_der BROKER_OPENSSL_PATH EXECUTOR_ATTESTATION_PUBLIC_KEY_PATH = Some (0, der) ∧
     run_pkey_der BROKER_OPENSSL_PATH BROKER_PUBLIC_KEY_PATH = Some (0, broker_der) ∧ der ≠ broker_der) ∧
  ∃ s, decoded_signature (get e "signature_b64") = Ok s ∧
       run_verify BROKER_OPENSSL_PATH EXECUTOR_ATTESTATION_PUBLIC_KEY_PATH (canonical_json (JObj payload)) s
       = Some 0.

(** A protected file whose digest is known. *)
Definition protected_file (h : host) (path digest : string) : Prop :=
  root_owned h path ∧ ∃ b, bytes_at h path = Some b ∧ sha256_hex b = digest.

(** The runtime on the host is the one the digests name. *)
Definition runtime_in_place (h : host) (r : runtime_binding) : Prop :=
  protected_file h EXECUTOR_RUNTIME_MANIFEST_PATH (rt_manifest_sha256 r) ∧
  protected_file h EXECUTOR_ENTRYPOINT_PATH (rt_entrypoint_sha256 r) ∧
  protected_file h EXECUTOR_INTERPRETER_PATH (rt_interpreter_sha256 r) ∧
  protected_file h EXECUTOR_SERVICE_UNIT_PATH (rt_service_unit_sha256 r) ∧
  package_tree_sha256 h EXECUTOR_PACKAGE_ROOT = Some (Ok (rt_package_tree_sha256 r)) ∧
  executor_runtime_policy_sha256 = Ok (rt_runtime_policy_sha256 r).

(** The order of the events of a run, and how far apart they are at most. *)
Definition in_order (receipt : dict) (issued_at : json) : Prop :=
  ∃ started acquired completed cleaned issued,
    _utc_epoch (get receipt "started_at") "receipt start" = Ok started ∧
    _utc_epoch (get receipt "completed_at") "receipt completion" = Ok completed ∧
    (∃ protection, get receipt "snapshot_protection" = JObj protection ∧
       field_of (field_of (get protection "acquire_attestation") "payload") "issued_at" = JInt acquired ∧
       field_of (field_of (get protection "cleanup_attestation") "payload") "issued_at" = JInt cleaned) ∧
    issued_at = JInt issued ∧ 1 ≤ acquired ∧
    started ≤ acquired ≤ completed ∧ completed ≤ cleaned ≤ issued ∧
    issued - started ≤ 3900 ∧ issued - cleaned ≤ 300.

(** The documents of a receipt that are digested. *)
Definition projected_commands (receipt : dict) : res (list json) :=
  match get receipt "validations" with
  | JList l => res_mapM project_command l
  | _ => raise attestation_error "Trusted receipt has no command results"
  end.

Definition commitment (domain : string) (value : json) : json :=
  jobj [("domain", JStr domain); ("value", value)].

(** What the payload says of the receipt: its own fields, and the digests of
    the identity, the cleanup statement, the commands' outputs and the runtime
    that they ran with. *)
Definition payload_matches (payload receipt : dict) (identity : json) (runtime : runtime_binding)
    (outputs : list json) : Prop :=
  ∃ protection cleanup backend validations bindings,
    get receipt "snapshot_protection" = JObj protection ∧
    get protection "cleanup_attestation" = JObj cleanup ∧
    get receipt "isolation_backend" = JObj backend ∧
    get receipt "validations" = JList validations ∧ validations ≠ [] ∧
    projected_commands receipt = Ok outputs ∧ res_mapM executable_binding validations = Ok bindings ∧
    Forall (λ kv, py_eq (get payload kv.1) kv.2 = true)
      (expected_bindings receipt protection (sha256_hex (canonical_json identity))
         (sha256_hex (canonical_json (JObj cleanup)))
         (sha256_hex (canonical_json (commitment "cogni-os-command-output-commitments-v1" (JList outputs))))
         (sha256_hex (canonical_json (commitment "cogni-os-immutable-runner-runtime-v1"
                                        (runtime_document receipt backend bindings)))) runtime).

Lemma sha256_of_canonical v d : canonical_json_sha256 v = Ok d → d = sha256_hex (canonical_json v).
Proof. intros (b & Hb & ->)%canonical_sha256_ok. by apply canonical_bytes_ok in Hb as [-> _]. Qed.

Lemma spki_ok key openssl d : _public_key_spki_sha256 key openssl = Ok d →
  ∃ der, run_pkey_der openssl key = Some (0, der) ∧ d = sha256_hex der.
Proof.
  unfold _public_key_spki_sha256. destruct (run_pkey_der openssl key) as [[code der]|]; [|done].
  intros (u & Hu%raise_if_ok & <-%Ok_inj)%bind_ok. bool_split. subst. by exists der.
Qed.

Lemma pkeyutl_ok openssl key payload s : pkeyutl_verify openssl key payload s = Ok true →
  run_verify openssl key (canonical_json payload) s = Some 0.
Proof.
  intros (b & Hb & Hr)%bind_ok. apply canonical_bytes_ok in Hb as [-> _].
  destruct (run_verify _ _ _ _) as [code|]; [|done]. by apply Ok_inj, Z.eqb_eq in Hr as ->.
Qed.

Lemma attestation_envelope_ok envelope payload : _validate_envelope envelope = Ok payload →
  ∃ e s, envelope = JObj e ∧ envelope_ok e = true ∧ get e "payload" = JObj payload ∧
    payload_ok payload = true ∧ forallb (λ key, _is_sha256 (get payload key)) payload_digests = true ∧
    decoded_signature (get e "signature_b64") = Ok s.
Proof.
  destruct envelope as [| | | | | |e]; try done. unfold _validate_envelope.
  intros (u & He%raise_if_ok%negb_false_iff & Hv)%bind_ok.
  destruct (get e "payload") as [| | | | | |p] eqn:Ep; try done.
  apply bind_ok in Hv as (u1 & Hp%raise_if_ok%negb_false_iff & Hv).
  apply bind_ok in Hv as (u2 & Hd%raise_if_ok%negb_false_iff & Hv).
  apply bind_ok in Hv as (s & Hs & <-%Ok_inj). exists e, s. by rewrite Ep.
Qed.

Lemma envelope_item_get e k v : jitem (JObj e) k = Ok v → v = get e k.
Proof. unfold get, jitem, item, res_of_option. destruct (e !! k); [by intros ?%Ok_inj|done]. Qed.

Lemma signature_ok h envelope payload : verify_signature h envelope = Ok payload →
  ∃ e, envelope = JObj e ∧ get e "payload" = JObj payload ∧ payload_ok payload = true ∧
       forallb (λ key, _is_sha256 (get payload key)) payload_digests = true ∧ executor_signed h e payload.
Proof.
  intros Hv. step Hv p Hp. apply attestation_envelope_ok in Hp as (e & s & -> & _ & Hpay & Hok & Hd & Hs).
  step Hv public Hpub. step Hv named Hn. apply envelope_item_get in Hn as ->. step Hv u Hu.
  apply raise_if_ok, py_neq_str in Hu. step Hv broker Hb. step Hv u1 Hu1.
  apply raise_if_ok, bool_decide_eq_false in Hu1. step Hv o Ho. step Hv dg1 H1. step Hv dg2 H2. step Hv u2 Hu2.
  apply raise_if_ok, bool_decide_eq_false in Hu2. step Hv t Ht. apply envelope_item_get in Ht as ->. step Hv s' Hs'.
  step Hv valid Hval. step Hv u3 Hu3. apply raise_if_ok, negb_false_iff in Hu3 as ->. apply Ok_inj in Hv as <-.
  rewrite Hs in Hs'. apply Ok_inj in Hs' as <-.
  apply public_key_binding_ok in Hpub as (_ & Rp & key & Ek & Ep), Hb as (_ & Rb & bkey & Ebk & Eb).
  apply openssl_binding_ok in Ho as (Eo & Ro & Rd & b & Eob & Hdig). rewrite Eo in *.
  apply spki_ok in H1 as (der & D1 & ->), H2 as (der2 & D2 & ->). apply pkeyutl_ok in Hval.
  exists e. split; [done|]. split; [done|]. split; [done|]. split; [done|].
  split; [done|]. split; [done|]. split; [done|]. split; [done|]. split; [by exists b|].
  split; [exists key, bkey; repeat split; congruence|].
  split; [exists der, der2; repeat split; congruence|]. by exists s.
Qed.

Lemma file_sha_ok h path d : file_sha256 h path = Ok d → ∃ b, bytes_at h path = Some b ∧ sha256_hex b = d.
Proof. unfold file_sha256. destruct (bytes_at h path) as [b|]; [|done]. intros <-%Ok_inj. by exists b. Qed.

Lemma must_match_ok manifest key d u : must_match manifest key d = Ok u → get manifest key = JStr d.
Proof.
  unfold must_match. destruct (py_neq _ _) eqn:E; [done|]. intros _. unfold py_neq in E.
  apply negb_false_iff in E. destruct (get manifest key); try discriminate E.
  cbn in E. by apply bool_decide_eq_true in E as ->.
Qed.

Lemma runtime_files_ok h u : runtime_files h = Ok u →
  root_owned h EXECUTOR_ENTRYPOINT_PATH ∧ root_owned h EXECUTOR_INTERPRETER_PATH ∧
  root_owned h EXECUTOR_SERVICE_UNIT_PATH.
Proof.
  intros Hv%catch_raise_ok. step Hv a Ha. step Hv b Hb. step Hv c Hc.
  by apply require_root_owned_ok in Ha as [_ ?], Hb as [_ ?], Hc as [_ ?].
Qed.

Lemma checked_manifest_ok h path manifest raw : checked_manifest h path = Ok (manifest, raw) →
  root_owned h path ∧ bytes_at h path = Some raw.
Proof.
  intros Hv. step Hv f Hf. apply require_root_owned_ok in Hf as [-> Hr]. step Hv rv Hrv. destruct rv as [raw' v].
  destruct v as [| | | | | |m]; try done. step Hv ok Hok. step Hv u Hu. apply Ok_inj in Hv as [= <- <-].
  split; [done|]. unfold read_runtime_manifest in Hrv. destruct (bytes_at h path) as [b|]; [|done].
  step Hrv w Hw. apply Ok_inj in Hrv. congruence.
Qed.

Lemma runtime_ok h r :
  trusted_executor_runtime_binding h EXECUTOR_RUNTIME_MANIFEST_PATH = Some (Ok r) → runtime_in_place h r.
Proof.
  unfold trusted_executor_runtime_binding. cbv zeta.
  match goal with |- context [match ?x with Ok _ => _ | Err _ => _ end] => destruct x as [[manifest raw]|] eqn:Hv end;
    [|done].
  step Hv mr Hm. destruct mr as [m' raw']. apply checked_manifest_ok in Hm as [Rm Em].
  step Hv u Hu. apply runtime_files_ok in Hu as (R1 & R2 & R3).
  step Hv dg1 H1. apply file_sha_ok in H1. step Hv u1 M1. apply must_match_ok in M1.
  step Hv dg2 H2. apply file_sha_ok in H2. step Hv u2 M2. apply must_match_ok in M2.
  apply Ok_inj in Hv as [= <- <-].
  destruct (package_tree_sha256 h EXECUTOR_PACKAGE_ROOT) as [t|] eqn:Et; [|done]. intros Hw. injection Hw as Hw.
  step Hw dg3 H3. step Hw u3 M3. apply must_match_ok in M3.
  step Hw dg4 H4. apply file_sha_ok in H4. step Hw u4 M4. apply must_match_ok in M4.
  step Hw dg5 H5. step Hw u5 M5. apply must_match_ok in M5. apply Ok_inj in Hw as <-.
  unfold runtime_in_place, protected_file, binding_of.
  cbn [rt_manifest_sha256 rt_entrypoint_sha256 rt_interpreter_sha256 rt_package_tree_sha256 rt_service_unit_sha256
       rt_runtime_policy_sha256]. rewrite M1, M2, M3, M4, M5. cbn [str_of].
  split; [exact (conj Rm (ex_intro _ raw' (conj Em eq_refl)))|]. split; [exact (conj R1 H1)|].
  split; [exact (conj R2 H2)|]. split; [exact (conj R3 H4)|]. split; [|exact H5]. rewrite Et. exact (f_equal Some H3).
Qed.

Lemma in_order_ok receipt issued_at : _receipt_chronology_valid receipt issued_at = true → in_order receipt issued_at.
Proof.
  unfold _receipt_chronology_valid. destruct (get receipt "snapshot_protection") as [| | | | | |p] eqn:Ep; try done.
  destruct (field_of (get p "acquire_attestation") "payload") as [| | | | | |a] eqn:Ea; try done.
  destruct (field_of (get p "cleanup_attestation") "payload") as [| | | | | |c] eqn:Ec; try done.
  destruct (_utc_epoch _ "receipt start") as [s|] eqn:Es; [|done].
  destruct (_utc_epoch _ "receipt completion") as [d|] eqn:Ed; [|done].
  destruct (int_from 1 (get a "issued_at")) as [ai|] eqn:Eai; [|done].
  destruct (int_from 1 (get c "issued_at")) as [ci|] eqn:Eci; [|done].
  destruct (int_from 1 issued_at) as [i|] eqn:Ei; [|done].
  apply int_from_Some in Eai as [Eai ?], Eci as [Eci ?], Ei as [-> ?]. intros Hv. bool_split.
  unfold MAX_EXECUTOR_ATTESTATION_WINDOW_SECONDS, MAX_EXECUTOR_ATTESTATION_DELAY_SECONDS in *.
  exists s, ai, d, ci, i. split; [done|]. split; [done|]. split; [|split; [done|lia]].
  exists p. rewrite Ea, Ec. done.
Qed.

Lemma matches_ok payload receipt identity runtime p :
  match_receipt payload receipt identity runtime = Ok p →
  p = payload ∧ in_order receipt (get payload "issued_at") ∧
  ∃ outputs, payload_matches payload receipt identity runtime outputs.
Proof.
  unfold match_receipt. destruct (get receipt "snapshot_protection") as [| | | | | |pr] eqn:Epr; try done.
  destruct (get receipt "isolation_backend") as [| | | | | |be] eqn:Ebe; try done.
  destruct (get pr "cleanup_attestation") as [| | | | | |cl] eqn:Ecl; try done.
  intros Hv. step Hv u Hu. apply raise_if_ok, negb_false_iff, in_order_ok in Hu.
  step Hv i Hi. step Hv c Hc. step Hv o Ho. step Hv r Hr. cbv zeta in Hv. step Hv u1 Hall. apply Ok_inj in Hv as <-.
  split; [reflexivity|]. split; [exact Hu|].
  assert (Ei : i = sha256_hex (canonical_json identity)).
  { destruct identity; try discriminate Hi. unfold verifier_identity_sha256 in Hi. cbv zeta in Hi.
    destruct (_ && _); [|discriminate Hi]. exact (sha256_of_canonical _ _ Hi). }
  apply sha256_of_canonical in Hc.
  unfold command_output_digest_sha256, runner_runtime_digest_sha256 in Ho, Hr. rewrite Ebe in Hr.
  destruct (get receipt "validations") as [| | | | |l|] eqn:El; try discriminate Ho.
  step Ho u2 Hnil. apply raise_if_ok in Hnil. step Ho outputs Hp. apply sha256_of_canonical in Ho.
  step Hr bindings Hb. apply sha256_of_canonical in Hr.
  exists outputs, pr, cl, be, l, bindings. split; [exact Epr|]. split; [exact Ecl|]. split; [exact Ebe|].
  split; [exact El|]. split; [intros ->; discriminate Hnil|].
  split; [unfold projected_commands; rewrite El; exact Hp|]. split; [exact Hb|].
  subst i c o r. apply raise_if_ok, existsb_false in Hall.
  eapply Forall_impl; [exact Hall|]. intros kv Hkv. exact (proj1 (negb_false_iff _) Hkv).
Qed.

Lemma verification_ok h envelope receipt identity payload :
  verify_executor_attestation h envelope receipt identity = Some (Ok payload) →
  ∃ runtime, verify_signature h envelope = Ok payload ∧ runtime_in_place h runtime ∧
    in_order receipt (get payload "issued_at") ∧
    ∃ outputs, payload_matches payload receipt identity runtime outputs.
Proof.
  unfold verify_executor_attestation. destruct (verify_signature h envelope) as [p|]; [|discriminate].
  destruct (trusted_executor_runtime_binding _ _) as [rt|] eqn:Ert; [|discriminate]. intros Hv.
  injection Hv as Hv. step Hv runtime Hr. subst rt. apply runtime_ok in Ert.
  apply matches_ok in Hv as (-> & Ho & outputs & Hm). exists runtime. split; [reflexivity|]. split; [exact Ert|].
  split; [exact Ho|]. exists outputs. exact Hm.
Qed.

(** C21: A verified attestation is the executor's own: its payload is signed
    under the executor's key, which only root could have installed and which is
    not the snapshot broker's; the verifier's runtime on the host is the one the
    payload names, byte for byte; the payload states the receipt's own fields
    and the digests of the identity, the cleanup statement, the commands'
    outputs and the runtime that they ran with; and the run's events are in
    order, the last at most 3900 seconds after the first. *)
Theorem attested_execution_is_bound h envelope receipt identity payload :
  verify_executor_attestation h envelope receipt identity = Some (Ok payload) →
  ∃ e runtime outputs,
    envelope = JObj e ∧ get e "payload" = JObj payload ∧ payload_ok payload = true ∧
    executor_signed h e payload ∧ runtime_in_place h runtime ∧
    payload_matches payload receipt identity runtime outputs ∧ in_order receipt (get payload "issued_at").
Proof.
  intros (runtime & Hs & Hr & Ho & outputs & Hm)%verification_ok.
  apply signature_ok in Hs as (e & He & Hp & Hok & _ & Hsig). exists e, runtime, outputs.
  exact (conj He (conj Hp (conj Hok (conj Hsig (conj Hr (conj Hm Ho)))))).
Qed.

(** ** One attestation, one execution *)

Lemma digest_pins v a b :
  py_eq v (JStr (sha256_hex (canonical_json a))) = true → py_eq v (JStr (sha256_hex (canonical_json b))) = true →
  floats_ok a = true → floats_ok b = true → a = b ∨ ∃ x y, collision x y.
Proof.
  intros Ha Hb Fa Fb. destruct v; try discriminate Ha. cbn [py_eq] in Ha, Hb.
  apply bool_decide_eq_true in Ha, Hb.
  destruct (decide (canonical_json a = canonical_json b)) as [E|E].
  - left. by apply (dumps_inj compact).
  - right. exists (canonical_json a), (canonical_json b). split; [exact E|congruence].
Qed.

Lemma floats_ok_jobj l : forallb (λ kv, floats_ok kv.2) l = true → floats_ok (jobj l) = true.
Proof. exact (floats_ok_dict_of l). Qed.

Lemma floats_ok_field d k e : floats_ok (JObj d) = true → get d k = JObj e → floats_ok (JObj e) = true.
Proof. intros Hd He. rewrite <- He. by apply floats_ok_get. Qed.

Lemma project_floats x y : project_command x = Ok y → floats_ok x = true → floats_ok y = true.
Proof.
  destruct x as [| | | | | |item]; try discriminate. unfold project_command.
  destruct (get item "command_policy") as [| | | | | |policy] eqn:Ep; try discriminate.
  destruct (get policy "executable_binding") as [| | | | | |ex] eqn:Ee; try discriminate.
  cbv zeta. intros Hv Hf. step Hv u Hu. apply Ok_inj in Hv as <-.
  pose proof (floats_ok_field _ _ _ (floats_ok_field _ _ _ Hf Ep) Ee) as Hx.
  apply floats_ok_jobj. cbn [forallb snd]. rewrite !floats_ok_get by assumption. reflexivity.
Qed.

Lemma binding_floats x y : executable_binding x = Ok y → floats_ok x = true → floats_ok y = true.
Proof.
  unfold executable_binding, field_of. destruct x as [| | | | | |item]; try discriminate.
  destruct (get item "command_policy") as [| | | | | |policy] eqn:Ep; try discriminate.
  intros <-%Ok_inj Hf. apply floats_ok_get. exact (floats_ok_field _ _ _ Hf Ep).
Qed.

Lemma mapM_floats (f : json → res json) l ys :
  (∀ x y, f x = Ok y → floats_ok x = true → floats_ok y = true) →
  res_mapM f l = Ok ys → floats_ok (JList l) = true → floats_ok (JList ys) = true.
Proof.
  intros Hf Hm%res_mapM_ok. rewrite !floats_ok_list. induction Hm as [|x y l ys Hxy _ IH]; [done|].
  intros [Hx Hl]%Forall_cons. constructor; [by eapply Hf|by apply IH].
Qed.

(** The documents a payload commits to. *)
Record committed (receipt : dict) (cleanup : dict) (outputs : list json) (runtime_doc : json) : Prop := Committed {
  cm_cleanup : field_of (get receipt "snapshot_protection") "cleanup_attestation" = JObj cleanup;
  cm_outputs : projected_commands receipt = Ok outputs;
  cm_runtime : ∃ backend validations bindings, get receipt "isolation_backend" = JObj backend ∧
    get receipt "validations" = JList validations ∧ res_mapM executable_binding validations = Ok bindings ∧
    runtime_doc = runtime_document receipt backend bindings
}.

Lemma committed_floats receipt cleanup outputs doc :
  committed receipt cleanup outputs doc → floats_ok (JObj receipt) = true →
  floats_ok (JObj cleanup) = true ∧ floats_ok (JList outputs) = true ∧ floats_ok doc = true.
Proof.
  intros [Hc Ho (be & l & bi & Eb & El & Hb & ->)] Hf.
  assert (Hl : floats_ok (JList l) = true) by (rewrite <- El; by apply floats_ok_get).
  split; [|split].
  - unfold field_of in Hc. destruct (get receipt "snapshot_protection") as [| | | | | |p] eqn:Ep; try discriminate Hc.
    exact (floats_ok_field _ _ _ (floats_ok_field _ _ _ Hf Ep) Hc).
  - unfold projected_commands in Ho. rewrite El in Ho. exact (mapM_floats _ _ _ project_floats Ho Hl).
  - apply floats_ok_jobj. cbn [forallb snd]. rewrite !floats_ok_get by assumption.
    rewrite (floats_ok_field _ _ _ Hf Eb), (mapM_floats _ _ _ binding_floats Hb Hl). reflexivity.
Qed.

Definition states (payload : dict) (key : string) (document : json) : Prop :=
  py_eq (get payload key) (JStr (sha256_hex (canonical_json document))) = true.

Lemma matches_committed payload receipt identity runtime outputs :
  payload_matches payload receipt identity runtime outputs → ∃ cleanup doc,
    committed receipt cleanup outputs doc ∧
    states payload "verifier_identity_sha256" identity ∧
    states payload "cleanup_attestation_sha256" (JObj cleanup) ∧
    states payload "command_output_digest_sha256"
      (commitment "cogni-os-command-output-commitments-v1" (JList outputs)) ∧
    states payload "command_runtime_digest_sha256" (commitment "cogni-os-immutable-runner-runtime-v1" doc).
Proof.
  intros (pr & cl & be & l & bi & Epr & Ecl & Ebe & El & _ & Ho & Hb & Hall).
  exists cl, (runtime_document receipt be bi). unfold expected_bindings in Hall. rewrite !Forall_cons in Hall.
  destruct Hall as (H1 & _ & _ & _ & _ & _ & _ & H2 & H3 & H4 & _).
  split; [|exact (conj H1 (conj H2 (conj H3 H4)))].
  split; [rewrite Epr; exact Ecl|exact Ho|]. exists be, l, bi. exact (conj Ebe (conj El (conj Hb eq_refl))).
Qed.

Lemma commitment_inj domain a b : commitment domain a = commitment domain b → a = b.
Proof.
  intros Heq%JObj_inj. assert (Hl := f_equal (λ m : dict, get m "value") Heq). exact Hl.
Qed.

(** One attestation names one execution: if it verifies against two
    receipts and two identities, on whatever hosts, then the identities, the
    broker's cleanup statements, the commands with all their outputs and exit
    codes, and the runtimes are equal, or a SHA-256 collision is at hand. *)
Theorem attestation_pins_execution h1 h2 envelope r1 r2 id1 id2 p1 p2 :
  verify_executor_attestation h1 envelope r1 id1 = Some (Ok p1) →
  verify_executor_attestation h2 envelope r2 id2 = Some (Ok p2) →
  floats_ok (JObj r1) = true → floats_ok (JObj r2) = true → floats_ok id1 = true → floats_ok id2 = true →
  (p1 = p2 ∧ id1 = id2 ∧ ∃ cleanup outputs doc,
     committed r1 cleanup outputs doc ∧ committed r2 cleanup outputs doc) ∨
  ∃ x y, collision x y.
Proof.
  intros (rt1 & S1 & _ & _ & o1 & M1)%verification_ok (rt2 & S2 & _ & _ & o2 & M2)%verification_ok F1 F2 I1 I2.
  apply signature_ok in S1 as (e & -> & P1 & _), S2 as (e' & He & P2 & _). apply JObj_inj in He as <-.
  rewrite P1 in P2. apply JObj_inj in P2 as <-.
  apply matches_committed in M1 as (c1 & d1 & C1 & A1 & A2 & A3 & A4), M2 as (c2 & d2 & C2 & B1 & B2 & B3 & B4).
  destruct (committed_floats _ _ _ _ C1 F1) as (G1 & G2 & G3), (committed_floats _ _ _ _ C2 F2) as (K1 & K2 & K3).
  assert (Hcom : ∀ d v, floats_ok v = true → floats_ok (commitment d v) = true).
  { intros d v Hv. apply floats_ok_jobj. cbn [forallb snd]. by rewrite Hv. }
  destruct (digest_pins _ _ _ A1 B1 I1 I2) as [<-|?]; [|by right].
  destruct (digest_pins _ _ _ A2 B2 G1 K1) as [<-%JObj_inj|?]; [|by right].
  destruct (digest_pins _ _ _ A3 B3 (Hcom _ _ G2) (Hcom _ _ K2)) as [E3%commitment_inj|?]; [|by right].
  destruct (digest_pins _ _ _ A4 B4 (Hcom _ _ G3) (Hcom _ _ K3)) as [<-%commitment_inj|?]; [|by right].
  injection E3 as <-. left. split; [reflexivity|]. split; [reflexivity|]. by exists c1, o1, d1.
Qed.
End Verified.
