(* ===== verification/TrustScenario.v ===== *)
(** * A concrete trust boundary

    A host with the keys, the OpenSSL binary and a package below a protected
    root, a stand-in for OpenSSL whose signature of a message is its digest
    twice, one run's documents, and a chain of two events.  The theorems of
    [SnapshotProtocol], [VerifierProtocol] and [AuthorityV2] are applied to
    them. *)

From S2P Require Import TestDigest SnapshotProtocol VerifierProtocol VerifierReceipt AuthorityV2.

Definition hex64 : string := zeros 64.

(** ** The host *)

Definition files_1 : list (string * string) :=
  [(BROKER_OPENSSL_PATH, "openssl binary");
   (BROKER_OPENSSL_SHA256_PATH, sha256_hex "openssl binary");
   (LEDGER_AUTHORITY_OPENSSL_SHA256_PATH, sha256_hex "openssl binary");
   (BROKER_PUBLIC_KEY_PATH, "broker key"); (BROKER_PRIVATE_KEY_PATH, "broker secret");
   (LEDGER_AUTHORITY_PUBLIC_KEY_PATH, "ledger key"); (LEDGER_AUTHORITY_PRIVATE_KEY_PATH, "ledger secret");
   (VERIFIER_PUBLIC_KEY_PATH, "verifier key"); (VERIFIER_PRIVATE_KEY_PATH, "verifier secret");
   (VERIFIER_OPENSSL_SHA256_PATH, sha256_hex "openssl binary");
   ("/pkg/cogni_os/a.py", "import os"); ("/pkg/cogni_os/sub/b.py", "pass")].

Definition content_1 (p : string) : option string := snd <$> find_first (λ f, bool_decide (f.1 = p)) files_1.

Definition host_1 : host := {|
  posix := true;
  lstat p := match content_1 p with
             | Some b => Some (Meta Regular 0 384 (Z.of_nat (String.length b)))
             | None => Some (Meta Directory 0 493 0)
             end;
  bytes_at := content_1;
  scandir p := if bool_decide (p = "/pkg/cogni_os") then Some ["sub"; "a.py"]
               else if bool_decide (p = "/pkg/cogni_os/sub") then Some ["b.py"] else None;
  runnable p := true;
  resolved p := p;
  interpreter := BROKER_PYTHON_PATH
|}.

Definition signature_1 (message : string) : string := fletcher message +:+ fletcher message.

#[export] Instance openssl_1 : OpenSSL := {|
  run_sign _ _ message := Some (0, signature_1 message);
  run_verify _ _ message signature := Some (if bool_decide (signature = signature_1 message) then 0 else 1);
  run_pkey_der _ key := Some (0, key)
|}.

Definition value {A} (d : A) (r : res A) : A := match r with Ok a => a | Err _ => d end.

(** A computation that does not raise returns its value; the value itself is
    never compared. *)
Lemma value_ok {A} (d : A) (r : res A) : is_ok r = true → r = Ok (value d r).
Proof. by destruct r. Qed.

(** ** The package *)

Definition tree_1 : string := match package_tree_sha256 host_1 "/pkg/cogni_os" with
                              | Some r => value "" r | None => "" end.

Lemma tree_run : package_tree_sha256 host_1 "/pkg/cogni_os" = Some (Ok tree_1).
Proof. vm_compute. reflexivity. Qed.

Lemma package_below_is_settled :
  ∃ w, settled host_1 "/pkg/cogni_os" w "/pkg/cogni_os/sub/b.py".
Proof.
  destruct (hashed_tree_protected host_1 "/pkg/cogni_os" tree_1 tree_run) as (_ & w & _ & Hs).
  exists w. destruct (Hs "/pkg/cogni_os/sub/b.py") as [E|Hset]; [|discriminate E|exact Hset].
  eapply (below_child host_1 "/pkg/cogni_os" (Meta Directory 0 493 0) ["sub"; "a.py"] "sub");
    [reflexivity..|left|].
  eapply (below_child host_1 _ (Meta Directory 0 493 0) ["b.py"] "b.py");
    [reflexivity..|left|]. apply below_self.
Qed.

(** ** The broker's cleanup statement of a run *)

Definition run_1 : string := zeros 32.

Definition cleanup_payload (preimage_sha256 : string) : dict := dict_of
  [("schema_version", JInt 1); ("protocol_id", JStr BROKER_PROTOCOL_ID);
   ("kind", JStr "snapshot-cleaned"); ("request_sha256", JStr hex64);
   ("request_id", JStr "request-1"); ("request_nonce", JStr "nonce-1");
   ("caller_pid", JInt 42); ("caller_uid", JInt 1000); ("caller_gid", JInt 1000);
   ("lease_id", JStr "lease-1"); ("acquire_attestation_sha256", JStr hex64);
   ("snapshot_sha256", JStr hex64); ("snapshot_device", JInt 1); ("snapshot_inode", JInt 2);
   ("issued_at", JInt 1769904000); ("broker_nonce", JStr "nonce-2"); ("task_id", JStr "T-1");
   ("attempt", JInt 1); ("actor", JStr "verifier"); ("run_id", JStr run_1);
   ("validation_contract_sha256", JStr hex64);
   ("receipt_preimage_sha256", JStr preimage_sha256);
   ("broker_runtime_manifest_sha256", JStr hex64); ("namespace_removed", JBool true)].

Definition sign_1 (payload : dict) : res json :=
  sign_payload host_1 payload BROKER_PRIVATE_KEY_PATH BROKER_PUBLIC_KEY_PATH BROKER_OPENSSL_PATH
    BROKER_OPENSSL_SHA256_PATH.
Definition verify_1 (envelope : json) : res dict :=
  verify_signed_envelope host_1 envelope "snapshot-cleaned" BROKER_PUBLIC_KEY_PATH BROKER_OPENSSL_PATH
    BROKER_OPENSSL_SHA256_PATH.
Definition envelope_1 : json := value JNull (sign_1 (cleanup_payload hex64)).

Lemma pair_1 key other message signature :
  run_sign BROKER_OPENSSL_PATH key message = Some (0, signature) →
  run_verify BROKER_OPENSSL_PATH other message signature = Some 0.
Proof. cbn. intros [= <-]. by rewrite bool_decide_true. Qed.

Lemma sign_run :
  sign_payload host_1 (cleanup_payload hex64) BROKER_PRIVATE_KEY_PATH BROKER_PUBLIC_KEY_PATH
    BROKER_OPENSSL_PATH BROKER_OPENSSL_SHA256_PATH = Ok envelope_1.
Proof. apply value_ok. vm_compute. reflexivity. Qed.

Definition verified_1 : dict := value ∅ (verify_1 envelope_1).
Lemma verify_run :
  verify_signed_envelope host_1 envelope_1 "snapshot-cleaned" BROKER_PUBLIC_KEY_PATH BROKER_OPENSSL_PATH
    BROKER_OPENSSL_SHA256_PATH = Ok verified_1.
Proof. apply value_ok. vm_compute. reflexivity. Qed.

Lemma kind_1 : str_of (get (cleanup_payload hex64) "kind") = "snapshot-cleaned".
Proof. vm_compute. reflexivity. Qed.

#[local] Opaque envelope_1 verified_1 cleanup_payload.

Lemma signed_envelopes_verify_witness :
  verify_signed_envelope host_1 envelope_1 "snapshot-cleaned" BROKER_PUBLIC_KEY_PATH BROKER_OPENSSL_PATH
    BROKER_OPENSSL_SHA256_PATH = Ok (cleanup_payload hex64).
Proof.
  rewrite <- kind_1.
  apply (signed_envelopes_verify host_1 (cleanup_payload hex64) BROKER_PRIVATE_KEY_PATH
    BROKER_PUBLIC_KEY_PATH BROKER_OPENSSL_PATH BROKER_OPENSSL_SHA256_PATH envelope_1).
  - intros message signature. apply pair_1.
  - exact sign_run.
Defined.

Lemma verified_envelope_is_authentic_witness : attested "snapshot-cleaned" verified_1.
Proof.
  destruct (verified_envelope_is_authentic host_1 envelope_1 "snapshot-cleaned"
    BROKER_PUBLIC_KEY_PATH BROKER_OPENSSL_PATH BROKER_OPENSSL_SHA256_PATH verified_1 verify_run)
    as [Ha _]. exact Ha.
Defined.

(** A frame cut into chunks of three bytes and what follows. *)
Definition frame_1 : string := value "" (encode_frame (jobj [("k", JInt 1)])).

Lemma frame_reading_inverts_writing_witness : ∃ rest,
  decode_frame_from_stream [String.substring 0 3 frame_1; String.substring 3 (String.length frame_1 - 3) frame_1;
                            "more"] = Ok (dict_of [("k", JInt 1)], rest) ∧ bytes rest = "more".
Proof.
  apply frame_reading_inverts_writing; [repeat constructor; done|reflexivity|].
  exists frame_1. split; vm_compute; reflexivity.
Defined.

(** ** One verified run *)

Definition source_1 : json := jobj
  [("artifact_id", JStr "artifact-1"); ("bundle_sha256", JStr hex64); ("size_bytes", JInt 10);
   ("commit_oid", JStr (zeros 40)); ("tree_oid", JStr (zeros 40))].

(** The fields a dispatch has in common with the event that signs it. *)
Definition dispatch_fields (previous : string) : list (string * json) :=
  [("schema_version", JInt 1); ("protocol_id", JStr VERIFIER_PROTOCOL_ID);
   ("kind", JStr "verification-dispatch"); ("ledger_domain", JStr VERIFIER_LEDGER_DOMAIN);
   ("ledger_head_hash", JStr previous); ("workspace_id", JStr "demo"); ("task_id", JStr "T-1");
   ("attempt", JInt 1); ("actor", JStr "verifier"); ("run_id", JStr run_1); ("source", source_1);
   ("verifier_manifest_sha256", JStr hex64); ("validation_contract_sha256", JStr hex64);
   ("capability_receipt_sha256", JStr hex64); ("network_allowed", JBool false);
   ("gpu_allowed", JBool false); ("nonce", JStr "nonce-3"); ("issued_at", JInt 1000);
   ("expires_at", JInt 1500)].

Definition dispatch_1 : json := jobj (("dispatch_event_hash", JStr hex64) :: dispatch_fields hex64).

Definition command_1 : json := jobj
  [("index", JInt 0); ("executable_path", JStr "/usr/bin/pytest"); ("executable_sha256", JStr hex64);
   ("argv", JList [JStr "/usr/bin/pytest"; JStr "-q"]); ("cwd", JStr "/");
   ("environment_sha256", JStr hex64); ("exit_code", JInt 0); ("timed_out", JBool false);
   ("output_truncated", JBool false); ("stdout_sha256", JStr hex64); ("stdout_size_bytes", JInt 3);
   ("stderr_sha256", JStr hex64); ("stderr_size_bytes", JInt 0); ("started_monotonic_ns", JInt 5);
   ("completed_monotonic_ns", JInt 9)].

Definition postcheck_1 : json := jobj [("passed", JBool true); ("observed_sha256", JStr hex64)].

Definition preimage_fields (result : json) : list (string * json) :=
  [("schema_version", JInt 1); ("protocol_id", JStr VERIFIER_PROTOCOL_ID);
   ("kind", JStr "verification-execution-preimage"); ("domain", JStr VERIFIER_RECEIPT_DOMAIN);
   ("dispatch_event_hash", JStr hex64); ("request_event_hash", JStr hex64);
   ("start_event_hash", JStr hex64); ("ledger_head_hash", JStr hex64); ("workspace_id", JStr "demo");
   ("task_id", JStr "T-1"); ("attempt", JInt 1); ("actor", JStr "verifier"); ("run_id", JStr run_1);
   ("source", source_1); ("verifier_manifest_sha256", JStr hex64);
   ("validation_contract_sha256", JStr hex64); ("snapshot_manifest_sha256", JStr hex64);
   ("acquire_proof_sha256", JStr hex64);
   ("runtime", jobj ((λ k, (k, JStr hex64)) <$> RUNTIME_KEYS)); ("commands", JList [command_1]);
   ("isolation", jobj [("network_disabled", JBool true); ("gpu_disabled", JBool true);
                       ("namespace_sha256", JStr hex64); ("cgroup_sha256", JStr hex64)]);
   ("source_postcheck", postcheck_1); ("snapshot_postcheck", postcheck_1);
   ("started_at", JStr "2026-02-01T00:00:00Z"); ("completed_at", JStr "2026-02-01T00:00:01Z");
   ("started_monotonic_ns", JInt 1); ("completed_monotonic_ns", JInt 10); ("result", result);
   ("failure_code", JNull)].
Definition preimage_1 : json := jobj (preimage_fields (JStr "passed")).
Definition preimage_sha_1 : string := sha256_hex (canonical_json preimage_1).
Definition cleanup_1 : json := value JNull (sign_1 (cleanup_payload preimage_sha_1)).
Definition receipt (sealed_at : string) : dict := dict_of
  [("schema_version", JInt 1); ("protocol_id", JStr VERIFIER_PROTOCOL_ID);
   ("kind", JStr "verification-receipt"); ("domain", JStr VERIFIER_RECEIPT_DOMAIN);
   ("algorithm", JStr VERIFIER_SIGNATURE_ALGORITHM); ("public_key_sha256", JStr hex64);
   ("execution_preimage", preimage_1); ("execution_preimage_sha256", JStr preimage_sha_1);
   ("execution_signature_b64", JStr (b64 (zeros 64))); ("cleanup_proof", cleanup_1);
   ("cleanup_proof_sha256", JStr (sha256_hex (canonical_json cleanup_1)));
   ("sealed_at", JStr sealed_at); ("final_signature_b64", JStr (b64 (zeros 64)))].

Definition receipt_1 : json := JObj (receipt "2026-02-01T00:00:02Z").
Definition receipt_2 : json := JObj (receipt "2026-02-01T00:00:03+00:00").

Definition executed_1 : dict := value ∅ (validate_execution_preimage preimage_1 (Some dispatch_1)).
Definition received_1 : dict := value ∅ (validate_receipt_envelope receipt_1 (Some dispatch_1)).

Definition received_2 : dict := value ∅ (validate_receipt_envelope receipt_2 None).

Lemma executed_run : validate_execution_preimage preimage_1 (Some dispatch_1) = Ok executed_1.
Proof. apply value_ok. vm_compute. reflexivity. Qed.
Lemma received_run : validate_receipt_envelope receipt_1 (Some dispatch_1) = Ok received_1.
Proof. apply value_ok. vm_compute. reflexivity. Qed.
Lemma received_again : validate_receipt_envelope receipt_2 None = Ok received_2.
Proof. apply value_ok. vm_compute. reflexivity. Qed.
Lemma passed_1 : get executed_1 "result" = JStr "passed".
Proof. vm_compute. reflexivity. Qed.
Lemma floats_1 : floats_ok (get received_1 "execution_preimage") = true.
Proof. vm_compute. reflexivity. Qed.
Lemma floats_2 : floats_ok (get received_2 "execution_preimage") = true.
Proof. vm_compute. reflexivity. Qed.
#[local] Opaque cleanup_1 preimage_sha_1 preimage_1.
Lemma receipt_fields sealed_at d : JObj (receipt sealed_at) = JObj d → get d "cleanup_proof" = cleanup_1.
Proof. intros E. apply JObj_inj in E. rewrite <- E. reflexivity. Qed.
Lemma same_cleanup : get received_1 "cleanup_proof" = get received_2 "cleanup_proof".
Proof.
  destruct (receipt_ok _ _ _ received_run) as [H1%receipt_fields _].
  destruct (receipt_ok _ _ _ received_again) as [H2%receipt_fields _]. congruence.
Qed.
#[local] Opaque executed_1 received_1 received_2 preimage_1 receipt_1 receipt_2 dispatch_1.

Lemma passed_execution_is_clean_witness : ∃ commands, clean_execution executed_1 commands.
Proof.
  destruct (passed_execution_is_clean preimage_1 (Some dispatch_1) executed_1 executed_run) as [Hc _].
  exact (Hc passed_1).
Defined.

Lemma accepted_receipt_is_bound_witness : ∃ preimage cleanup,
  bound_receipt received_1 preimage cleanup.
Proof.
  destruct (accepted_receipt_is_bound receipt_1 (Some dispatch_1) received_1 received_run)
    as (p & c & _ & Hb). exists p, c. exact Hb.
Defined.

Lemma cleanup_proof_pins_execution_witness :
  get received_1 "execution_preimage" = get received_2 "execution_preimage" ∨
  collision (canonical_json (get received_1 "execution_preimage"))
            (canonical_json (get received_2 "execution_preimage")).
Proof.
  exact (cleanup_proof_pins_execution receipt_1 receipt_2 (Some dispatch_1) None
    received_1 received_2 received_run received_again same_cleanup floats_1 floats_2).
Defined.

(** ** A sealed receipt of the run *)

Definition sealing : res dict :=
  sign_verification_receipt host_1 preimage_1 cleanup_1 (JStr "2026-02-01T00:00:02Z") (Some dispatch_1).
Definition sealed_1 : dict := value ∅ sealing.
Definition authentic_1 : dict := value ∅ (verify_verification_receipt host_1 (JObj sealed_1) (Some dispatch_1)).
Lemma sealing_facts :
  is_ok sealing = true ∧ is_ok (verify_verification_receipt host_1 (JObj sealed_1) (Some dispatch_1)) = true.
Proof. vm_compute. split; reflexivity. Qed.
Lemma sealed_run :
  sign_verification_receipt host_1 preimage_1 cleanup_1 (JStr "2026-02-01T00:00:02Z") (Some dispatch_1) = Ok sealed_1.
Proof. exact (value_ok ∅ sealing (proj1 sealing_facts)). Qed.
Lemma authentic_run :
  verify_verification_receipt host_1 (JObj sealed_1) (Some dispatch_1) = Ok authentic_1.
Proof. exact (value_ok ∅ _ (proj2 sealing_facts)). Qed.
#[local] Opaque sealed_1 authentic_1.

Lemma sealed_receipts_verify_witness :
  verify_verification_receipt host_1 (JObj sealed_1) (Some dispatch_1) = Ok sealed_1.
Proof.
  exact (sealed_receipts_verify host_1 preimage_1 cleanup_1 (JStr "2026-02-01T00:00:02Z") (Some dispatch_1)
    sealed_1 sealed_run).
Defined.

Lemma verified_receipt_is_authentic_witness : ∃ preimage, doubly_signed authentic_1 preimage.
Proof.
  destruct (verified_receipt_is_authentic host_1 (JObj sealed_1) (Some dispatch_1) authentic_1 authentic_run)
    as (p & _ & _ & _ & _ & _ & _ & _ & _ & _ & _ & Hd).
  exists p. exact Hd.
Defined.

(** ** A chain of two signed events *)

Definition event (sequence : Z) (action previous : string) (payload : json) : dict := dict_of
  [("sequence", JInt sequence); ("ledger_id", JStr "demo"); ("timestamp", JStr "2026-02-01T00:00:00Z");
   ("actor", JStr "verifier"); ("action", JStr action); ("task_id", JStr "T-1"); ("payload", payload);
   ("previous_hash", JStr previous)].
Definition event_1 : dict := event 1 "task.submitted" LEDGER_V2_GENESIS_HASH (jobj []).
Definition digest_1 : string := event_digest event_1.
Definition event_2 : dict := event 2 "verification.requested" digest_1 (jobj (dispatch_fields digest_1)).
Definition digest_2 : string := event_digest event_2.
Definition link_1 : json := value JNull (sign_v2_event host_1 (JObj event_1)).
Definition link_2 : json := value JNull (sign_v2_event host_1 (JObj event_2)).
Definition report_1 : dict := value ∅ (verify_v2_chain host_1 [link_1]).
Definition report_2 : dict := value ∅ (verify_v2_chain host_1 [link_1; link_2]).
Definition dispatched_1 : dict :=
  value ∅ (verify_signed_dispatch host_1 [link_1; link_2] (JStr digest_2) 1100).

Lemma link_2_run : sign_v2_event host_1 (JObj event_2) = Ok link_2.
Proof. apply value_ok. vm_compute. reflexivity. Qed.
Lemma chain_1_run : verify_v2_chain host_1 [link_1] = Ok report_1.
Proof. apply value_ok. vm_compute. reflexivity. Qed.
Lemma chain_2_run : verify_v2_chain host_1 [link_1; link_2] = Ok report_2.
Proof. apply value_ok. vm_compute. reflexivity. Qed.
Lemma dispatch_run :
  verify_signed_dispatch host_1 [link_1; link_2] (JStr digest_2) 1100 = Ok dispatched_1.
Proof. apply value_ok. vm_compute. reflexivity. Qed.
Lemma head_1 : get report_1 "head" = JStr digest_1.
Proof. vm_compute. reflexivity. Qed.
Lemma ledger_1 : get report_1 "ledger_id" = JStr "demo".
Proof. vm_compute. reflexivity. Qed.
Lemma event_2_fields :
  get event_2 "sequence" = JInt 2 ∧ get event_2 "previous_hash" = JStr digest_1 ∧
  get event_2 "ledger_id" = JStr "demo" ∧ get event_2 "action" = JStr "verification.requested".
Proof. vm_compute. done. Qed.
Lemma floats_chain :
  Forall (λ e, floats_ok (JObj (event_of e)) = true) ([link_1; link_2] ++ [link_1; link_2]).
Proof. apply forallb_Forall. vm_compute. reflexivity. Qed.
#[local] Opaque event_1 event_2 digest_1 digest_2 link_1 link_2 report_1 report_2 dispatched_1.

Lemma verified_chain_is_linked_witness : ∃ digest,
  get report_2 "head" = JStr digest ∧ linked (event_of <$> [link_1; link_2]) digest.
Proof.
  destruct (verified_chain_is_linked host_1 [link_1; link_2] report_2 chain_2_run) as (d & Hh & Hl & _).
  exists d. split; assumption.
Defined.

Lemma chain_head_pins_history_witness :
  event_of <$> [link_1; link_2] = event_of <$> [link_1; link_2] ∨ ∃ a b, collision a b.
Proof.
  apply (chain_head_pins_history host_1 host_1 [link_1; link_2] [link_1; link_2] report_2 report_2
    chain_2_run chain_2_run); [discriminate|discriminate|reflexivity|exact floats_chain].
Defined.

Lemma signed_event_extends_chain_witness : ∃ report,
  verify_v2_chain host_1 ([link_1] ++ [link_2]) = Ok report ∧
  get report "head" = JStr (event_digest event_2).
Proof.
  destruct event_2_fields as (Hs & Hp & Hl & Ha).
  apply (signed_event_extends_chain host_1 [link_1] report_1 event_2 link_2 chain_1_run link_2_run).
  - reflexivity.
  - rewrite Hs. reflexivity.
  - rewrite Hp, head_1. reflexivity.
  - right. rewrite Hl, ledger_1. reflexivity.
  - rewrite Ha. discriminate.
Defined.


(** ** A result that cannot be looked up *)

(** The preimage of the run with a list as its result is not rejected with the
    protocol's own error. *)
Example unhashable_result_escapes :
  validate_execution_preimage (jobj (preimage_fields (JList []))) None = raise TypeError "unhashable type".
Proof. vm_compute. reflexivity. Qed.
