(* ===== verification/AttestationScenario.v ===== *)
(** * One attested execution

    A host with the executor's key, runtime manifest and runtime, and a receipt
    of one command with the attestation that was signed for it.  The theorems of
    [Attestation] are applied to them. *)

From S2P Require Import Attestation TrustScenario.

Definition runtime_files_2 : list (string * string) :=
  [(BROKER_OPENSSL_PATH, "openssl binary"); (BROKER_PUBLIC_KEY_PATH, "broker key");
   (EXECUTOR_ATTESTATION_PUBLIC_KEY_PATH, "executor key");
   (EXECUTOR_ATTESTATION_OPENSSL_SHA256_PATH, sha256_hex "openssl binary");
   (EXECUTOR_ENTRYPOINT_PATH, "#!/bin/sh"); (EXECUTOR_INTERPRETER_PATH, "python");
   (EXECUTOR_SERVICE_UNIT_PATH, "[Service]"); (EXECUTOR_PACKAGE_ROOT +:+ "/a.py", "pass")].

Definition host_with (files : list (string * string)) : host :=
  let content p := snd <$> find_first (λ f, bool_decide (f.1 = p)) files in {|
  posix := true;
  lstat p := match content p with
             | Some b => Some (Meta Regular 0 384 (Z.of_nat (String.length b)))
             | None => Some (Meta Directory 0 493 0)
             end;
  bytes_at := content;
  scandir p := if bool_decide (p = EXECUTOR_PACKAGE_ROOT) then Some ["a.py"] else None;
  runnable p := true;
  resolved p := p;
  interpreter := BROKER_PYTHON_PATH
|}.

Definition tree_2 : string :=
  match package_tree_sha256 (host_with runtime_files_2) EXECUTOR_PACKAGE_ROOT with
  | Some r => value "" r | None => "" end.

Definition manifest_2 : json := jobj
  [("schema_version", JInt 1); ("runtime_id", JStr "cogni-os-independent-verifier-runtime-v1");
   ("entrypoint_path", JStr EXECUTOR_ENTRYPOINT_PATH); ("entrypoint_sha256", JStr (sha256_hex "#!/bin/sh"));
   ("interpreter_path", JStr EXECUTOR_INTERPRETER_PATH); ("interpreter_sha256", JStr (sha256_hex "python"));
   ("package_root", JStr EXECUTOR_PACKAGE_ROOT); ("package_tree_sha256", JStr tree_2);
   ("service_unit_path", JStr EXECUTOR_SERVICE_UNIT_PATH); ("service_unit_sha256", JStr (sha256_hex "[Service]"));
   ("runtime_policy_sha256", JStr (value "" executor_runtime_policy_sha256))].

Definition host_2 : host :=
  host_with ((EXECUTOR_RUNTIME_MANIFEST_PATH, canonical_json manifest_2) :: runtime_files_2).

Definition runtime_2 : runtime_binding :=
  match trusted_executor_runtime_binding host_2 EXECUTOR_RUNTIME_MANIFEST_PATH with
  | Some r => value (RuntimeBinding "" "" "" "" "" "") r | None => RuntimeBinding "" "" "" "" "" "" end.

(** ** The run *)

Definition identity_2 : json := jobj
  [("schema_version", JInt 1); ("actor", JStr "verifier"); ("control_principal", JStr "team-b");
   ("model_family", JStr "family-b"); ("alias_chain", JList [])].

Definition command_2 : json := jobj
  [("index", JInt 0); ("executed_argv", JList [JStr "pytest"]); ("isolation_launch_argv", JList []);
   ("exit_code", JInt 0); ("timed_out", JBool false); ("output_truncated", JBool false);
   ("output_sha256", JStr hex64); ("output_size_bytes", JInt 12); ("executable_sha256_after", JStr hex64);
   ("command_policy", jobj [("executable_binding", jobj [("sha256", JStr hex64)])])].

Definition statement_2 (issued_at : Z) : json :=
  jobj [("payload", jobj [("issued_at", JInt issued_at)])].

Definition receipt_2 : dict := dict_of
  [("task_id", JStr "T-1"); ("attempt", JInt 1); ("actor", JStr "verifier"); ("run_id", JStr run_1);
   ("schema_version", JInt 1); ("runner", JStr "trusted-runner"); ("isolation_policy", JStr "policy");
   ("isolation_backend", jobj [("name", JStr "bubblewrap")]); ("sandbox_environment_sha256", JStr hex64);
   ("validation_contract_sha256", JStr hex64); ("receipt_preimage_sha256", JStr hex64);
   ("receipt_sha256", JStr hex64); ("validations", JList [command_2]);
   ("started_at", JStr "2026-02-01T00:00:00Z"); ("completed_at", JStr "2026-02-01T00:01:00Z");
   ("snapshot_protection", jobj
      [("acquire_attestation", statement_2 1769904001); ("acquire_attestation_sha256", JStr hex64);
       ("cleanup_attestation", statement_2 1769904065)])].

Definition payload_2 : dict := dict_of
  ([("schema_version", JInt 2); ("protocol_id", JStr EXECUTOR_ATTESTATION_PROTOCOL_ID);
    ("domain", JStr EXECUTOR_ATTESTATION_DOMAIN); ("kind", JStr "execution-verified");
    ("verifier_id", JStr EXECUTOR_VERIFIER_ID); ("attestation_nonce", JStr "nonce-3");
    ("issued_at", JInt 1769904070)] ++
   expected_bindings receipt_2 (dict_of [("acquire_attestation_sha256", JStr hex64)])
     (value "" (verifier_identity_sha256 identity_2))
     (value "" (canonical_json_sha256 (statement_2 1769904065)))
     (value "" (command_output_digest_sha256 receipt_2)) (value "" (runner_runtime_digest_sha256 receipt_2))
     runtime_2).

Definition envelope_2 : json := jobj
  [("schema_version", JInt 2); ("algorithm", JStr EXECUTOR_ATTESTATION_ALGORITHM);
   ("public_key_sha256", JStr (sha256_hex "executor key")); ("payload", JObj payload_2);
   ("signature_b64", JStr (b64 (signature_1 (canonical_json (JObj payload_2)))))].

Definition verification_2 : option (res dict) :=
  verify_executor_attestation host_2 envelope_2 receipt_2 identity_2.
Definition verified_2 : dict := match verification_2 with Some r => value ∅ r | None => ∅ end.

Lemma attestation_facts :
  match verification_2 with Some r => is_ok r | None => false end = true ∧
  floats_ok (JObj receipt_2) = true ∧ floats_ok identity_2 = true.
Proof. vm_compute. repeat split. Qed.

Lemma verification_run :
  verify_executor_attestation host_2 envelope_2 receipt_2 identity_2 = Some (Ok verified_2).
Proof.
  unfold verified_2. fold verification_2. pose proof (proj1 attestation_facts) as Hok.
  destruct verification_2 as [r|]; [|discriminate Hok]. f_equal. exact (value_ok ∅ r Hok).
Qed.

#[local] Opaque verified_2 envelope_2 host_2 receipt_2 identity_2.

Theorem attested_execution_is_bound_witness : payload_ok verified_2 = true.
Proof.
  destruct (attested_execution_is_bound host_2 envelope_2 receipt_2 identity_2 verified_2 verification_run)
    as (e & runtime & outputs & _ & _ & Hok & _).
  exact Hok.
Defined.

Theorem attestation_pins_execution_witness :
  (∃ cleanup outputs doc, committed receipt_2 cleanup outputs doc) ∨ ∃ x y, collision x y.
Proof.
  destruct attestation_facts as (_ & Hr & Hi).
  destruct (attestation_pins_execution host_2 host_2 envelope_2 receipt_2 receipt_2 identity_2 identity_2
              verified_2 verified_2 verification_run verification_run Hr Hr Hi Hi)
    as [(_ & _ & cleanup & outputs & doc & Hc & _)|Hx]; [left; by exists cleanup, outputs, doc|by right].
Defined.
