(* ===== verification/SnapshotBrokerScenario.v ===== *)
(** * A concrete daemon

    A host with the broker's runtime and keys, one caller with a sealed tree of
    one file, and histories in which every access succeeds or the process is
    killed in the middle of the copy.  The theorems of [SnapshotTree] and
    [SnapshotBrokerSafety] are applied to them. *)

From S2P Require Import TrustScenario SnapshotBrokerSafety SnapshotExchange.

Definition PACKAGE : string := BROKER_RUNTIME_ROOT +:+ "/cogni_os".

Definition broker_files : list (string * string) :=
  [(BROKER_OPENSSL_PATH, "openssl binary"); (BROKER_OPENSSL_SHA256_PATH, sha256_hex "openssl binary");
   (BROKER_PUBLIC_KEY_PATH, "broker key"); (BROKER_PRIVATE_KEY_PATH, "broker secret");
   (BROKER_PYTHON_PATH, "python"); (PACKAGE +:+ "/a.py", "pass")].

Definition broker_host (files : list (string * string)) : host :=
  let content p := snd <$> find_first (λ f, bool_decide (f.1 = p)) files in {|
  posix := true;
  lstat p := match content p with
             | Some b => Some (Meta Regular 0 384 (Z.of_nat (String.length b)))
             | None => Some (Meta Directory 0 493 0)
             end;
  bytes_at := content;
  scandir p := if bool_decide (p = PACKAGE) then Some ["a.py"] else None;
  runnable p := true;
  resolved p := p;
  interpreter := BROKER_PYTHON_PATH
|}.

Definition broker_manifest : json := jobj
  [("schema_version", JInt 1); ("runtime_id", JStr "cogni-os-snapshot-broker-runtime-v1");
   ("python_path", JStr BROKER_PYTHON_PATH); ("python_sha256", JStr (sha256_hex "python"));
   ("package_root", JStr PACKAGE);
   ("package_tree_sha256", JStr match package_tree_sha256 (broker_host broker_files) PACKAGE with
                                | Some r => value "" r | None => "" end);
   ("wheel_sha256", JStr hex64); ("entry_module", JStr "cogni_os.snapshot_broker")].

Definition host_3 : host := broker_host ((BROKER_RUNTIME_MANIFEST_PATH, canonical_json broker_manifest) :: broker_files).

(** The process is killed at the accesses [kills], having done part of them. *)
Definition env_3 (step : Z) (kills : list nat) : environment := {|
  clock n := 1000 + step * Z.of_nat n;
  io n := if bool_decide (n ∈ kills) then Fault killed (Partial 1) else Fine;
  token_hex n := string_of_Z (Z.of_nat n);
  new_directory n := (1, Z.of_nat n);
  on_host := host_3;
  getpwuid uid := Some "worker";
  broker_group := Some (990, ["worker"]);
  nfc_casefold := id
|}.

Lemma tokens_3 step kills : tokens_differ (env_3 step kills).
Proof.
  intros m n E. apply (f_equal py_int) in E. cbn [token_hex env_3] in E.
  rewrite !py_int_of_Z in E by lia. injection E. lia.
Qed.

(** ** The tree and the requests *)

Definition tree_stat (kind : file_kind) (mode size ino : Z) : source_stat :=
  SourceStat 5 ino 1000 1000 kind mode size 0 0.
Definition tree_3 (text : string) : source :=
  let root := tree_stat Directory S_0555 0 1 in
  let file := tree_stat Regular S_0444 (Z.of_nat (String.length text)) 2 in
  SourceDirectory (Some root) root (Some ["a.py"]) (λ _, Some file)
    (λ _, SourceFile (Some file) (Some text) file) (Some ["a.py"]) root.
Definition descriptor_3 : descriptor :=
  let root := tree_stat Directory S_0555 0 1 in Descriptor true false false root (tree_3 "pass") root.

Definition copied_3 (commit : string) : res dict * bool :=
  _copy_sealed_source_descriptor id descriptor_3 1000 (JStr commit) (JStr (zeros 40)).

Definition binding_fields : list (string * json) :=
  [("task_id", JStr "T-1"); ("attempt", JInt 1); ("actor", JStr "verifier"); ("run_id", JStr run_1);
   ("validation_contract_sha256", JStr hex64)].

Definition acquire_3 : dict := dict_of
  ([("schema_version", JInt 1); ("protocol_id", JStr BROKER_PROTOCOL_ID); ("operation", JStr "acquire");
    ("request_id", JStr "request-1"); ("nonce", JStr "nonce-1"); ("issued_at", JInt 1000);
    ("expires_at", JInt 1100); ("source_descriptor_type", JStr BROKER_SOURCE_DESCRIPTOR_TYPE);
    ("source_commit", JStr (zeros 40)); ("tree_oid", JStr (zeros 40));
    ("materialization_policy", JStr SNAPSHOT_MATERIALIZATION_POLICY_ID);
    ("expected_snapshot_sha256", get (value ∅ (copied_3 (zeros 40)).1 : dict) "sha256")] ++ binding_fields).

Definition start_world (e : environment) : daemon := (start e first_start).2.
Definition acquired (e : environment) (w : daemon) : res (string * json) * daemon :=
  _acquire e acquire_3 42 1000 990 descriptor_3 w.

(** The caller takes the digest of the acquisition from the response; here it is
    read from the lease. *)
Definition release_3 (w : daemon) : dict := dict_of
  ([("schema_version", JInt 1); ("protocol_id", JStr BROKER_PROTOCOL_ID); ("operation", JStr "release");
    ("request_id", JStr "request-2"); ("nonce", JStr "nonce-2"); ("issued_at", JInt 1000);
    ("expires_at", JInt 1100); ("lease_id", JStr match _leases w with (k, _) :: _ => k | [] => "" end);
    ("acquire_attestation_sha256", match _leases w with (_, l) :: _ => acquire_attestation_sha256 l | [] => JNull end);
    ("receipt_preimage_sha256", JStr hex64)] ++ binding_fields).

Definition released (e : environment) (w : daemon) : res json * daemon := _release e (release_3 w) 42 1000 990 w.

(** ** The theorems *)

Definition manifest_3 (commit : string) : dict := value ∅ (copied_3 commit).1.
Definition other_commit : string := String "1" (zeros 39).
Lemma copies_3 :
  is_ok (copied_3 (zeros 40)).1 = true ∧ (copied_3 (zeros 40)).2 = true ∧
  is_ok (copied_3 other_commit).1 = true ∧ (copied_3 other_commit).2 = true.
Proof. vm_compute. repeat split. Qed.
Lemma pair_run {A B} (d : A) (x : res A * B) : is_ok x.1 = true → x = (Ok (value d x.1), x.2).
Proof. by destruct x as [[a|e] b]. Qed.
Lemma copied_run commit :
  is_ok (copied_3 commit).1 = true → (copied_3 commit).2 = true →
  _copy_sealed_source_descriptor id descriptor_3 1000 (JStr commit) (JStr (zeros 40)) = (Ok (manifest_3 commit), true).
Proof.
  unfold manifest_3. fold (copied_3 commit). destruct (copied_3 commit) as [r b]. cbn [fst snd].
  intros Hr Hb. by rewrite (value_ok ∅ r Hr) at 1; rewrite Hb.
Qed.
Lemma same_digest_3 : get (manifest_3 (zeros 40)) "sha256" = get (manifest_3 other_commit) "sha256".
Proof. vm_compute. reflexivity. Qed.
#[local] Opaque manifest_3.


(** Every access is fifty seconds after the one before. *)
Definition slow : environment := env_3 50 [].
Definition once_3 : res unit * daemon := consume slow 1000 "nonce-1" 1100 first_start.
Definition twice_3 : res unit * daemon := consume slow 1000 "nonce-1" 1100 once_3.2.
Lemma consumed_3 : is_ok once_3.1 = true ∧ is_ok twice_3.1 = true.
Proof. vm_compute. split; reflexivity. Qed.
Lemma unit_run (r : res unit * daemon) : is_ok r.1 = true → r = (Ok tt, r.2).
Proof. by destruct r as [[[]|] w]. Qed.
Lemma once_run : consume slow 1000 "nonce-1" 1100 first_start = (Ok tt, once_3.2).
Proof. fold once_3. apply unit_run. exact (proj1 consumed_3). Qed.
Lemma twice_run : consume slow 1000 "nonce-1" 1100 once_3.2 = (Ok tt, twice_3.2).
Proof. fold twice_3. apply unit_run. exact (proj2 consumed_3). Qed.
#[local] Opaque once_3 twice_3.

Lemma nonce_accepted_once_witness : ∃ n, 1105 < clock slow n.
Proof.
  destruct (nonce_accepted_once slow 1000 "nonce-1" 1100 1100 first_start once_3.2 [] once_3.2 twice_3.2) as (n & _ & Hn).
  - lia.
  - exact once_run.
  - constructor.
  - exact twice_run.
  - exists n. exact Hn.
Defined.

(** A start, an acquisition, its release, and a start. *)
Definition calm : environment := env_3 0 [].
Definition leased_3 : daemon := (perform calm (Acquire acquire_3 42 1000 990 descriptor_3) (start_world calm)).2.
Definition response_3 : json := value JNull (released calm leased_3).1.
Lemma released_ok : is_ok (released calm leased_3).1 = true ∧ str_of (get (release_3 leased_3) "lease_id") = "lease-2".
Proof. vm_compute. split; reflexivity. Qed.
Lemma released_run : _release calm (release_3 leased_3) 42 1000 990 leased_3 = (Ok response_3, (released calm leased_3).2).
Proof.
  unfold response_3. fold (released calm leased_3). apply pair_run. exact (proj1 released_ok).
Qed.
Lemma history_3 e call w : w = (perform e call (start_world e)).2 → history e first_start ([] ++ [Start] ++ [call]) w.
Proof. intros ->. rewrite app_assoc. constructor. apply (history_snoc e first_start [] first_start Start). constructor. Qed.
#[local] Opaque leased_3 response_3.

Lemma released_lease_stays_away_witness :
  store_root (start calm (released calm leased_3).2).2 !! "lease-2" = None.
Proof.
  destruct (released_lease_stays_away calm (release_3 leased_3) 42 1000 990 _ leased_3 response_3 _
    ([] ++ [Start]) (perform calm Start (released calm leased_3).2).2 (tokens_3 0 [])
    (history_3 calm _ _ eq_refl) released_run) as (lease & i & Hi & _ & _ & _ & _ & Hs).
  - constructor. constructor.
  - rewrite (proj2 released_ok) in Hi. rewrite <- Hi. exact Hs.
Defined.

(** The same release again, after another connection was turned away. *)
Definition later_3 : daemon := (perform calm (Evict 1000) (released calm leased_3).2).2.
Lemma release_retry_is_answered_witness :
  (_cached_cleanup_response calm (release_3 leased_3) 1000 990 later_3).1 = Ok (Some response_3).
Proof.
  apply (release_retry_is_answered calm (release_3 leased_3) 42 1000 990 leased_3 response_3 _ ([] ++ [Evict 1000]) later_3
    released_run).
  - constructor. constructor.
  - repeat constructor.
  - intros n _. vm_compute. discriminate.
Defined.

(** An acquisition that is killed in the middle of its copy, and a start. *)
Definition killing : environment := env_3 0 [3%nat].
Definition torn_3 : daemon := (perform killing (Acquire acquire_3 42 1000 990 descriptor_3) (start_world killing)).2.
Lemma torn_directory : store_root torn_3 !! "lease-2" = Some (Namespace Directory 0 S_0700 1 3).
Proof. vm_compute. reflexivity. Qed.
#[local] Opaque torn_3.

Lemma unsealed_directory_blocks_start_witness : is_ok (start killing (start killing torn_3).2).1 = false.
Proof.
  destruct (unsealed_directory_blocks_start killing _ torn_3 "lease-2" _ ([] ++ [Start]) (perform killing Start torn_3).2
    (tokens_3 0 [3%nat]) (history_3 killing _ _ eq_refl) torn_directory) as [_ Hs].
  - by compute.
  - constructor. constructor.
  - exact Hs.
Defined.

(** The client of the same host asks for the lease. *)
Definition client_3 : client_environment := {|
  time n := 1000; token n := string_of_Z (Z.of_nat n); geteuid := 1000; client_host := host_3;
  broker_gid := Some 990; socket_at := Some (SocketStat true 0 990 S_0660);
  source_at p := Some descriptor_3; peer_of := Some (Some (1, 0, 0)); answer r := None
|}.
Definition arguments_3 : acquisition :=
  Acquisition (JStr (zeros 40)) (JStr (zeros 40)) (Execution (JStr "T-1") (JInt 1) (JStr "verifier") (JStr run_1) (JStr hex64))
    (get (manifest_3 (zeros 40)) "sha256") (JStr SNAPSHOT_MATERIALIZATION_POLICY_ID).
Definition request_3 : dict := request_document 1000 "request-1" "nonce-1" "acquire" (acquire_bindings arguments_3).
Definition granted_3 : res (string * json) * daemon := _acquire calm request_3 42 1000 990 descriptor_3 (start_world calm).
Definition grant_3 : string * json := value ("", JNull) granted_3.1.
Definition runtime_3 : string := default "" (_runtime_binding (start_world calm)).

Lemma grant_facts :
  is_ok (validate_request (JObj request_3) 1000) = true ∧ _runtime_binding (start_world calm) = Some runtime_3 ∧
  is_ok granted_3.1 = true.
Proof. vm_compute. repeat split. Qed.
Lemma granted_run : _acquire calm request_3 42 1000 990 descriptor_3 (start_world calm) = (Ok grant_3, granted_3.2).
Proof. fold granted_3. apply pair_run. exact (proj2 (proj2 grant_facts)). Qed.
Lemma request_valid : validate_request (JObj request_3) 1000 = Ok "acquire".
Proof. vm_compute. reflexivity. Qed.
#[local] Opaque grant_3 granted_3 runtime_3 start_world.

Lemma granted_lease_is_accepted_witness : ∃ l lease,
  lookup_key grant_3.1 (_leases granted_3.2) = Some l ∧ l_lease_id lease = JStr grant_3.1.
Proof.
  destruct (granted_lease_is_accepted calm client_3 arguments_3 1000 "request-1" "nonce-1" 1000 42 1000 990 descriptor_3
    (start_world calm) grant_3.1 grant_3.2 granted_3.2 runtime_3) as (rd & ns & l & lease & _ & _ & Hl & _ & Hid & _ & _).
  - intros message signature. apply pair_1.
  - reflexivity.
  - exact request_valid.
  - exact (proj1 (proj2 grant_facts)).
  - rewrite <- surjective_pairing. exact granted_run.
  - exists l, lease. split; [exact Hl|exact Hid].
Defined.
