(* ===== verification/StoreScenario.v ===== *)
(** * A concrete store

    Two appends to an empty store on the host of [TrustScenario], an append cut
    short after its PREPARE, one whose PREPARE is torn, and a signed checkpoint.
    The theorems on the store are applied to them. *)

From S2P Require Import TestDigest SnapshotProtocol StoreAudit TrustScenario.

Definition env_1 : store_environment := StoreEnvironment (λ _, Fine) host_1 true false false.
(** The accesses from the [n]th on fail after leaving [left]. *)
Definition failing (n : nat) (left : trace) : store_environment :=
  StoreEnvironment (λ k, if (k <? n)%nat then Fine else Fault (Exn OSError "power lost") left)
    host_1 true false false.

Definition empty_store : store := Store (Some "") (Some "") ∅ 0.
Definition tx_1 : string := "tx-1".
Definition first_append : res DurableV2Append * store :=
  append env_1 link_1 tx_1 LEDGER_V2_GENESIS_HASH 1 empty_store.
Definition store_1 : store := first_append.2.
Definition second_append : res DurableV2Append * store := append env_1 link_2 "tx-2" digest_1 2 store_1.
Definition store_2 : store := second_append.2.
Definition log_of (s : store) : string := default "" (s_log s).
Definition journal_text (s : store) : string := default "" (s_jnl s).

(** The store whose process died while it wrote the first PREPARE. *)
Definition torn_store : store := (append (failing 4 (Partial 40)) link_1 tx_1 LEDGER_V2_GENESIS_HASH 1 empty_store).2.
Definition checkpoint_run : res dict * store := sign_checkpoint env_1 (JStr "2026-02-01T00:00:05Z") store_2.

(** What has been read of the empty store and of the store after both appends. *)
Definition no_snapshot : VerifiedV2StoreSnapshot := StoreSnapshot [] 0 JNull JNull "" 0 0 JNull "" 0.
Definition no_journal : _JournalSnapshot := JournalSnapshot [] ∅ 0 JNull "" 0.
Definition log_0 : VerifiedV2StoreSnapshot := value no_snapshot (read_ledger host_1 "").
Definition journal_0 : _JournalSnapshot := value no_journal (read_journal "").
Definition no_append : DurableV2Append := Appended "" JNull no_snapshot.
Definition answer_1 : DurableV2Append := value no_append first_append.1.
Definition checkpoint_1 : dict := value ∅ checkpoint_run.1.
Definition seen_1 : VerifiedV2StoreSnapshot := value no_snapshot (read_verified env_1 store_1).1.
Definition seen_2 : VerifiedV2StoreSnapshot := value no_snapshot (read_verified env_1 store_2).1.
Definition pinned_2 : VerifiedV2StoreSnapshot :=
  value no_snapshot (verify_pinned_checkpoint env_1 (JObj checkpoint_1) store_2).1.

Definition is_Some_b {A} (o : option A) : bool := match o with Some _ => true | None => false end.
Definition terminated_b (s : string) : bool := ends_with (String LF "") s.

Lemma scenario_facts :
  is_ok (read_ledger host_1 "") = true ∧ is_ok (read_journal "") = true ∧
  _validate_combined log_0 journal_0 true = Ok tt ∧
  is_ok first_append.1 = true ∧ is_ok (read_verified env_1 store_1).1 = true ∧
  is_ok (read_verified env_1 store_2).1 = true ∧ is_ok checkpoint_run.1 = true ∧
  is_ok (verify_pinned_checkpoint env_1 (JObj checkpoint_1) store_2).1 = true ∧
  floats_ok link_1 = true ∧
  (terminated_b (journal_text torn_store) = false ∧ bool_decide (journal_text torn_store = "") = false ∧
   s_log torn_store = Some "" ∧ is_Some_b (s_jnl torn_store) = true) ∧
  s_indeterminate store_2 = ∅ ∧ is_Some_b (s_log store_2) = true ∧ is_Some_b (s_jnl store_2) = true.
Proof. vm_compute. repeat split. Qed.

(** A run that returned, without its value being compared. *)
Lemma returned_value {A} (d : A) (m : res A * store) : is_ok m.1 = true → m = (Ok (value d m.1), m.2).
Proof. destruct m as [[a|e] s]; [done|by intros [=]]. Qed.

Lemma first_run : append env_1 link_1 tx_1 LEDGER_V2_GENESIS_HASH 1 empty_store = (Ok answer_1, store_1).
Proof. destruct scenario_facts as (_ & _ & _ & E & _). exact (returned_value no_append first_append E). Qed.
Lemma log_0_run : read_ledger host_1 "" = Ok log_0.
Proof. destruct scenario_facts as (E & _). exact (value_ok no_snapshot _ E). Qed.
Lemma journal_0_run : read_journal "" = Ok journal_0.
Proof. destruct scenario_facts as (_ & E & _). exact (value_ok no_journal _ E). Qed.
Lemma seen_1_run : read_verified env_1 store_1 = (Ok seen_1, (read_verified env_1 store_1).2).
Proof. destruct scenario_facts as (_ & _ & _ & _ & E & _). exact (returned_value no_snapshot _ E). Qed.
Lemma seen_2_run : read_verified env_1 store_2 = (Ok seen_2, (read_verified env_1 store_2).2).
Proof. destruct scenario_facts as (_ & _ & _ & _ & _ & E & _). exact (returned_value no_snapshot _ E). Qed.
Lemma checkpoint_ok : sign_checkpoint env_1 (JStr "2026-02-01T00:00:05Z") store_2 = (Ok checkpoint_1, checkpoint_run.2).
Proof. destruct scenario_facts as (_ & _ & _ & _ & _ & _ & E & _). exact (returned_value ∅ checkpoint_run E). Qed.
Lemma pinned_ok : verify_pinned_checkpoint env_1 (JObj checkpoint_1) store_2
  = (Ok pinned_2, (verify_pinned_checkpoint env_1 (JObj checkpoint_1) store_2).2).
Proof. destruct scenario_facts as (_ & _ & _ & _ & _ & _ & _ & E & _). exact (returned_value no_snapshot _ E). Qed.
Lemma link_floats : floats_ok link_1 = true.
Proof. by destruct scenario_facts as (_ & _ & _ & _ & _ & _ & _ & _ & E & _). Qed.
Lemma torn_facts :
  (terminated_b (journal_text torn_store) = false ∧ bool_decide (journal_text torn_store = "") = false ∧
   s_log torn_store = Some "" ∧ is_Some_b (s_jnl torn_store) = true) ∧
  s_indeterminate store_2 = ∅ ∧ is_Some_b (s_log store_2) = true ∧ is_Some_b (s_jnl store_2) = true.
Proof. by destruct scenario_facts as (_ & _ & _ & _ & _ & _ & _ & _ & _ & E). Qed.

Lemma is_Some_default (o : option string) : is_Some_b o = true → o = Some (default "" o).
Proof. by destruct o. Qed.

#[local] Opaque first_append second_append store_1 store_2 torn_store log_0 journal_0 answer_1 seen_1 seen_2
  checkpoint_run checkpoint_1 pinned_2 link_1 link_2 digest_1.

(** The second append, after the first. *)
Lemma history_2 : store_history store_1 store_2.
Proof.
  change store_2 with (called env_1 (Append link_2 "tx-2" digest_1 2) store_1). constructor. constructor.
Qed.

Lemma verified_history_is_append_only_witness : ∃ more, envelopes seen_2 = envelopes seen_1 ++ more.
Proof.
  exact (verified_history_is_append_only store_1 store_2 env_1 env_1 seen_1 seen_2 _ _ seen_1_run history_2 seen_2_run).
Defined.

Lemma clean_store_is_accounted_witness : ∃ closed, accounted (envelopes seen_2) closed.
Proof.
  destruct (clean_store_is_accounted env_1 store_2 seen_2 _ seen_2_run) as (c & j & closed & _ & _ & _ & Ha & _).
  exists closed. exact Ha.
Defined.

Lemma empty_represents : represents host_1 empty_store
  (AbstractLog (envelopes log_0) (head_hash log_0) (known_of (transactions journal_0))).
Proof.
  apply (represented host_1 "" "" empty_store log_0 journal_0); [done|exact log_0_run|exact journal_0_run|].
  by destruct scenario_facts as (_ & _ & E & _).
Qed.

Lemma append_refines_log_witness : ∃ d a', link_1 = JObj d ∧
  spec_append (AbstractLog (envelopes log_0) (head_hash log_0) (known_of (transactions journal_0)))
    tx_1 d LEDGER_V2_GENESIS_HASH 1 (a_envelope answer_1) a' ∧ represents host_1 store_1 a'.
Proof.
  destruct (append_refines_log env_1 empty_store _ link_1 tx_1 LEDGER_V2_GENESIS_HASH 1 answer_1 store_1
    link_floats empty_represents first_run) as (d & a' & E & Hsp & Hrep & _). exists d, a'. exact (conj E (conj Hsp Hrep)).
Defined.

(** The process dies once the PREPARE is written. *)
Lemma interrupted_append_resumes_witness : ∃ s2,
  s_log s2 = s_log store_1 ∧ s_jnl s2 = s_jnl store_1.
Proof.
  destruct (interrupted_append_resumes host_1 _ link_1 tx_1 LEDGER_V2_GENESIS_HASH 1 env_1 (failing 5 Nothing) env_1
    empty_store answer_1 store_1 _ eq_refl eq_refl eq_refl
    (λ n, match (n <? 5)%nat as b return match (if b then Fine else Fault (Exn OSError "power lost") Nothing) with
            | Fault _ (Partial _) => False | _ => True end with true => I | false => I end)
    (λ n, eq_refl) link_floats empty_represents first_run eq_refl) as (s2 & HL & HJ & _).
  exists s2. split; [exact HL|exact HJ].
Defined.

Lemma torn_unreadable : unreadable torn_store.
Proof.
  destruct torn_facts as [(E1 & E2 & E3 & E4) _]. exists "", (journal_text torn_store). split; [exact E3|].
  split; [exact (is_Some_default _ E4)|]. right. split; [by apply bool_decide_eq_false in E2|exact E1].
Qed.

Lemma torn_store_is_stuck_witness : ∃ e, answer env_1 (Reconcile tx_1) (called env_1 Restart torn_store) = Err e.
Proof.
  destruct (torn_store_is_stuck torn_store (called env_1 Restart torn_store) torn_unreadable
    (store_history_call _ _ env_1 Restart (store_history_nil _))) as (_ & _ & Hc).
  apply Hc. discriminate.
Defined.

Lemma store_2_holds : holds (log_of store_2) (journal_text store_2) ∅ store_2.
Proof.
  destruct torn_facts as [_ (E1 & E2 & E3)].
  split; [exact (is_Some_default _ E2)|exact (is_Some_default _ E3)|exact E1].
Qed.

Lemma signed_checkpoints_verify_witness : ∃ v s3,
  verify_pinned_checkpoint env_1 (JObj checkpoint_1) store_2 = (Ok v, s3).
Proof.
  destruct (signed_checkpoints_verify env_1 env_1 (JStr "2026-02-01T00:00:05Z") store_2 checkpoint_1 _
    (log_of store_2) (journal_text store_2) store_2 eq_refl (λ n, eq_refl) (h_log _ _ _ _ store_2_holds)
    (h_jnl _ _ _ _ store_2_holds) checkpoint_ok store_2_holds) as (v & s3 & E & _).
  exists v, s3. exact E.
Defined.

Lemma checkpoint_pins_files_witness :
  log_of store_2 = log_of store_2 ∨ collision (log_of store_2) (log_of store_2).
Proof.
  exact (proj1 (checkpoint_pins_files env_1 env_1 (JObj checkpoint_1) _ _ _ _ _ _ store_2 store_2 pinned_2 pinned_2 _ _
    store_2_holds store_2_holds pinned_ok pinned_ok)).
Defined.
