(* ===== verification/Ledger.v ===== *)
(** * The signed event ledger ([ledger.py])

    The ledger file is its text and the signing key file its bytes, either of
    which may be absent.  [append] is one transaction: every failure it can
    have precedes the write.  The file lock is not part of the state; a call
    here is a call that holds it. *)

From S2P Require Export JsonFacts Hashing PyTime.

Record ledger := Ledger { ledger_text : option string; ledger_key : option string }.

(** ** Operations *)

Definition GENESIS_HASH : string :=
  "0000000000000000000000000000000000000000000000000000000000000000".

(** [initialize], with the bytes [os.urandom(32)] returns. *)
Definition initialize (urandom : string) (l : ledger) : ledger :=
  Ledger (Some (default "" (ledger_text l))) (Some (default urandom (ledger_key l))).

Definition _key (l : ledger) : res string :=
  res_of_option (Exn IntegrityError "Ledger signing key is missing") (ledger_key l).

Definition read_line (line : string) : res dict :=
  v ← catch (json_loads line) JSONDecodeError
        (λ _, raise IntegrityError "Malformed ledger JSON");
  match v with
  | JObj event => Ok event
  | _ => raise IntegrityError "Ledger line is not an object"
  end.

(** Blank lines are skipped. *)
Definition nonblank (line : string) : bool := negb (bool_decide (strip line = "")).

Definition read (l : ledger) : res (list dict) :=
  match ledger_text l with
  | None => Ok []
  | Some text => res_mapM read_line (List.filter nonblank (splitlines text))
  end.

Definition core_fields : list string :=
  ["sequence"; "timestamp"; "actor"; "action"; "task_id"; "payload"; "previous_hash"].

Definition event_core (event : dict) : dict :=
  dict_of ((λ k, (k, get event k)) <$> core_fields).

Section ledger.
Context `{Hashing}.

Definition core_hash (core : dict) : string := sha256_hex (canonical_json (JObj core)).

(** One iteration of the loop of [_verify_events]: the event's hash. *)
Definition verify_event (key previous_hash : string) (sequence : Z) (event : dict)
  : res string :=
  _ ← raise_if (py_neq (get event "sequence") (JInt sequence))
        IntegrityError "Ledger sequence mismatch";
  _ ← raise_if (py_neq (get event "previous_hash") (JStr previous_hash))
        IntegrityError "Ledger chain mismatch";
  let calculated_hash := core_hash (event_core event) in
  same_hash ← compare_digest calculated_hash (str_of (get_or event "event_hash" (JStr "")));
  _ ← raise_if (negb same_hash) IntegrityError "Ledger event hash mismatch";
  let calculated_signature := hmac_hex key calculated_hash in
  same_sig ← compare_digest calculated_signature (str_of (get_or event "signature" (JStr "")));
  _ ← raise_if (negb same_sig) IntegrityError "Ledger signature mismatch";
  Ok calculated_hash.

Fixpoint verify_from (key previous_hash : string) (sequence : Z) (events : list dict)
  : res string :=
  match events with
  | [] => Ok previous_hash
  | event :: events =>
      h ← verify_event key previous_hash sequence event;
      verify_from key h (sequence + 1) events
  end.

Definition _verify_events (l : ledger) (events : list dict) : res dict :=
  key ← _key l;
  head ← verify_from key GENESIS_HASH 1 events;
  Ok (dict_of [("valid", JBool true); ("events", JInt (Z.of_nat (length events)));
               ("head", JStr head); ("signed", JBool true)]).

Definition verify (l : ledger) : res dict :=
  events ← read l; _verify_events l events.

Definition read_verified (l : ledger) : res (list dict) :=
  events ← read l; _ ← _verify_events l events; Ok events.

Definition previous_hash_of (events : list dict) : res json :=
  match last events with
  | None => Ok (JStr GENESIS_HASH)
  | Some e => item e "event_hash"
  end.

(** The event [append] builds after [events]. *)
Definition make_event (now key : string) (events : list dict) (previous_hash : json)
    (actor action : string) (task_id : json) (payload : dict) : dict :=
  let core := dict_of
    [("sequence", JInt (Z.of_nat (length events) + 1)); ("timestamp", JStr now);
     ("actor", JStr actor); ("action", JStr action); ("task_id", task_id);
     ("payload", JObj payload); ("previous_hash", previous_hash)] in
  let event_hash := core_hash core in
  merge_dict core (dict_of
    [("event_hash", JStr event_hash); ("signature", JStr (hmac_hex key event_hash))]).

Definition event_line (event : dict) : string := dumps spaced (JObj event) +:+ newline.

Definition append (now : string) (l : ledger) (actor action : string) (task_id : json)
    (payload : dict) : res (dict * ledger) :=
  events ← read l;
  _ ← _verify_events l events;
  previous_hash ← previous_hash_of events;
  key ← _key l;
  let event := make_event now key events previous_hash actor action task_id payload in
  Ok (event, Ledger (Some (default "" (ledger_text l) +:+ event_line event)) (ledger_key l)).
End ledger.

(** ** Projections

    A Python [dict] whose keys are what [event.get("task_id")] gives: an
    association list compared with [==]; a list or a dict cannot be a key. *)

Definition projections := list (json * dict).

Definition hashable (k : json) : bool := negb (is_list k || is_dict k).

Fixpoint set_key (k : json) (v : dict) (p : projections) : projections :=
  match p with
  | [] => [(k, v)]
  | (k', v') :: p => if py_eq k' k then (k', v) :: p else (k', v') :: set_key k v p
  end.

Fixpoint lookup_key (p : projections) (k : json) : option dict :=
  match p with
  | [] => None
  | (k', v) :: p => if py_eq k' k then Some v else lookup_key p k
  end.

Definition project_event (tasks : projections) (event : dict) : res projections :=
  snapshot ← jget (get_or event "payload" (JObj ∅)) "task";
  let task_id := get event "task_id" in
  match snapshot with
  | JObj t =>
      if negb (truthy task_id) then Ok tasks
      else if hashable task_id then Ok (set_key task_id t tasks)
      else raise TypeError "unhashable type"
  | _ => Ok tasks
  end.

Definition project_events (events : list dict) : res projections :=
  res_foldl project_event [] events.

Definition projected_tasks (l : ledger) : res projections :=
  events ← read l; project_events events.

(** ** Lines of the file *)

(** No byte sequence of [s] ends a line. *)
Fixpoint no_break (s : string) : bool :=
  match s with
  | EmptyString => true
  | String c r =>
      negb (break1 c) &&
      match r with
      | String d r2 => negb (break2 c d) &&
          match r2 with String e _ => negb (break3 c d e) | EmptyString => true end
      | EmptyString => true
      end && no_break r
  end.

Lemma split_lines_first_line s t a l :
  no_break s = true → split_lines_first t = (a, l) →
  split_lines_first (s +:+ newline +:+ t) = (s, a :: l).
Proof.
  intros Hs Ht. unfold newline. rewrite (str_app_cons "010"), str_app_nil_l.
  assert (Hn : split_lines_first (String "010" t) = ("", a :: l)).
  { cbn [split_lines_first]. destruct t as [|d [|e r]]; rewrite ?Ht; done. }
  induction s as [|c r IH]; [done|]. rewrite str_app_cons. cbn [no_break] in Hs.
  bool_split. specialize (IH ltac:(assumption)).
  cbn [split_lines_first]. destruct r as [|d r2].
  - rewrite str_app_nil_l in *. unfold break2, break3.
    assert (break1 c = false) as -> by done.
    assert ((code c =? 13)%N = false) as ->.
    { destruct (code c =? 13)%N eqn:E; [|done]. unfold break1, in_range in *.
      apply N.eqb_eq in E. by rewrite E in *. }
    cbn [andb orb]. change (code "010" =? 133)%N with false. change (code "010" =? 128)%N with false.
    rewrite !andb_false_r. cbn [orb andb]. rewrite IH. by destruct t.
  - bool_split. rewrite str_app_cons in *.
    assert (break2 c d = false) as -> by done. assert (break1 c = false) as -> by done.
    destruct r2 as [|e r3].
    + rewrite str_app_nil_l in *.
      assert (break3 c d "010" = false) as -> by (apply andb_false_r).
      by rewrite IH.
    + bool_split. rewrite str_app_cons in *. assert (break3 c d e = false) as -> by done. by rewrite IH.
Qed.

Lemma splitlines_lines (lines : list string) :
  Forall (λ s, no_break s = true) lines →
  splitlines (foldr (λ s t, s +:+ newline +:+ t) "" lines) = lines.
Proof.
  intros H. unfold splitlines.
  assert (∃ a l, split_lines_first (foldr (λ s t, s +:+ newline +:+ t) "" lines) = (a, l) ∧
    drop_last_empty a l = lines) as (a & l & -> & ?); [|done].
  induction H as [|s lines Hs H (a & l & E & IH)]; cbn [foldr].
  - eexists _, _. split; [reflexivity|done].
  - eexists _, _. split; [by apply split_lines_first_line|]. cbn. by rewrite IH.
Qed.

(** An object is printed between braces, so it is not blank and [strip] leaves
    it alone. *)
Lemma dumps_braces st (m : dict) : ∃ s, dumps st (JObj m) = String "{" (s +:+ "}").
Proof.
  destruct (dumps_obj st 0 m) as (l & _ & E). unfold dumps. rewrite E.
  destruct l as [|p l]; [by exists ""|]. unfold print_seq.
  eexists. rewrite (str_app_cons "{"), str_app_nil_l. rewrite !str_app_assoc. reflexivity.
Qed.

Lemma rstrip_brace a : rstrip (a +:+ "}") = a +:+ "}".
Proof.
  unfold rstrip. rewrite str_rev_snoc. set (r := str_rev a).
  assert (∀ x, space2 x "}" = false) as H2 by (intros; apply andb_false_r).
  assert (∀ x y, space3 x y "}" = false) as H3.
  { intros. unfold space3. change (code "}") with 125%N. cbn. by rewrite !andb_false_r. }
  assert (strip_front space1 (λ d c, space2 c d) (λ e d c, space3 c d e) (String "}" r)
          = String "}" r) as ->.
  { cbn [strip_front]. change (space1 "}") with false. cbn. destruct r as [|d r2]; [done|].
    rewrite H2. destruct r2; [done|]. by rewrite H3. }
  subst r. rewrite <- str_rev_snoc. apply str_rev_involutive.
Qed.

Lemma nonblank_dumps st (m : dict) : nonblank (dumps st (JObj m)) = true.
Proof.
  unfold nonblank, strip. destruct (dumps_braces st m) as [s ->].
  rewrite <- str_app_cons, rstrip_brace, str_app_cons. unfold lstrip. cbn [strip_front].
  change (space1 "{") with false. cbn.
  destruct s as [|d s]; [done|]. rewrite str_app_cons.
  change (space2 "{" d) with false. cbn. destruct (s +:+ "}"); done.
Qed.

(** ** The chain *)

Section facts.
Context `{Hashing}.

(** The fields under the signature and the two that close the event. *)
Lemma lookup_event_core e k :
  event_core e !! k = if bool_decide (k ∈ core_fields) then Some (get e k) else None.
Proof.
  unfold event_core. rewrite (lookup_dict_of_map (get e) id).
  case_bool_decide as Hk.
  - destruct (find_first _ core_fields) as [x|] eqn:E; cbn.
    + apply find_first_Some in E as [_ E]. bool_split. by cbn in E; subst.
    + apply find_first_None in E. rewrite Forall_forall in E. specialize (E k Hk).
      by rewrite bool_decide_eq_true_2 in E.
  - destruct (find_first _ core_fields) as [x|] eqn:E; [|done].
    apply find_first_Some in E as [Hx E]. bool_split. cbn in E. by subst.
Qed.

Lemma event_core_get e k : k ∈ core_fields → get (event_core e) k = get e k.
Proof. intros Hk. unfold get at 1. by rewrite lookup_event_core, bool_decide_eq_true_2. Qed.

Lemma event_core_eq e e' :
  (∀ k, k ∈ core_fields → get e k = get e' k) → event_core e = event_core e'.
Proof. apply dict_of_map_ext. Qed.

(** A signed core is the core of the event that carries it. *)
Lemma event_core_signed core sig :
  (∀ k, is_Some (core !! k) ↔ k ∈ core_fields) →
  (∀ k, k ∈ core_fields → sig !! k = None) →
  event_core (merge_dict core sig) = core.
Proof.
  intros Hc Hs. apply map_eq. intros k. rewrite lookup_event_core.
  case_bool_decide as Hk.
  - rewrite get_merge_dict, Hs by done. apply Hc in Hk as [v Hv]. unfold get. by rewrite Hv.
  - symmetry. apply eq_None_not_Some. by rewrite Hc.
Qed.

#[local] Opaque event_core.

Lemma verify_event_inv key prev n e h :
  verify_event key prev n e = Ok h →
  py_eq (get e "sequence") (JInt n) = true ∧ get e "previous_hash" = JStr prev ∧
  h = core_hash (event_core e) ∧ str_of (get_or e "event_hash" (JStr "")) = h ∧
  str_of (get_or e "signature" (JStr "")) = hmac_hex key h.
Proof.
  unfold verify_event. intros Hv. inv_res. bool_split. subst.
  repeat match goal with Hd : compare_digest _ _ = Ok true |- _ =>
    apply compare_digest_true in Hd as [Hd _] end.
  by rewrite <- py_neq_false, <- py_neq_str.
Qed.

Lemma verify_event_ok key prev n e :
  get e "sequence" = JInt n → get e "previous_hash" = JStr prev →
  get_or e "event_hash" (JStr "") = JStr (core_hash (event_core e)) →
  get_or e "signature" (JStr "") = JStr (hmac_hex key (core_hash (event_core e))) →
  verify_event key prev n e = Ok (core_hash (event_core e)).
Proof.
  intros Hs Hp Hh Hg. unfold verify_event. rewrite Hs, Hp, Hh, Hg.
  assert (py_neq (JInt n) (JInt n) = false) as -> by (apply py_neq_false; cbn; apply Z.eqb_refl).
  rewrite (proj2 (py_neq_str _ _)) by done. cbn [raise_if mbind res_bind str_of].
  assert (∀ s, re_hex 64 s = true → compare_digest s s = Ok true) as Hcd.
  { intros s Hx. apply compare_digest_true. split; [done|]. by eapply hex_ascii. }
  rewrite !Hcd by (unfold core_hash; auto with cogni). reflexivity.
Qed.

Lemma verify_from_snoc key prev n es e :
  verify_from key prev n (es ++ [e]) =
  (h ← verify_from key prev n es; verify_event key h (n + Z.of_nat (length es)) e).
Proof.
  revert prev n. induction es as [|x es IH]; intros prev n.
  - cbn. rewrite Z.add_0_r. by destruct (verify_event _ _ _ _).
  - rewrite <- app_comm_cons. cbn [verify_from]. destruct (verify_event key prev n x); cbn [mbind res_bind]; [|done].
    rewrite IH. destruct (verify_from _ _ _ es); cbn [mbind res_bind]; [|done]. f_equal. cbn [length]. lia.
Qed.

(** ** A ledger that holds a list of events *)

Definition line_safe (e : dict) : bool := no_break (dumps spaced (JObj e)).

(** The text of a file with one line per event. *)
Definition file_text (es : list dict) : string :=
  foldr (λ e t, dumps spaced (JObj e) +:+ newline +:+ t) "" es.

Lemma file_text_snoc es e : file_text (es ++ [e]) = file_text es +:+ event_line e.
Proof.
  unfold event_line. induction es as [|x es IH].
  - unfold file_text. cbn [foldr app]. by rewrite str_app_nil_l, str_app_nil_r.
  - change (file_text ((x :: es) ++ [e]))
      with (dumps spaced (JObj x) +:+ newline +:+ file_text (es ++ [e])).
    change (file_text (x :: es)) with (dumps spaced (JObj x) +:+ newline +:+ file_text es).
    by rewrite IH, <- !str_app_assoc.
Qed.

Record holds (l : ledger) (es : list dict) : Prop := Holds {
  holds_text : ledger_text l = Some (file_text es);
  holds_safe : Forall (λ e, line_safe e = true ∧ floats_ok (JObj e) = true) es;
  holds_head : ∃ key head, ledger_key l = Some key ∧
    verify_from key GENESIS_HASH 1 es = Ok head ∧ previous_hash_of es = Ok (JStr head)
}.

Lemma read_line_dumps e :
  floats_ok (JObj e) = true → read_line (dumps spaced (JObj e)) = Ok e.
Proof. intros He. unfold read_line. by rewrite loads_dumps. Qed.

Lemma holds_read l es : holds l es → read l = Ok es.
Proof.
  intros [Ht Hs _]. unfold read. rewrite Ht.
  assert (file_text es
    = foldr (λ s t, s +:+ newline +:+ t) "" ((λ e, dumps spaced (JObj e)) <$> es)) as ->.
  { clear. unfold file_text. induction es as [|e es IH]; cbn [foldr fmap list_fmap]; by rewrite ?IH. }
  rewrite splitlines_lines.
  - apply res_mapM_ok. clear Ht.
    induction Hs as [|e es [He Hf] Hs IH]; cbn [fmap list_fmap List.filter].
    + constructor.
    + rewrite nonblank_dumps. constructor; [by apply read_line_dumps|]. apply IH.
  - rewrite Forall_fmap. eapply Forall_impl; [exact Hs|]. by intros e [? _].
Qed.

Lemma holds_verified l es :
  holds l es → ∃ key head, ledger_key l = Some key ∧
  verify_from key GENESIS_HASH 1 es = Ok head ∧ previous_hash_of es = Ok (JStr head) ∧
  _verify_events l es = Ok (dict_of [("valid", JBool true);
     ("events", JInt (Z.of_nat (length es))); ("head", JStr head); ("signed", JBool true)]).
Proof.
  intros [_ _ (key & head & Hk & Hv & Hp)]. exists key, head. split_and!; [done..|].
  unfold _verify_events, _key. rewrite Hk. cbn [res_of_option mbind res_bind]. by rewrite Hv.
Qed.

Lemma make_event_core now key es prev actor action tid payload :
  event_core (make_event now key es prev actor action tid payload) = dict_of
    [("sequence", JInt (Z.of_nat (length es) + 1)); ("timestamp", JStr now);
     ("actor", JStr actor); ("action", JStr action); ("task_id", tid);
     ("payload", JObj payload); ("previous_hash", prev)].
Proof.
  apply event_core_signed.
  - intros k. split.
    + destruct (decide (k ∈ core_fields)) as [|Hk]; [done|]. intros [v Hv].
      unfold dict_of in Hv. rewrite not_elem_of_list_to_map_1 in Hv; done.
    + intros Hk. repeat (apply elem_of_cons in Hk as [->|Hk]; [eexists; reflexivity|]).
      by apply elem_of_nil in Hk.
  - intros k Hk. apply not_elem_of_list_to_map_1. intros Hk'. revert Hk.
    repeat (apply elem_of_cons in Hk' as [->|Hk']; [by_compute|]). by apply elem_of_nil in Hk'.
Qed.

Lemma make_event_fields now key es prev actor action tid payload e :
  e = make_event now key es prev actor action tid payload →
  get e "sequence" = JInt (Z.of_nat (length es) + 1) ∧ get e "timestamp" = JStr now ∧
  get e "actor" = JStr actor ∧ get e "action" = JStr action ∧ get e "task_id" = tid ∧
  get e "payload" = JObj payload ∧ get e "previous_hash" = prev ∧
  e !! "event_hash" = Some (JStr (core_hash (event_core e))) ∧
  e !! "signature" = Some (JStr (hmac_hex key (core_hash (event_core e)))).
Proof.
  intros ->. rewrite make_event_core. unfold make_event. generalize core_hash. intros h.
  generalize (hmac_hex key). intros g. split_and!; reflexivity.
Qed.
End facts.

(** ** Appending *)

Section append.
Context `{Hashing}.

(** What [append] returns on a ledger that holds [es]: never an error. *)
Lemma append_holds now l es actor action tid payload :
  holds l es → ∃ key head, ledger_key l = Some key ∧
  verify_from key GENESIS_HASH 1 es = Ok head ∧
  let e := make_event now key es (JStr head) actor action tid payload in
  let l' := Ledger (Some (default "" (ledger_text l) +:+ event_line e)) (ledger_key l) in
  append now l actor action tid payload = Ok (e, l') ∧
  (line_safe e = true → floats_ok (JObj e) = true → holds l' (es ++ [e])).
Proof.
  intros Hl. destruct (holds_verified l es Hl) as (key & head & Hk & Hv & Hp & Hr).
  exists key, head. split_and!; [done..|]. intros e l'.
  destruct (make_event_fields now key es (JStr head) actor action tid payload e eq_refl)
    as (Es & _ & _ & _ & _ & _ & Ep & Eh & Eg). split.
  - clear Es Ep Eh Eg. unfold append. rewrite (holds_read l es Hl). cbn [mbind res_bind]. rewrite Hr.
    cbn [mbind res_bind]. rewrite Hp. unfold _key. subst l' e. by rewrite Hk.
  - intros Hs Hf. destruct Hl as [Ht Hse _]. constructor.
    + subst l'. cbn [ledger_text]. rewrite Ht. cbn [default from_option id]. by rewrite file_text_snoc.
    + apply Forall_app. split; [assumption|]. apply Forall_singleton. exact (conj Hs Hf).
    + exists key, (core_hash (event_core e)). split_and!; [done| |].
      * rewrite verify_from_snoc, Hv. cbn [mbind res_bind].
        apply verify_event_ok.
        -- rewrite Es. f_equal. lia.
        -- exact Ep.
        -- unfold get_or. by rewrite Eh.
        -- unfold get_or. by rewrite Eg.
      * unfold previous_hash_of. rewrite last_snoc. unfold item. by rewrite Eh.
Qed.

(** The ledgers the program builds: [initialize], then appends. *)
Inductive history : ledger → list dict → Prop :=
  | history_init urandom : history (initialize urandom (Ledger None None)) []
  | history_append now l es actor action tid payload e l' :
      history l es → append now l actor action tid payload = Ok (e, l') →
      line_safe e = true → floats_ok (JObj e) = true → history l' (es ++ [e]).

Lemma history_holds l es : history l es → holds l es.
Proof.
  induction 1 as [urandom|now l es actor action tid payload e l' _ IH Ha Hs Hf].
  - constructor; [done|constructor|]. by exists urandom, GENESIS_HASH.
  - destruct (append_holds now l es actor action tid payload IH) as (key & head & _ & _ & Ha' & Hh).
    rewrite Ha' in Ha. injection Ha as <- <-. by apply Hh.
Qed.

(** C15: a ledger built by any number of appends of storable events - their
    lines hold no line separator and the text of their floats reads back - is,
    read and verified, exactly the appended events in their order, and the next
    append succeeds, adds one line to the file, and records its arguments in an
    event that continues the chain.  When that event is storable too, the
    longer ledger reads back, verified, as the longer list; after an event that
    is not, nothing is claimed. *)
Theorem history_reads_back now l es actor action tid payload :
  history l es →
  read_verified l = Ok es ∧
  ∃ e l', append now l actor action tid payload = Ok (e, l') ∧
  ledger_text l' = Some (default "" (ledger_text l) +:+ event_line e) ∧
  get e "sequence" = JInt (Z.of_nat (length es) + 1) ∧ get e "timestamp" = JStr now ∧
  get e "actor" = JStr actor ∧ get e "action" = JStr action ∧ get e "task_id" = tid ∧
  get e "payload" = JObj payload ∧
  previous_hash_of es = Ok (get e "previous_hash") ∧
  (line_safe e = true → floats_ok (JObj e) = true →
   history l' (es ++ [e]) ∧ read_verified l' = Ok (es ++ [e])).
Proof.
  assert (Hread : ∀ l es, history l es → read_verified l = Ok es).
  { clear. intros l es Hh%history_holds. destruct (holds_verified l es Hh) as (key & head & _ & _ & _ & Hr).
    unfold read_verified. rewrite (holds_read l es Hh). cbn [mbind res_bind]. by rewrite Hr. }
  intros Hist. split; [by apply Hread|]. pose proof (history_holds _ _ Hist) as Hh.
  destruct (holds_verified l es Hh) as (key & head & Hk & Hv & Hp & _).
  destruct (append_holds now l es actor action tid payload Hh)
    as (key' & head' & Hk' & Hv' & Ha & _).
  rewrite Hk' in Hk. injection Hk as ->. rewrite Hv' in Hv. injection Hv as ->.
  destruct (make_event_fields now key es (JStr head) actor action tid payload _ eq_refl)
    as (Es & Et & Ea & Ec & Ei & Ey & Ep & _).
  eexists _, _. split; [exact Ha|]. split_and!; [reflexivity|assumption..|by rewrite Ep|].
  intros Hs Hf. assert (Hist' : history _ (es ++ [_])) by exact (history_append _ _ _ _ _ _ _ _ _ Hist Ha Hs Hf).
  split; [exact Hist'|]. by apply Hread.
Qed.
End append.

(** ** Tamper evidence *)

Section tamper.
Context `{Hashing}.

(** Two events of the two ledgers whose signed texts differ and collide. *)
Definition collision (es es' : list dict) : Prop :=
  ∃ e e', e ∈ es ∧ e' ∈ es' ∧
  canonical_json (JObj (event_core e)) ≠ canonical_json (JObj (event_core e')) ∧
  core_hash (event_core e) = core_hash (event_core e').

Definition cores_ok (es : list dict) : Prop :=
  Forall (λ e, floats_ok (JObj (event_core e)) = true) es.

Lemma chain_agrees key key' es : ∀ es' prev prev' n head,
  length es = length es' → cores_ok es → cores_ok es' →
  verify_from key prev n es = Ok head → verify_from key' prev' n es' = Ok head →
  (event_core <$> es = event_core <$> es' ∧ prev = prev') ∨ collision es es'.
Proof.
  induction es as [|e es IH]; intros [|e' es'] prev prev' n head Hl Hf Hf' Hv Hv'; try done.
  - left. cbn in *. by simplify_eq.
  - cbn [verify_from] in Hv, Hv'. apply bind_ok in Hv as (h & He & Hv).
    apply bind_ok in Hv' as (h' & He' & Hv'). inversion Hf; subst. inversion Hf'; subst.
    destruct (IH es' h h' (n + 1) head) as [[Hes ->]|(x & x' & ? & ? & ? & ?)];
      [cbn in Hl; lia|assumption..| |right; exists x, x'; split_and!; [by right|by right|assumption..]].
    apply verify_event_inv in He as (_ & Hp & Hh & _). apply verify_event_inv in He' as (_ & Hp' & Hh' & _).
    destruct (decide (canonical_json (JObj (event_core e)) = canonical_json (JObj (event_core e'))))
      as [Hc|Hc].
    + left. apply canonical_dict_inj in Hc; [|assumption..]. cbn [fmap list_fmap]. rewrite Hc.
      split; [by f_equal|].
      assert (JStr prev = JStr prev') as [= ->]; [|done].
      rewrite <- Hp, <- Hp', <- (event_core_get e), <- (event_core_get e') by by_compute. by rewrite Hc.
    + right. exists e, e'. split_and!; [left|left|exact Hc|by rewrite <- Hh, <- Hh'].
Qed.

Lemma verify_events_inv l es r :
  _verify_events l es = Ok r → ∃ key head, ledger_key l = Some key ∧
  verify_from key GENESIS_HASH 1 es = Ok head ∧ r !! "head" = Some (JStr head) ∧
  r !! "events" = Some (JInt (Z.of_nat (length es))).
Proof.
  unfold _verify_events, _key. intros Hv. apply bind_ok in Hv as (key & Hk & Hv).
  apply bind_ok in Hv as (head & Hh & [= <-]). exists key, head.
  destruct (ledger_key l); [|done]. injection Hk as ->. done.
Qed.

(** C14: two event lists that verify with the same report, whatever their keys,
    agree on every signed field of every event, unless two of their events
    have different signed texts with the same SHA-256. *)
Theorem verify_tamper_evident l l' es es' r :
  cores_ok es → cores_ok es' →
  _verify_events l es = Ok r → _verify_events l' es' = Ok r →
  event_core <$> es = event_core <$> es' ∨ collision es es'.
Proof.
  intros Hf Hf' (key & head & _ & Hv & Hr & Hn)%verify_events_inv
    (key' & head' & _ & Hv' & Hr' & Hn')%verify_events_inv.
  rewrite Hr in Hr'. injection Hr' as <-. rewrite Hn in Hn'. injection Hn' as Hn'.
  destruct (chain_agrees key key' es es' GENESIS_HASH GENESIS_HASH 1 head) as [[? _]|?]; auto. lia.
Qed.
End tamper.

(** ** The projection is the last signed snapshot *)

(** The snapshot of task [t] that event [e] carries. *)
Definition snapshot_of (t : string) (e : dict) : option dict :=
  if py_eq (get e "task_id") (JStr t) then
    match get_or e "payload" (JObj ∅) with
    | JObj p => match get p "task" with JObj s => Some s | _ => None end
    | _ => None
    end
  else None.

Fixpoint last_snapshot (t : string) (es : list dict) : option dict :=
  match es with
  | [] => None
  | e :: es => match last_snapshot t es with Some s => Some s | None => snapshot_of t e end
  end.

Lemma last_snapshot_snoc t es e :
  last_snapshot t (es ++ [e]) =
  match snapshot_of t e with Some s => Some s | None => last_snapshot t es end.
Proof.
  induction es as [|x es IH]; cbn; [by destruct (snapshot_of t e)|].
  rewrite IH. by destruct (snapshot_of t e).
Qed.

Lemma lookup_set_key k v p t :
  lookup_key (set_key k v p) (JStr t) =
  if py_eq k (JStr t) then Some v else lookup_key p (JStr t).
Proof.
  induction p as [|[k' v'] p IH]; cbn [set_key lookup_key]; [done|].
  destruct (py_eq k' k) eqn:E; cbn [lookup_key].
  - assert (py_eq k' (JStr t) = py_eq k (JStr t)) as ->.
    { apply eq_true_iff_eq. rewrite !py_eq_str. split; intros ->.
      - by apply py_eq_str_l in E.
      - by apply py_eq_str in E. }
    by destruct (py_eq k (JStr t)).
  - destruct (py_eq k' (JStr t)) eqn:Ek'; [|done].
    destruct (py_eq k (JStr t)) eqn:Ek; [|done].
    apply py_eq_str in Ek as ->. congruence.
Qed.

Lemma project_event_lookup p e p' t :
  t ≠ "" → project_event p e = Ok p' →
  lookup_key p' (JStr t) =
  match snapshot_of t e with Some s => Some s | None => lookup_key p (JStr t) end.
Proof.
  intros Ht. unfold project_event, snapshot_of, jget, as_dict. intros Hp.
  apply bind_ok in Hp as (sn & Hs & Hp). apply bind_ok in Hs as (pl & Hpl & [= <-]).
  destruct (get_or e "payload" (JObj ∅)); try discriminate Hpl. injection Hpl as ->.
  destruct (get pl "task") as [| | | | | |s]; try (by destruct (py_eq _ _); injection Hp as <-).
  destruct (py_eq (get e "task_id") (JStr t)) eqn:E.
  - apply py_eq_str in E. rewrite E in Hp. cbn in Hp. rewrite bool_decide_eq_false_2 in Hp by done.
    injection Hp as <-. by rewrite lookup_set_key, (proj2 (py_eq_str _ _)).
  - destruct (negb _); [by injection Hp as <-|]. destruct (hashable _); [|done].
    injection Hp as <-. by rewrite lookup_set_key, E.
Qed.

(** the projection maps every task to the snapshot of the last event that
    carries one for it. *)
Theorem projected_task_is_last_snapshot es p t :
  t ≠ "" → project_events es = Ok p →
  lookup_key p (JStr t) = last_snapshot t es.
Proof.
  intros Ht. unfold project_events. revert p. induction es as [|e es IH] using rev_ind; intros p Hp.
  - by injection Hp as <-.
  - rewrite res_foldl_app in Hp. apply bind_ok in Hp as (q & Hq & Hp).
    cbn [res_foldl] in Hp. apply bind_ok in Hp as (p' & Hp & [= <-]).
    rewrite (project_event_lookup q e _ t Ht Hp), last_snapshot_snoc, (IH q Hq). done.
Qed.

(** ** A concrete ledger *)

Definition empty_ledger : ledger := initialize "0123456789abcdef0123456789abcdef" (Ledger None None).

Definition sample_payload : dict := dict_of [("task", jobj [("id", JStr "T-1")])].

Definition sample_append : res (dict * ledger) :=
  append (utc_now 1769904000) empty_ledger "codex" "TASK_CREATED" (JStr "T-1") sample_payload.

Definition sample_event : dict := match sample_append with Ok (e, _) => e | Err _ => ∅ end.
Definition sample_ledger : ledger :=
  match sample_append with Ok (_, l) => l | Err _ => empty_ledger end.

Lemma sample_append_ok : sample_append = Ok (sample_event, sample_ledger).
Proof.
  assert (is_ok sample_append = true) as H by (vm_compute; reflexivity).
  unfold sample_event, sample_ledger. by destruct sample_append as [[e l]|].
Qed.

Lemma sample_history : history sample_ledger [sample_event].
Proof.
  apply (history_append (utc_now 1769904000) empty_ledger [] "codex" "TASK_CREATED" (JStr "T-1")
    sample_payload sample_event sample_ledger (history_init _)).
  - exact sample_append_ok.
  - vm_compute. reflexivity.
  - vm_compute. reflexivity.
Qed.

Theorem history_reads_back_witness : read_verified sample_ledger = Ok [sample_event].
Proof.
  destruct (history_reads_back (utc_now 1769904001) sample_ledger [sample_event] "codex"
    "TASK_CLAIMED" (JStr "T-1") sample_payload sample_history) as [H _]. exact H.
Defined.

Theorem verify_tamper_evident_witness :
  event_core <$> [sample_event] = event_core <$> [<["note" := JNull]> sample_event] ∨
  collision [sample_event] [<["note" := JNull]> sample_event].
Proof.
  apply (verify_tamper_evident sample_ledger sample_ledger _ _
    (match _verify_events sample_ledger [sample_event] with Ok r => r | Err _ => ∅ end)).
  - apply Forall_singleton. vm_compute. reflexivity.
  - apply Forall_singleton. vm_compute. reflexivity.
  - assert (is_ok (_verify_events sample_ledger [sample_event]) = true) as H by (vm_compute; reflexivity).
    by destruct (_verify_events sample_ledger [sample_event]).
  - vm_compute. reflexivity.
Defined.

Theorem projected_task_is_last_snapshot_witness :
  ∃ p, project_events [sample_event] = Ok p ∧
  lookup_key p (JStr "T-1") = last_snapshot "T-1" [sample_event].
Proof.
  exists (match project_events [sample_event] with Ok p => p | Err _ => [] end).
  assert (Hp : project_events [sample_event] =
    Ok (match project_events [sample_event] with Ok p => p | Err _ => [] end)).
  { assert (is_ok (project_events [sample_event]) = true) as H by (vm_compute; reflexivity).
    by destruct (project_events [sample_event]). }
  split; [exact Hp | exact (projected_task_is_last_snapshot _ _ "T-1" ltac:(discriminate) Hp)].
Defined.

(** ** Text with a line separator

    [json.dumps(..., ensure_ascii=False)] writes U+2028 (E2 80 A8) as it is and
    [str.splitlines] ends a line there. *)

Definition line_separator : string := String "226" (String "128" (String "168" "")).

Definition separated_append : res (dict * ledger) :=
  append (utc_now 1769904000) empty_ledger "codex" "TASK_CREATED" (JStr "T-1")
    (dict_of [("note", JStr ("one" +:+ line_separator +:+ "two"))]).

Definition read_separated : res (list dict) :=
  match separated_append with Ok (_, l) => read l | Err e => Err e end.

(** an event whose payload holds U+2028 is accepted and written, and the
    ledger can no longer be read, verified or extended. *)
Theorem line_separator_breaks_ledger :
  match separated_append with
  | Ok (_, l) =>
      read l = raise IntegrityError "Malformed ledger JSON" ∧
      verify l = raise IntegrityError "Malformed ledger JSON" ∧
      ∀ now actor action tid payload,
      append now l actor action tid payload = raise IntegrityError "Malformed ledger JSON"
  | Err _ => False
  end.
Proof.
  assert (read_separated = raise IntegrityError "Malformed ledger JSON") as Hr
    by (vm_compute; reflexivity).
  assert (is_ok separated_append = true) as Hok by (vm_compute; reflexivity).
  unfold read_separated in Hr. revert Hr Hok. generalize separated_append.
  intros [[e l]|x] Hr Hok; [|discriminate Hok]. split; [exact Hr|]. unfold verify, append.
  rewrite Hr. split; reflexivity.
Qed.
