(* ===== verification/Lifecycle.v ===== *)
(** * Durable verification runs ([verification_lifecycle.py])

    A run is a [verification.started] event and its terminal event, bound by a
    run identifier.  The audit groups the signed events by run and reports
    what does not fit; [require_authoritative_verification_terminal] accepts
    one terminal event only when the whole run is free of conflicts. *)

From S2P Require Export JsonFacts.

Definition VERIFICATION_TERMINAL_ACTIONS : list string :=
  ["verification.failed"; "task.verified"; "task.rejected"].

(** [_RUN_ID_RE] and [_SHA256_RE] *)
Definition run_id_ok (s : string) : bool := re_hex 32 s.
Definition sha256_ok (s : string) : bool := re_hex 64 s.

(** [isinstance(v, str) and RE.fullmatch(v)] and its case-insensitive use. *)
Definition str_matches (p : string → bool) (v : json) : bool :=
  match v with JStr s => p s | _ => false end.
Definition sha256_any_case (s : string) : bool := sha256_ok (lower s).

(** [a is b] where [b] is known to be a [bool]. *)
Definition same_bool (a b : json) : bool :=
  match a, b with JBool x, JBool y => Bool.eqb x y | _, _ => false end.

Definition _receipt_is_bound (value actor : json) (operation : string)
    (task_id run_id task_attempt : json) : bool :=
  match value with
  | JObj r =>
      let attestation := get r "os_principal_attestation" in
      py_eq (get r "schema_version") (JInt 2)
      && py_eq (get r "receipt_type") (JStr "actor-capability-consumption")
      && py_eq (get r "actor") actor
      && py_eq (get r "operation") (JStr operation)
      && py_eq (get r "task_id") task_id
      && py_eq (get r "run_id") run_id
      && py_eq (get r "task_attempt") task_attempt
      && str_matches sha256_ok (get r "nonce_sha256")
      && str_matches (λ s, negb (bool_decide (s = ""))) (get r "signature")
      && match attestation with
         | JObj a =>
             is_bool (get r "independent_trust_root")
             && is_bool (get r "actor_os_isolation_proven")
             && same_bool (get a "independent_trust_root") (get r "independent_trust_root")
             && same_bool (get a "actor_os_isolation_proven")
                  (get r "actor_os_isolation_proven")
         | _ => false
         end
  | _ => false
  end.

(** The checks of a [task.verified] or [task.rejected] terminal. *)
Definition decision_reasons (start_actor start_receipt identity verifier_manifest
    worker_manifest contract_inputs : json) (terminal payload : dict) : list string :=
  let verification :=
    match get payload "task" with JObj t => get t "verification" | _ => JNull end in
  reason_if (py_neq (get terminal "actor") start_actor) "terminal_actor_mismatch" ++
  match verification with
  | JObj v =>
      reason_if (py_neq (get payload "verifier_identity") identity
                 || py_neq (get v "verifier_identity") identity)
        "terminal_verifier_identity_mismatch" ++
      (let ve := get v "verifier_evidence" in
       match ve with
       | JObj e =>
           if py_neq (get e "manifest_sha256") verifier_manifest
              || py_neq (get payload "verifier_evidence") ve
           then ["terminal_verifier_manifest_mismatch"]
           else reason_if (negb (is_dict (get e "executor_attestation")))
                  "terminal_executor_attestation_missing"
       | _ => ["terminal_verifier_manifest_mismatch"]
       end) ++
      reason_if (py_neq (get v "worker_manifest_sha256") worker_manifest
                 || py_neq (get payload "worker_manifest_sha256") worker_manifest)
        "terminal_worker_manifest_mismatch" ++
      reason_if (py_neq (get v "verification_contract_inputs_sha256") contract_inputs
                 || py_neq (get payload "verification_contract_inputs_sha256")
                      contract_inputs)
        "terminal_contract_inputs_mismatch" ++
      reason_if (py_neq (get v "capability_receipt") start_receipt
                 || py_neq (get payload "capability_receipt") start_receipt)
        "terminal_capability_receipt_mismatch" ++
      (let trusted := get v "trusted_validation" in
       if py_neq (get payload "trusted_validation") trusted
       then ["terminal_trusted_contract_mismatch"]
       else match trusted with
            | JObj t => reason_if
                (negb (str_matches sha256_any_case (get t "validation_contract_sha256")))
                "terminal_trusted_contract_invalid"
            | _ => ["terminal_trusted_contract_invalid"]
            end)
  | _ => ["terminal_verification_missing"]
  end.

(** The checks of a [verification.failed] terminal. *)
Definition failure_reasons (start_actor start_receipt identity verifier_manifest
    worker_manifest contract_inputs task_id run_id task_attempt : json)
    (terminal payload : dict) : list string :=
  (if py_eq (get payload "stage") (JStr "recovery") then
     reason_if (py_neq (get payload "started_actor") start_actor
                || py_neq (get payload "started_capability_receipt") start_receipt)
       "recovery_started_binding_mismatch" ++
     reason_if (negb (_receipt_is_bound (get payload "capability_receipt")
                        (get terminal "actor") "task.reconcile_verification"
                        task_id run_id task_attempt))
       "recovery_capability_receipt_invalid"
   else
     reason_if (py_neq (get terminal "actor") start_actor)
       "failed_terminal_actor_mismatch" ++
     reason_if (py_neq (get payload "capability_receipt") start_receipt)
       "failed_terminal_capability_receipt_mismatch") ++
  reason_if (py_neq (get payload "verifier_identity") identity
             || py_neq (get payload "verifier_manifest_sha256") verifier_manifest
             || py_neq (get payload "worker_manifest_sha256") worker_manifest
             || py_neq (get payload "verification_contract_inputs_sha256") contract_inputs)
    "failed_terminal_context_mismatch".

Definition _verification_binding_reasons (start terminal : dict) : res (list string) :=
  start_payload ← as_dict (get_or start "payload" (JObj ∅));
  let run_id := get start_payload "run_id" in
  let task_id := get start "task_id" in
  let task_attempt := get start_payload "task_attempt" in
  let start_actor := get start "actor" in
  let start_receipt := get start_payload "capability_receipt" in
  let identity := get start_payload "verifier_identity" in
  let verifier_manifest := get start_payload "verifier_manifest_sha256" in
  let worker_manifest := get start_payload "worker_manifest_sha256" in
  let contract_inputs := get start_payload "verification_contract_inputs_sha256" in
  let started :=
    reason_if (negb (_receipt_is_bound start_receipt start_actor "task.verify"
                       task_id run_id task_attempt))
      "started_capability_receipt_invalid" ++
    reason_if (negb (is_dict identity)) "started_verifier_identity_missing" ++
    reason_if (negb (str_matches sha256_any_case verifier_manifest))
      "started_verifier_manifest_invalid" ++
    reason_if (negb (is_null worker_manifest)
               && negb (str_matches sha256_any_case worker_manifest))
      "started_worker_manifest_invalid" ++
    reason_if (negb (str_matches sha256_any_case contract_inputs))
      "started_contract_inputs_invalid" in
  decided ← in_strings (get terminal "action") ["task.verified"; "task.rejected"];
  let failed := py_eq (get terminal "action") (JStr "verification.failed") in
  (* [terminal_payload] is only used under one of the two actions. *)
  if decided || failed then
    payload ← as_dict (get_or terminal "payload" (JObj ∅));
    Ok (started ++
        if decided
        then decision_reasons start_actor start_receipt identity verifier_manifest
               worker_manifest contract_inputs terminal payload
        else failure_reasons start_actor start_receipt identity verifier_manifest
               worker_manifest contract_inputs task_id run_id task_attempt terminal payload)
  else Ok started.

Definition validate_verification_run_id (value : json) : res string :=
  match value with
  | JStr s => if run_id_ok s then Ok s else raise ValueError "Verification run id"
  | _ => raise ValueError "Verification run id"
  end.

(** ** The audit *)

(** The started and terminal events of each run, and the malformed events. *)
Record grouping := Grouping {
  grouped : gmap string (list dict * list dict);
  invalid_events : list json
}.

(** [action == "verification.started" or action in VERIFICATION_TERMINAL_ACTIONS] *)
Definition lifecycle_action (action : json) : res bool :=
  if py_eq action (JStr "verification.started") then Ok true
  else in_strings action VERIFICATION_TERMINAL_ACTIONS.

Definition event_run_id (event : dict) : json :=
  match get event "payload" with JObj p => get p "run_id" | _ => JNull end.

Definition add_event (started : bool) (event : dict) (r : list dict * list dict) :=
  if started then (r.1 ++ [event], r.2) else (r.1, r.2 ++ [event]).

Definition group_event (g : grouping) (event : dict) : res grouping :=
  let action := get event "action" in
  relevant ← lifecycle_action action;
  if negb relevant then Ok g else
  let run_id := event_run_id event in
  legacy ← (if is_null run_id then in_strings action ["task.verified"; "task.rejected"]
            else Ok false);
  if (legacy : bool) then Ok g else
  let bad := Grouping (grouped g) (invalid_events g ++
    [jobj [("sequence", get event "sequence"); ("task_id", get event "task_id");
           ("action", action); ("reason", JStr "invalid_run_id")]]) in
  match run_id with
  | JStr id =>
      if run_id_ok id then
        let started := py_eq action (JStr "verification.started") in
        Ok (Grouping (<[id := add_event started event (default ([], []) (grouped g !! id))]>
                        (grouped g))
                     (invalid_events g))
      else Ok bad
  | _ => Ok bad
  end.

Definition group_events (events : list dict) : res grouping :=
  res_foldl group_event (Grouping ∅ []) events.

(** The checks made on a run with one start and one terminal event. *)
Definition pair_reasons (run_id : string) (start terminal : dict) : res (list string) :=
  start_payload ← as_dict (get_or start "payload" (JObj ∅));
  payload ← as_dict (get_or terminal "payload" (JObj ∅));
  late ← (if is_int (get terminal "sequence")
          then py_le (get terminal "sequence") (get_or start "sequence" (JInt 0))
          else Ok true);
  let terminal_task := get payload "task" in
  let terminal_attempt :=
    if is_null (get payload "task_attempt")
    then match terminal_task with JObj t => get t "attempt" | _ => JNull end
    else get payload "task_attempt" in
  let action := get terminal "action" in
  decided ← in_strings action ["task.verified"; "task.rejected"];
  let expected_state :=
    if py_eq action (JStr "task.verified") then "verified" else "rejected" in
  binding ← _verification_binding_reasons start terminal;
  Ok (reason_if (py_neq (get terminal "task_id") (get start "task_id"))
        "terminal_task_id_mismatch" ++
      reason_if late "terminal_not_after_started" ++
      reason_if (py_neq terminal_attempt (get start_payload "task_attempt"))
        "terminal_attempt_mismatch" ++
      (if (decided : bool) then
         match terminal_task with
         | JObj t =>
             reason_if (py_neq (get t "id") (get start "task_id"))
               "terminal_task_snapshot_id_mismatch" ++
             reason_if (py_neq (get t "state") (JStr expected_state))
               "terminal_task_state_mismatch" ++
             reason_if (match get t "verification" with
                        | JObj v => py_neq (get v "run_id") (JStr run_id)
                        | _ => true
                        end) "terminal_task_run_id_mismatch"
         | _ => ["terminal_task_missing"]
         end
       else if py_eq action (JStr "verification.failed") then
         reason_if (py_neq (get payload "schema_version") (JInt 1))
           "failed_terminal_schema_mismatch" ++
         reason_if (negb (is_str (get payload "stage"))) "failed_terminal_stage_missing" ++
         reason_if (negb (is_str (get payload "error_type")))
           "failed_terminal_error_type_missing"
       else []) ++
      binding).

Definition the_one {A} (l : list A) : option A :=
  match l with [x] => Some x | _ => None end.

Definition count_reasons (starts terminals : list dict) : list string :=
  match starts with
  | [] => ["missing_started"] | [_] => [] | _ => ["duplicate_started"]
  end ++ reason_if (1 <? length terminals)%nat "multiple_terminal_events".

(** [None] when there is no such event. *)
Definition field_of (e : option dict) (k : string) : json :=
  match e with Some e => get e k | None => JNull end.

Definition run_reasons (run_id : string) (starts terminals : list dict) : res (list string) :=
  pair ← match the_one starts, the_one terminals with
         | Some start, Some terminal => pair_reasons run_id start terminal
         | _, _ => Ok []
         end;
  Ok (count_reasons starts terminals ++ pair).

Definition run_record (run_id : string) (starts terminals : list dict)
    (reasons : list string) : dict :=
  let start := the_one starts in
  let terminal := the_one terminals in
  dict_of
    [("run_id", JStr run_id);
     ("task_id", match start with Some s => get s "task_id"
                 | None => field_of terminal "task_id" end);
     ("started_sequence", field_of start "sequence");
     ("terminal_sequence", field_of terminal "sequence");
     ("terminal_action", field_of terminal "action");
     ("valid", JBool (is_nil reasons));
     ("reasons", jstrs reasons)].

Record run_report := RunReport {
  runs : list dict; orphaned_runs : list dict; invalid_runs : list dict
}.

Definition audit_run (rep : run_report) (item : string * (list dict * list dict))
  : res run_report :=
  let '(run_id, (starts, terminals)) := item in
  reasons ← run_reasons run_id starts terminals;
  let record := run_record run_id starts terminals reasons in
  let orphan := (length starts =? 1)%nat && is_nil terminals
                && is_nil reasons in
  Ok (RunReport (runs rep ++ [record])
        (orphaned_runs rep ++ if orphan then [record] else [])
        (invalid_runs rep ++ if is_nil reasons then [] else [record])).

Record run_audit := RunAudit {
  audit_valid : bool;
  audit_report : run_report;
  audit_invalid_events : list json
}.

Definition audit_verification_runs (events : list dict) : res run_audit :=
  g ← group_events events;
  rep ← res_foldl audit_run (RunReport [] [] []) (sorted_items (grouped g));
  Ok (RunAudit (is_nil (invalid_events g) && is_nil (invalid_runs rep)
                && is_nil (orphaned_runs rep))
        rep (invalid_events g)).

(** ** One run *)

Definition find_event (task_id run_id : string) (found : list dict * list dict) (event : dict)
  : res (list dict * list dict) :=
  if negb (is_dict (get event "payload"))
     || py_neq (event_run_id event) (JStr run_id) then Ok found else
  relevant ← lifecycle_action (get event "action");
  if negb relevant then Ok found else
  _ ← raise_if (py_neq (get event "task_id") (JStr task_id)) ValueError
        "Verification run id is bound to a different task";
  Ok (add_event (py_eq (get event "action") (JStr "verification.started")) event found).

Definition find_verification_run (events : list dict) (task_id run_id : string)
  : res (option dict * list dict) :=
  '(starts, terminals) ← res_foldl (find_event task_id run_id) ([], []) events;
  _ ← raise_if (1 <? length starts)%nat ValueError
        "Verification run has duplicate started events";
  reasons ← match the_one starts, the_one terminals with
            | Some start, Some terminal => _verification_binding_reasons start terminal
            | _, _ => Ok []
            end;
  _ ← raise_if (negb (is_nil reasons)) ValueError
        "Verification run start/terminal binding is invalid";
  Ok (head starts, terminals).

Definition require_authoritative_verification_terminal (events : list dict)
    (task_id run_id : string) (terminal_event : dict) : res dict :=
  _ ← validate_verification_run_id (JStr run_id);
  found ← find_verification_run events task_id run_id;
  match found with
  | (Some started, [terminal]) =>
      _ ← raise_if (py_neq (JObj terminal) (JObj terminal_event)) ValueError
            "Verification run must have one exact selected terminal event";
      audit ← audit_verification_runs events;
      let matching := List.filter (λ r, py_eq (get r "run_id") (JStr run_id)
                                   && py_eq (get r "task_id") (JStr task_id))
                        (runs (audit_report audit)) in
      match matching with
      | [r] =>
          if negb (is_true (get r "valid"))
             || py_neq (get r "started_sequence") (get started "sequence")
             || py_neq (get r "terminal_sequence") (get terminal_event "sequence")
             || py_neq (get r "terminal_action") (get terminal_event "action")
          then raise ValueError "Verification run lifecycle audit rejected the terminal"
          else Ok started
      | _ => raise ValueError "Verification run lifecycle audit rejected the terminal"
      end
  | _ => raise ValueError "Verification run must have one exact selected terminal event"
  end.

(** ** The events of a run *)

Definition is_terminal (action : json) : bool :=
  match action with JStr s => bool_decide (s ∈ VERIFICATION_TERMINAL_ACTIONS) | _ => false end.

(** [e] is a started, or a terminal, event of run [id]. *)
Definition is_run_event (id : string) (started : bool) (e : dict) : bool :=
  py_eq (event_run_id e) (JStr id) &&
  if started then py_eq (get e "action") (JStr "verification.started")
  else is_terminal (get e "action").

Definition run_events (id : string) (started : bool) (events : list dict) : list dict :=
  List.filter (is_run_event id started) events.

Definition group_of (events : list dict) (id : string) : list dict * list dict :=
  (run_events id true events, run_events id false events).

Lemma run_events_snoc id b es e :
  run_events id b (es ++ [e]) = run_events id b es ++ if is_run_event id b e then [e] else [].
Proof. unfold run_events. by rewrite List.filter_app. Qed.

Lemma group_of_snoc es e id :
  group_of (es ++ [e]) id =
  (run_events id true es ++ (if is_run_event id true e then [e] else []),
   run_events id false es ++ (if is_run_event id false e then [e] else [])).
Proof. unfold group_of. by rewrite !run_events_snoc. Qed.

Lemma in_strings_ok v l b :
  in_strings v l = Ok b → b = match v with JStr s => bool_decide (s ∈ l) | _ => false end.
Proof. unfold in_strings. destruct v; try done; by intros [= <-]. Qed.

Lemma started_not_terminal a : py_eq a (JStr "verification.started") = true → is_terminal a = false.
Proof. rewrite py_eq_str. by intros ->. Qed.

Lemma lifecycle_action_ok a b :
  lifecycle_action a = Ok b →
  b = py_eq a (JStr "verification.started") || is_terminal a.
Proof.
  unfold lifecycle_action, is_terminal. destruct (py_eq _ _); [by intros [= <-]|].
  by intros ->%in_strings_ok.
Qed.

Lemma is_run_event_relevant id b e :
  is_run_event id b e = true →
  py_eq (get e "action") (JStr "verification.started") || is_terminal (get e "action") = true.
Proof.
  unfold is_run_event. intros [_ H]%andb_true_iff. destruct b; rewrite H; [done|apply orb_true_r].
Qed.

(** The three ways an event is treated by [group_event]. *)
Lemma group_event_cases g e g' :
  group_event g e = Ok g' →
  (∃ id, event_run_id e = JStr id ∧ run_id_ok id = true ∧
     is_run_event id (py_eq (get e "action") (JStr "verification.started")) e = true ∧
     grouped g' = <[id := add_event (py_eq (get e "action") (JStr "verification.started")) e
                            (default ([], []) (grouped g !! id))]> (grouped g)) ∨
  (grouped g' = grouped g ∧ ∀ id b, run_id_ok id = true → is_run_event id b e = false).
Proof.
  unfold group_event. intros H. apply bind_ok in H as (rel & Hrel%lifecycle_action_ok & H).
  destruct rel; cbn [negb] in H.
  2:{ right. injection H as <-. split; [done|]. intros id b _.
      destruct (is_run_event id b e) eqn:E; [|done]. apply is_run_event_relevant in E. congruence. }
  apply bind_ok in H as (leg & Hleg & H).
  assert (Hno : (∀ id, event_run_id e = JStr id → run_id_ok id = false) →
    ∀ id b, run_id_ok id = true → is_run_event id b e = false).
  { intros Hid id b Hok. unfold is_run_event. destruct (py_eq _ (JStr id)) eqn:E; [|done].
    apply py_eq_str in E. apply Hid in E. congruence. }
  destruct leg.
  { right. injection H as <-. split; [done|]. apply Hno. intros id E. rewrite E in Hleg. done. }
  destruct (event_run_id e) as [| | | |id| |] eqn:Eid;
    try (right; injection H as <-; split; [done|]; by apply Hno).
  destruct (run_id_ok id) eqn:Hok.
  - left. injection H as <-. exists id. split_and!; try done.
    unfold is_run_event. rewrite Eid, (proj2 (py_eq_str _ _)) by done. cbn [andb].
    destruct (py_eq (get e "action") _) eqn:Es; [done|].
    cbn [orb] in Hrel. by rewrite <- Hrel.
  - right. injection H as <-. split; [done|]. apply Hno. by intros ? [= <-].
Qed.

Lemma group_events_spec es g :
  group_events es = Ok g → ∀ id, run_id_ok id = true →
  default ([], []) (grouped g !! id) = group_of es id.
Proof.
  unfold group_events. revert g. induction es as [|e es IH] using rev_ind; intros g Hg id Hid.
  - by injection Hg as <-.
  - rewrite res_foldl_app in Hg. apply bind_ok in Hg as (g0 & Hg0 & Hg).
    cbn [res_foldl] in Hg. apply bind_ok in Hg as (g1 & He & [= <-]).
    specialize (IH g0 Hg0 id Hid). rewrite group_of_snoc.
    destruct (group_event_cases _ _ _ He) as [(i & Ei & Hi & Hr & ->)|[-> Hn]].
    + rewrite lookup_insert. case_decide as E.
      * subst i. cbn [default from_option]. rewrite IH. unfold add_event, group_of.
        assert (Hneg : ∀ b, b ≠ py_eq (get e "action") (JStr "verification.started") →
          is_run_event id b e = false).
        { intros b Hb. unfold is_run_event in *. apply andb_true_iff in Hr as [-> Hr].
          destruct b, (py_eq (get e "action") _) eqn:Es; try done. by apply started_not_terminal. }
        destruct (py_eq (get e "action") _); rewrite Hr, Hneg by done; cbn; by rewrite app_nil_r.
      * rewrite IH. assert (Hneg : ∀ b, is_run_event id b e = false).
        { intros b. unfold is_run_event. rewrite Ei. cbn [py_eq].
          by rewrite bool_decide_eq_false_2 by congruence. }
        unfold group_of. by rewrite !Hneg, !app_nil_r.
    + rewrite IH. unfold group_of. by rewrite !Hn, !app_nil_r.
Qed.

(** Every group belongs to a well-formed identifier and is not empty. *)
Lemma group_events_keys es g id p :
  group_events es = Ok g → grouped g !! id = Some p →
  run_id_ok id = true ∧ p = group_of es id ∧ (p.1 ≠ [] ∨ p.2 ≠ []).
Proof.
  intros Hg Hp. assert (Hk : run_id_ok id = true ∧ (p.1 ≠ [] ∨ p.2 ≠ [])).
  { unfold group_events in Hg. revert g p Hg Hp.
    induction es as [|e es IH] using rev_ind; intros g p Hg Hp.
    - by injection Hg as <-.
    - rewrite res_foldl_app in Hg. apply bind_ok in Hg as (g0 & Hg0 & Hg).
      cbn [res_foldl] in Hg. apply bind_ok in Hg as (g1 & He & [= <-]).
      destruct (group_event_cases _ _ _ He) as [(i & Ei & Hi & Hr & E)|[E _]];
        rewrite E in Hp; [|by eapply IH].
      rewrite lookup_insert in Hp. case_decide as Eid; [|by eapply IH].
      subst i. injection Hp as <-. split; [done|].
      unfold add_event. destruct (py_eq _ _); [left|right]; cbn; intros [_ ?]%app_nil; done. }
  destruct Hk as [Hid Hne]. split_and!; [done| |done].
  rewrite <- (group_events_spec es g Hg id Hid), Hp. done.
Qed.

(** ** The reports of the runs *)

Definition reported (r : dict) (items : list (string * (list dict * list dict))) : Prop :=
  ∃ id ss ts rs, (id, (ss, ts)) ∈ items ∧ run_reasons id ss ts = Ok rs ∧
                 r = run_record id ss ts rs.

Lemma audit_runs_reported items rep rep' :
  res_foldl audit_run rep items = Ok rep' →
  ∀ r, r ∈ runs rep' → r ∈ runs rep ∨ reported r items.
Proof.
  revert rep. induction items as [|[id [ss ts]] items IH]; cbn [res_foldl]; intros rep H r Hr.
  - injection H as <-. by left.
  - apply bind_ok in H as (rep1 & H1 & H). unfold audit_run in H1.
    apply bind_ok in H1 as (rs & Hrs & [= <-]).
    destruct (IH _ H r Hr) as [Hin|(i & s & t & x & Hin & ? & ?)]; cbn [runs] in *.
    + apply elem_of_app in Hin as [?|Hin]; [by left|]. apply list_elem_of_singleton in Hin as ->.
      right. exists id, ss, ts, rs. split_and!; [left|done|done].
    + right. exists i, s, t, x. split_and!; [by right|done|done].
Qed.

(** A run that is neither invalid nor orphaned has one start and one
    terminal event and no reason against it. *)
Lemma audit_runs_clean items rep rep' :
  res_foldl audit_run rep items = Ok rep' →
  invalid_runs rep' = [] → orphaned_runs rep' = [] →
  invalid_runs rep = [] ∧ orphaned_runs rep = [] ∧
  ∀ id ss ts, (id, (ss, ts)) ∈ items → ss ≠ [] ∨ ts ≠ [] →
  ∃ s t, ss = [s] ∧ ts = [t] ∧ pair_reasons id s t = Ok [].
Proof.
  revert rep. induction items as [|[id [ss ts]] items IH]; cbn [res_foldl]; intros rep H Hi Ho.
  - injection H as <-. split_and!; [done..|]. by intros ? ? ? ?%elem_of_nil.
  - apply bind_ok in H as (rep1 & H1 & H). unfold audit_run in H1.
    apply bind_ok in H1 as (rs & Hrs & [= <-]).
    destruct (IH _ H Hi Ho) as (Hi1 & Ho1 & Hall). cbn [invalid_runs orphaned_runs] in *.
    apply app_nil in Hi1 as [Hi1 Hrs0]. apply app_nil in Ho1 as [Ho1 Hor].
    split_and!; [done..|]. intros id' ss' ts' [[= -> -> ->]|Hin]%elem_of_cons Hne;
      [|by apply (Hall id' ss' ts')].
    destruct rs as [|x rs]; [|done]. unfold run_reasons in Hrs. apply bind_ok in Hrs as (pr & Hpr & [= Hc]).
    apply app_nil in Hc as [Hc ->]. unfold count_reasons in Hc. apply app_nil in Hc as [Hs Ht].
    destruct ss as [|s [|]]; try done. destruct ts as [|t [|]]; try done. by exists s, t.
Qed.

Lemma sorted_items_elem {A} (m : gmap string A) k x :
  (k, x) ∈ sorted_items m ↔ m !! k = Some x.
Proof.
  unfold sorted_items. rewrite merge_sort_Permutation. apply elem_of_map_to_list.
Qed.

Lemma find_run_spec t id es ss ts :
  res_foldl (find_event t id) ([], []) es = Ok (ss, ts) →
  (ss, ts) = group_of es id ∧ Forall (λ e, get e "task_id" = JStr t) (ss ++ ts).
Proof.
  revert ss ts. induction es as [|e es IH] using rev_ind; intros ss ts H.
  - injection H as <- <-. by split.
  - rewrite res_foldl_app in H. apply bind_ok in H as ([ss0 ts0] & H0 & H).
    destruct (IH _ _ H0) as [E0 Hf]. unfold group_of in E0. injection E0 as -> ->.
    cbn [res_foldl] in H. apply bind_ok in H as (p & He & H). injection H as H. subst p.
    rewrite group_of_snoc. unfold find_event in He.
    destruct (negb (is_dict (get e "payload")) || py_neq (event_run_id e) (JStr id)) eqn:Erel.
    { injection He as <- <-. assert (Hn : ∀ b, is_run_event id b e = false).
      { intros b. unfold is_run_event. destruct (py_eq (event_run_id e) (JStr id)) eqn:E; [|done].
        apply py_eq_str in E. unfold py_neq in Erel. rewrite E, (proj2 (py_eq_str _ _)) in Erel by done.
        unfold event_run_id in E. by destruct (get e "payload"). }
      rewrite !Hn, !app_nil_r. done. }
    apply orb_false_iff in Erel as [_ Erun]. rewrite py_neq_str in Erun.
    apply bind_ok in He as (rel & Hrel%lifecycle_action_ok & He).
    assert (Hr : ∀ b, is_run_event id b e =
      if b then py_eq (get e "action") (JStr "verification.started") else is_terminal (get e "action")).
    { intros b. unfold is_run_event. by rewrite Erun, (proj2 (py_eq_str _ _)). }
    rewrite !Hr. destruct (py_eq (get e "action") (JStr "verification.started")) eqn:Es.
    + rewrite (started_not_terminal _ Es). subst rel. cbn [orb negb] in He.
      apply bind_ok in He as ([] & Ht & [= <- <-]). apply raise_if_ok, py_neq_str in Ht.
      rewrite app_nil_r. split; [done|]. cbn [fst snd] in *.
      rewrite !Forall_app in *. split_and!; [apply Hf|by constructor|apply Hf].
    + cbn [orb] in Hrel. subst rel. destruct (is_terminal (get e "action")); cbn [negb] in He.
      * apply bind_ok in He as ([] & Ht & [= <- <-]). apply raise_if_ok, py_neq_str in Ht.
        rewrite app_nil_r. split; [done|]. rewrite !Forall_app in *.
        split_and!; [apply Hf..|by constructor].
      * injection He as <- <-. rewrite !app_nil_r. done.
Qed.

Lemma run_record_get id ss ts rs :
  get (run_record id ss ts rs) "run_id" = JStr id ∧
  get (run_record id ss ts rs) "valid" = JBool (is_nil rs).
Proof. split; reflexivity. Qed.

(** What acceptance means: the run's events in the ledger, all of them. *)
Lemma require_inv es t id te s :
  require_authoritative_verification_terminal es t id te = Ok s →
  ∃ x, run_events id true es = [s] ∧ run_events id false es = [x] ∧
  py_eq (JObj x) (JObj te) = true ∧ get s "task_id" = JStr t ∧ get x "task_id" = JStr t ∧
  pair_reasons id s x = Ok [] ∧ run_id_ok id = true.
Proof.
  unfold require_authoritative_verification_terminal. intros H.
  apply bind_ok in H as (id' & Hid & H). cbn [validate_verification_run_id] in Hid.
  destruct (run_id_ok id) eqn:Hok; [|done]. clear Hid.
  apply bind_ok in H as ([st ts] & Hf & H). unfold find_verification_run in Hf.
  apply bind_ok in Hf as ([ss ts'] & Hf & Hf'). apply find_run_spec in Hf as [E Hall].
  unfold group_of in E. injection E as -> ->.
  apply bind_ok in Hf' as (u & Hlen%raise_if_ok & Hf'). apply bind_ok in Hf' as (rs & _ & Hf').
  apply bind_ok in Hf' as (u' & _ & [= <- <-]).
  destruct (run_events id true es) as [|s' [|]] eqn:Es; [done| |done]. cbn [head] in H.
  destruct (run_events id false es) as [|x [|]] eqn:Et; [done| |done].
  apply bind_ok in H as (u'' & Hx%raise_if_ok & H). rewrite py_neq_false in Hx.
  apply bind_ok in H as (a & Ha & H).
  destruct (List.filter _ _) as [|r [|]] eqn:Efil; [done| |done].
  destruct (negb (is_true (get r "valid")) || _ || _ || _) eqn:Hbad; [done|]. injection H as <-.
  bool_split. exists x. apply Forall_app in Hall as [Hs Ht].
  rewrite Forall_singleton in Hs, Ht.
  split_and!; try done.
  assert (Hr : r ∈ runs (audit_report a) ∧ get r "run_id" = JStr id).
  { assert (In r [r]) as Hin by (by left). rewrite <- Efil in Hin.
    apply filter_In in Hin as [Hin E]. bool_split. rewrite list_elem_of_In.
    split; [done|]. by apply py_eq_str. }
  destruct Hr as [Hr Eid]. unfold audit_verification_runs in Ha.
  apply bind_ok in Ha as (g & Hg & Ha). apply bind_ok in Ha as (rep & Hrep & [= <-]).
  destruct (audit_runs_reported _ _ _ Hrep r Hr) as [Hn|(i & ss & ts & rs' & Hin & Hrs & ->)];
    [by apply elem_of_nil in Hn|].
  destruct (run_record_get i ss ts rs') as [Ei Ev]. rewrite Ei in Eid. injection Eid as ->.
  apply sorted_items_elem, (group_events_keys es g) in Hin as (_ & E & _); [|done].
  unfold group_of in E. rewrite Es, Et in E. injection E as -> ->.
  rewrite Ev in *. destruct rs'; [|done]. unfold run_reasons in Hrs. cbn [the_one] in Hrs.
  apply bind_ok in Hrs as (pr & Hpr & [= E]). cbn in E. by subst pr.
Qed.

Lemma pair_reasons_later id s x :
  pair_reasons id s x = Ok [] →
  is_int (get x "sequence") = true ∧
  py_le (get x "sequence") (get_or s "sequence" (JInt 0)) = Ok false.
Proof.
  unfold pair_reasons. intros Hp.
  apply bind_ok in Hp as (? & _ & Hp). apply bind_ok in Hp as (? & _ & Hp).
  apply bind_ok in Hp as (late & Hl & Hp). apply bind_ok in Hp as (? & _ & Hp).
  apply bind_ok in Hp as (? & _ & [= Hp]). apply app_nil in Hp as [_ Hp].
  apply app_nil in Hp as [->%reason_if_nil _]. by destruct (is_int (get x "sequence")).
Qed.

(** C16: [require_authoritative_verification_terminal] accepts only when the
    ledger holds, for the run, one started event and one terminal event and no
    other, both of the task and the terminal later in the sequence, and
    returns that start. *)
Theorem authoritative_terminal_unique es t id te s :
  require_authoritative_verification_terminal es t id te = Ok s →
  ∃ x, run_events id true es = [s] ∧ run_events id false es = [x] ∧
  py_eq (JObj x) (JObj te) = true ∧ get s "task_id" = JStr t ∧ get x "task_id" = JStr t ∧
  is_int (get x "sequence") = true ∧
  py_le (get x "sequence") (get_or s "sequence" (JInt 0)) = Ok false.
Proof.
  intros (x & ? & ? & ? & ? & ? & Hp & _)%require_inv. apply pair_reasons_later in Hp as [? ?].
  exists x. split_and!; done.
Qed.

(** acceptance is fail-closed: once a further terminal or started event of
    an accepted run is in the ledger, no terminal of that run is accepted. *)
Theorem later_conflict_rejects es t id te s e b :
  require_authoritative_verification_terminal es t id te = Ok s →
  is_run_event id b e = true →
  ∀ t' te', is_ok (require_authoritative_verification_terminal (es ++ [e]) t' id te') = false.
Proof.
  intros (x & Hs & Ht & _)%require_inv He t' te'.
  destruct (require_authoritative_verification_terminal (es ++ [e]) t' id te') as [s'|] eqn:E; [|done].
  apply require_inv in E as (x' & Hs' & Ht' & _).
  rewrite run_events_snoc, Hs in Hs'. rewrite run_events_snoc, Ht in Ht'.
  destruct b; rewrite He in *; done.
Qed.

(** an accepted [task.verified] terminal was signed by the actor that
    started the run, carries the task in state [verified] for this run, and its
    verification agrees with the start on the verifier's identity, the
    evidence manifests, the contract inputs and the capability receipt, which
    is bound to this actor, task, run and attempt. *)
Theorem accepted_verified_is_bound es t id te s :
  require_authoritative_verification_terminal es t id te = Ok s →
  get te "action" = JStr "task.verified" →
  ∃ x p sp task v e, run_events id false es = [x] ∧ py_eq (JObj x) (JObj te) = true ∧
  get_or x "payload" (JObj ∅) = JObj p ∧ get_or s "payload" (JObj ∅) = JObj sp ∧
  get p "task" = JObj task ∧ get task "verification" = JObj v ∧
  get v "verifier_evidence" = JObj e ∧
  py_eq (get x "actor") (get s "actor") = true ∧
  get task "state" = JStr "verified" ∧ py_eq (get task "id") (get s "task_id") = true ∧
  get v "run_id" = JStr id ∧
  py_eq (get v "verifier_identity") (get sp "verifier_identity") = true ∧
  py_eq (get e "manifest_sha256") (get sp "verifier_manifest_sha256") = true ∧
  py_eq (get v "worker_manifest_sha256") (get sp "worker_manifest_sha256") = true ∧
  py_eq (get v "verification_contract_inputs_sha256")
        (get sp "verification_contract_inputs_sha256") = true ∧
  py_eq (get v "capability_receipt") (get sp "capability_receipt") = true ∧
  _receipt_is_bound (get sp "capability_receipt") (get s "actor") "task.verify"
    (get s "task_id") (get sp "run_id") (get sp "task_attempt") = true.
Proof.
  intros (x & Hs & Ht & Hx & _ & _ & Hp & _)%require_inv Ha. exists x.
  assert (Hax : get x "action" = JStr "task.verified").
  { rewrite py_eq_obj in Hx. specialize (Hx "action"). unfold get in *.
    destruct (te !! "action"), (x !! "action"); cbn in *; try done. subst. by apply py_eq_str. }
  unfold pair_reasons in Hp. rewrite Hax in Hp.
  apply bind_ok in Hp as (sp & Hsp & Hp). apply bind_ok in Hp as (p & Hpp & Hp).
  apply bind_ok in Hp as (late & _ & Hp). cbn [in_strings mbind res_bind] in Hp.
  rewrite bool_decide_eq_true_2 in Hp by by_compute.
  apply bind_ok in Hp as (bind & Hb & [= Hp]).
  apply app_nil in Hp as [_ Hp]. apply app_nil in Hp as [_ Hp]. apply app_nil in Hp as [_ Hp].
  apply app_nil in Hp as [Hd ->]. change (py_eq (JStr "task.verified") (JStr "task.verified")) with true in Hd.
  destruct (get p "task") as [| | | | | |task] eqn:Etask; try done.
  apply app_nil in Hd as [Hid Hd]. apply app_nil in Hd as [Hst Hrun].
  apply reason_if_nil in Hid, Hst, Hrun.
  unfold _verification_binding_reasons in Hb. rewrite Hax, Hsp, Hpp in Hb.
  cbn [in_strings mbind res_bind] in Hb. rewrite bool_decide_eq_true_2 in Hb by by_compute.
  cbn [orb] in Hb. injection Hb as Hb. apply app_nil in Hb as [Hstart Hdec].
  apply app_nil in Hstart as [Hrec%reason_if_nil _].
  unfold decision_reasons in Hdec. rewrite Etask in Hdec.
  apply app_nil in Hdec as [Hact%reason_if_nil Hdec].
  destruct (get task "verification") as [| | | | | |v] eqn:Ev; try done.
  apply app_nil in Hdec as [Hident%reason_if_nil Hdec]. apply app_nil in Hdec as [Hman Hdec].
  apply app_nil in Hdec as [Hwork%reason_if_nil Hdec].
  apply app_nil in Hdec as [Hcon%reason_if_nil Hdec]. apply app_nil in Hdec as [Hcap%reason_if_nil _].
  destruct (get v "verifier_evidence") as [| | | | | |e] eqn:Ee; try done.
  destruct (py_neq (get e "manifest_sha256") _ || _) eqn:Hm; [done|].
  exists p, sp, task, v, e.
  unfold as_dict in Hsp, Hpp. destruct (get_or s _ _), (get_or x _ _); try done.
  injection Hsp as <-. injection Hpp as <-. bool_split. rewrite py_neq_false in *.
  rewrite <- !(py_eq_str). split_and!; done.
Qed.

(** an audit that reports no problem saw, for every run any event belongs
    to, exactly one start and one terminal event that fit together: no run is
    orphaned, doubled or in conflict. *)
Theorem audit_valid_runs_complete es a id b e :
  audit_verification_runs es = Ok a → audit_valid a = true →
  run_id_ok id = true → e ∈ es → is_run_event id b e = true →
  ∃ s x, run_events id true es = [s] ∧ run_events id false es = [x] ∧
  pair_reasons id s x = Ok [].
Proof.
  unfold audit_verification_runs. intros Ha Hv Hid He Hr.
  apply bind_ok in Ha as (g & Hg & Ha). apply bind_ok in Ha as (rep & Hrep & [= <-]).
  cbn [audit_valid] in Hv. apply andb_true_iff in Hv as [Hv Ho]. apply andb_true_iff in Hv as [_ Hi].
  rewrite is_nil_true in Hi. rewrite is_nil_true in Ho.
  destruct (audit_runs_clean _ _ _ Hrep Hi Ho) as (_ & _ & Hall).
  assert (Hin : e ∈ run_events id b es).
  { apply list_elem_of_In, filter_In. split; [by apply list_elem_of_In|done]. }
  pose proof (group_events_spec es g Hg id Hid) as Hgrp.
  assert (Hne : run_events id true es ≠ [] ∨ run_events id false es ≠ []).
  { destruct b; [left|right]; intros E; rewrite E in Hin; by apply elem_of_nil in Hin. }
  apply (Hall id); [|done]. apply sorted_items_elem.
  destruct (grouped g !! id) as [p|]; cbn in Hgrp.
  - by rewrite Hgrp.
  - unfold group_of in Hgrp. injection Hgrp as Ht Hf. rewrite <- Ht, <- Hf in Hne. by destruct Hne.
Qed.

(** ** A concrete run *)

Definition run_1 : string := "00112233445566778899aabbccddeeff".
Definition digest_1 : string :=
  "ba7816bf8f01cfea414140de5dae2223b00361a396177a9cb410ff61f20015ad".

Definition receipt_1 : json := jobj
  [("schema_version", JInt 2); ("receipt_type", JStr "actor-capability-consumption");
   ("actor", JStr "codex"); ("operation", JStr "task.verify"); ("task_id", JStr "T-1");
   ("run_id", JStr run_1); ("task_attempt", JInt 1); ("nonce_sha256", JStr digest_1);
   ("signature", JStr "sig"); ("independent_trust_root", JBool false);
   ("actor_os_isolation_proven", JBool false);
   ("os_principal_attestation", jobj [("independent_trust_root", JBool false);
                                      ("actor_os_isolation_proven", JBool false)])].

Definition identity_1 : json := jobj [("actor", JStr "codex")].

Definition context_1 : list (string * json) :=
  [("capability_receipt", receipt_1); ("verifier_identity", identity_1);
   ("worker_manifest_sha256", JStr digest_1);
   ("verification_contract_inputs_sha256", JStr digest_1)].

Definition evidence_1 : json :=
  jobj [("manifest_sha256", JStr digest_1); ("executor_attestation", JObj ∅)].
Definition trusted_1 : json := jobj [("validation_contract_sha256", JStr digest_1)].

Definition start_1 : dict := dict_of
  [("sequence", JInt 5); ("actor", JStr "codex"); ("action", JStr "verification.started");
   ("task_id", JStr "T-1");
   ("payload", jobj (context_1 ++ [("run_id", JStr run_1); ("task_attempt", JInt 1);
      ("verifier_manifest_sha256", JStr digest_1)]))].

Definition task_1 : json := jobj
  [("id", JStr "T-1"); ("state", JStr "verified"); ("attempt", JInt 1);
   ("verification", jobj (context_1 ++ [("run_id", JStr run_1);
      ("verifier_evidence", evidence_1); ("trusted_validation", trusted_1)]))].

Definition terminal_1 : dict := dict_of
  [("sequence", JInt 6); ("actor", JStr "codex"); ("action", JStr "task.verified");
   ("task_id", JStr "T-1");
   ("payload", jobj (context_1 ++ [("run_id", JStr run_1); ("task", task_1);
      ("verifier_evidence", evidence_1); ("trusted_validation", trusted_1)]))].

Definition run_log : list dict := [start_1; terminal_1].

Lemma run_log_accepted :
  ∃ s, require_authoritative_verification_terminal run_log "T-1" run_1 terminal_1 = Ok s.
Proof.
  assert (is_ok (require_authoritative_verification_terminal run_log "T-1" run_1 terminal_1)
    = true) as H by (vm_compute; reflexivity).
  destruct (require_authoritative_verification_terminal _ _ _ _) as [s|]; [by exists s|done].
Qed.

Theorem authoritative_terminal_unique_witness :
  ∃ s x, run_events run_1 true run_log = [s] ∧ run_events run_1 false run_log = [x].
Proof.
  destruct run_log_accepted as [s Hs].
  destruct (authoritative_terminal_unique run_log "T-1" run_1 terminal_1 s Hs) as (x & ? & ? & _).
  exists s, x. split; assumption.
Defined.

Theorem later_conflict_rejects_witness :
  is_ok (require_authoritative_verification_terminal (run_log ++ [start_1]) "T-1" run_1 terminal_1)
  = false.
Proof.
  destruct run_log_accepted as [s Hs].
  exact (later_conflict_rejects run_log "T-1" run_1 terminal_1 s start_1 true Hs
    ltac:(vm_compute; reflexivity) "T-1" terminal_1).
Defined.

Theorem accepted_verified_is_bound_witness :
  ∃ x p, run_events run_1 false run_log = [x] ∧ get_or x "payload" (JObj ∅) = JObj p.
Proof.
  destruct run_log_accepted as [s Hs].
  destruct (accepted_verified_is_bound run_log "T-1" run_1 terminal_1 s Hs
    ltac:(vm_compute; reflexivity)) as (x & p & ? & ? & ? & ? & ? & _ & ? & _).
  exists x, p. split; assumption.
Defined.

Theorem audit_valid_runs_complete_witness :
  ∃ s x, run_events run_1 true run_log = [s] ∧ pair_reasons run_1 s x = Ok [].
Proof.
  set (a := audit_verification_runs run_log).
  assert (match a with Ok r => audit_valid r | Err _ => false end = true) as H
    by (vm_compute; reflexivity).
  destruct a as [r|] eqn:E; [|discriminate H].
  destruct (audit_valid_runs_complete run_log r run_1 true start_1 E H
    ltac:(vm_compute; reflexivity) ltac:(left) ltac:(vm_compute; reflexivity)) as (s & x & ? & _ & ?).
  exists s, x. split; assumption.
Defined.
