(* ===== verification/VerifierJournal.v ===== *)
(** * The verifier's crash-safe journal ([verifier_journal.py])

    One JSON record per dispatch, moved through a fixed state machine, and one
    exclusive claim marker per dispatch.  The journal is the files of its
    directory; every access may fail or be cut short by a crash, as an oracle
    of the environment decides. *)

From S2P Require Export Disk Wire Lifecycle.

Definition JOURNAL_ID : string := "cogni-os.verifier-journal.v1".
Definition JOURNAL_SCHEMA_VERSION : Z := 1.
Definition MAX_JOURNAL_RECORD_BYTES : Z := 4096.
Definition MAX_JOURNAL_RECORDS : Z := 4096.
Definition MAX_DIRECTORY_ENTRIES_SCANNED : Z := MAX_JOURNAL_RECORDS * 3 + 32.
Definition MAX_TASK_ID_BYTES : Z := 80.
Definition MAX_ACTOR_BYTES : Z := 50.
Definition MAX_FAILURE_CODE_BYTES : Z := 64.
Definition MAX_QUARANTINE_REASON_BYTES : Z := 512.
Definition MAX_ATTEMPT : Z := 1000000.
Definition MAX_NS : Z := 2 ^ 63 - 1.

(** [_TASK_ID_RE], [_ACTOR_RE] and [_FAILURE_CODE_RE] *)
Definition journal_task_ok (s : string) : bool := re_ident is_alnum ident_char 79 s.
Definition lower_first (c : ascii) : bool := is_digit c || is_lower c.
Definition journal_actor_ok (s : string) : bool := re_ident lower_first lower_ident_char 49 s.
Definition failure_code_ok (s : string) : bool := re_ident lower_first lower_ident_char 63 s.

(** ** States *)

Inductive state :=
  | REQUESTED | CLAIMED | SOURCE_VERIFIED | SNAPSHOT_ACQUIRED | EXECUTING | EXECUTION_SEALED
  | RELEASE_PENDING | CLEANUP_ACKED | RECEIPT_PERSISTED | TERMINAL_APPENDED | DONE
  | FAILED | QUARANTINED | CRASH_ABORTED | FAILED_CLEANUP_REQUIRED.

#[export] Instance state_eq_dec : EqDecision state.
Proof. solve_decision. Defined.

(** [ALL_STATES] *)
Definition ALL_STATES : list state :=
  [REQUESTED; CLAIMED; SOURCE_VERIFIED; SNAPSHOT_ACQUIRED; EXECUTING; EXECUTION_SEALED;
   RELEASE_PENDING; CLEANUP_ACKED; RECEIPT_PERSISTED; TERMINAL_APPENDED; DONE; FAILED;
   QUARANTINED; CRASH_ABORTED; FAILED_CLEANUP_REQUIRED].

Definition state_name (s : state) : string :=
  match s with
  | REQUESTED => "REQUESTED" | CLAIMED => "CLAIMED" | SOURCE_VERIFIED => "SOURCE_VERIFIED"
  | SNAPSHOT_ACQUIRED => "SNAPSHOT_ACQUIRED" | EXECUTING => "EXECUTING"
  | EXECUTION_SEALED => "EXECUTION_SEALED" | RELEASE_PENDING => "RELEASE_PENDING"
  | CLEANUP_ACKED => "CLEANUP_ACKED" | RECEIPT_PERSISTED => "RECEIPT_PERSISTED"
  | TERMINAL_APPENDED => "TERMINAL_APPENDED" | DONE => "DONE" | FAILED => "FAILED"
  | QUARANTINED => "QUARANTINED" | CRASH_ABORTED => "CRASH_ABORTED"
  | FAILED_CLEANUP_REQUIRED => "FAILED_CLEANUP_REQUIRED"
  end.

Definition state_of (s : string) : option state :=
  find_first (λ t, bool_decide (state_name t = s)) ALL_STATES.

Definition FAILURE_STATES : list state := [FAILED; QUARANTINED; CRASH_ABORTED; FAILED_CLEANUP_REQUIRED].
Definition TERMINAL_STATES : list state := [DONE; FAILED; QUARANTINED].

Definition ALLOWED_TRANSITIONS (s : state) : list state :=
  match s with
  | REQUESTED => [CLAIMED; FAILED; QUARANTINED]
  | CLAIMED => [SOURCE_VERIFIED; FAILED; QUARANTINED]
  | SOURCE_VERIFIED => [SNAPSHOT_ACQUIRED; FAILED; QUARANTINED]
  | SNAPSHOT_ACQUIRED => [EXECUTING]
  | EXECUTING => [EXECUTION_SEALED]
  | EXECUTION_SEALED | CRASH_ABORTED | FAILED_CLEANUP_REQUIRED => [RELEASE_PENDING]
  | RELEASE_PENDING => [CLEANUP_ACKED]
  | CLEANUP_ACKED => [RECEIPT_PERSISTED; QUARANTINED]
  | RECEIPT_PERSISTED => [TERMINAL_APPENDED; QUARANTINED]
  | TERMINAL_APPENDED => [DONE; QUARANTINED]
  | DONE | FAILED | QUARANTINED => []
  end.

(** The states that carry the failure code of an earlier one. *)
Definition failure_carry_states : list state :=
  [RELEASE_PENDING; CLEANUP_ACKED; RECEIPT_PERSISTED; TERMINAL_APPENDED; DONE].

(** ** Records *)

Definition _RECORD_KEYS : list string :=
  ["schema_version"; "journal_id"; "dispatch_event_hash"; "task_id"; "attempt"; "actor"; "run_id";
   "state"; "previous_state"; "revision"; "created_at_ns"; "updated_at_ns"; "failure_code";
   "quarantine_reason"].
Definition _CLAIM_KEYS : list string :=
  ["schema_version"; "journal_id"; "dispatch_event_hash"; "task_id"; "attempt"; "actor"; "run_id";
   "claimed_at_ns"].

(** The identifiers of a dispatch, which every record of it repeats. *)
Record identity := Identity {
  i_dispatch : string; i_task : string; i_attempt : Z; i_actor : string; i_run : string
}.

#[export] Instance identity_eq_dec : EqDecision identity.
Proof. solve_decision. Defined.

(** [VerifierJournalRecord]; the version and the journal's name are constant. *)
Record VerifierJournalRecord := JournalRecord {
  r_id : identity; r_state : state; r_previous : option state; r_revision : Z;
  r_created : Z; r_updated : Z; r_failure : option string; r_reason : option string
}.

Record VerifierJournalClaim := JournalClaim {
  claim_record : VerifierJournalRecord; new_dispatch : bool; claim_acquired : bool
}.

Definition opt_str (o : option string) : json := match o with Some s => JStr s | None => JNull end.

Definition as_dict (r : VerifierJournalRecord) : dict := dict_of
  [("schema_version", JInt JOURNAL_SCHEMA_VERSION); ("journal_id", JStr JOURNAL_ID);
   ("dispatch_event_hash", JStr (i_dispatch (r_id r))); ("task_id", JStr (i_task (r_id r)));
   ("attempt", JInt (i_attempt (r_id r))); ("actor", JStr (i_actor (r_id r)));
   ("run_id", JStr (i_run (r_id r))); ("state", JStr (state_name (r_state r)));
   ("previous_state", opt_str (state_name <$> r_previous r)); ("revision", JInt (r_revision r));
   ("created_at_ns", JInt (r_created r)); ("updated_at_ns", JInt (r_updated r));
   ("failure_code", opt_str (r_failure r)); ("quarantine_reason", opt_str (r_reason r))].

Definition terminal (r : VerifierJournalRecord) : bool := bool_decide (r_state r ∈ TERMINAL_STATES).
Definition release_retry_required (r : VerifierJournalRecord) : bool :=
  bool_decide (r_state r ∈ [CRASH_ABORTED; FAILED_CLEANUP_REQUIRED; RELEASE_PENDING]).

Notation journal_error := VerifierJournalError.

Definition _canonical_json_bytes (value : dict) : res string :=
  let encoded := canonical_json (JObj value) +:+ newline in
  _ ← raise_if (negb (finite (JObj value) && utf8_valid encoded)) journal_error
        "Journal value is not canonical JSON";
  _ ← raise_if (MAX_JOURNAL_RECORD_BYTES <? Z.of_nat (String.length encoded)) journal_error
        "Journal record exceeds the fixed size limit";
  Ok encoded.

Definition _validate_utf8_identifier (value : json) (name : string) (maximum_bytes : Z)
    (pattern : string → bool) : res string :=
  match value with
  | JStr s =>
      _ ← raise_if (negb (pattern s)) journal_error ("Invalid " +:+ name);
      _ ← raise_if (maximum_bytes <? Z.of_nat (String.length s)) journal_error
            (name +:+ " exceeds its fixed size limit");
      Ok s
  | _ => raise journal_error ("Invalid " +:+ name)
  end.

(** Text whose encoding fails raises [UnicodeEncodeError], which is not
    caught. *)
Definition _validate_optional_text (value : json) (name : string) (maximum_bytes : Z)
    : res (option string) :=
  match value with
  | JNull => Ok None
  | JStr s =>
      _ ← raise_if (bool_decide (s = "")) journal_error ("Invalid " +:+ name);
      _ ← raise_if (negb (utf8_valid s)) UnicodeError "surrogates not allowed";
      _ ← raise_if (maximum_bytes <? Z.of_nat (String.length s)) journal_error
            (name +:+ " exceeds its fixed size limit");
      _ ← raise_if (negb (all_chars (λ c, (32 <=? code c)%N) s)) journal_error
            (name +:+ " contains a control character");
      Ok (Some s)
  | _ => raise journal_error ("Invalid " +:+ name)
  end.

Definition _validate_dispatch_hash (value : json) : res string :=
  match value with
  | JStr s => if sha256_ok s then Ok s
              else raise journal_error "dispatch_event_hash must be 64 lowercase hexadecimal characters"
  | _ => raise journal_error "dispatch_event_hash must be 64 lowercase hexadecimal characters"
  end.

Definition validate_attempt (value : json) : res Z :=
  match value with
  | JInt z => _ ← raise_if ((z <? 1) || (MAX_ATTEMPT <? z)) journal_error
                    "attempt is outside the fixed range";
              Ok z
  | _ => raise journal_error "attempt must be an integer"
  end.

Definition validate_identity (value : dict) : res identity :=
  dispatch_hash ← _validate_dispatch_hash (get value "dispatch_event_hash");
  task_id ← _validate_utf8_identifier (get value "task_id") "task_id" MAX_TASK_ID_BYTES journal_task_ok;
  actor ← _validate_utf8_identifier (get value "actor") "actor" MAX_ACTOR_BYTES journal_actor_ok;
  run_id ← _validate_utf8_identifier (get value "run_id") "run_id" 32 run_id_ok;
  attempt ← validate_attempt (get value "attempt");
  Ok (Identity dispatch_hash task_id attempt actor run_id).

Definition validate_state (value : json) : res state :=
  res_of_option (Exn journal_error "Unknown verifier journal state")
    match value with JStr s => state_of s | _ => None end.

Definition validate_ns (value : json) (name : string) : res Z :=
  match value with
  | JInt z => _ ← raise_if (z <? 0) journal_error (name +:+ " must be a non-negative integer");
              _ ← raise_if (MAX_NS <? z) journal_error (name +:+ " exceeds its fixed range");
              Ok z
  | _ => raise journal_error (name +:+ " must be a non-negative integer")
  end.

(** The failure metadata a state must and may carry. *)
Definition validate_failure (state : state) (failure_code quarantine_reason : option string) : res unit :=
  _ ← raise_if (bool_decide (state ∈ [FAILED; CRASH_ABORTED; FAILED_CLEANUP_REQUIRED])
                && bool_decide (failure_code = None)) journal_error
        "Failure state requires failure_code";
  _ ← raise_if (bool_decide (state = QUARANTINED)
                && (bool_decide (failure_code = None) || bool_decide (quarantine_reason = None)))
        journal_error "QUARANTINED requires failure_code and quarantine_reason";
  _ ← raise_if (negb (bool_decide (state ∈ FAILURE_STATES ++ failure_carry_states))
                && negb (bool_decide (failure_code = None))) journal_error
        "State cannot carry failure metadata";
  raise_if (negb (bool_decide (state = QUARANTINED)) && negb (bool_decide (quarantine_reason = None)))
    journal_error "Non-quarantine failure carries a reason".

Definition _validate_record (value : json) : res VerifierJournalRecord :=
  match value with
  | JObj d =>
      _ ← raise_if (negb (exact_keys d _RECORD_KEYS)) journal_error
            "Verifier journal record schema is not exact";
      _ ← raise_if (py_neq (get d "schema_version") (JInt JOURNAL_SCHEMA_VERSION)) journal_error
            "Unsupported verifier journal schema version";
      _ ← raise_if (py_neq (get d "journal_id") (JStr JOURNAL_ID)) journal_error
            "Unexpected verifier journal identifier";
      id ← validate_identity d;
      state ← validate_state (get d "state");
      previous_state ← (if is_null (get d "previous_state") then Ok None
                        else Some <$> validate_state (get d "previous_state"));
      revision ← validate_ns (get d "revision") "revision";
      created_at_ns ← validate_ns (get d "created_at_ns") "created_at_ns";
      updated_at_ns ← validate_ns (get d "updated_at_ns") "updated_at_ns";
      _ ← raise_if (updated_at_ns <? created_at_ns) journal_error
            "Journal timestamps are not monotonic";
      _ ← raise_if ((revision =? 0) && negb (bool_decide (previous_state = None))) journal_error
            "Initial journal record has a previous state";
      _ ← raise_if ((0 <? revision) && bool_decide (previous_state = None)) journal_error
            "Updated journal record lacks a previous state";
      failure_code ← _validate_optional_text (get d "failure_code") "failure_code" MAX_FAILURE_CODE_BYTES;
      _ ← raise_if (match failure_code with Some c => negb (failure_code_ok c) | None => false end)
            journal_error "Invalid failure_code";
      quarantine_reason ← _validate_optional_text (get d "quarantine_reason") "quarantine_reason"
                            MAX_QUARANTINE_REASON_BYTES;
      _ ← validate_failure state failure_code quarantine_reason;
      Ok (JournalRecord id state previous_state revision created_at_ns updated_at_ns failure_code
            quarantine_reason)
  | _ => raise journal_error "Verifier journal record schema is not exact"
  end.

(** ** The directory and its environment *)

(** The files of the journal's directory by name, and the number of accesses
    and clock readings so far. *)
Record journal := Journal { j_files : gmap string string; j_tick : nat }.

(** The clock, the outcomes of the accesses and the drawn names, by the number
    of the access. *)
Record environment := Environment {
  clock_ns : nat → Z;
  io : nat → access;
  (** the random part of a temporary file's name *)
  uuid4_hex : nat → string
}.

(** [_record_name], [_claim_name] and the temporary name of [_replace]. *)
Definition _record_name (dispatch_event_hash : string) : string := dispatch_event_hash +:+ ".json".
Definition _claim_name (dispatch_event_hash : string) : string := dispatch_event_hash +:+ ".claim".
Definition temp_name (name hex : string) : string := "." +:+ name +:+ "." +:+ hex +:+ ".tmp".

(** [name.endswith(".json") and _HEX_64_RE.fullmatch(name[:-5])] *)
Definition is_record_name (name : string) : bool :=
  ends_with ".json" name && sha256_ok (String.substring 0 (String.length name - 5) name).

Section VerifierJournal.
Context (env : environment).

Notation J := (M journal).

Definition tick : J nat := λ j, (Ok (j_tick j), Journal (j_files j) (S (j_tick j))).
Definition set_file (name content : string) : J unit :=
  modifyM (λ j, Journal (<[name := content]> (j_files j)) (j_tick j)).

Definition _now_ns : J Z :=
  n ← tick;
  let value := clock_ns env n in
  _ ← raise_ifM ((value <? 0) || (MAX_NS <? value)) journal_error
        "Journal clock is outside its fixed range";
  mret value.

Definition _read_bounded (name : string) : J string :=
  n ← tick;
  match io env n with
  | Fault e _ => liftM (Err e)
  | Fine =>
      raw ← askM (λ j, res_of_option (Exn FileNotFoundError name) (j_files j !! name));
      _ ← raise_ifM (MAX_JOURNAL_RECORD_BYTES <? Z.of_nat (String.length raw)) journal_error
            "Journal entry exceeds the size limit";
      mret raw
  end.

(** The file is created exclusively, written and synchronised.  After an
    exception it is removed again, unless its removal fails too or the process
    is killed. *)
Definition _write_exclusive (name payload : string) : J unit :=
  n ← tick;
  existing ← readM (λ j, j_files j !! name);
  match io env n, existing with
  | Fault e Nothing, _ => liftM (Err e)
  | _, Some _ => raiseM FileExistsError name
  | Fine, None => set_file name payload
  | Fault e (Partial bytes), None =>
      _ ← set_file name (String.substring 0 bytes payload); liftM (Err e)
  | Fault e Whole, None => _ ← set_file name payload; liftM (Err e)
  end.

(** The payload is written to a temporary file, which then takes the place of
    the record.  A temporary file that an exception leaves is named like no
    other file of the journal. *)
Definition _replace (name payload : string) : J unit :=
  n ← tick;
  let temporary := temp_name name (uuid4_hex env n) in
  existing ← readM (λ j, j_files j !! temporary);
  match io env n, existing with
  | Fault e Nothing, _ => liftM (Err e)
  | _, Some _ => raiseM FileExistsError temporary
  | Fine, None => set_file name payload
  | Fault e (Partial bytes), None =>
      _ ← set_file temporary (String.substring 0 bytes payload); liftM (Err e)
  | Fault e Whole, None => _ ← set_file name payload; liftM (Err e)
  end.

Definition _bounded_directory_names : J (list string) :=
  n ← tick;
  match io env n with
  | Fault e _ => liftM (Err e)
  | Fine =>
      names ← readM (λ j, (map_to_list (j_files j)).*1);
      _ ← raise_ifM (MAX_DIRECTORY_ENTRIES_SCANNED <? Z.of_nat (length names)) journal_error
            "Journal directory scan exceeds its fixed limit";
      mret names
  end.

Definition _ensure_capacity_for_new_record : J unit :=
  names ← _bounded_directory_names;
  raise_ifM (MAX_JOURNAL_RECORDS <=? Z.of_nat (length (List.filter is_record_name names)))
    journal_error "Journal record count reached its limit".

(** ** Records on disk *)

Definition parse_json_exact (raw : string) (expected_keys : list string) : res dict :=
  _ ← raise_if (negb (ends_with newline raw)) journal_error
        "Journal JSON lacks its canonical newline";
  value ← (if utf8_valid raw
           then catch (json_loads raw) JSONDecodeError
                  (λ _, raise journal_error "Journal file is not valid UTF-8 JSON")
           else raise journal_error "Journal file is not valid UTF-8 JSON");
  match value with
  | JObj d =>
      _ ← raise_if (negb (exact_keys d expected_keys)) journal_error
            "Journal file schema is not exact";
      again ← _canonical_json_bytes d;
      _ ← raise_if (negb (bool_decide (again = raw))) journal_error
            "Journal file is not canonical JSON";
      Ok d
  | _ => raise journal_error "Journal file schema is not exact"
  end.

Definition _read_json_exact (name : string) (expected_keys : list string) : J dict :=
  raw ← _read_bounded name; liftM (parse_json_exact raw expected_keys).

(** What [load] makes of a record file's bytes. *)
Definition parse_record (dispatch_event_hash raw : string) : res VerifierJournalRecord :=
  value ← parse_json_exact raw _RECORD_KEYS;
  record ← _validate_record (JObj value);
  _ ← raise_if (negb (bool_decide (i_dispatch (r_id record) = dispatch_event_hash))) journal_error
        "Journal filename and dispatch hash disagree";
  Ok record.

Definition load (dispatch_event_hash : string) : J VerifierJournalRecord :=
  h ← liftM (_validate_dispatch_hash (JStr dispatch_event_hash));
  raw ← _read_bounded (_record_name h);
  liftM (parse_record h raw).

Fixpoint load_all (names : list string) : J (list VerifierJournalRecord) :=
  match names with
  | [] => mret []
  | name :: names =>
      r ← load (String.substring 0 (String.length name - 5) name);
      rs ← load_all names;
      mret (r :: rs)
  end.

Definition list_records : J (list VerifierJournalRecord) :=
  names ← _bounded_directory_names;
  let record_names := merge_sort String.le (List.filter is_record_name names) in
  _ ← raise_ifM (MAX_JOURNAL_RECORDS <? Z.of_nat (length record_names)) journal_error
        "Journal record count exceeds its limit";
  load_all record_names.

Definition _replace_record (record : VerifierJournalRecord) : J unit :=
  payload ← liftM (_canonical_json_bytes (as_dict record));
  _replace (_record_name (i_dispatch (r_id record))) payload.

Definition _next_record (current : VerifierJournalRecord) (new_state : state)
    (failure_code quarantine_reason : option string) : J VerifierJournalRecord :=
  now ← _now_ns;
  liftM (_validate_record (JObj (as_dict
    (JournalRecord (r_id current) new_state (Some (r_state current)) (r_revision current + 1)
       (r_created current) (Z.max (r_updated current) now)
       (match failure_code with Some c => Some c | None => r_failure current end)
       quarantine_reason)))).

(** ** Transitions *)

Definition transition (dispatch_event_hash new_state : string) (expected_revision : option Z)
    (failure_code quarantine_reason : option string) : J VerifierJournalRecord :=
  h ← liftM (_validate_dispatch_hash (JStr dispatch_event_hash));
  _ ← raise_ifM (bool_decide (state_of new_state ∈ [Some CRASH_ABORTED; Some FAILED_CLEANUP_REQUIRED]))
        journal_error "may only be written by recover()";
  current ← load h;
  _ ← raise_ifM (match expected_revision with
                 | Some z => negb (r_revision current =? z)
                 | None => false
                 end) journal_error "Journal revision changed concurrently";
  match state_of new_state with
  | Some s =>
      _ ← raise_ifM (negb (bool_decide (s ∈ ALLOWED_TRANSITIONS (r_state current)))) journal_error
            "Illegal verifier journal transition";
      updated ← _next_record current s failure_code quarantine_reason;
      _ ← _replace_record updated;
      mret updated
  | None => raiseM journal_error "Illegal verifier journal transition"
  end.

Definition mark_failed (dispatch_event_hash failure_code : string) : J VerifierJournalRecord :=
  transition dispatch_event_hash (state_name FAILED) None (Some failure_code) None.

Definition quarantine (dispatch_event_hash failure_code reason : string) : J VerifierJournalRecord :=
  transition dispatch_event_hash (state_name QUARANTINED) None (Some failure_code) (Some reason).

(** The state a restart gives a record and the code it writes. *)
Definition recovery_of (s : state) : option (state * string) :=
  match s with
  | EXECUTING => Some (CRASH_ABORTED, "verifier_crash_during_execution")
  | SNAPSHOT_ACQUIRED => Some (FAILED_CLEANUP_REQUIRED, "verifier_restart_after_snapshot")
  | _ => None
  end.

Definition recover (dispatch_event_hash : string) : J VerifierJournalRecord :=
  h ← liftM (_validate_dispatch_hash (JStr dispatch_event_hash));
  current ← load h;
  match recovery_of (r_state current) with
  | None => mret current
  | Some (recovery_state, failure_code) =>
      aborted ← _next_record current recovery_state (Some failure_code) None;
      _ ← _replace_record aborted;
      mret aborted
  end.

Fixpoint recover_each (records : list VerifierJournalRecord) : J (list VerifierJournalRecord) :=
  match records with
  | [] => mret []
  | r :: records =>
      r' ← recover (i_dispatch (r_id r));
      rs ← recover_each records;
      mret (r' :: rs)
  end.

Definition recover_all : J (list VerifierJournalRecord) :=
  records ← list_records; recover_each records.

(** ** Claims *)

(** [_validated_identity]: the identifiers as a fresh record would hold them. *)
Definition initial_record (id : identity) (now : Z) : VerifierJournalRecord :=
  JournalRecord id REQUESTED None 0 now now None None.
Definition _validated_identity (id : identity) : res identity :=
  record ← _validate_record (JObj (as_dict (initial_record id 0))); Ok (r_id record).

Definition marker_of (id : identity) (now : Z) : dict := dict_of
  [("schema_version", JInt JOURNAL_SCHEMA_VERSION); ("journal_id", JStr JOURNAL_ID);
   ("dispatch_event_hash", JStr (i_dispatch id)); ("task_id", JStr (i_task id));
   ("attempt", JInt (i_attempt id)); ("actor", JStr (i_actor id)); ("run_id", JStr (i_run id));
   ("claimed_at_ns", JInt now)].

Definition _validate_claim_marker (marker : dict) (id : identity) : res unit :=
  _ ← raise_if (py_neq (get marker "schema_version") (JInt JOURNAL_SCHEMA_VERSION)) journal_error
        "Unsupported claim marker schema version";
  _ ← raise_if (py_neq (get marker "journal_id") (JStr JOURNAL_ID)) journal_error
        "Unexpected claim marker identifier";
  _ ← validate_ns (get marker "claimed_at_ns") "claim marker timestamp";
  marker_id ← validate_identity marker;
  raise_if (negb (bool_decide (marker_id = id))) journal_error
    "Claim marker identity does not match dispatch".

(** The record of the dispatch, created when there is none, and whether it is
    new. *)
Definition find_or_create (id : identity) : J (VerifierJournalRecord * bool) :=
  catchM (r ← load (i_dispatch id); mret (r, false)) FileNotFoundError (λ _,
    _ ← _ensure_capacity_for_new_record;
    now ← _now_ns;
    let requested := initial_record id now in
    payload ← liftM (_canonical_json_bytes (as_dict requested));
    catchM (_ ← _write_exclusive (_record_name (i_dispatch id)) payload; mret (requested, true))
      FileExistsError
      (λ _, r ← load (i_dispatch id); mret (r, false))).

(** The marker is written once; a later caller reads it instead. *)
Definition acquire_claim (id : identity) : J bool :=
  now ← _now_ns;
  payload ← liftM (_canonical_json_bytes (marker_of id now));
  catchM (_ ← _write_exclusive (_claim_name (i_dispatch id)) payload; mret true)
    FileExistsError
    (λ _, stored ← _read_json_exact (_claim_name (i_dispatch id)) _CLAIM_KEYS;
          _ ← liftM (_validate_claim_marker stored id);
          mret false).

Definition claim_dispatch (id : identity) : J VerifierJournalClaim :=
  id' ← liftM (_validated_identity id);
  '(record, is_new) ← find_or_create id;
  _ ← raise_ifM (negb (bool_decide (r_id record = id'))) journal_error
        "Duplicate dispatch hash has different bounded identifiers";
  acquired ← acquire_claim id;
  record ← load (i_dispatch id);
  record ← (if bool_decide (r_state record = REQUESTED)
            then transition (i_dispatch id) (state_name CLAIMED) (Some (r_revision record)) None None
            else mret record);
  mret (JournalClaim record is_new acquired).
End VerifierJournal.

(** * What validates

    Each check accepts exactly the printed form of what it returns. *)

Lemma dispatch_hash_ok v s : _validate_dispatch_hash v = Ok s ↔ v = JStr s ∧ sha256_ok s = true.
Proof.
  destruct v; cbn; try (split; [done | by intros [? _]]).
  destruct (sha256_ok s0) eqn:E; (split; [|intros [[= ->] ?]; congruence]); [|done].
  by intros [= ->].
Qed.

Lemma utf8_identifier_ok v n m p s :
  _validate_utf8_identifier v n m p = Ok s ↔
  v = JStr s ∧ p s = true ∧ Z.of_nat (String.length s) ≤ m.
Proof.
  destruct v; cbn; try (split; [done | by intros [? _]]).
  rewrite bind_ok. setoid_rewrite bind_ok. setoid_rewrite raise_if_ok. split.
  - intros (_ & Hp & _ & Hl & [= ->]). bool_split. done.
  - intros ([= ->] & -> & Hl). exists tt. split; [done|]. exists tt. by rewrite Z.ltb_ge.
Qed.

Lemma attempt_ok v z : validate_attempt v = Ok z ↔ v = JInt z ∧ 1 ≤ z ≤ MAX_ATTEMPT.
Proof.
  destruct v; cbn; try (split; [done | by intros [? _]]).
  rewrite bind_ok. setoid_rewrite raise_if_ok. split.
  - intros (_ & Hr & [= ->]). bool_split. done.
  - intros ([= ->] & Hr). exists tt. split; [lia|done].
Qed.

Lemma ns_ok v n z : validate_ns v n = Ok z ↔ v = JInt z ∧ 0 ≤ z ≤ MAX_NS.
Proof.
  destruct v; cbn; try (split; [done | by intros [? _]]).
  rewrite bind_ok. setoid_rewrite bind_ok. setoid_rewrite raise_if_ok. split.
  - intros (_ & H0 & _ & H1 & [= ->]). bool_split. done.
  - intros ([= ->] & Hr). exists tt. split; [lia|]. exists tt. split; [lia|done].
Qed.

Lemma state_of_name s t : state_of s = Some t ↔ s = state_name t.
Proof.
  split.
  - intros [_ H%bool_decide_eq_true]%find_first_Some. done.
  - intros ->. by destruct t.
Qed.

Lemma state_ok v s : validate_state v = Ok s ↔ v = JStr (state_name s).
Proof.
  destruct v as [|?|?|?|t|?|?]; try done. unfold validate_state.
  destruct (state_of t) as [u|] eqn:E; cbn.
  - apply state_of_name in E as ->. split; [by intros [= ->]|].
    intros [= H%eq_sym%state_of_name]. pose proof (proj2 (state_of_name _ s) eq_refl). congruence.
  - split; [done|]. intros [= H%state_of_name]. congruence.
Qed.

Lemma previous_ok v o :
  (if is_null v then Ok None else Some <$> validate_state v) = Ok o ↔
  v = opt_str (state_name <$> o).
Proof.
  assert (H : ∀ t, Some <$> validate_state v = Ok (Some t) ↔ v = JStr (state_name t)).
  { intros t. rewrite <- state_ok. by destruct (validate_state v) as [u|e]; cbn; naive_solver. }
  destruct o as [t|]; cbn [fmap option_fmap option_map opt_str].
  - rewrite <- H. by destruct v.
  - destruct v; cbn [is_null opt_str]; [by split|..];
      (split; [|done]); by destruct (validate_state _).
Qed.

Lemma bind_unit_ok {B} (m : res unit) (k : res B) b :
  (_ ← m; k) = Ok b ↔ m = Ok tt ∧ k = Ok b.
Proof. destruct m as [[]|e]; cbn; naive_solver. Qed.

(** Text a record may hold. *)
Definition text_ok (maximum_bytes : Z) (o : option string) : Prop :=
  match o with
  | None => True
  | Some s => s ≠ "" ∧ utf8_valid s = true ∧ Z.of_nat (String.length s) ≤ maximum_bytes ∧
              all_chars (λ c, (32 <=? code c)%N) s = true
  end.

Lemma optional_text_ok v n m o :
  _validate_optional_text v n m = Ok o ↔ v = opt_str o ∧ text_ok m o.
Proof.
  destruct v; cbn [_validate_optional_text];
    try (split; [done | by destruct o; intros [? _]]).
  - split; [by intros [= <-] | destruct o; cbn; naive_solver].
  - rewrite !bind_unit_ok, !raise_if_ok, bool_decide_eq_false, !negb_false_iff, Z.ltb_ge.
    split.
    + intros (? & ? & ? & ? & [= <-]). done.
    + destruct o; [|by intros [? _]]. intros ([= ->] & ?). naive_solver.
Qed.

(** The identifiers, the numbers and the texts of a record. *)
Definition identity_ok (i : identity) : Prop :=
  sha256_ok (i_dispatch i) = true ∧
  (journal_task_ok (i_task i) = true ∧ Z.of_nat (String.length (i_task i)) ≤ MAX_TASK_ID_BYTES) ∧
  (journal_actor_ok (i_actor i) = true ∧ Z.of_nat (String.length (i_actor i)) ≤ MAX_ACTOR_BYTES) ∧
  (run_id_ok (i_run i) = true ∧ Z.of_nat (String.length (i_run i)) ≤ 32) ∧
  1 ≤ i_attempt i ≤ MAX_ATTEMPT.

Definition record_ok (r : VerifierJournalRecord) : Prop :=
  identity_ok (r_id r) ∧
  0 ≤ r_revision r ≤ MAX_NS ∧ 0 ≤ r_created r ≤ MAX_NS ∧ 0 ≤ r_updated r ≤ MAX_NS ∧
  r_created r ≤ r_updated r ∧
  (r_revision r = 0 ↔ r_previous r = None) ∧
  text_ok MAX_FAILURE_CODE_BYTES (r_failure r) ∧
  match r_failure r with Some c => failure_code_ok c = true | None => True end ∧
  text_ok MAX_QUARANTINE_REASON_BYTES (r_reason r) ∧
  validate_failure (r_state r) (r_failure r) (r_reason r) = Ok tt.

Definition holds_identity (d : dict) (i : identity) : Prop :=
  get d "dispatch_event_hash" = JStr (i_dispatch i) ∧ get d "task_id" = JStr (i_task i) ∧
  get d "actor" = JStr (i_actor i) ∧ get d "run_id" = JStr (i_run i) ∧
  get d "attempt" = JInt (i_attempt i).

Lemma identity_fields d i : validate_identity d = Ok i ↔ holds_identity d i ∧ identity_ok i.
Proof.
  unfold validate_identity, holds_identity, identity_ok. split.
  - intros (h & [? ?]%dispatch_hash_ok & (t & (? & ? & ?)%utf8_identifier_ok &
      (a & (? & ? & ?)%utf8_identifier_ok & (r & (? & ? & ?)%utf8_identifier_ok &
      (z & (? & ?)%attempt_ok & [= <-])%bind_ok)%bind_ok)%bind_ok)%bind_ok)%bind_ok.
    cbn. tauto.
  - destruct i as [h t z a r]. cbn. intros ((H1 & H2 & H3 & H4 & H5) & I1 & I2 & I3 & I4 & I5).
    rewrite H1, H2, H3, H4, H5, (proj2 (dispatch_hash_ok _ h)), (proj2 (utf8_identifier_ok (JStr t) _ _ _ t)),
      (proj2 (utf8_identifier_ok (JStr a) _ _ _ a)), (proj2 (utf8_identifier_ok (JStr r) _ _ _ r)),
      (proj2 (attempt_ok _ z)) by (split; [reflexivity|assumption]). done.
Qed.

(** The fields a validated record was read from. *)
Definition holds_record (d : dict) (r : VerifierJournalRecord) : Prop :=
  holds_identity d (r_id r) ∧ get d "state" = JStr (state_name (r_state r)) ∧
  get d "previous_state" = opt_str (state_name <$> r_previous r) ∧
  get d "revision" = JInt (r_revision r) ∧ get d "created_at_ns" = JInt (r_created r) ∧
  get d "updated_at_ns" = JInt (r_updated r) ∧ get d "failure_code" = opt_str (r_failure r) ∧
  get d "quarantine_reason" = opt_str (r_reason r).

(** What [_validate_record] accepts. *)
Definition accepts (v : json) (r : VerifierJournalRecord) : Prop :=
  ∃ d, v = JObj d ∧ exact_keys d _RECORD_KEYS = true ∧
       py_eq (get d "schema_version") (JInt JOURNAL_SCHEMA_VERSION) = true ∧
       get d "journal_id" = JStr JOURNAL_ID ∧ holds_record d r ∧ record_ok r.

Lemma validate_record_sound v r : _validate_record v = Ok r → accepts v r.
Proof.
  unfold _validate_record, accepts, holds_record, record_ok. destruct v as [| | | | | |d]; try done.
  rewrite !bind_unit_ok, !raise_if_ok, negb_false_iff, py_neq_false, py_neq_str.
  intros (Hk & Hv & Hj & (i & [? ?]%identity_fields & (st & ?%state_ok & (pv & ?%previous_ok &
    (rv & [? ?]%ns_ok & (cr & [? ?]%ns_ok & (up & [? ?]%ns_ok & Hr)%bind_ok)%bind_ok)%bind_ok)
    %bind_ok)%bind_ok)%bind_ok).
  rewrite !bind_unit_ok, !raise_if_ok in Hr.
  destruct Hr as (Ht & Hz & Hp & (fc & [? ?]%optional_text_ok & Hr)%bind_ok).
  rewrite bind_unit_ok, raise_if_ok in Hr.
  destruct Hr as (Hf & (qr & [? ?]%optional_text_ok & Hr)%bind_ok).
  rewrite bind_unit_ok in Hr. destruct Hr as (Hv' & [= <-]). cbn.
  exists d. do 3 (split; [done|]). split; [done|]. split; [tauto|].
  split; [done|]. do 3 (split; [done|]). apply Z.ltb_ge in Ht. split; [done|].
  split; [|split; [done|]; split; [|done]].
  + destruct pv; split; try done; cbn in *; lia.
  + destruct fc; [|done]. by apply negb_false_iff.
Qed.

Lemma validate_record_complete v r : accepts v r → _validate_record v = Ok r.
Proof.
  unfold _validate_record, accepts, holds_record, record_ok.
  destruct v as [| | | | | |d]; try by intros (? & ? & _).
  rewrite !bind_unit_ok, !raise_if_ok, negb_false_iff, py_neq_false, py_neq_str.
  intros (d' & [= <-] & Hk & Hv & Hj & (Hi & Hs & Hp & Hr & Hc & Hu & Hf & Hq) &
          (Oi & Or & Oc & Ou & Ot & Op & Of & Oc' & Oq & Ov)).
  do 3 (split; [done|]).
  rewrite (proj2 (identity_fields d (r_id r))) by done. cbn [mbind res_bind].
  rewrite (proj2 (state_ok _ _) Hs). cbn [mbind res_bind].
  rewrite (proj2 (previous_ok _ _) Hp). cbn [mbind res_bind].
  rewrite (proj2 (ns_ok _ _ _) (conj Hr Or)), (proj2 (ns_ok _ _ _) (conj Hc Oc)),
    (proj2 (ns_ok _ _ _) (conj Hu Ou)). cbn [mbind res_bind].
  rewrite !bind_unit_ok, !raise_if_ok. rewrite Z.ltb_ge. split; [done|].
  assert (Hr0 : r_revision r = 0 ∨ 0 < r_revision r) by lia.
  split; [|split].
  + destruct (Z.eqb_spec (r_revision r) 0) as [E|]; [|done]. by rewrite (proj1 Op E).
  + destruct (r_previous r) eqn:E; [by rewrite andb_false_r|]. by rewrite (proj2 Op).
  + rewrite (proj2 (optional_text_ok _ _ _ _) (conj Hf Of)). cbn [mbind res_bind].
    rewrite bind_unit_ok, raise_if_ok. split.
    { destruct (r_failure r); [by apply negb_false_iff | done]. }
    rewrite (proj2 (optional_text_ok _ _ _ _) (conj Hq Oq)). cbn [mbind res_bind].
    rewrite bind_unit_ok. split; [done|]. by destruct r.
Qed.

Lemma validate_record_ok v r : _validate_record v = Ok r ↔ accepts v r.
Proof. split; [apply validate_record_sound | apply validate_record_complete]. Qed.

(** A record is valid as soon as it was returned by a validation, and its
    document has one reading. *)
Lemma as_dict_holds r : holds_record (as_dict r) r.
Proof. repeat split. Qed.

Lemma holds_record_inj d r r' : holds_record d r → holds_record d r' → r = r'.
Proof.
  assert (Hs : ∀ a b, state_name a = state_name b → a = b).
  { intros a b E%eq_sym%state_of_name. pose proof (proj2 (state_of_name _ b) eq_refl). congruence. }
  assert (Ho : ∀ a b, opt_str a = opt_str b → a = b) by (intros [] []; cbn; congruence).
  destruct r as [[]], r' as [[]]. unfold holds_record, holds_identity. cbn.
  intros ((-> & -> & -> & -> & ->) & -> & -> & -> & -> & -> & -> & ->)
         (([= ->] & [= ->] & [= ->] & [= ->] & [= ->]) & [= ->%Hs] & E%Ho & [= ->] & [= ->] & [= ->] &
          ->%Ho & ->%Ho).
  f_equal. destruct r_previous0, r_previous1; try done. cbn in E. injection E as ->%Hs. done.
Qed.

Lemma as_dict_accepts r r' : accepts (JObj (as_dict r)) r' ↔ r' = r ∧ record_ok r.
Proof.
  split.
  - intros (d & [= <-] & _ & _ & _ & Hh & Hr).
    assert (r' = r) as -> by exact (holds_record_inj _ _ _ Hh (as_dict_holds r)). done.
  - intros [-> Hr]. exists (as_dict r). repeat (split; [reflexivity|]). split; [apply as_dict_holds|done].
Qed.

Lemma validate_as_dict r r' : _validate_record (JObj (as_dict r)) = Ok r' ↔ r' = r ∧ record_ok r.
Proof. by rewrite validate_record_ok, as_dict_accepts. Qed.

Lemma validated_ok v r : _validate_record v = Ok r → record_ok r.
Proof. by intros (d & _ & _ & _ & _ & _ & Hr)%validate_record_ok. Qed.

(** * Record files *)

Lemma ends_with_app suffix s : ends_with suffix (s +:+ suffix) = true.
Proof.
  induction s as [|c s IH].
  - rewrite str_app_nil_l. destruct suffix; cbn; [done|]. by rewrite bool_decide_true.
  - rewrite str_app_cons. cbn [ends_with]. by rewrite IH, orb_true_r.
Qed.

(** A proper prefix of a line does not end in a line feed. *)
Lemma line_prefix s n :
  inline s = true → ends_with newline (String.substring 0 n (s +:+ newline)) = true →
  String.substring 0 n (s +:+ newline) = s +:+ newline.
Proof.
  revert n. induction s as [|c s IH]; intros [|n] Hs; try done.
  - by destruct n.
  - cbn in Hs. apply andb_true_iff in Hs as [Hc Hs]. rewrite str_app_cons. cbn.
    rewrite orb_true_iff, bool_decide_eq_true. intros [[= -> _]|H]; [done|].
    f_equal. by apply IH.
Qed.

Lemma journal_bytes_ok d b :
  _canonical_json_bytes d = Ok b ↔
  b = canonical_json (JObj d) +:+ newline ∧ finite (JObj d) = true ∧ utf8_valid b = true ∧
  Z.of_nat (String.length b) ≤ MAX_JOURNAL_RECORD_BYTES.
Proof.
  unfold _canonical_json_bytes. rewrite !bind_unit_ok, !raise_if_ok, negb_false_iff, andb_true_iff,
    Z.ltb_ge. split.
  - intros ([? ?] & ? & [= <-]). done.
  - by intros (-> & ? & ? & ?).
Qed.

Lemma parse_json_ok raw keys d :
  parse_json_exact raw keys = Ok d →
  ends_with newline raw = true ∧ _canonical_json_bytes d = Ok raw ∧ exact_keys d keys = true.
Proof.
  unfold parse_json_exact. rewrite bind_unit_ok, raise_if_ok, negb_false_iff.
  intros (He & (v & _ & Hv)%bind_ok). destruct v as [| | | | | |d']; try done.
  rewrite bind_unit_ok, raise_if_ok, negb_false_iff in Hv.
  destruct Hv as (Hk & (b & Hb & Hr)%bind_ok). rewrite bind_unit_ok, raise_if_ok in Hr.
  destruct Hr as (E%negb_false_iff%bool_decide_eq_true & [= <-]). by subst.
Qed.

(** What was printed is read back. *)
Lemma parse_printed_json d keys raw :
  floats_ok (JObj d) = true → exact_keys d keys = true → _canonical_json_bytes d = Ok raw →
  parse_json_exact raw keys = Ok d.
Proof.
  intros Hf Hk Hc. pose proof Hc as (E & _ & Hu & _)%journal_bytes_ok.
  unfold parse_json_exact. rewrite E at 1. rewrite ends_with_app. cbn [negb raise_if mbind res_bind].
  rewrite Hu, E. unfold canonical_json. rewrite loads_dumps_line by done.
  cbn [catch mbind res_bind]. rewrite Hk. cbn [negb raise_if mbind res_bind]. rewrite Hc.
  cbn [mbind res_bind]. unfold canonical_json in E. rewrite bool_decide_true by done. done.
Qed.

Lemma as_dict_floats r : floats_ok (JObj (as_dict r)) = true.
Proof. apply floats_ok_dict_of. destruct r as [? ? [] ? ? ? [] []]; reflexivity. Qed.

Lemma as_dict_inline r : inline (canonical_json (JObj (as_dict r))) = true.
Proof. apply inline_dumps. Qed.

Lemma parse_printed r raw :
  record_ok r → _canonical_json_bytes (as_dict r) = Ok raw →
  parse_record (i_dispatch (r_id r)) raw = Ok r.
Proof.
  intros Hr Hc. unfold parse_record.
  rewrite (parse_printed_json (as_dict r) _RECORD_KEYS raw (as_dict_floats r) eq_refl Hc).
  cbn [mbind res_bind]. rewrite (proj2 (validate_as_dict r r) (conj eq_refl Hr)). cbn [mbind res_bind].
  by rewrite bool_decide_true.
Qed.

Lemma parse_record_ok h raw r :
  parse_record h raw = Ok r →
  ends_with newline raw = true ∧ record_ok r ∧ i_dispatch (r_id r) = h.
Proof.
  unfold parse_record.
  intros (d & (? & _)%parse_json_ok & (r' & ?%validated_ok & Hi)%bind_ok)%bind_ok.
  rewrite bind_unit_ok, raise_if_ok in Hi.
  destruct Hi as (E%negb_false_iff%bool_decide_eq_true & [= <-]).
  done.
Qed.

Lemma parse_record_size h raw r :
  parse_record h raw = Ok r → Z.of_nat (String.length raw) ≤ MAX_JOURNAL_RECORD_BYTES.
Proof. by intros (d & (_ & (_ & _ & _ & ?)%journal_bytes_ok & _)%parse_json_ok & _)%bind_ok. Qed.

(** A record file that was cut short does not parse. *)
Lemma partial_record r raw n h r' :
  _canonical_json_bytes (as_dict r) = Ok raw →
  parse_record h (String.substring 0 n raw) = Ok r' → String.substring 0 n raw = raw.
Proof.
  intros (-> & _)%journal_bytes_ok (He & _)%parse_record_ok. apply line_prefix; [|done].
  apply as_dict_inline.
Qed.

(** ** Every valid record can be printed

    Its text is valid UTF-8 and far below the size limit, so a write is refused
    only by the environment. *)

(** Text that needs no [\u] escape, of at most [n] bytes. *)
Definition plain_text (n : nat) (s : string) : Prop :=
  utf8_valid s = true ∧ all_chars (λ c, (32 <=? code c)%N) s = true ∧ (String.length s ≤ n)%nat.

Definition printable (c : ascii) : bool := (32 <=? code c)%N && (code c <? 128)%N.

Lemma printable_plain n s : all_chars printable s = true → (String.length s ≤ n)%nat → plain_text n s.
Proof.
  intros Hs Hn. split; [apply utf8_ascii|split; [|done]];
    (eapply all_chars_impl; [|exact Hs]); by intros c [? ?]%andb_true_iff.
Qed.

Lemma ident_plain first rest n s :
  (∀ c, first c = true → printable c = true) → (∀ c, rest c = true → printable c = true) →
  re_ident first rest n s = true → plain_text (S n) s.
Proof.
  intros Hf Hr. destruct s as [|c s]; [done|]. cbn [re_ident].
  intros [[H1 H2]%andb_true_iff H3%Nat.leb_le]%andb_true_iff.
  apply printable_plain; [|cbn; lia]. cbn. rewrite Hf by done. by eapply all_chars_impl.
Qed.

Lemma hex_plain n s : re_hex n s = true → plain_text n s.
Proof.
  unfold re_hex. intros [Hn%Nat.eqb_eq Hc]%andb_true_iff. apply printable_plain; [|lia].
  eapply all_chars_impl; [|exact Hc]. by intros [[] [] [] [] [] [] [] []].
Qed.

Lemma text_plain n o s : text_ok n o → o = Some s → plain_text (Z.to_nat n) s.
Proof. intros Ho ->. destruct Ho as (_ & ? & ? & ?). repeat split; [done..|lia]. Qed.

Lemma state_plain s : plain_text 23 (state_name s).
Proof. apply printable_plain; destruct s; first [reflexivity | cbn; lia]. Qed.

(** What each identifier of a valid record is. *)
Lemma identity_plain i :
  identity_ok i →
  plain_text 64 (i_dispatch i) ∧ plain_text 80 (i_task i) ∧ plain_text 50 (i_actor i) ∧
  plain_text 32 (i_run i).
Proof.
  intros (Hd & [Ht _] & [Ha _] & [Hr _] & _).
  split; [by apply hex_plain|]. split; [|split; [|by apply hex_plain]].
  - eapply (ident_plain _ _ 79); [..|exact Ht]; by intros [[] [] [] [] [] [] [] []].
  - eapply (ident_plain _ _ 49); [..|exact Ha]; by intros [[] [] [] [] [] [] [] []].
Qed.

Lemma str_member k s n :
  plain_text n s → (member_length (k, JStr s) ≤ String.length (quote k) + 2 * n + 4)%nat.
Proof.
  intros (_ & Hc & Hn). unfold member_length. cbn [fst snd dumps_at].
  pose proof (quote_length s Hc). lia.
Qed.

Lemma opt_member k o n :
  text_ok (Z.of_nat n) o → (1 ≤ n)%nat →
  (member_length (k, opt_str o) ≤ String.length (quote k) + 2 * n + 4)%nat.
Proof.
  intros Ho Hn. destruct o as [s|]; [|unfold member_length; cbn [fst snd opt_str dumps_at String.length]; lia].
  apply str_member. rewrite <- (Nat2Z.id n). by eapply text_plain.
Qed.

Lemma int_member k z : 0 ≤ z ≤ MAX_NS → (member_length (k, JInt z) ≤ String.length (quote k) + 21)%nat.
Proof.
  intros Hz. unfold member_length. cbn [fst snd dumps_at].
  assert (String.length (string_of_Z z) ≤ 19)%nat; [|lia]. apply int_length; [|lia].
  split; [lia|]. eapply Z.le_lt_trans; [apply Hz|]. reflexivity.
Qed.

Lemma record_length r :
  record_ok r → (String.length (canonical_json (JObj (as_dict r))) ≤ 2500)%nat.
Proof.
  intros (Hi & Hr & Hc & Hu & _ & _ & Hf & _ & Hq & _).
  pose proof (identity_plain _ Hi) as (Pd & Pt & Pa & Pr). destruct Hi as (_ & _ & _ & _ & Hat).
  etrans; [apply object_length|]. etrans; [apply Nat.add_le_mono_l, dict_of_sum|].
  cbn [sum_list_with].
  pose proof (str_member "journal_id" JOURNAL_ID 28 (conj eq_refl (conj eq_refl (le_n _)))) as H1.
  pose proof (str_member "dispatch_event_hash" _ _ Pd) as H2.
  pose proof (str_member "task_id" _ _ Pt) as H3. pose proof (str_member "actor" _ _ Pa) as H4.
  pose proof (str_member "run_id" _ _ Pr) as H5.
  pose proof (str_member "state" _ _ (state_plain (r_state r))) as H6.
  pose proof (opt_member "failure_code" _ 64 Hf ltac:(lia)) as H7.
  pose proof (opt_member "quarantine_reason" _ 512 Hq ltac:(lia)) as H8.
  assert (H9 : (member_length ("previous_state", opt_str (state_name <$> r_previous r))
                ≤ String.length (quote "previous_state") + 2 * 23 + 4)%nat).
  { destruct (r_previous r) as [s|]; [apply str_member, state_plain|].
    unfold member_length. cbn [fst snd fmap option_fmap option_map opt_str dumps_at String.length]. lia. }
  pose proof (int_member "revision" _ Hr) as H10. pose proof (int_member "created_at_ns" _ Hc) as H11.
  pose proof (int_member "updated_at_ns" _ Hu) as H12.
  pose proof (int_member "attempt" (i_attempt (r_id r)) ltac:(unfold MAX_ATTEMPT, MAX_NS in *; lia)) as H13.
  pose proof (int_member "schema_version" JOURNAL_SCHEMA_VERSION ltac:(unfold MAX_NS, JOURNAL_SCHEMA_VERSION; lia)) as H14.
  repeat match goal with H : context [String.length (quote ?k)] |- _ =>
    let n := eval vm_compute in (String.length (quote k)) in
    change (String.length (quote k)) with n in H end.
  lia.
Qed.

Lemma record_strings r : record_ok r → strings utf8_valid (JObj (as_dict r)) = true.
Proof.
  intros (Hi & _ & _ & _ & _ & _ & Hf & _ & Hq & _).
  pose proof (identity_plain _ Hi) as ([Pd _] & [Pt _] & [Pa _] & [Pr _]).
  assert (Ho : ∀ n o, text_ok n o → strings utf8_valid (opt_str o) = true).
  { intros n [s|] Ht; [|done]. by destruct (text_plain _ _ _ Ht eq_refl). }
  assert (Hp : strings utf8_valid (opt_str (state_name <$> r_previous r)) = true).
  { destruct (r_previous r) as [s|]; [|done]. apply (state_plain s). }
  destruct (state_plain (r_state r)) as [Hs _].
  apply strings_dict_of. cbn [forallb fst snd].
  rewrite (Ho _ _ Hf), (Ho _ _ Hq), Hp. cbn [strings]. rewrite Pd, Pt, Pa, Pr, Hs. reflexivity.
Qed.

Lemma record_prints r : record_ok r → ∃ raw, _canonical_json_bytes (as_dict r) = Ok raw.
Proof.
  intros Hr. exists (canonical_json (JObj (as_dict r)) +:+ newline). apply journal_bytes_ok.
  split; [reflexivity|]. split; [|split].
  - cbn [finite]. apply forallb_map_snd, dict_of_Forall. destruct r as [? ? [] ? ? ? [] []]; reflexivity.
  - apply utf8_app; [|reflexivity]. apply utf8_canonical; [|by apply record_strings].
    apply no_float_dict_of. destruct r as [? ? [] ? ? ? [] []]; reflexivity.
  - rewrite str_app_length. pose proof (record_length r Hr).
    change (String.length newline) with 1%nat. unfold MAX_JOURNAL_RECORD_BYTES. lia.
Qed.
