(* ===== verification/JournalSafety.v ===== *)
(** * What the verifier's journal promises

    An abstract machine for one dispatch's record, and the refinement: whatever
    calls are made, with whatever clocks, faults and crashes, the record of
    every dispatch moves as the machine allows.  From it follow that at most one
    caller ever acquires a dispatch and that an acquired snapshot is released
    before a record ends. *)

From S2P Require Export VerifierJournal.

(** * The contract: one dispatch's record as a state machine

    What a reader sees of a dispatch: no record, a file that is no record (a
    crash cut its creation short), or a record. *)

Inductive view := Absent | Torn | Stored (r : VerifierJournalRecord).

Definition view_of (h : string) (j : journal) : view :=
  match j_files j !! _record_name h with
  | None => Absent
  | Some raw => match parse_record h raw with Ok r => Stored r | Err _ => Torn end
  end.

(** A table move, or the edge of a restart. *)
Definition may_follow (s t : state) : Prop :=
  t ∈ ALLOWED_TRANSITIONS s ∨ ∃ code, recovery_of s = Some (t, code).

Definition successors (s : state) : list state :=
  ALLOWED_TRANSITIONS s ++ match recovery_of s with Some (t, _) => [t] | None => [] end.

Lemma successors_spec s t : may_follow s t ↔ t ∈ successors s.
Proof.
  unfold may_follow, successors. rewrite elem_of_app. apply or_iff_compat_l.
  destruct (recovery_of s) as [[u code]|].
  - rewrite list_elem_of_singleton. split; [by intros [? [= <- _]] | intros ->; eauto].
  - rewrite elem_of_nil. split; [by intros [? ?]|done].
Qed.

(** The identifiers and the creation time stay, the revision counts the moves,
    time does not run backwards and a failure code is never dropped. *)
Record follows (r r' : VerifierJournalRecord) : Prop := Follows {
  f_id : r_id r' = r_id r;
  f_created : r_created r' = r_created r;
  f_revision : r_revision r' = r_revision r + 1;
  f_previous : r_previous r' = Some (r_state r);
  f_updated : r_updated r ≤ r_updated r';
  f_failure : is_Some (r_failure r) → is_Some (r_failure r');
  f_state : may_follow (r_state r) (r_state r')
}.

Inductive advances (h : string) : view → view → Prop :=
  | advances_create id now :
      identity_ok id → i_dispatch id = h → advances h Absent (Stored (initial_record id now))
  | advances_tear : advances h Absent Torn
  | advances_move r r' : follows r r' → advances h (Stored r) (Stored r').

(** A record stays a record of the same identifiers. *)
Lemma stored_advances h r v :
  rtc (advances h) (Stored r) v → ∃ r', v = Stored r' ∧ r_id r' = r_id r ∧ r_revision r ≤ r_revision r'.
Proof.
  intros Hv. remember (Stored r) as u eqn:Eu. revert r Eu.
  induction Hv as [v|u v w Hs _ IH]; intros r ->; [eauto with lia|].
  inversion Hs as [| |? r1 Hf]; subst. destruct (IH r1 eq_refl) as (r' & -> & Hid & Hr).
  destruct Hf. exists r'. split; [done|]. split; [congruence|lia].
Qed.

(** ** Views and files *)

Lemma view_stored h j r :
  view_of h j = Stored r ↔ ∃ raw, j_files j !! _record_name h = Some raw ∧ parse_record h raw = Ok r.
Proof.
  unfold view_of. destruct (j_files j !! _record_name h) as [raw|]; [|naive_solver].
  destruct (parse_record h raw) as [r0|] eqn:E; split; try done.
  - intros [= <-]. eauto.
  - intros (raw' & [= <-] & ?). congruence.
  - intros (raw' & [= <-] & ?). congruence.
Qed.

Lemma view_stored_ok h j r : view_of h j = Stored r → record_ok r ∧ i_dispatch (r_id r) = h.
Proof. intros (raw & _ & Hp)%view_stored. by apply parse_record_ok in Hp as (_ & ? & ?). Qed.

(** ** Names *)

Definition ends_in (c : ascii) (s : string) : Prop := ∃ t, s = t +:+ String c "".

Lemma ends_in_inj c d s : ends_in c s → ends_in d s → c = d.
Proof.
  intros [t ->] [u E]. apply (f_equal str_rev) in E. rewrite !str_rev_snoc in E. by injection E.
Qed.

Lemma record_name_inj h h' : _record_name h = _record_name h' → h = h'.
Proof.
  unfold _record_name. intros E%(f_equal String.list_ascii_of_string).
  rewrite !list_ascii_app in E. apply app_inv_tail in E.
  rewrite <- (String.string_of_list_ascii_of_string h), E. apply String.string_of_list_ascii_of_string.
Qed.

Lemma claim_not_record h h' : _claim_name h ≠ _record_name h'.
Proof.
  intros E. assert ("m"%char = "n"%char); [|done].
  apply (ends_in_inj _ _ (_record_name h')).
  - rewrite <- E. exists (h +:+ ".clai"). by rewrite <- str_app_assoc.
  - exists (h' +:+ ".jso"). by rewrite <- str_app_assoc.
Qed.

Lemma temp_not_record name hex h : temp_name name hex ≠ _record_name h.
Proof.
  intros E. assert ("p"%char = "n"%char); [|done].
  apply (ends_in_inj _ _ (_record_name h)).
  - rewrite <- E. exists ("." +:+ name +:+ "." +:+ hex +:+ ".tm"). by rewrite <- !str_app_assoc.
  - exists (h +:+ ".jso"). by rewrite <- str_app_assoc.
Qed.

(** A step of the dispatch [h] into a state that [P] allows it. *)
Definition advances_to (P : string → state → Prop) (h : string) (v w : view) : Prop :=
  advances h v w ∧ match w with Stored r => P h (r_state r) | _ => True end.

Lemma advances_to_any P h v w : rtc (advances_to P h) v w → rtc (advances h) v w.
Proof. induction 1 as [v|u v w [Hs _] _ IH]; [done|]. by eapply rtc_l. Qed.

(** ** How the journal evolves

    Every dispatch's view advances by moves of the machine, and no file goes
    away. *)

Record evolves (P : string → state → Prop) (j j' : journal) : Prop := Evolves {
  e_views : ∀ h, rtc (advances_to P h) (view_of h j) (view_of h j');
  e_files : ∀ name, is_Some (j_files j !! name) → is_Some (j_files j' !! name)
}.

#[export] Instance evolves_preorder P : PreOrder (evolves P).
Proof.
  split; [by constructor|]. intros j1 j2 j3 [V1 F1] [V2 F2].
  constructor; [|by auto]. intros h. by trans (view_of h j2).
Qed.

Lemma evolves_eq P j j' : j_files j' = j_files j → evolves P j j'.
Proof. intros E. constructor; unfold view_of; by rewrite E. Qed.

(** A file that is no record changes no view. *)
Lemma evolves_other P j n name content :
  (∀ h, name ≠ _record_name h) → evolves P j (Journal (<[name := content]> (j_files j)) n).
Proof.
  intros Hn. constructor.
  - intros h. unfold view_of. cbn [j_files]. by rewrite lookup_insert_ne.
  - intros name' Hs. cbn [j_files]. destruct (decide (name = name')) as [->|].
    + by rewrite lookup_insert_eq.
    + by rewrite lookup_insert_ne.
Qed.

Lemma evolves_record P j n h content :
  rtc (advances_to P h) (view_of h j)
    (match parse_record h content with Ok r => Stored r | Err _ => Torn end) →
  evolves P j (Journal (<[_record_name h := content]> (j_files j)) n).
Proof.
  intros Hv. constructor.
  - intros h'. destruct (decide (h = h')) as [->|Hne].
    + unfold view_of at 2. cbn [j_files]. by rewrite lookup_insert_eq.
    + unfold view_of. cbn [j_files]. rewrite lookup_insert_ne; [done|].
      by intros ?%record_name_inj.
  - intros name' Hs. cbn [j_files]. destruct (decide (_record_name h = name')) as [<-|].
    + by rewrite lookup_insert_eq.
    + by rewrite lookup_insert_ne.
Qed.

(** * Operations

    [ensures m j Q]: whatever happens, [m] leaves a journal that evolved from
    [j] through states that [P] allows, and a result satisfies [Q]. *)

#[local] Opaque _canonical_json_bytes _validate_record parse_record as_dict marker_of.

Section Operations.
Context (env : environment) (P : string → state → Prop).

Notation J := (M journal).

Definition ensures {A} (m : J A) (j : journal) (Q : A → journal → Prop) : Prop :=
  evolves P j (m j).2 ∧ ∀ a, (m j).1 = Ok a → Q a (m j).2.

Lemma ensures_impl {A} (m : J A) j (Q R : A → journal → Prop) :
  ensures m j Q → (∀ a j', evolves P j j' → Q a j' → R a j') → ensures m j R.
Proof. intros [He HP] HQ. split; auto. Qed.

Lemma ensures_bind {A B} (m : J A) (f : A → J B) j Q R :
  ensures m j Q → (∀ a j', evolves P j j' → Q a j' → ensures (f a) j' R) →
  ensures (m ≫= f) j R.
Proof.
  intros [He HP] Hf. unfold ensures, mbind, M_bind in *.
  destruct (m j) as [[a|e] j1]; cbn in *; [|by split].
  destruct (Hf a j1 He (HP a eq_refl)) as [He' HQ]. split; [by trans j1|done].
Qed.

Lemma ensures_catch {A} (m : J A) c (h : exn → J A) j Q :
  ensures m j Q → (∀ e j', evolves P j j' → ensures (h e) j' Q) → ensures (catchM m c h) j Q.
Proof.
  intros [He HQ] Hh. unfold ensures, catchM in *.
  destruct (m j) as [[a|e] j1]; [by split|]. destruct (is_a e c); [|by split]. cbn in *.
  destruct (Hh e j1 He) as [He' HQ']. split; [by trans j1|done].
Qed.

Lemma ensures_ret {A} (a : A) j (Q : A → journal → Prop) : Q a j → ensures (mret a) j Q.
Proof. intros HQ. split; [done|]. cbn. by intros b [= <-]. Qed.

Lemma ensures_lift {A} (r : res A) j (Q : A → journal → Prop) :
  (∀ a, r = Ok a → Q a j) → ensures (liftM r) j Q.
Proof. intros HQ. split; [done|]. cbn. auto. Qed.

Lemma ensures_guard b c msg j (Q : unit → journal → Prop) :
  (b = false → Q tt j) → ensures (raise_ifM b c msg) j Q.
Proof. intros HQ. apply ensures_lift. intros [] Hb%raise_if_ok. auto. Qed.

(** Computations that write no file. *)
Class Still {A} (m : J A) : Prop := still : ∀ j, j_files (m j).2 = j_files j.

#[export] Instance still_lift {A} (r : res A) : Still (liftM r).
Proof. done. Qed.
#[export] Instance still_ret {A} (a : A) : Still (mret a).
Proof. done. Qed.
#[export] Instance still_guard b c msg : Still (raise_ifM b c msg).
Proof. done. Qed.
#[export] Instance still_raise {A} c msg : Still (raiseM (A := A) c msg).
Proof. done. Qed.
#[export] Instance still_read {A} (f : journal → A) : Still (readM f).
Proof. done. Qed.
#[export] Instance still_ask {A} (f : journal → res A) : Still (askM f).
Proof. done. Qed.
#[export] Instance still_tick : Still tick.
Proof. done. Qed.
#[export] Instance still_bind {A B} (m : J A) (f : A → J B) :
  Still m → (∀ a, Still (f a)) → Still (m ≫= f).
Proof.
  intros Hm Hf j. unfold mbind, M_bind. specialize (Hm j).
  destruct (m j) as [[a|e] j1]; cbn in *; [|done]. by rewrite (Hf a j1).
Qed.

Ltac still := repeat (apply still_bind; [try apply _|intros ?]); try apply _.

#[export] Instance still_now : Still (_now_ns env).
Proof. unfold _now_ns. still. Qed.
#[export] Instance still_read_bounded name : Still (_read_bounded env name).
Proof. unfold _read_bounded. still. destruct (io env a); still. Qed.
#[export] Instance still_names : Still (_bounded_directory_names env).
Proof. unfold _bounded_directory_names. still. destruct (io env a); still. Qed.
#[export] Instance still_capacity : Still (_ensure_capacity_for_new_record env).
Proof. unfold _ensure_capacity_for_new_record. still. Qed.
#[export] Instance still_read_json name keys : Still (_read_json_exact env name keys).
Proof. unfold _read_json_exact. still. Qed.
#[export] Instance still_load h : Still (load env h).
Proof. unfold load. still. Qed.
#[export] Instance still_load_all names : Still (load_all env names).
Proof. induction names; cbn; still. Qed.
#[export] Instance still_list : Still (list_records env).
Proof. unfold list_records. still. Qed.
#[export] Instance still_next r s c q : Still (_next_record env r s c q).
Proof. unfold _next_record. still. Qed.

Lemma ensures_still {A} (m : J A) j : Still m →
  ensures m j (λ a j', m j = (Ok a, j') ∧ j_files j' = j_files j).
Proof.
  intros Hs. split; [by apply evolves_eq|]. intros a Ha. split; [|done].
  by rewrite <- Ha; destruct (m j).
Qed.

(** Reading the record of a dispatch. *)
Lemma read_bounded_ok name j raw j' :
  _read_bounded env name j = (Ok raw, j') → j_files j !! name = Some raw.
Proof.
  intros (n & j1 & [= <- <-] & Hr)%M_bind_ok. destruct (io env (j_tick j)); [|done].
  apply M_bind_ok in Hr as (raw' & j2 & [Hf ->]%askM_ok & Hl).
  apply M_bind_ok in Hl as (u & j3 & _ & [= <- _]). cbn in Hf.
  destruct (j_files j !! name); cbn in Hf; [by injection Hf as <-|done].
Qed.

Lemma load_ok h j r j' :
  load env h j = (Ok r, j') →
  sha256_ok h = true ∧ view_of h j = Stored r ∧ view_of h j' = Stored r ∧
  record_ok r ∧ i_dispatch (r_id r) = h.
Proof.
  intros Hl. pose proof (still_load h j) as E. rewrite Hl in E. cbn in E.
  apply M_bind_ok in Hl as (h' & j1 & [[[= <-] Hh]%dispatch_hash_ok ->]%liftM_ok & Hl).
  apply M_bind_ok in Hl as (raw & j2 & Hr%read_bounded_ok & [Hp _]%liftM_ok).
  assert (Hv : view_of h j = Stored r) by (apply view_stored; eauto).
  split; [done|]. split; [done|]. split; [unfold view_of in *; by rewrite E|].
  by apply parse_record_ok in Hp as (_ & ? & ?).
Qed.

(** Writing: what may be left behind must be an evolution too. *)
Lemma write_ensures name payload j :
  (∀ content n, j_files j !! name = None →
     content = payload ∨ (∃ k, content = String.substring 0 k payload) →
     evolves P j (Journal (<[name := content]> (j_files j)) n)) →
  ensures (_write_exclusive env name payload) j
    (λ _ j', j_files j !! name = None ∧ j_files j' = <[name := payload]> (j_files j)).
Proof.
  intros Hw. unfold _write_exclusive, tick, set_file, ensures, mbind, M_bind. cbn.
  destruct (io env (j_tick j)) as [|e [|k|]], (j_files j !! name) eqn:E; cbn;
    (split; [first [by apply evolves_eq | apply Hw; eauto] | try done]).
Qed.

Lemma replace_ensures name payload j :
  (∀ n, evolves P j (Journal (<[name := payload]> (j_files j)) n)) →
  ensures (_replace env name payload) j (λ _ j', j_files j' = <[name := payload]> (j_files j)).
Proof.
  intros Hw. unfold _replace, tick, set_file, ensures, mbind, M_bind. cbn.
  destruct (io env (j_tick j)) as [|e [|k|]], (j_files j !! temp_name name (uuid4_hex env (j_tick j))); cbn;
    (split; [first [by apply evolves_eq | apply Hw |
                    apply evolves_other; intros h; apply temp_not_record] | try done]).
Qed.

Lemma replace_record_ensures h r r' j :
  view_of h j = Stored r → i_dispatch (r_id r) = h → record_ok r' → follows r r' → P h (r_state r') →
  ensures (_replace_record env r') j (λ _ j', view_of h j' = Stored r').
Proof.
  intros Hv Hh Hr' Hf HP. unfold _replace_record.
  apply (ensures_bind _ _ _ (λ raw j', j' = j ∧ _canonical_json_bytes (as_dict r') = Ok raw)).
  { apply ensures_lift. intros raw Hc. split; [reflexivity|exact Hc]. }
  intros raw j' _ [-> Hc]. pose proof (parse_printed _ _ Hr' Hc) as Hp.
  rewrite (f_id _ _ Hf), Hh in *.
  eapply ensures_impl.
  - apply replace_ensures. intros n. apply evolves_record. rewrite Hv, Hp.
    by apply rtc_once; split; [apply advances_move|].
  - intros [] j' _ E. apply view_stored. exists raw. rewrite E, lookup_insert_eq.
    split; [reflexivity|exact Hp].
Qed.

Lemma next_record_ok r s code reason j r' j' :
  may_follow (r_state r) s →
  _next_record env r s code reason j = (Ok r', j') →
  record_ok r' ∧ follows r r' ∧ r_state r' = s.
Proof.
  intros Hs (now & j1 & _ & [[-> Hr]%validate_as_dict _]%liftM_ok)%M_bind_ok.
  split; [done|]. split; [|done]. constructor; try done; cbn [r_updated r_failure].
  - lia.
  - by destruct code.
Qed.

(** One move: the record is read, its successor validated and put in place. *)
Definition moved (h : string) (j : journal) (s : state) (r' : VerifierJournalRecord) (j' : journal)
    : Prop :=
  view_of h j' = Stored r' ∧ r_state r' = s ∧ ∃ r, view_of h j = Stored r ∧ follows r r'.

Lemma move_ensures h r s code reason j :
  view_of h j = Stored r → i_dispatch (r_id r) = h → may_follow (r_state r) s → P h s →
  ensures (r' ← _next_record env r s code reason; _ ← _replace_record env r'; mret r') j
    (moved h j s).
Proof.
  intros Hv Hh Hs HP. eapply ensures_bind; [by apply ensures_still, still_next|].
  intros r' j1 _ [(Hr' & Hf & Hst)%next_record_ok E]; [|done].
  assert (Hv1 : view_of h j1 = Stored r) by (unfold view_of in *; by rewrite E).
  eapply ensures_bind; [eapply replace_record_ensures; [done..|by rewrite Hst]|].
  intros [] j2 _ Hv2. apply ensures_ret. split; [done|]. split; [done|]. eauto.
Qed.

Lemma transition_ensures h t rev code reason j :
  (∀ s, state_of t = Some s → P h s) →
  ensures (transition env h t rev code reason) j
    (λ r' j', ∃ s, state_of t = Some s ∧ moved h j s r' j').
Proof.
  intros HP. unfold transition.
  eapply ensures_bind; [by apply ensures_still, still_lift|].
  intros h' j1 _ [[[[= <-] Hh]%dispatch_hash_ok ->]%liftM_ok _].
  eapply ensures_bind; [by apply ensures_still, still_guard|]. intros [] j1 _ [[_ ->]%raise_ifM_ok _].
  eapply ensures_bind; [by apply ensures_still, still_load|].
  intros r j1 _ [(_ & Hv & Hv1 & Hr & Hd)%load_ok E].
  eapply ensures_bind; [by apply ensures_still, still_guard|]. intros [] j2 _ [[_ ->]%raise_ifM_ok _].
  destruct (state_of t) as [s|]; [specialize (HP s eq_refl)|by apply ensures_lift].
  eapply ensures_bind; [by apply ensures_still, still_guard|].
  intros [] j2 _ [[Ha%negb_false_iff%bool_decide_eq_true ->]%raise_ifM_ok _].
  eapply ensures_impl; [apply (move_ensures _ _ _ _ _ _ Hv1 Hd); [by left|done]|].
  intros r' j' _ (? & ? & r0 & Hr0 & ?). exists s. split; [done|]. split; [done|]. split; [done|].
  exists r0. split; [|done]. unfold view_of in *. by rewrite E in Hr0.
Qed.

Lemma recover_ensures h j :
  P h CRASH_ABORTED → P h FAILED_CLEANUP_REQUIRED →
  ensures (recover env h) j (λ r' j', view_of h j' = Stored r' ∧ recovery_of (r_state r') = None).
Proof.
  intros P1 P2. unfold recover.
  eapply ensures_bind; [by apply ensures_still, still_lift|].
  intros h' j1 _ [[[[= <-] Hh]%dispatch_hash_ok ->]%liftM_ok _].
  eapply ensures_bind; [by apply ensures_still, still_load|].
  intros r j1 _ [(_ & _ & Hv1 & _ & Hd)%load_ok _].
  destruct (recovery_of (r_state r)) as [[s code]|] eqn:E; [|by apply ensures_ret].
  eapply ensures_impl; [apply (move_ensures _ _ _ _ _ _ Hv1 Hd); [right; eauto|]|].
  { destruct (r_state r); try discriminate E; by injection E as <- _. }
  intros r' j' _ (? & Hs & _). split; [done|]. rewrite Hs.
  destruct (r_state r); try discriminate E; injection E as <- <-; reflexivity.
Qed.

Lemma recover_each_ensures rs j :
  (∀ h, P h CRASH_ABORTED) → (∀ h, P h FAILED_CLEANUP_REQUIRED) → ensures (recover_each env rs) j (λ _ _, True).
Proof.
  intros P1 P2. revert j. induction rs as [|r rs IH]; intros j; cbn [recover_each]; [by apply ensures_ret|].
  eapply ensures_bind; [by apply recover_ensures|]. intros r' j1 _ _.
  eapply ensures_bind; [apply IH|]. intros rs' j2 _ _. by apply ensures_ret.
Qed.

Lemma recover_all_ensures j :
  (∀ h, P h CRASH_ABORTED) → (∀ h, P h FAILED_CLEANUP_REQUIRED) → ensures (recover_all env) j (λ _ _, True).
Proof.
  intros P1 P2. eapply ensures_bind; [by apply ensures_still, still_list|]. intros rs j1 _ _.
  by apply recover_each_ensures.
Qed.

(** ** Claims *)

Lemma initial_ok id now : identity_ok id → 0 ≤ now ≤ MAX_NS → record_ok (initial_record id now).
Proof.
  intros Hi Hn. repeat split; cbn; try done; try lia. all: unfold identity_ok in Hi; intuition.
Qed.

Lemma now_ok j now j' : _now_ns env j = (Ok now, j') → 0 ≤ now ≤ MAX_NS ∧ j_files j' = j_files j.
Proof.
  intros (n & j1 & [= <- <-] & H)%M_bind_ok. apply M_bind_ok in H as (u & j2 & Hg & [= <- <-]).
  apply raise_ifM_ok in Hg as [Hg ->]. bool_split. done.
Qed.

Lemma same_files_view h j j' : j_files j' = j_files j → view_of h j' = view_of h j.
Proof. unfold view_of. by intros ->. Qed.

(** The first record of a dispatch. *)
Lemma create_ensures id now raw j :
  identity_ok id → 0 ≤ now ≤ MAX_NS → P (i_dispatch id) REQUESTED →
  _canonical_json_bytes (as_dict (initial_record id now)) = Ok raw →
  ensures (_write_exclusive env (_record_name (i_dispatch id)) raw) j
    (λ _ j', view_of (i_dispatch id) j' = Stored (initial_record id now)).
Proof.
  intros Hi Hn HP Hc. pose proof (initial_ok id now Hi Hn) as Hr.
  pose proof (parse_printed _ _ Hr Hc) as Hp.
  eapply ensures_impl.
  - apply write_ensures. intros content n Hnone Hcontent. apply evolves_record.
    assert (view_of (i_dispatch id) j = Absent) as -> by (unfold view_of; by rewrite Hnone).
    destruct (parse_record (i_dispatch id) content) as [r'|e] eqn:E.
    + assert (content = raw) as ->.
      { destruct Hcontent as [|[k ->]]; [done|]. by eapply partial_record. }
      assert (r' = initial_record id now) as -> by (apply Ok_inj; rewrite <- E; exact Hp).
      apply rtc_once. split; [by apply advances_create|exact HP].
    + apply rtc_once. split; [apply advances_tear|exact I].
  - intros [] j' _ [_ E]. apply view_stored. exists raw. rewrite E, lookup_insert_eq.
    split; [reflexivity|exact Hp].
Qed.

Lemma loaded_ensures id j (Q : VerifierJournalRecord * bool → journal → Prop) :
  (∀ r j', view_of (i_dispatch id) j' = Stored r → Q (r, false) j') →
  ensures (r ← load env (i_dispatch id); mret (r, false)) j Q.
Proof.
  intros HQ. eapply ensures_bind; [by apply ensures_still, still_load|].
  intros r j1 _ [(_ & _ & Hv & _)%load_ok _]. apply ensures_ret, HQ, Hv.
Qed.

Lemma find_or_create_ensures id j :
  identity_ok id → P (i_dispatch id) REQUESTED →
  ensures (find_or_create env id) j (λ p j', view_of (i_dispatch id) j' = Stored p.1).
Proof.
  intros Hi HP. apply ensures_catch; [by apply loaded_ensures|]. intros _ j1 _.
  eapply ensures_bind; [by apply ensures_still, still_capacity|]. intros [] j2 _ _.
  eapply ensures_bind; [by apply ensures_still, still_now|]. intros now j3 _ [[Hn _]%now_ok _].
  eapply ensures_bind; [by apply ensures_still, still_lift|].
  intros raw j4 _ [[Hc ->]%liftM_ok _].
  apply ensures_catch; [|intros _ j5 _; by apply loaded_ensures].
  eapply ensures_bind; [exact (create_ensures _ _ _ _ Hi Hn HP Hc)|].
  intros [] j5 _ Hv. by apply ensures_ret.
Qed.

Lemma acquire_ensures id j :
  ensures (acquire_claim env id) j (λ b j', b = true →
    j_files j !! _claim_name (i_dispatch id) = None ∧
    is_Some (j_files j' !! _claim_name (i_dispatch id))).
Proof.
  unfold acquire_claim.
  eapply ensures_bind; [by apply ensures_still, still_now|]. intros now j1 _ [_ E1].
  eapply ensures_bind; [by apply ensures_still, still_lift|].
  intros raw j2 _ [[_ ->]%liftM_ok _].
  apply ensures_catch.
  - eapply ensures_bind.
    + apply write_ensures. intros content n _ _. apply evolves_other. apply claim_not_record.
    + intros [] j3 _ [Hn E3]. apply ensures_ret. intros _. rewrite <- E1. split; [done|].
      by rewrite E3, lookup_insert_eq.
  - intros _ j3 _. eapply ensures_bind; [by apply ensures_still, still_read_json|].
    intros d j4 _ _. eapply ensures_bind; [by apply ensures_still, still_lift|].
    intros [] j5 _ _. by apply ensures_ret.
Qed.

Lemma claim_ensures id j :
  P (i_dispatch id) REQUESTED → P (i_dispatch id) CLAIMED →
  ensures (claim_dispatch env id) j (λ c j',
    view_of (i_dispatch id) j' = Stored (claim_record c) ∧ r_id (claim_record c) = id ∧
    (claim_acquired c = true →
     j_files j !! _claim_name (i_dispatch id) = None ∧
     is_Some (j_files j' !! _claim_name (i_dispatch id)))).
Proof.
  intros P1 P2. unfold claim_dispatch.
  eapply ensures_bind; [by apply ensures_still, still_lift|].
  intros id' j0 _ [[Hid ->]%liftM_ok _].
  assert (id' = id ∧ identity_ok id) as [-> Hi].
  { apply bind_ok in Hid as (r & [-> Hr]%validate_as_dict & [= <-]). by destruct Hr. }
  clear Hid.
  eapply ensures_bind; [by apply find_or_create_ensures|]. intros [r is_new] j1 He1 Hv1.
  eapply ensures_bind; [by apply ensures_still, still_guard|].
  intros [] j2 _ [[Hs%negb_false_iff%bool_decide_eq_true ->]%raise_ifM_ok _].
  eapply ensures_bind; [apply acquire_ensures|]. intros acquired j2 He2 Hacq.
  eapply ensures_bind; [by apply ensures_still, still_load|].
  intros r2 j3 He3 [(_ & _ & Hv3 & _)%load_ok _].
  assert (Hid3 : r_id r2 = id).
  { assert (He : rtc (advances (i_dispatch id)) (Stored r) (Stored r2)).
    { cbn [fst] in Hv1. rewrite <- Hv1, <- Hv3. apply (advances_to_any P), e_views. by trans j2. }
    apply stored_advances in He as (r' & [= <-] & Hr & _). by rewrite Hr. }
  assert (Hclaim : ∀ j', evolves P j3 j' → acquired = true →
    j_files j !! _claim_name (i_dispatch id) = None ∧ is_Some (j_files j' !! _claim_name (i_dispatch id))).
  { intros j' He Ha. destruct (Hacq Ha) as [Hn Hs']. split.
    - destruct (j_files j !! _claim_name (i_dispatch id)) eqn:E; [|done].
      destruct (e_files _ _ _ He1 (_claim_name (i_dispatch id))) as [? ?]; [by eexists|congruence].
    - apply (e_files P j2); [by trans j3|done]. }
  eapply (ensures_bind _ _ _ (λ r' j', view_of (i_dispatch id) j' = Stored r' ∧ r_id r' = id)).
  - destruct (bool_decide (r_state r2 = REQUESTED)); [|apply ensures_ret; split; assumption].
    eapply ensures_impl; [apply transition_ensures; by intros s [= <-]|].
    intros r' j' _ (s & _ & Hv' & _ & r0 & Hr0 & Hf). split; [done|].
    rewrite Hv3 in Hr0. injection Hr0 as <-. by rewrite (f_id _ _ Hf).
  - intros r3 j4 He4 [Hv4 Hid4]. apply ensures_ret. cbn. split; [done|]. split; [done|].
    by apply Hclaim.
Qed.
End Operations.

(** * Histories *)

(** A call of the journal's interface. *)
Inductive request :=
  | Claim (id : identity)
  | Transition (h new_state : string) (expected_revision : option Z)
      (failure_code quarantine_reason : option string)
  | MarkFailed (h failure_code : string)
  | Quarantine (h failure_code reason : string)
  | Recover (h : string)
  | RecoverAll
  | Load (h : string)
  | ListRecords.

(** What a claim returns; the records other calls return are in the journal. *)
Definition perform (env : environment) (q : request) : M journal (option VerifierJournalClaim) :=
  match q with
  | Claim id => c ← claim_dispatch env id; mret (Some c)
  | Transition h t rev code reason => _ ← transition env h t rev code reason; mret None
  | MarkFailed h code => _ ← mark_failed env h code; mret None
  | Quarantine h code reason => _ ← quarantine env h code reason; mret None
  | Recover h => _ ← recover env h; mret None
  | RecoverAll => _ ← recover_all env; mret None
  | Load h => _ ← load env h; mret None
  | ListRecords => _ ← list_records env; mret None
  end.

(** Calls in any order, each in an environment of its own: with any clock, any
    faults, any crashes. *)
Inductive history (j : journal) : list (request * res (option VerifierJournalClaim)) → journal → Prop :=
  | history_nil : history j [] j
  | history_call tr j1 env q r j2 :
      history j tr j1 → perform env q j1 = (r, j2) → history j (tr ++ [(q, r)]) j2.

(** The dispatches whose claim was acquired. *)
Definition acquired_by (e : request * res (option VerifierJournalClaim)) : option string :=
  match e with
  | (Claim id, Ok (Some c)) => if claim_acquired c then Some (i_dispatch id) else None
  | _ => None
  end.
Definition acquired : list (request * res (option VerifierJournalClaim)) → list string :=
  omap acquired_by.

(** The states a call may write, and of which dispatch. *)
Definition may_write (q : request) (h : string) (s : state) : Prop :=
  match q with
  | Claim id => h = i_dispatch id ∧ s ∈ [REQUESTED; CLAIMED]
  | Transition h' t _ _ _ => h = h' ∧ state_of t = Some s
  | MarkFailed h' _ => h = h' ∧ s = FAILED
  | Quarantine h' _ _ => h = h' ∧ s = QUARANTINED
  | Recover h' => h = h' ∧ s ∈ [CRASH_ABORTED; FAILED_CLEANUP_REQUIRED]
  | RecoverAll => s ∈ [CRASH_ABORTED; FAILED_CLEANUP_REQUIRED]
  | Load _ | ListRecords => False
  end.

Lemma perform_evolves env q j : evolves (may_write q) j (perform env q j).2.
Proof.
  assert (Hret : ∀ P A (m : M journal A) Q, ensures P m j Q →
    evolves P j ((_ ← m; mret (M := M journal) None) j : res (option VerifierJournalClaim) * journal).2).
  { intros P A m Q Hm. apply (ensures_bind P m _ j Q (λ _ _, True) Hm). intros a j' _ _.
    by apply ensures_ret. }
  destruct q; cbn [perform].
  - assert (may_write (Claim id) (i_dispatch id) REQUESTED ∧ may_write (Claim id) (i_dispatch id) CLAIMED)
      as [H1 H2] by (split; (split; [reflexivity|by_compute])).
    apply (ensures_bind _ _ _ j _ (λ _ _, True) (claim_ensures env _ id j H1 H2)).
    intros c j' _ _. by apply ensures_ret.
  - eapply Hret, transition_ensures. intros s Hs. exact (conj eq_refl Hs).
  - eapply Hret, transition_ensures. by intros s [= <-].
  - eapply Hret, transition_ensures. by intros s [= <-].
  - eapply Hret, recover_ensures; (split; [reflexivity|by_compute]).
  - eapply Hret, recover_all_ensures; intros h; cbn; by_compute.
  - eapply Hret, ensures_still, still_load.
  - eapply Hret, ensures_still, still_list.
Qed.

Lemma history_advances j tr j' h :
  history j tr j' → rtc (advances h) (view_of h j) (view_of h j').
Proof.
  induction 1 as [|tr j1 env q r j2 _ IH Hq]; [done|].
  trans (view_of h j1); [done|]. pose proof (perform_evolves env q j1) as [Hv _].
  rewrite Hq in Hv. eapply advances_to_any, Hv.
Qed.

(** C10: The journal refines the state machine: over any sequence of calls (claims,
    transitions, restarts, reads), each with any clock, any input/output faults
    and any crashes, what a reader sees of a dispatch moves only by the
    machine's steps: a created record or a torn file, then table moves and the
    two restart edges, each of which keeps the identifiers and the creation
    time, counts the revision up by one and drops no failure code. *)
Theorem journal_refines_state_machine j tr j' h :
  history j tr j' → rtc (advances h) (view_of h j) (view_of h j').
Proof. apply history_advances. Qed.

(** ** One execution *)

Lemma claim_acquired_fresh env id j c j' :
  perform env (Claim id) j = (Ok (Some c), j') → claim_acquired c = true →
  j_files j !! _claim_name (i_dispatch id) = None ∧ is_Some (j_files j' !! _claim_name (i_dispatch id)).
Proof.
  intros Hp Hc. apply M_bind_ok in Hp as (c' & j1 & Hp & [= -> ->]).
  destruct (claim_ensures env (λ _ _, True) id j I I) as [_ HQ]. rewrite Hp in HQ.
  destruct (HQ c eq_refl) as (_ & _ & Hx). exact (Hx Hc).
Qed.

Lemma history_markers j tr j' :
  history j tr j' →
  NoDup (acquired tr) ∧ ∀ h, h ∈ acquired tr → is_Some (j_files j' !! _claim_name h).
Proof.
  induction 1 as [|tr j1 env q r j2 _ [Hnd Hm] Hq]; [split; [constructor|by intros h ?%elem_of_nil]|].
  pose proof (perform_evolves env q j1) as [_ Hkeep]. rewrite Hq in Hkeep. cbn [snd] in Hkeep.
  unfold acquired in *. rewrite omap_app. cbn [omap list_omap].
  destruct (acquired_by (q, r)) as [h|] eqn:E; [|rewrite app_nil_r; auto].
  destruct q as [id| | | | | | |], r as [[c|]|]; try discriminate E. cbn in E.
  destruct (claim_acquired c) eqn:Hc; [|discriminate E]. injection E as <-.
  destruct (claim_acquired_fresh env id j1 c j2 Hq Hc) as [Hnone Hsome]. clear Hq. split.
  - apply NoDup_app. split; [done|]. split; [|apply NoDup_singleton].
    intros h Hh ->%list_elem_of_singleton. destruct (Hm _ Hh) as [? ?]. congruence.
  - intros h [Hh| ->%list_elem_of_singleton]%elem_of_app; auto.
Qed.

(** C11: In any history, from any journal, over any faults and crashes, at most one
    call that claims a dispatch is told that it acquired the claim. *)
Theorem dispatch_is_claimed_once j tr j' : history j tr j' → NoDup (acquired tr).
Proof. by intros [H _]%history_markers. Qed.

(** ** The snapshot's lease *)

(** The states in which a record holds a snapshot. *)
Definition lease_states : list state :=
  [SNAPSHOT_ACQUIRED; EXECUTING; EXECUTION_SEALED; CRASH_ABORTED; FAILED_CLEANUP_REQUIRED; RELEASE_PENDING].

Lemma lease_move s t : s ∈ lease_states → may_follow s t → t ∈ lease_states ∨ t = CLEANUP_ACKED.
Proof.
  intros Hs Ht%successors_spec. revert s Hs t Ht.
  enough (H : Forall (λ s, Forall (λ t, t ∈ lease_states ∨ t = CLEANUP_ACKED) (successors s)) lease_states).
  { intros s Hs t Ht. rewrite Forall_forall in H. specialize (H s Hs).
    rewrite Forall_forall in H. auto. }
  by_compute.
Qed.

Lemma lease_kept h r r' :
  rtc (advances h) (Stored r) (Stored r') → r_state r ∈ lease_states →
  r_state r' ∈ lease_states ∨
  ∃ ra, rtc (advances h) (Stored r) (Stored ra) ∧ r_state ra = CLEANUP_ACKED ∧
        rtc (advances h) (Stored ra) (Stored r').
Proof.
  intros Hr Hs. remember (Stored r) as u eqn:Eu. remember (Stored r') as w eqn:Ew.
  revert r Eu Hs. induction Hr as [u|u v w Hstep Hrest IH]; intros r -> Hs.
  - left. injection Ew as <-. done.
  - inversion Hstep as [| |? r1 Hf]; subst.
    destruct (lease_move _ _ Hs (f_state _ _ Hf)) as [Hs1|Hs1].
    + destruct (IH eq_refl r1 eq_refl Hs1) as [?|(ra & ? & ? & ?)]; [by left|].
      right. exists ra. split; [by eapply rtc_l|done].
    + right. exists r1. split; [by apply rtc_once|done].
Qed.

(** A record that holds a snapshot leaves the states that hold one only through
    the acknowledged cleanup, whatever is called and wherever the verifier
    crashes. *)
Theorem lease_ends_with_cleanup j tr j' h r r' :
  history j tr j' → view_of h j = Stored r → view_of h j' = Stored r' →
  r_state r ∈ lease_states → r_state r' ∉ lease_states →
  ∃ ra, r_state ra = CLEANUP_ACKED ∧ rtc (advances h) (Stored r) (Stored ra) ∧
        rtc (advances h) (Stored ra) (Stored r').
Proof.
  intros Hh Hv Hv' Hs Hs'. pose proof (history_advances _ _ _ h Hh) as Ha. rewrite Hv, Hv' in Ha.
  destruct (lease_kept _ _ _ Ha Hs) as [?|(ra & ? & ? & ?)]; [done|eauto].
Qed.

(** ** Termination *)

(** The longest way to a state. *)
Definition rank (s : state) : nat :=
  match s with
  | REQUESTED => 1 | CLAIMED => 2 | SOURCE_VERIFIED => 3 | SNAPSHOT_ACQUIRED => 4 | EXECUTING => 5
  | EXECUTION_SEALED | CRASH_ABORTED | FAILED_CLEANUP_REQUIRED => 6
  | RELEASE_PENDING => 7 | CLEANUP_ACKED => 8 | RECEIPT_PERSISTED => 9 | TERMINAL_APPENDED => 10
  | DONE | FAILED | QUARANTINED => 11
  end.
Definition view_rank (v : view) : nat :=
  match v with Absent => 0 | Torn => 11 | Stored r => rank (r_state r) end.

Lemma rank_move s t : may_follow s t → (rank s < rank t)%nat.
Proof.
  intros Ht%successors_spec. revert t Ht.
  enough (H : Forall (λ t, rank s < rank t)%nat (successors s)) by by rewrite Forall_forall in H.
  destruct s; by_compute.
Qed.

Lemma advances_rank h v w : advances h v w → (view_rank v < view_rank w)%nat.
Proof. intros [id now _ _| |r r' Hf]; cbn; [lia..|]. apply rank_move, Hf. Qed.

(** No dispatch's record changes more than eleven times. *)
Theorem dispatch_advances_at_most_11_times h n v w :
  nsteps (advances h) n v w → (n ≤ 11)%nat.
Proof.
  intros Hn. enough (view_rank v + n ≤ view_rank w ∧ view_rank w ≤ 11)%nat by lia.
  assert (Hmax : ∀ u, (view_rank u ≤ 11)%nat) by (intros [| |r]; cbn; [lia..|]; destruct (r_state r); cbn; lia).
  split; [|done]. induction Hn as [v|n u v w Hs _ IH]; [lia|].
  pose proof (advances_rank _ _ _ Hs). lia.
Qed.

(** A record that ended never changes again. *)
Lemma terminal_moves s t : s ∈ TERMINAL_STATES → ¬ may_follow s t.
Proof.
  intros Hs Ht%successors_spec. revert s Hs t Ht.
  enough (H : Forall (λ s, successors s = []) TERMINAL_STATES).
  { intros s Hs t. rewrite Forall_forall in H. rewrite (H s Hs). apply not_elem_of_nil. }
  by_compute.
Qed.

(** A record that is done, failed or quarantined is never changed again. *)
Theorem ended_record_is_final j tr j' h r :
  history j tr j' → view_of h j = Stored r → terminal r = true → view_of h j' = Stored r.
Proof.
  intros Hh Hv Ht%bool_decide_eq_true. pose proof (history_advances _ _ _ h Hh) as Ha. rewrite Hv in Ha.
  inversion Ha as [|? w ? Hs]; [done|]. subst. inversion Hs as [| |? r1 Hf]; subst.
  by destruct (terminal_moves _ _ Ht (f_state _ _ Hf)).
Qed.

(** ** Progress

    Without faults a read, a move and a restart succeed: nothing in the module
    itself refuses them. *)

Section Progress.
Context (env : environment) (h : string).
Context (Hio : ∀ n, io env n = Fine) (Hclock : ∀ n, 0 ≤ clock_ns env n ≤ MAX_NS) (Hh : sha256_ok h = true).

(** No temporary file of an earlier crash has a name that is drawn again. *)
Definition fresh_temporaries (j : journal) : Prop :=
  ∀ n, j_files j !! temp_name (_record_name h) (uuid4_hex env n) = None.

Lemma load_total j r :
  view_of h j = Stored r → load env h j = (Ok r, Journal (j_files j) (S (j_tick j))).
Proof.
  intros (raw & Hraw & Hp)%view_stored.
  assert (Hread : _read_bounded env (_record_name h) j = (Ok raw, Journal (j_files j) (S (j_tick j)))).
  { unfold _read_bounded. erewrite M_bind_run by reflexivity. rewrite Hio.
    erewrite M_bind_run by (unfold askM; cbn [j_files]; rewrite Hraw; reflexivity).
    pose proof (parse_record_size _ _ _ Hp) as Hs. apply Z.ltb_ge in Hs. by rewrite Hs. }
  unfold load. erewrite lift_bind_run by (by apply dispatch_hash_ok).
  rewrite (M_bind_run _ _ _ _ _ Hread). unfold liftM. by rewrite Hp.
Qed.

Lemma now_total j :
  _now_ns env j = (Ok (clock_ns env (j_tick j)), Journal (j_files j) (S (j_tick j))).
Proof.
  unfold _now_ns, tick, raise_ifM, liftM, mbind, M_bind. cbn.
  specialize (Hclock (j_tick j)).
  assert ((clock_ns env (j_tick j) <? 0) || (MAX_NS <? clock_ns env (j_tick j)) = false) as -> by lia.
  done.
Qed.

(** The record a move writes. *)
Definition successor (r : VerifierJournalRecord) (s : state) (now : Z) (code reason : option string) :=
  JournalRecord (r_id r) s (Some (r_state r)) (r_revision r + 1) (r_created r)
    (Z.max (r_updated r) now) (match code with Some c => Some c | None => r_failure r end) reason.

Lemma move_total j r s code reason :
  fresh_temporaries j → i_dispatch (r_id r) = h →
  record_ok (successor r s (clock_ns env (j_tick j)) code reason) →
  (r' ← _next_record env r s code reason; _ ← _replace_record env r'; mret r') j =
  (Ok (successor r s (clock_ns env (j_tick j)) code reason),
   Journal (<[_record_name h := canonical_json (JObj (as_dict
     (successor r s (clock_ns env (j_tick j)) code reason))) +:+ newline]> (j_files j)) (S (S (j_tick j)))).
Proof.
  intros Hfresh Hd Hok. set (r' := successor _ _ _ _ _) in *.
  destruct (record_prints r' Hok) as [raw Hraw]. pose proof Hraw as [Eraw _]%journal_bytes_ok.
  rewrite <- Eraw.
  assert (Hrep : _replace env (_record_name (i_dispatch (r_id r'))) raw
     (Journal (j_files j) (S (j_tick j))) =
     (Ok tt, Journal (<[_record_name h := raw]> (j_files j)) (S (S (j_tick j))))).
  { change (i_dispatch (r_id r')) with (i_dispatch (r_id r)). rewrite Hd.
    unfold _replace, tick, set_file, readM, modifyM, mbind, M_bind. cbn [j_tick j_files].
    rewrite Hio. specialize (Hfresh (S (j_tick j))). by rewrite Hfresh. }
  assert (Hnext : _next_record env r s code reason j = (Ok r', Journal (j_files j) (S (j_tick j)))).
  { unfold _next_record. rewrite (M_bind_run _ _ _ _ _ (now_total j)). unfold liftM.
    f_equal. exact (proj2 (validate_as_dict r' r') (conj eq_refl Hok)). }
  rewrite (M_bind_run _ _ _ _ _ Hnext). unfold _replace_record.
  rewrite (M_bind_run _ (_ ≫= _) _ tt (Journal (<[_record_name h:=raw]> (j_files j)) (S (S (j_tick j))))); [done|].
  by rewrite (lift_bind_run _ _ _ _ Hraw).
Qed.

Lemma successor_ok r s now code reason :
  record_ok r → r_revision r < MAX_NS → 0 ≤ now ≤ MAX_NS →
  text_ok MAX_FAILURE_CODE_BYTES code → match code with Some c => failure_code_ok c = true | None => True end →
  text_ok MAX_QUARANTINE_REASON_BYTES reason →
  validate_failure s (match code with Some c => Some c | None => r_failure r end) reason = Ok tt →
  record_ok (successor r s now code reason).
Proof.
  intros (Hi & Hr & Hc & Hu & Ht & _ & Hf & Hf' & _) Hrev Hnow Hcode Hcode' Hreason Hv.
  unfold record_ok, successor; cbn [r_id r_state r_previous r_revision r_created r_updated r_failure r_reason].
  split; [done|]. split; [lia|]. split; [lia|]. split; [lia|]. split; [lia|].
  split; [split; [lia|done]|]. split; [by destruct code|]. split; [by destruct code|]. done.
Qed.

(** The record of [h] is [r] and its revision can grow. *)
Definition movable (j : journal) (r : VerifierJournalRecord) : Prop :=
  view_of h j = Stored r ∧ r_revision r < MAX_NS ∧ fresh_temporaries j.

Lemma moved_total j r s code reason :
  movable j r → may_follow (r_state r) s →
  record_ok (successor r s (clock_ns env (S (j_tick j))) code reason) →
  ∃ r' j', (r' ← _next_record env r s code reason; _ ← _replace_record env r'; mret r')
    (Journal (j_files j) (S (j_tick j))) = (Ok r', j') ∧ r_state r' = s ∧ view_of h j' = Stored r'.
Proof.
  intros (Hv & Hrev & Hfresh) Hs Hok. pose proof (view_stored_ok _ _ _ Hv) as [_ Hd].
  set (j1 := Journal (j_files j) (S (j_tick j))).
  assert (Hv1 : view_of h j1 = Stored r) by exact Hv.
  pose proof (move_total j1 r s code reason Hfresh Hd Hok) as E.
  destruct (move_ensures env (λ _ _, True) h r s code reason j1 Hv1 Hd Hs I) as [_ HQ].
  rewrite E in HQ. cbn [fst snd] in HQ. destruct (HQ _ eq_refl) as (Hv' & Hst & _).
  eexists _, _. split; [exact E|]. split; [exact Hst|exact Hv'].
Qed.

(** The table has no move that only a restart may make. *)
Lemma allowed_is_public s t :
  t ∈ ALLOWED_TRANSITIONS s →
  bool_decide (Some t ∈ [Some CRASH_ABORTED; Some FAILED_CLEANUP_REQUIRED]) = false.
Proof.
  revert t. enough (H : Forall (λ t,
    bool_decide (Some t ∈ [Some CRASH_ABORTED; Some FAILED_CLEANUP_REQUIRED]) = false) (ALLOWED_TRANSITIONS s))
    by by rewrite Forall_forall in H.
  destruct s; by_compute.
Qed.

(** A move that the table and the revision allow is a record's replacement. *)
Lemma transition_run j r s code reason :
  view_of h j = Stored r → s ∈ ALLOWED_TRANSITIONS (r_state r) →
  transition env h (state_name s) (Some (r_revision r)) code reason j =
  (r' ← _next_record env r s code reason; _ ← _replace_record env r'; mret r')
    (Journal (j_files j) (S (j_tick j))).
Proof.
  intros Hview Hs. assert (Hn : state_of (state_name s) = Some s) by by apply state_of_name.
  assert (Hnr : bool_decide (state_of (state_name s) ∈ [Some CRASH_ABORTED; Some FAILED_CLEANUP_REQUIRED]) = false).
  { rewrite Hn. by eapply allowed_is_public. }
  unfold transition. rewrite (lift_bind_run _ _ _ h) by by apply dispatch_hash_ok.
  rewrite (guard_run _ _ _ _ _ Hnr).
  rewrite (M_bind_run _ _ _ _ _ (load_total j r Hview)).
  rewrite guard_run by by rewrite Z.eqb_refl.
  rewrite Hn, guard_run by by rewrite bool_decide_true. reflexivity.
Qed.

(** Progress: without faults, with the clock in range and no temporary file in
    the way, every move of the table succeeds from a readable record when the
    failure metadata fits the new state.  In particular the record's size limit
    and its encoding never refuse it. *)
Theorem allowed_moves_succeed j r s code reason :
  movable j r → s ∈ ALLOWED_TRANSITIONS (r_state r) →
  text_ok MAX_FAILURE_CODE_BYTES code → match code with Some c => failure_code_ok c = true | None => True end →
  text_ok MAX_QUARANTINE_REASON_BYTES reason →
  validate_failure s (match code with Some c => Some c | None => r_failure r end) reason = Ok tt →
  ∃ r' j', transition env h (state_name s) (Some (r_revision r)) code reason j = (Ok r', j') ∧
           r_state r' = s ∧ view_of h j' = Stored r'.
Proof.
  intros Hm Hs Hcode Hcode' Hreason Hv. pose proof Hm as (Hview & Hrev & _).
  pose proof (view_stored_ok _ _ _ Hview) as [Hok Hd].
  rewrite (transition_run _ _ _ _ _ Hview Hs).
  apply moved_total; [exact Hm|by left|]. apply successor_ok; auto.
Qed.

(** What a restart makes of a state. *)
Definition recovered (s : state) : state :=
  match recovery_of s with Some (t, _) => t | None => s end.

(** Without faults a restart succeeds on every readable record: a run that was
    executing is aborted, one that held a snapshot is marked for cleanup, and
    every other record is left as it is. *)
Theorem restart_closes_interrupted_runs j r :
  movable j r →
  ∃ r' j', recover env h j = (Ok r', j') ∧ r_state r' = recovered (r_state r) ∧ view_of h j' = Stored r'.
Proof.
  intros Hm. pose proof Hm as (Hview & Hrev & _). pose proof (view_stored_ok _ _ _ Hview) as [Hok Hd].
  assert (Hrun : recover env h j =
    match recovery_of (r_state r) with
    | None => mret r
    | Some (s, code) =>
        r' ← _next_record env r s (Some code) None; _ ← _replace_record env r'; mret r'
    end (Journal (j_files j) (S (j_tick j)))).
  { unfold recover. rewrite (lift_bind_run _ _ _ h) by by apply dispatch_hash_ok.
    by rewrite (M_bind_run _ _ _ _ _ (load_total j r Hview)). }
  rewrite Hrun. unfold recovered. destruct (recovery_of (r_state r)) as [[s code]|] eqn:E.
  - destruct (moved_total j r s (Some code) None Hm) as (r' & j' & H'); [right; eauto| |by exists r', j'].
    destruct (r_state r); try discriminate E; injection E as <- <-;
      apply successor_ok; auto; repeat split; done.
  - eexists _, _. split; [reflexivity|]. split; [reflexivity|exact Hview].
Qed.
End Progress.

(** C39: Every valid record can be written and read back: its text is encodable,
    takes at most 2501 of the 4096 bytes a record may have, and a directory that
    holds that text under the record's name reads as that record. *)
Theorem valid_records_are_readable r j :
  record_ok r → ∃ raw, _canonical_json_bytes (as_dict r) = Ok raw ∧
    Z.of_nat (String.length raw) ≤ 2501 ∧
    (j_files j !! _record_name (i_dispatch (r_id r)) = Some raw → view_of (i_dispatch (r_id r)) j = Stored r).
Proof.
  intros Hr. destruct (record_prints r Hr) as [raw Hraw]. exists raw. split; [exact Hraw|]. split.
  - apply journal_bytes_ok in Hraw as [-> _]. rewrite str_app_length. pose proof (record_length r Hr).
    change (String.length newline) with 1%nat. lia.
  - intros Hj. unfold view_of. by rewrite Hj, (parse_printed r raw Hr Hraw).
Qed.

(** ** A torn record *)

Lemma substring_app s t : String.substring 0 (String.length (s +:+ t) - String.length t) (s +:+ t) = s.
Proof.
  rewrite str_app_length. replace (String.length s + String.length t - String.length t)%nat
    with (String.length s) by lia.
  induction s as [|c s IH]; [by destruct t|]. rewrite str_app_cons. cbn. by rewrite IH.
Qed.

Lemma record_name_reads h :
  String.substring 0 (String.length (_record_name h) - 5) (_record_name h) = h.
Proof. exact (substring_app h ".json"). Qed.

Lemma record_name_is_one h : sha256_ok h = true → is_record_name (_record_name h) = true.
Proof.
  intros Hh. unfold is_record_name. rewrite record_name_reads, Hh, andb_true_r.
  apply ends_with_app.
Qed.

Lemma load_all_ok env names : ∀ j rs j',
  load_all env names j = (Ok rs, j') →
  Forall (λ n, ∃ r, view_of (String.substring 0 (String.length n - 5) n) j = Stored r) names.
Proof.
  induction names as [|n names IH]; intros j rs j'; [constructor|]. cbn [load_all].
  intros (r & j1 & Hl & Hr)%M_bind_ok. apply M_bind_ok in Hr as (rs' & j2 & Hr & _).
  pose proof (still_load env (String.substring 0 (String.length n - 5) n) j) as E.
  rewrite Hl in E. cbn [snd] in E. apply load_ok in Hl as (_ & Hv & _).
  constructor; [eauto|]. eapply Forall_impl; [exact (IH _ _ _ Hr)|].
  intros m [r' Hm]. exists r'. by rewrite <- (same_files_view _ _ _ E).
Qed.

Lemma list_records_ok env j rs j' h :
  list_records env j = (Ok rs, j') → sha256_ok h = true → is_Some (j_files j !! _record_name h) →
  ∃ r, view_of h j = Stored r.
Proof.
  intros Hl Hh [raw Hraw]. apply M_bind_ok in Hl as (names & j1 & Hn & Hl).
  assert (E : j_files j1 = j_files j).
  { pose proof (still_names env j) as E. by rewrite Hn in E. }
  assert (Hin : _record_name h ∈ names).
  { apply M_bind_ok in Hn as (n & j2 & [= <- <-] & Hn). destruct (io env (j_tick j)); [|done].
    apply M_bind_ok in Hn as (ns & j3 & [-> ->]%readM_ok & Hn).
    apply M_bind_ok in Hn as (u & j4 & _ & [= <- _]). cbn [j_files].
    apply list_elem_of_fmap. exists (_record_name h, raw). split; [done|]. by apply elem_of_map_to_list. }
  apply M_bind_ok in Hl as (u & j2 & [_ ->]%raise_ifM_ok & Hl). apply load_all_ok in Hl.
  rewrite Forall_forall in Hl.
  destruct (Hl (_record_name h)) as [r Hr].
  { rewrite merge_sort_Permutation. apply list_elem_of_In, filter_In. split; [by apply list_elem_of_In|].
    by apply record_name_is_one. }
  rewrite record_name_reads in Hr. exists r. by rewrite <- (same_files_view _ _ _ E).
Qed.

(** C38: A creation cut short by a crash leaves a file that no call ever repairs, and
    while it is there the restart's [recover_all] fails for all dispatches. *)
Theorem torn_record_blocks_recovery j tr j' env h :
  history j tr j' → sha256_ok h = true → view_of h j = Torn → is_ok (recover_all env j').1 = false.
Proof.
  intros Hj Hh Hv. pose proof (history_advances _ _ _ h Hj) as Ha. rewrite Hv in Ha.
  assert (Hv' : view_of h j' = Torn) by (inversion Ha as [|? ? ? Hs]; [done|inversion Hs]).
  destruct (recover_all env j') as [[rs|e] j2] eqn:E; [|done].
  apply M_bind_ok in E as (rs' & j1 & Hl & _).
  destruct (list_records_ok env j' rs' j1 h Hl Hh) as [r Hr]; [|congruence].
  unfold view_of in Hv'. destruct (j_files j' !! _record_name h); [by eexists|done].
Qed.
