(* ===== verification/VerifierService.v ===== *)
(** * The verifier's coordinator ([verifier_service.py])

    The service ties the protocol's documents, the journal and a directory of
    receipts together.  Its accesses draw from the journal's oracle: each is
    done, raises, or is cut short, and what a write leaves on the disk is the
    environment's ([settles]).  OpenSSL and the trust material are those of
    [VerifierReceipt]. *)

From S2P Require Import SnapshotProtocol.
From S2P Require Export VerifierReceipt JournalSafety.

Definition MAX_RECEIPT_STORE_ENTRIES : Z := 4096.
Notation service_error := VerifierServiceError.

(** ** The receipt directory *)

(** What [stat] reports of a directory: its type, its permission bits, its
    owner, the identity [(st_dev, st_ino)] and Windows' reparse attribute. *)
Record dir_stat := DirStat {
  d_kind : file_kind; d_perm : Z; d_uid : Z; d_gid : Z; d_identity : Z * Z; d_reparse : bool
}.

(** A file of the directory. *)
Record entry := Entry {
  e_bytes : string; e_kind : file_kind; e_nlink : Z; e_uid : Z; e_perm : Z; e_reparse : bool
}.

(** [mode & (stat.S_IWGRP | stat.S_IWOTH)] *)
Definition group_or_world_writes (d : dir_stat) : bool := negb (Z.land (d_perm d) S_IWGRP_IWOTH =? 0).

(** A plain directory of the service's user with mode 0700. *)
Definition owned_0700 (d : dir_stat) (euid egid : Z) : bool :=
  bool_decide (d_kind d = Directory) && (d_uid d =? euid) && (d_gid d =? egid) && (d_perm d =? 448).

Definition _validate_posix_receipt_root_policy (metadata : dir_stat) (ancestor_metadata : list dir_stat)
    (euid egid : Z) : res unit :=
  _ ← raise_if (negb (owned_0700 metadata euid egid)) service_error
        "Verifier receipt store must be euid/egid 0700";
  raise_if (existsb (λ a, negb (bool_decide (d_kind a = Directory))
                          || negb (bool_decide (d_uid a ∈ [0; euid])) || group_or_world_writes a)
              ancestor_metadata) service_error
    "Verifier receipt ancestry is not owner-protected".

Definition _validate_posix_receipt_root_identity (metadata : dir_stat) (expected_identity : Z * Z)
    (euid egid : Z) : res unit :=
  raise_if (negb (owned_0700 metadata euid egid && bool_decide (d_identity metadata = expected_identity)))
    service_error "Verifier receipt root identity or protection changed".

(** ** The service *)

(** The journal and the files of the receipt directory by name; accesses are
    counted by the journal. *)
Record service := Service { s_journal : journal; s_receipts : gmap string entry }.

Record service_environment := ServiceEnvironment {
  env_journal : environment;
  env_clock : nat → Z;                         (** the service's clock *)
  env_host : host;                             (** the trust material *)
  env_posix : bool;                            (** [os.name == "posix"] *)
  env_euid : Z; env_egid : Z;
  stat_root : nat → option dir_stat;           (** [receipt_root.stat()] *)
  fstat_root : nat → option dir_stat;          (** [os.fstat(dirfd)] *)
  stat_ancestors : nat → list (option dir_stat);
  settles : nat → string → entry               (** the file that a write of these bytes leaves *)
}.

Record PersistedVerifierReceipt := PersistedReceipt {
  p_record : VerifierJournalRecord; p_path : string; p_sha256 : string; p_idempotent : bool
}.

Definition receipt_name (dispatch_hash : string) : string := dispatch_hash +:+ ".receipt.json".

(** The identifiers a dispatch gives the journal. *)
Definition identity_of (request : dict) : identity :=
  Identity (str_of (get request "dispatch_event_hash")) (str_of (get request "task_id"))
    (default 0 (int_of (get request "attempt"))) (str_of (get request "actor"))
    (str_of (get request "run_id")).

Section VerifierService.
Context `{Hashing} `{OpenSSL} (env : service_environment).

Notation S := (M service).
Notation jenv := (env_journal env).

Definition on_journal {A} (m : M journal A) : S A := λ s,
  ((m (s_journal s)).1, Service (m (s_journal s)).2 (s_receipts s)).
Definition set_entry (name : string) (e : entry) : S unit :=
  modifyM (λ s, Service (s_journal s) (<[name := e]> (s_receipts s))).
Definition unset_entry (name : string) : S unit :=
  modifyM (λ s, Service (s_journal s) (delete name (s_receipts s))).

(** One access that leaves the directory alone. *)
Definition access_only : S nat :=
  n ← on_journal tick;
  match io jenv n with Fine => mret n | Fault e _ => liftM (Err e) end.

(** *** The root *)

Definition _prepare_receipt_root : S (option (Z * Z)) :=
  _ ← access_only;
  n ← on_journal tick;
  match stat_root env n with
  | None => raiseM service_error "Verifier receipt store is unavailable"
  | Some metadata =>
      _ ← raise_ifM (negb (bool_decide (d_kind metadata = Directory)) || d_reparse metadata) service_error
            "Verifier receipt store is not a plain directory";
      if negb (env_posix env) then mret None
      else
        n ← on_journal tick;
        ancestors ← liftM (res_mapM (res_of_option (Exn service_error "Verifier receipt ancestry is unavailable"))
                             (stat_ancestors env n));
        _ ← liftM (_validate_posix_receipt_root_policy metadata ancestors (env_euid env) (env_egid env));
        n ← catchM access_only OSError (λ _, raiseM service_error "Verifier receipt dirfd open failed");
        match fstat_root env n with
        | None => raiseM service_error "Verifier receipt dirfd open failed"
        | Some opened =>
            _ ← liftM (_validate_posix_receipt_root_identity opened (d_identity metadata)
                         (env_euid env) (env_egid env));
            mret (Some (d_identity opened))
        end
  end.

(** [pinned] is the instance's [_receipt_dir_identity]. *)
Context (pinned : option (Z * Z)).

Definition _require_receipt_root_identity : S unit :=
  if negb (env_posix env) then mret tt
  else match pinned with
       | None => raiseM service_error "Verifier receipt dirfd identity is unavailable"
       | Some identity =>
           n ← on_journal tick;
           match stat_root env n with
           | None => raiseM service_error "Verifier receipt root path is unavailable"
           | Some metadata =>
               liftM (_validate_posix_receipt_root_identity metadata identity (env_euid env) (env_egid env))
           end
       end.

Definition _fsync_receipt_root : S unit :=
  if negb (env_posix env) then mret tt
  else match pinned with
       | None => raiseM OSError "Verifier receipt dirfd is unavailable"
       | Some identity =>
           n ← on_journal tick;
           match fstat_root env n with
           | None => raiseM OSError "fstat"
           | Some metadata =>
               _ ← catchM (liftM (_validate_posix_receipt_root_identity metadata identity
                                    (env_euid env) (env_egid env)))
                     service_error
                     (λ _, raiseM OSError "Verifier receipt dirfd identity or protection changed");
               _ ← access_only;
               mret tt
           end
       end.

Definition _bounded_receipt_entry_names : S (list string) :=
  _ ← catchM access_only OSError (λ _, raiseM service_error "Verifier receipt store cannot be enumerated");
  names ← readM (λ s, (map_to_list (s_receipts s)).*1);
  _ ← raise_ifM (MAX_RECEIPT_STORE_ENTRIES <? Z.of_nat (length names)) service_error
        "Verifier receipt store exceeds its entry limit";
  mret names.

(** *** One receipt *)

(** [os.open(name, O_RDWR | O_CREAT | O_EXCL, 0o600)] *)
Definition create_exclusive (name : string) : S unit :=
  n ← on_journal tick;
  existing ← readM (λ s, s_receipts s !! name);
  match io jenv n, existing with
  | Fault e Nothing, _ => liftM (Err e)
  | _, Some _ => raiseM FileExistsError name
  | Fine, None => set_entry name (settles env n "")
  | Fault e _, None => _ ← set_entry name (settles env n ""); liftM (Err e)
  end.

(** Whether the file is new; when it exists it will be compared. *)
Definition creation (name : string) : S bool :=
  catchM (catchM (_ ← create_exclusive name; mret true) FileExistsError (λ _, mret false)) OSError
    (λ _, raiseM service_error "Verifier receipt create failed").

Definition _verify_new_receipt_descriptor (e : entry) (encoded : string) : res unit :=
  _ ← raise_if (negb (bool_decide (e_kind e = Regular)) || e_reparse e || negb (e_nlink e =? 1)
                || negb (String.length (e_bytes e) =? String.length encoded)%nat) OSError
        "new verifier receipt identity is unsafe";
  _ ← raise_if (env_posix env && (negb (e_uid e =? env_euid env) || negb (e_perm e =? 384))) OSError
        "new verifier receipt ownership or mode is unsafe";
  raise_if (negb (bool_decide (sha256_hex (e_bytes e) = sha256_hex encoded))) OSError
    "new verifier receipt readback digest mismatch".

(** Mode, write, [fsync], read-back and close of the new file. *)
Definition write_new (name encoded : string) : S unit :=
  n ← on_journal tick;
  match io jenv n with
  | Fine => _ ← set_entry name (settles env n encoded);
            liftM (_verify_new_receipt_descriptor (settles env n encoded) encoded)
  | Fault e Nothing => liftM (Err e)
  | Fault e (Partial k) => _ ← set_entry name (settles env n (String.substring 0 k encoded)); liftM (Err e)
  | Fault e Whole => _ ← set_entry name (settles env n encoded); liftM (Err e)
  end.

Definition unlink (name : string) : S unit :=
  n ← on_journal tick;
  match io jenv n with
  | Fine => unset_entry name
  | Fault e Nothing => liftM (Err e)
  | Fault e _ => _ ← unset_entry name; liftM (Err e)
  end.

(** The file that is already there must hold the same bytes. *)
Definition compare_existing (name encoded : string) : S unit :=
  existing ← catchM (_ ← access_only;
                     e ← askM (λ s, res_of_option (Exn FileNotFoundError name) (s_receipts s !! name));
                     _ ← raise_ifM (bool_decide (e_kind e = Link) || negb (env_posix env) && e_reparse e)
                           OSError "existing verifier receipt path is unsafe";
                     mret e) OSError (λ _,
                raiseM service_error "Existing verifier receipt is unreadable");
  _ ← raise_ifM (negb (bool_decide (e_kind existing = Regular)) || e_reparse existing
                 || negb (e_nlink existing =? 1)
                 || negb (String.length (e_bytes existing) =? String.length encoded)%nat) service_error
        "Existing verifier receipt differs or is unsafe";
  _ ← catchM access_only OSError (λ _,
                raiseM service_error "Existing verifier receipt is unreadable");
  raise_ifM (negb (bool_decide (e_bytes existing = encoded))) service_error
    "Existing verifier receipt differs or is unsafe".

Definition _persist_exact (name encoded : string) : S bool :=
  _ ← _require_receipt_root_identity;
  names ← _bounded_receipt_entry_names;
  _ ← raise_ifM (negb (bool_decide (name ∈ names)) && (MAX_RECEIPT_STORE_ENTRIES <=? Z.of_nat (length names)))
        service_error "Verifier receipt store exceeds its entry limit";
  created ← creation name;
  if (created : bool) then
    _ ← catchM (write_new name encoded) OSError (λ _,
          _ ← catchM (_ ← unlink name; _fsync_receipt_root) OSError
                (λ _, raiseM service_error "Verifier receipt failed validation and cleanup failed");
          raiseM service_error "Verifier receipt durable write failed");
    _ ← _require_receipt_root_identity;
    _ ← _fsync_receipt_root;
    mret false
  else
    _ ← compare_existing name encoded;
    _ ← _require_receipt_root_identity;
    _ ← _fsync_receipt_root;
    mret true.

(** *** The operations *)

Definition claim_dispatch (dispatch wakeup : json) : S VerifierJournalClaim :=
  n ← on_journal tick;
  request ← liftM (validate_dispatch dispatch (env_clock env n));
  signal ← liftM (validate_wakeup wakeup);
  _ ← liftM (res_iter (λ key, raise_if (py_neq (get request key) (get signal key)) service_error
                ("Verifier wakeup does not match dispatch field " +:+ key))
              ["dispatch_event_hash"; "task_id"; "run_id"; "nonce"]);
  catchM (on_journal (VerifierJournal.claim_dispatch jenv (identity_of request))) VerifierJournalError
    (λ _, raiseM service_error "Verifier dispatch journal claim failed").

(** What is checked before anything is written: the dispatch as validated, the
    receipt as verified and the dispatch's record. *)
Definition receivable (dispatch receipt : json) : S (dict * dict * VerifierJournalRecord) :=
  issued ← liftM (jitem dispatch "issued_at");
  request ← liftM (validate_dispatch dispatch (match issued with JInt z => z | _ => 0 end));
  document ← liftM (catch (verify_verification_receipt (env_host env) receipt (Some (JObj request)))
                      Exception (λ _, raise service_error "Verifier receipt verification failed"));
  let no_dispatch := raiseM service_error "Verifier receipt has no claimed dispatch" in
  record ← catchM (catchM (on_journal (load jenv (i_dispatch (identity_of request))))
                     FileNotFoundError (λ _, no_dispatch))
             VerifierJournalError (λ _, no_dispatch);
  _ ← raise_ifM (negb (bool_decide (r_id record = identity_of request))) service_error
        "Verifier receipt and journal identity disagree";
  _ ← raise_ifM (negb (bool_decide (r_state record ∈ [CLEANUP_ACKED; RECEIPT_PERSISTED]))) service_error
        "Verifier receipt may persist only after cleanup acknowledgement";
  mret (request, document, record).

(** The transition that may still be pending. *)
Definition advance_record (dispatch_hash : string) (record : VerifierJournalRecord) : S VerifierJournalRecord :=
  if bool_decide (r_state record = CLEANUP_ACKED) then
    catchM (on_journal (transition jenv dispatch_hash (state_name RECEIPT_PERSISTED)
                          (Some (r_revision record)) None None)) VerifierJournalError
      (λ _, raiseM service_error "Verifier receipt journal transition failed")
  else mret record.

Definition persist_receipt (dispatch receipt : json) : S PersistedVerifierReceipt :=
  '(request, document, record) ← receivable dispatch receipt;
  encoded ← liftM (canonical_json_bytes (JObj document));
  let dispatch_hash := i_dispatch (identity_of request) in
  let receipt_path := receipt_name dispatch_hash in
  idempotent ← _persist_exact receipt_path encoded;
  record ← advance_record dispatch_hash record;
  mret (PersistedReceipt record receipt_path (sha256_hex encoded) idempotent).
End VerifierService.

(** * What a call leaves behind *)

(** The receipts of [s] that [s'] still has, unchanged. *)
Definition kept (s s' : service) : Prop :=
  ∀ name e, s_receipts s !! name = Some e → s_receipts s' !! name = Some e.

#[export] Instance kept_preorder : PreOrder kept.
Proof. split; [by intros s name e|]. intros s1 s2 s3 H1 H2 name e He. auto. Qed.

Lemma kept_same s s' : s_receipts s' = s_receipts s → kept s s'.
Proof. intros E name e. by rewrite E. Qed.

(** Computations that write no file at all, and those that write no file but
    one receipt. *)
Class Calm {A} (m : M service A) : Prop := calm : ∀ s,
  j_files (s_journal (m s).2) = j_files (s_journal s) ∧ s_receipts (m s).2 = s_receipts s.
Class Writes (name : string) {A} (m : M service A) : Prop := writes : ∀ s,
  j_files (s_journal (m s).2) = j_files (s_journal s) ∧
  ∀ other, other ≠ name → s_receipts (m s).2 !! other = s_receipts s !! other.

#[export] Instance calm_writes {A} name (m : M service A) : Calm m → Writes name m | 10.
Proof. intros Hm s. destruct (Hm s) as [E1 E2]. split; [done|]. intros other _. by rewrite E2. Qed.

#[export] Instance calm_lift {A} (r : res A) : Calm (liftM r).
Proof. done. Qed.
#[export] Instance calm_ret {A} (a : A) : Calm (mret a).
Proof. done. Qed.
#[export] Instance calm_guard b c msg : Calm (raise_ifM b c msg).
Proof. done. Qed.
#[export] Instance calm_raise {A} c msg : Calm (raiseM (A := A) c msg).
Proof. done. Qed.
#[export] Instance calm_read {A} (f : service → A) : Calm (readM f).
Proof. done. Qed.
#[export] Instance calm_ask {A} (f : service → res A) : Calm (askM f).
Proof. done. Qed.
#[export] Instance calm_journal {A} (m : M journal A) : Still m → Calm (on_journal m).
Proof. intros Hm s. split; [apply Hm|done]. Qed.
#[export] Instance calm_bind {A B} (m : M service A) (f : A → M service B) :
  Calm m → (∀ a, Calm (f a)) → Calm (m ≫= f).
Proof.
  intros Hm Hf s. unfold mbind, M_bind. destruct (Hm s) as [E1 E2].
  destruct (m s) as [[a|e] s1]; cbn in *; [|done]. destruct (Hf a s1) as [F1 F2]. split; congruence.
Qed.
#[export] Instance calm_catch {A} (m : M service A) c (h : exn → M service A) :
  Calm m → (∀ e, Calm (h e)) → Calm (catchM m c h).
Proof.
  intros Hm Hh s. unfold catchM. destruct (Hm s) as [E1 E2].
  destruct (m s) as [[a|e] s1]; cbn [fst snd] in *; [done|]. destruct (is_a e c); [|done].
  destruct (Hh e s1) as [F1 F2]. split; congruence.
Qed.

#[export] Instance writes_bind {A B} name (m : M service A) (f : A → M service B) :
  Writes name m → (∀ a, Writes name (f a)) → Writes name (m ≫= f) | 20.
Proof.
  intros Hm Hf s. unfold mbind, M_bind. destruct (Hm s) as [E1 E2].
  destruct (m s) as [[a|e] s1]; cbn in *; [|done]. destruct (Hf a s1) as [F1 F2].
  split; [congruence|]. intros other Ho. by rewrite F2, E2.
Qed.
#[export] Instance writes_catch {A} name (m : M service A) c (h : exn → M service A) :
  Writes name m → (∀ e, Writes name (h e)) → Writes name (catchM m c h) | 20.
Proof.
  intros Hm Hh s. unfold catchM. destruct (Hm s) as [E1 E2].
  destruct (m s) as [[a|e] s1]; cbn [fst snd] in *; [done|]. destruct (is_a e c); [|done].
  destruct (Hh e s1) as [F1 F2]. split; [congruence|]. intros other Ho. by rewrite F2, E2.
Qed.
#[export] Instance writes_set name e : Writes name (set_entry name e).
Proof. intros s. split; [done|]. intros other Ho. cbn. by rewrite lookup_insert_ne. Qed.
#[export] Instance writes_unset name : Writes name (unset_entry name).
Proof. intros s. split; [done|]. intros other Ho. cbn. by rewrite lookup_delete_ne. Qed.

(** Follow the structure of a computation. *)
Ltac calmly :=
  repeat first [ apply calm_bind; [|intros ?] | apply calm_catch; [|intros ?]
               | match goal with |- Calm (match ?x with _ => _ end) => destruct x end
               | apply _ ].
Ltac writing :=
  repeat first [ apply writes_bind; [|intros ?] | apply writes_catch; [|intros ?]
               | match goal with |- Writes _ (match ?x with _ => _ end) => destruct x end
               | apply _ ].

Section Receipts.
Context `{Hashing} (env : service_environment) (pinned : option (Z * Z)).

#[export] Instance calm_access : Calm (access_only env).
Proof. unfold access_only. calmly. Qed.
#[export] Instance calm_root : Calm (_require_receipt_root_identity env pinned).
Proof. unfold _require_receipt_root_identity. calmly. Qed.
#[export] Instance calm_fsync : Calm (_fsync_receipt_root env pinned).
Proof. unfold _fsync_receipt_root. calmly. Qed.
#[export] Instance calm_names : Calm (_bounded_receipt_entry_names env).
Proof. unfold _bounded_receipt_entry_names. calmly. Qed.
#[export] Instance calm_compare name encoded : Calm (compare_existing env name encoded).
Proof. unfold compare_existing. calmly. Qed.
#[export] Instance writes_create name : Writes name (create_exclusive env name).
Proof. unfold create_exclusive. writing. Qed.
#[export] Instance writes_new name encoded : Writes name (write_new env name encoded).
Proof. unfold write_new. writing. Qed.
#[export] Instance writes_unlink name : Writes name (unlink env name).
Proof. unfold unlink. writing. Qed.
#[export] Instance writes_persist name encoded : Writes name (_persist_exact env pinned name encoded).
Proof. unfold _persist_exact. writing. Qed.

(** The directory's file holds the document, regular and with one name; what
    the disk gave back was compared by its digest. *)
Definition holds (e : entry) (encoded : string) : Prop :=
  e_kind e = Regular ∧ e_reparse e = false ∧ e_nlink e = 1 ∧
  (e_bytes e = encoded ∨ collision (e_bytes e) encoded).

#[export] Instance writes_creation name : Writes name (creation env name).
Proof. unfold creation. writing. Qed.

Lemma creation_existing name s e :
  s_receipts s !! name = Some e →
  (creation env name s).1 ≠ Ok true ∧ s_receipts (creation env name s).2 = s_receipts s.
Proof.
  intros He. unfold creation, create_exclusive, on_journal, tick, readM, mbind, M_bind, catchM.
  cbn [fst snd s_journal s_receipts]. rewrite He.
  destruct (io (env_journal env) (j_tick (s_journal s))) as [|x [|k|]]; [by cbn|..| |by cbn]; cbn [liftM fst snd].
  - destruct (is_a x FileExistsError); [done|]. by destruct (is_a x OSError).
  - by cbn.
Qed.

(** A statement that writes nothing keeps a receipt, if the rest does. *)
Lemma bind_keeps {A B} (m : M service A) (f : A → M service B) s name e :
  Calm m → s_receipts s !! name = Some e →
  (∀ a s1, s_receipts s1 !! name = Some e → s_receipts (f a s1).2 !! name = Some e) →
  s_receipts ((m ≫= f) s).2 !! name = Some e.
Proof.
  intros Hm He Hf. destruct (Hm s) as [_ E]. unfold mbind, M_bind.
  destruct (m s) as [[a|x] s1]; cbn [fst snd] in *; rewrite <- E in He; auto.
Qed.

(** A receipt that is there stays as it is, whatever happens. *)
Lemma persist_kept name encoded s : kept s (_persist_exact env pinned name encoded s).2.
Proof.
  intros other e He. destruct (decide (other = name)) as [->|Hne].
  2: { by rewrite (proj2 (writes_persist name encoded s) other Hne). }
  unfold _persist_exact.
  apply bind_keeps; [apply _|exact He|]. intros _ s1 He1.
  apply bind_keeps; [apply _|exact He1|]. intros names s2 He2.
  apply bind_keeps; [apply _|exact He2|]. intros _ s3 He3.
  destruct (creation_existing name s3 e He3) as [Hr Hs]. unfold mbind at 1, M_bind at 1.
  destruct (creation env name s3) as [[[|]|x] s4]; cbn [fst snd] in *; [done| |by rewrite Hs].
  rewrite <- Hs in He3. do 3 (apply bind_keeps; [apply _|assumption|intros ? ? ?]). done.
Qed.

Lemma verify_new_ok e encoded u :
  _verify_new_receipt_descriptor env e encoded = Ok u → holds e encoded.
Proof.
  intros Hv. step Hv u1 H1. step Hv u2 H2. apply raise_if_ok in H1, Hv. bool_split.
  split; [done|]. split; [done|]. split; [done|].
  destruct (decide (e_bytes e = encoded)); [by left|by right].
Qed.

Lemma write_new_ok name encoded s u s' :
  write_new env name encoded s = (Ok u, s') → ∃ e, s_receipts s' !! name = Some e ∧ holds e encoded.
Proof.
  intros (n & s1 & Hn & Hw)%M_bind_ok. destruct (io (env_journal env) n) as [|x [|k|]]; try done;
    apply M_bind_ok in Hw as (u1 & s2 & Hset & Hv); try done.
  apply liftM_ok in Hv as [Hv ->]. apply modifyM_ok in Hset as ->. cbn [s_receipts].
  eexists. split; [apply lookup_insert_eq|]. by eapply verify_new_ok.
Qed.

Lemma compare_ok name encoded s u s' :
  compare_existing env name encoded s = (Ok u, s') →
  ∃ e, s_receipts s' !! name = Some e ∧ holds e encoded ∧ e_bytes e = encoded.
Proof.
  intros Hc. assert (E : s_receipts s' = s_receipts s) by (by rewrite <- (proj2 (calm_compare name encoded s)), Hc).
  rewrite E. apply M_bind_ok in Hc as (e & s1 & Hc & H1).
  apply M_bind_ok in H1 as (u1 & s2 & [H1 ->]%raise_ifM_ok & H2).
  apply M_bind_ok in H2 as (u2 & s3 & _ & [H2 _]%raise_ifM_ok). bool_split.
  exists e. split; [|split; [by repeat split; try done; left|done]].
  apply catchM_raise_ok, M_bind_ok in Hc as (n & s4 & Ha & Hc).
  assert (s_receipts s4 = s_receipts s) as <- by by rewrite <- (proj2 (calm_access s)), Ha.
  apply M_bind_ok in Hc as (e' & s5 & [He ->]%askM_ok & Hc).
  apply M_bind_ok in Hc as (u5 & s6 & _ & [= -> _]).
  by destruct (s_receipts s4 !! name); [injection He as ->|].
Qed.

(** What persisting establishes: the directory holds the document. *)
Lemma persist_ok name encoded s b s' :
  _persist_exact env pinned name encoded s = (Ok b, s') →
  ∃ e, s_receipts s' !! name = Some e ∧ holds e encoded.
Proof.
  intros (u1 & s1 & _ & Hp)%M_bind_ok. apply M_bind_ok in Hp as (names & s2 & _ & Hp).
  apply M_bind_ok in Hp as (u3 & s3 & _ & Hp). apply M_bind_ok in Hp as (created & s4 & _ & Hp).
  assert (Hrest : ∀ (m : M service bool), Calm m → ∀ s5 e, m s5 = (Ok b, s') →
    s_receipts s5 !! name = Some e → s_receipts s' !! name = Some e).
  { intros m Hm s5 e Hs He. rewrite <- He, <- (proj2 (Hm s5)), Hs. done. }
  destruct created; apply M_bind_ok in Hp as (u5 & s5 & Hw & Hp).
  - unfold catchM in Hw. destruct (write_new env name encoded s4) as [[u6|x] s6] eqn:E.
    + injection Hw as _ <-. apply write_new_ok in E as (e & He & Hh). exists e. split; [|exact Hh].
      eapply Hrest; [|exact Hp|exact He]. calmly.
    + destruct (is_a x OSError); [|done]. by apply M_bind_ok in Hw as (? & ? & _ & ?).
  - apply compare_ok in Hw as (e & He & Hh & _). exists e. split; [|exact Hh].
    eapply Hrest; [|exact Hp|exact He]. calmly.
Qed.

(** A receipt that is already there must have been the document, byte for byte. *)
Lemma persist_existing name encoded s b s' e :
  _persist_exact env pinned name encoded s = (Ok b, s') → s_receipts s !! name = Some e →
  e_bytes e = encoded.
Proof.
  intros Hp He. pose proof (persist_kept name encoded s name e He) as Hk. rewrite Hp in Hk. cbn [snd] in Hk.
  assert (Hcalm : ∀ A (m : M service A) s1 r s2, Calm m → m s1 = (r, s2) →
    s_receipts s1 !! name = Some e → s_receipts s2 !! name = Some e).
  { intros A m s1 r s2 Hm Hr He1. pose proof (Hm s1) as [_ E]. rewrite Hr in E. cbn in E. by rewrite E. }
  apply M_bind_ok in Hp as (u1 & s1 & H1%Hcalm & Hp); [|apply _|exact He].
  apply M_bind_ok in Hp as (names & s2 & H2%Hcalm & Hp); [|apply _|exact H1].
  apply M_bind_ok in Hp as (u3 & s3 & H3%Hcalm & Hp); [|apply _|exact H2].
  apply M_bind_ok in Hp as (created & s4 & H4 & Hp).
  destruct (creation_existing name s3 e H3) as [Hr Hs]. rewrite H4 in Hr, Hs. cbn [fst snd] in Hr, Hs.
  destruct created; [done|]. rewrite <- Hs in H3.
  apply M_bind_ok in Hp as (u5 & s5 & H5 & _).
  assert (H5' : s_receipts s5 !! name = Some e) by (eapply Hcalm; [|exact H5|exact H3]; apply _).
  apply compare_ok in H5 as (e' & He' & _ & Hb). congruence.
Qed.
End Receipts.

(** * What the service establishes *)


#[local] Opaque verify_verification_receipt validate_dispatch validate_wakeup canonical_json_bytes
  VerifierJournal.claim_dispatch transition load.

Section Service.
Context `{Hashing} `{OpenSSL}.

(** The directory holds a verified receipt of the dispatch. *)
Definition receipt_stored (s : service) (id : identity) : Prop :=
  ∃ trust document request receipt e,
    identity_of request = id ∧
    verify_verification_receipt trust document (Some (JObj request)) = Ok receipt ∧
    s_receipts s !! receipt_name (i_dispatch id) = Some e ∧ holds e (canonical_json (JObj receipt)).

Lemma receipt_stored_kept s s' id : kept s s' → receipt_stored s id → receipt_stored s' id.
Proof.
  intros Hk (t & d & q & r & e & Hi & Hv & He & Hh). exists t, d, q, r, e. auto.
Qed.

Definition files_same (s s' : service) : Prop :=
  j_files (s_journal s') = j_files (s_journal s) ∧ s_receipts s' = s_receipts s.

#[export] Instance files_same_preorder : PreOrder files_same.
Proof. split; [done|]. intros s1 s2 s3 [? ?] [? ?]. split; congruence. Qed.

Lemma calm_same {A} (m : M service A) s r s' : Calm m → m s = (r, s') → files_same s s'.
Proof. intros Hm E. pose proof (Hm s) as Hs. by rewrite E in Hs. Qed.

#[export] Instance calm_receivable env dispatch receipt : Calm (receivable env dispatch receipt).
Proof. unfold receivable. calmly. Qed.

(** What holds once everything has been checked. *)
Record received (env : service_environment) (dispatch receipt : json) (s : service)
    (request document : dict) (record : VerifierJournalRecord) : Prop := Received {
  rc_dispatch : ∃ now, validate_dispatch dispatch now = Ok request;
  rc_verified : verify_verification_receipt (env_host env) receipt (Some (JObj request)) = Ok document;
  rc_view : view_of (i_dispatch (identity_of request)) (s_journal s) = Stored record;
  rc_identity : r_id record = identity_of request;
  rc_state : r_state record = CLEANUP_ACKED ∨ r_state record = RECEIPT_PERSISTED
}.

Lemma receivable_ok env dispatch receipt s request document record s' :
  receivable env dispatch receipt s = (Ok (request, document, record), s') →
  files_same s s' ∧ received env dispatch receipt s' request document record.
Proof.
  intros Hr. split; [by eapply calm_same; [apply calm_receivable|exact Hr]|].
  apply M_bind_ok in Hr as (issued & s1 & [_ ->]%liftM_ok & Hr).
  apply M_bind_ok in Hr as (q & s2 & [Hq ->]%liftM_ok & Hr).
  apply M_bind_ok in Hr as (d & s3 & [Hd%catch_raise_ok ->]%liftM_ok & Hr).
  apply M_bind_ok in Hr as (r & s4 & Hl & Hr).
  apply M_bind_ok in Hr as (u1 & s5 & [Hi ->]%raise_ifM_ok & Hr).
  apply M_bind_ok in Hr as (u2 & s6 & [Hs ->]%raise_ifM_ok & [= -> -> -> ->]).
  apply negb_false_iff, bool_decide_eq_true in Hi, Hs.
  do 2 apply catchM_raise_ok in Hl. unfold on_journal in Hl.
  destruct (load (env_journal env) (i_dispatch (identity_of request)) (s_journal s)) as [l j] eqn:E.
  cbn [fst snd] in Hl. injection Hl as -> <-. apply load_ok in E as (_ & _ & Hv & _ & _).
  constructor; [eauto|exact Hd|exact Hv|exact Hi|].
  apply elem_of_cons in Hs as [Hs|Hs%list_elem_of_singleton]; [by left|by right].
Qed.

(** The states a call of the service gives a record, and of which dispatch. *)
Definition only_persists (h h' : string) (t : state) : Prop := h' = h ∧ t = RECEIPT_PERSISTED.

Lemma advance_effect env h r s :
  s_receipts (advance_record env h r s).2 = s_receipts s ∧
  evolves (only_persists h) (s_journal s) (s_journal (advance_record env h r s).2) ∧
  ∀ r', (advance_record env h r s).1 = Ok r' →
    (view_of h (s_journal s) = Stored r → r_state r = CLEANUP_ACKED ∨ r_state r = RECEIPT_PERSISTED →
     view_of h (s_journal (advance_record env h r s).2) = Stored r' ∧ r_state r' = RECEIPT_PERSISTED ∧
     r_id r' = r_id r).
Proof.
  unfold advance_record. destruct (bool_decide (r_state r = CLEANUP_ACKED)) eqn:Eb.
  2: { split; [done|]. split; [done|]. intros r' [= <-] Hv [Hs|Hs]; [|done].
       apply bool_decide_eq_false in Eb. done. }
  destruct (transition_ensures (env_journal env) (only_persists h) h (state_name RECEIPT_PERSISTED)
              (Some (r_revision r)) None None (s_journal s)) as [He HQ].
  { intros st Hst. change (Some RECEIPT_PERSISTED = Some st) in Hst. injection Hst as <-. done. }
  unfold catchM, on_journal. cbn [fst snd].
  destruct (transition _ _ _ _ _ _ _) as [[r1|x] j1]; cbn [fst snd s_journal s_receipts] in *.
  - split; [done|]. split; [exact He|]. intros r' [= ->] Hv _.
    destruct (HQ r' eq_refl) as (st & Hst & Hv' & Hr & r0 & Hr0 & Hf).
    change (Some RECEIPT_PERSISTED = Some st) in Hst. injection Hst as <-.
    rewrite Hv in Hr0. injection Hr0 as <-. split; [exact Hv'|]. split; [exact Hr|].
    by destruct Hf.
  - destruct (is_a x VerifierJournalError); (split; [done|split; [exact He|done]]).
Qed.

(** One call writes nothing but the receipt and one move of the record, and the
    move only when the receipt is in place. *)
Lemma persist_receipt_effect env pinned dispatch receipt s :
  let s' := (persist_receipt env pinned dispatch receipt s).2 in
  kept s s' ∧
  (j_files (s_journal s') = j_files (s_journal s) ∨
   ∃ id r, receipt_stored s' id ∧ view_of (i_dispatch id) (s_journal s) = Stored r ∧ r_id r = id ∧
           evolves (only_persists (i_dispatch id)) (s_journal s) (s_journal s')).
Proof.
  unfold persist_receipt. cbn zeta.
  destruct (receivable env dispatch receipt s) as [[[[request document] record]|x] s1] eqn:E1.
  2: { rewrite (M_bind_raise _ _ _ _ _ E1). apply calm_same in E1 as [Ej Er]; [|apply _].
       split; [by apply kept_same|by left]. }
  rewrite (M_bind_run _ _ _ _ _ E1). cbv beta iota zeta. apply receivable_ok in E1 as [[Ej Er] Hrec].
  destruct (canonical_json_bytes (JObj document)) as [encoded|x] eqn:Ec.
  2: { split; [by apply kept_same|by left]. }
  rewrite (lift_bind_run _ _ _ encoded eq_refl). apply canonical_ok in Ec as ->.
  set (h := i_dispatch (identity_of request)). set (encoded := canonical_json (JObj document)).
  pose proof (persist_kept env pinned (receipt_name h) encoded s1) as Hk.
  pose proof (proj1 (writes_persist env pinned (receipt_name h) encoded s1)) as Hj.
  destruct (_persist_exact env pinned (receipt_name h) encoded s1) as [[b|x] s2] eqn:E2;
    cbn [snd] in Hk, Hj.
  2: { rewrite (M_bind_raise _ _ _ _ _ E2). split; [|left; cbn [snd]; congruence].
       intros n e He. rewrite <- Er in He. by apply Hk. }
  rewrite (M_bind_run _ _ _ _ _ E2). apply persist_ok in E2 as (e & He & Hh).
  destruct (advance_effect env h record s2) as (Er' & Hev & _).
  assert (E3 : ∀ f, ((advance_record env h record ≫= λ r, mret (f r)) s2 : res PersistedVerifierReceipt * _).2
                    = (advance_record env h record s2).2).
  { intros f. unfold mbind, M_bind. by destruct (advance_record env h record s2) as [[r|x] s3]. }
  rewrite E3. destruct Hrec as [_ Hv Hview Hid _]. split.
  - intros n e' He'. rewrite Er'. apply Hk. by rewrite Er.
  - right. exists (identity_of request), record. split; [|split; [|split; [exact Hid|]]].
    + exists (env_host env), receipt, request, document, e. rewrite Er'. auto.
    + rewrite <- Hview. symmetry. by apply same_files_view.
    + fold h. etrans; [|exact Hev]. apply evolves_eq. congruence.
Qed.

Lemma claim_dispatch_effect env dispatch wakeup s :
  let s' := (claim_dispatch env dispatch wakeup s).2 in
  s_receipts s' = s_receipts s ∧ evolves (λ _ t, t ∈ [REQUESTED; CLAIMED]) (s_journal s) (s_journal s').
Proof.
  cbn zeta. unfold claim_dispatch.
  set (P := λ (_ : string) t, t ∈ [REQUESTED; CLAIMED]).
  assert (Hcalm : ∀ (A B : Type) (m : M service A) (f : A → M service B), Calm m →
    (∀ a s1, s_receipts s1 = s_receipts s → evolves P (s_journal s) (s_journal s1) →
       s_receipts (f a s1).2 = s_receipts s ∧ evolves P (s_journal s) (s_journal (f a s1).2)) →
    ∀ s1, s_receipts s1 = s_receipts s → evolves P (s_journal s) (s_journal s1) →
    s_receipts ((m ≫= f) s1).2 = s_receipts s ∧ evolves P (s_journal s) (s_journal ((m ≫= f) s1).2)).
  { intros A B m f Hm Hf s1 Er He. destruct (Hm s1) as [Ej Er']. unfold mbind, M_bind.
    destruct (m s1) as [[a|x] s2]; cbn [fst snd] in *.
    - apply Hf; [congruence|]. etrans; [exact He|]. by apply evolves_eq.
    - split; [congruence|]. etrans; [exact He|]. by apply evolves_eq. }
  apply Hcalm; [apply _| |done|done]. intros n s1 Er1 He1.
  apply Hcalm; [apply _| |done|done]. intros request s2 Er2 He2.
  apply Hcalm; [apply _| |done|done]. intros signal s3 Er3 He3.
  apply Hcalm; [apply _| |done|done]. intros _ s4 Er4 He4.
  destruct (claim_ensures (env_journal env) P (identity_of request) (s_journal s4)) as [He _];
    [unfold P; by_compute..|].
  unfold catchM, on_journal. destruct (VerifierJournal.claim_dispatch _ _ _) as [[c|x] j1]; cbn [fst snd] in *.
  - split; [exact Er4|]. by etrans.
  - destruct (is_a x VerifierJournalError); (split; [exact Er4|by etrans]).
Qed.

(** * Histories of the service *)

(** A call of the service, or of the journal by the rest of the verifier. *)
Inductive service_call :=
  | ClaimDispatch (dispatch wakeup : json)
  | PersistReceipt (dispatch receipt : json)
  | OtherCall (q : request).

Definition served (env : service_environment) (pinned : option (Z * Z)) (c : service_call) (s : service)
    : service :=
  match c with
  | ClaimDispatch dispatch wakeup => (claim_dispatch env dispatch wakeup s).2
  | PersistReceipt dispatch receipt => (persist_receipt env pinned dispatch receipt s).2
  | OtherCall q => (on_journal (perform (env_journal env) q) s).2
  end.

(** Only [persist_receipt] declares a receipt persisted. *)
Definition permitted (c : service_call) : Prop :=
  match c with OtherCall q => ∀ h, ¬ may_write q h RECEIPT_PERSISTED | _ => True end.

(** Calls in any order, each in an environment of its own. *)
Inductive serves (s : service) : service → Prop :=
  | serves_nil : serves s s
  | serves_call s1 env pinned c : serves s s1 → permitted c → serves s (served env pinned c s1).

(** The states of a record whose receipt was declared persisted. *)
Definition persisted_states : list state := [RECEIPT_PERSISTED; TERMINAL_APPENDED; DONE].

Lemma persisted_move s t :
  may_follow s t → t ∈ persisted_states → s ∈ persisted_states ∨ t = RECEIPT_PERSISTED.
Proof.
  intros Ht%successors_spec Hp. revert s Ht Hp.
  enough (H' : Forall (λ s, Forall (λ t, t ∈ persisted_states →
    s ∈ persisted_states ∨ t = RECEIPT_PERSISTED) (successors s)) ALL_STATES).
  { intros s Ht. rewrite Forall_forall in H'. assert (Hs : s ∈ ALL_STATES) by by destruct s; by_compute.
    specialize (H' s Hs). rewrite Forall_forall in H'. auto. }
  by_compute.
Qed.

(** A record gets there only by that declaration. *)
Lemma persisted_before P h v r :
  rtc (advances_to P h) v (Stored r) → r_state r ∈ persisted_states → ¬ P h RECEIPT_PERSISTED →
  ∃ r0, v = Stored r0 ∧ r_state r0 ∈ persisted_states ∧ r_id r0 = r_id r.
Proof.
  intros Hr Hs HP. remember (Stored r) as w eqn:Ew. induction Hr as [w|u v w [Hadv Hto] _ IH]; [by eauto|].
  destruct (IH Ew) as (r0 & -> & Hs0 & Hid). inversion Hadv as [id now Hi Hh| |r1 r2 Hf]; subst.
  - by apply (bool_decide_pack _) in Hs0.
  - exists r1. split; [done|]. destruct (persisted_move _ _ (f_state _ _ Hf) Hs0) as [Hs1|Hs1].
    + split; [done|]. rewrite <- Hid. symmetry. by destruct Hf.
    + rewrite Hs1 in Hto. done.
Qed.

(** Every record whose receipt was declared persisted has one. *)
Definition backed (s : service) : Prop := ∀ h r,
  view_of h (s_journal s) = Stored r → r_state r ∈ persisted_states → receipt_stored s (r_id r).

(** Calls that declare nothing keep that. *)
Lemma backed_kept P s s' :
  evolves P (s_journal s) (s_journal s') → (∀ h, ¬ P h RECEIPT_PERSISTED) → kept s s' → backed s → backed s'.
Proof.
  intros [Hv _] HP Hk Hb h r Hr Hs. specialize (Hv h). rewrite Hr in Hv.
  destruct (persisted_before _ _ _ _ Hv Hs (HP h)) as (r0 & Hr0 & Hs0 & Hid).
  rewrite <- Hid. eapply receipt_stored_kept; [exact Hk|]. by eapply Hb.
Qed.

Lemma served_kept env pinned c s : kept s (served env pinned c s).
Proof.
  destruct c as [dispatch wakeup|dispatch receipt|q]; cbn [served].
  - apply kept_same, claim_dispatch_effect.
  - apply persist_receipt_effect.
  - by apply kept_same.
Qed.

Lemma served_backed env pinned c s : permitted c → backed s → backed (served env pinned c s).
Proof.
  intros Hc Hb. pose proof (served_kept env pinned c s) as Hk.
  destruct c as [dispatch wakeup|dispatch receipt|q]; cbn [served] in *.
  - eapply backed_kept; [apply claim_dispatch_effect| |exact Hk|exact Hb].
    intros h Hp. by apply (bool_decide_pack _) in Hp.
  - destruct (persist_receipt_effect env pinned dispatch receipt s) as [_ [Ej|(id & r0 & Hst & Hr0 & Hid & Hev)]].
    + eapply (backed_kept (λ _ _, False)); [by apply evolves_eq|auto|exact Hk|exact Hb].
    + intros h r Hr Hs. pose proof (e_views _ _ _ Hev h) as Hv. destruct (decide (h = i_dispatch id)) as [->|Hne].
      * rewrite Hr0, Hr in Hv. apply advances_to_any, stored_advances in Hv as (r' & [= <-] & E & _).
        by rewrite E, Hid.
      * rewrite Hr in Hv. destruct (persisted_before _ _ _ _ Hv Hs) as (r1 & Hr1 & Hs1 & E).
        { intros [Eh _]. done. }
        rewrite <- E. eapply receipt_stored_kept; [exact Hk|]. by eapply Hb.
  - eapply backed_kept; [apply perform_evolves|exact Hc|exact Hk|exact Hb].
Qed.

(** Receipts are write-once: whatever calls follow, with whatever faults,
    crashes and environments, a file of the receipt directory is never changed
    or removed, a torn one included. *)
Theorem receipts_are_write_once s s' name e :
  serves s s' → s_receipts s !! name = Some e → s_receipts s' !! name = Some e.
Proof.
  intros Hs He. induction Hs as [|s1 env pinned c _ IH _]; [exact He|]. by apply served_kept.
Qed.

(** C12: In any history of the service, from any faults and crashes, every
    record that reads RECEIPT_PERSISTED or a later state has its receipt in the
    directory: a regular file whose text is that of a receipt verified for a
    dispatch with the record's identifiers, or collides with it. *)
Theorem persisted_records_have_receipts s s' h r :
  serves s s' → backed s → view_of h (s_journal s') = Stored r → r_state r ∈ persisted_states →
  receipt_stored s' (r_id r).
Proof.
  intros Hs Hb. assert (Hb' : backed s').
  { induction Hs as [|s1 env pinned c _ IH Hc]; [exact Hb|]. by apply served_backed. }
  apply Hb'.
Qed.

(** What a persisted receipt's answer says is so: the receipt verified
    against the validated dispatch, its canonical text is in the directory
    under the dispatch's hash with the digest returned, and the dispatch's
    record, with the dispatch's identifiers, reads RECEIPT_PERSISTED. *)
Theorem persisted_receipt_is_in_place env pinned dispatch receipt s p s' :
  persist_receipt env pinned dispatch receipt s = (Ok p, s') →
  ∃ request document e now,
    validate_dispatch dispatch now = Ok request ∧
    verify_verification_receipt (env_host env) receipt (Some (JObj request)) = Ok document ∧
    p_path p = receipt_name (i_dispatch (identity_of request)) ∧
    p_sha256 p = sha256_hex (canonical_json (JObj document)) ∧
    s_receipts s' !! p_path p = Some e ∧ holds e (canonical_json (JObj document)) ∧
    view_of (i_dispatch (identity_of request)) (s_journal s') = Stored (p_record p) ∧
    r_id (p_record p) = identity_of request ∧ r_state (p_record p) = RECEIPT_PERSISTED.
Proof.
  intros ([[request document] record] & s1 & E1 & Hp)%M_bind_ok.
  apply receivable_ok in E1 as [_ [[now Hn] Hv Hview Hid Hst]]. cbv beta iota zeta in Hp.
  apply M_bind_ok in Hp as (encoded & s2 & [->%canonical_ok ->]%liftM_ok & Hp).
  apply M_bind_ok in Hp as (b & s3 & E2 & Hp).
  apply M_bind_ok in Hp as (r & s4 & E3 & [= <- <-]).
  pose proof (proj1 (writes_persist env pinned (receipt_name (i_dispatch (identity_of request)))
    (canonical_json (JObj document)) s1)) as Hj. rewrite E2 in Hj. cbn [snd] in Hj.
  apply persist_ok in E2 as (e & He & Hh).
  destruct (advance_effect env (i_dispatch (identity_of request)) record s3) as (Er & _ & HQ).
  rewrite E3 in Er, HQ. cbn [fst snd] in Er, HQ.
  destruct (HQ r eq_refl) as (Hv' & Hs' & Hid'); [by rewrite (same_files_view _ _ _ Hj)|exact Hst|].
  exists request, document, e, now. cbn [p_record p_path p_sha256]. rewrite Er, Hid'. auto 10.
Qed.

(** C37: A receipt file cut short by a crash is never repaired: while it is there,
    and it always will be, no call persists a receipt of that dispatch. *)
Theorem torn_receipt_blocks_dispatch s s' h e env pinned dispatch receipt request document record s1 :
  serves s s' → s_receipts s !! receipt_name h = Some e → (∀ d, e_bytes e ≠ canonical_json (JObj d)) →
  receivable env dispatch receipt s' = (Ok (request, document, record), s1) →
  i_dispatch (identity_of request) = h →
  is_ok (persist_receipt env pinned dispatch receipt s').1 = false.
Proof.
  intros Hs He Hd Hr Hh. assert (He' : s_receipts s' !! receipt_name h = Some e).
  { clear Hr. induction Hs as [|s2 env' pinned' c _ IH _]; [exact He|]. apply served_kept, IH. }
  destruct (persist_receipt env pinned dispatch receipt s') as [[p|x] s2] eqn:E; [exfalso|done].
  apply M_bind_ok in E as (q & s3 & Hq & Hp). rewrite Hr in Hq. injection Hq as <- <-.
  cbv beta iota zeta in Hp. apply receivable_ok in Hr as [[_ Er] _]. rewrite <- Er in He'.
  apply M_bind_ok in Hp as (encoded & s4 & [->%canonical_ok ->]%liftM_ok & Hp).
  apply M_bind_ok in Hp as (b & s5 & Hp & _). rewrite Hh in Hp.
  exact (Hd document (persist_existing _ _ _ _ _ _ _ _ Hp He')).
Qed.

(** ** Progress *)

(** A computation returns, and its result satisfies [Q]. *)
Definition yields {W A} (m : M W A) (s : W) (Q : A → W → Prop) : Prop :=
  ∃ a s', m s = (Ok a, s') ∧ Q a s'.

Lemma yields_bind {W A B} (m : M W A) (f : A → M W B) s Q R :
  yields m s Q → (∀ a s', Q a s' → yields (f a) s' R) → yields (m ≫= f) s R.
Proof.
  intros (a & s1 & E & HQ) Hf. destruct (Hf a s1 HQ) as (b & s2 & E2 & HR).
  exists b, s2. split; [|done]. by rewrite (M_bind_run _ _ _ _ _ E).
Qed.

Lemma yields_impl {W A} (m : M W A) s (Q R : A → W → Prop) :
  yields m s Q → (∀ a s', Q a s' → R a s') → yields m s R.
Proof. intros (a & s1 & E & HQ) HR. exists a, s1. auto. Qed.

Lemma yields_catch {W A} (m : M W A) c h s Q : yields m s Q → yields (catchM m c h) s Q.
Proof. intros (a & s1 & E & HQ). exists a, s1. split; [|done]. unfold catchM. by rewrite E. Qed.

Lemma yields_ret {W A} (a : A) (s : W) (Q : A → W → Prop) : Q a s → yields (mret a) s Q.
Proof. intros HQ. by exists a, s. Qed.

Lemma yields_lift {W A} (r : res A) a (s : W) (Q : A → W → Prop) : r = Ok a → Q a s → yields (liftM r) s Q.
Proof. intros -> HQ. by exists a, s. Qed.

(** A statement that passes and leaves the state as it is. *)
Lemma yields_guard {W B} b c msg (f : unit → M W B) (s : W) Q :
  b = false → yields (f tt) s Q → yields (raise_ifM b c msg ≫= f) s Q.
Proof. by intros ->. Qed.

Lemma yields_read {W A B} (g : W → A) (f : A → M W B) (s : W) Q :
  yields (f (g s)) s Q → yields (readM g ≫= f) s Q.
Proof. done. Qed.

Section Progress.
Context (env : service_environment) (pinned : option (Z * Z)).
Context (Hio : ∀ n, io (env_journal env) n = Fine).
Context (Hclock : ∀ n, 0 ≤ clock_ns (env_journal env) n ≤ MAX_NS).

(** The directory's path and descriptor stay the pinned directory. *)
Definition root_steady : Prop :=
  env_posix env = true → ∃ identity m, pinned = Some identity ∧
    (∀ n, stat_root env n = Some m ∧ fstat_root env n = Some m) ∧
    _validate_posix_receipt_root_identity m identity (env_euid env) (env_egid env) = Ok tt.
Context (Hroot : root_steady).

(** Either the document is there already, or there is room and the disk keeps
    what is written. *)
Definition store_ready (name encoded : string) (s : service) : Prop :=
  match s_receipts s !! name with
  | Some e => e_kind e = Regular ∧ e_reparse e = false ∧ e_nlink e = 1 ∧ e_bytes e = encoded ∧
              Z.of_nat (size (s_receipts s)) ≤ MAX_RECEIPT_STORE_ENTRIES
  | None => Z.of_nat (size (s_receipts s)) < MAX_RECEIPT_STORE_ENTRIES ∧
            ∀ n, _verify_new_receipt_descriptor env (settles env n encoded) encoded = Ok tt
  end.

Definition ticked (s : service) : service :=
  Service (Journal (j_files (s_journal s)) (S (j_tick (s_journal s)))) (s_receipts s).

Lemma tick_yields (s : service) : yields (on_journal tick) s (λ _ s', files_same s s').
Proof. exists (j_tick (s_journal s)), (ticked s). done. Qed.

Lemma access_yields s : yields (access_only env) s (λ _ s', files_same s s').
Proof.
  eapply yields_bind; [apply tick_yields|]. intros n s1 Hf1. rewrite Hio. by apply yields_ret.
Qed.

Lemma root_yields s : yields (_require_receipt_root_identity env pinned) s (λ _ s', files_same s s').
Proof.
  unfold _require_receipt_root_identity. destruct (env_posix env) eqn:Ep; cbn [negb].
  2: { apply yields_ret. reflexivity. }
  destruct (Hroot Ep) as (identity & m & -> & Hs & Hv).
  eapply yields_bind; [apply tick_yields|]. intros n s1 Hf1. rewrite (proj1 (Hs n)), Hv.
  by apply (yields_lift _ tt).
Qed.

Lemma fsync_yields s : yields (_fsync_receipt_root env pinned) s (λ _ s', files_same s s').
Proof.
  unfold _fsync_receipt_root. destruct (env_posix env) eqn:Ep; cbn [negb].
  2: { apply yields_ret. reflexivity. }
  destruct (Hroot Ep) as (identity & m & -> & Hs & Hv).
  eapply yields_bind; [apply tick_yields|]. intros n s1 Hs1. rewrite (proj2 (Hs n)).
  apply (yields_bind _ _ _ (λ _ s', files_same s s')).
  { apply yields_catch. apply (yields_lift _ tt); [by rewrite Hv|exact Hs1]. }
  intros _ s2 Hs2. apply (yields_bind _ _ _ (λ _ s', files_same s s')).
  { eapply yields_impl; [apply access_yields|]. intros ? s3 Hf3. exact (transitivity Hs2 Hf3). }
  intros ? s3 Hs3. by apply yields_ret.
Qed.

(** The end of both branches. *)
Lemma settled_yields (b : bool) s :
  yields (_ ← _require_receipt_root_identity env pinned; _ ← _fsync_receipt_root env pinned; mret b) s
    (λ b' s', b' = b ∧ files_same s s').
Proof.
  eapply yields_bind; [apply root_yields|]. intros ? s1 Hf1.
  eapply yields_bind; [apply fsync_yields|]. intros ? s2 Hf2.
  apply yields_ret. split; [done|]. by trans s1.
Qed.

Lemma names_yields s :
  Z.of_nat (size (s_receipts s)) ≤ MAX_RECEIPT_STORE_ENTRIES →
  yields (_bounded_receipt_entry_names env) s (λ names s', files_same s s' ∧
    length names = size (s_receipts s) ∧ ∀ name, name ∈ names ↔ is_Some (s_receipts s !! name)).
Proof.
  intros Hsize. eapply yields_bind; [apply yields_catch, access_yields|]. intros ? s1 Hf1.
  assert (Hlen : length (map_to_list (s_receipts s1)).*1 = size (s_receipts s)).
  { rewrite length_fmap, length_map_to_list. by destruct Hf1 as [_ ->]. }
  apply yields_read, yields_guard.
  { rewrite Hlen. by apply Z.ltb_ge. }
  apply yields_ret. split; [exact Hf1|]. split; [exact Hlen|].
  intros name. destruct Hf1 as [_ ->]. rewrite list_elem_of_fmap. split.
  - intros ([n e] & -> & He%elem_of_map_to_list). by eexists.
  - intros [e He]. exists (name, e). split; [done|]. by apply elem_of_map_to_list.
Qed.

Lemma creation_yields name s :
  yields (creation env name) s (λ created s', created = negb (bool_decide (is_Some (s_receipts s !! name))) ∧
    j_files (s_journal s') = j_files (s_journal s) ∧ (created = false → s_receipts s' = s_receipts s)).
Proof.
  unfold creation, create_exclusive, on_journal, tick, set_entry, readM, modifyM, mbind, M_bind, catchM, yields.
  cbn [fst snd s_journal s_receipts]. rewrite Hio. destruct (s_receipts s !! name) as [e|] eqn:E.
  - eexists false, _. split; [reflexivity|]. done.
  - eexists true, _. split; [reflexivity|]. done.
Qed.

Lemma compare_yields name encoded s e :
  s_receipts s !! name = Some e → e_kind e = Regular → e_reparse e = false → e_nlink e = 1 →
  e_bytes e = encoded → yields (compare_existing env name encoded) s (λ _ s', files_same s s').
Proof.
  intros He Hk Hrp Hn Hb. unfold compare_existing.
  apply (yields_bind _ _ _ (λ e' s', e' = e ∧ files_same s s')).
  { apply yields_catch. eapply yields_bind; [apply access_yields|]. intros ? s1 Hf1.
    apply (yields_bind _ _ _ (λ e' s', e' = e ∧ files_same s s')).
    { exists e, s1. split; [|by split]. unfold askM. destruct Hf1 as [_ ->]. by rewrite He. }
    intros e' s2 [-> Hf2]. apply yields_guard; [by rewrite Hk, Hrp, andb_false_r|].
    by apply yields_ret. }
  intros e' s1 [-> Hf1]. apply yields_guard; [by rewrite Hk, Hrp, Hn, Hb, Nat.eqb_refl|].
  apply (yields_bind _ _ _ (λ _ s', files_same s s')).
  { apply yields_catch. eapply yields_impl; [apply access_yields|]. intros ? s2 Hf2. exact (transitivity Hf1 Hf2). }
  intros ? s2 Hf2. exists tt, s2. split; [|exact Hf2].
  unfold raise_ifM. by rewrite Hb, bool_decide_true.
Qed.

Lemma write_yields name encoded s :
  (∀ n, _verify_new_receipt_descriptor env (settles env n encoded) encoded = Ok tt) →
  yields (write_new env name encoded) s (λ _ s', j_files (s_journal s') = j_files (s_journal s)).
Proof.
  intros Hv. eapply yields_bind; [apply tick_yields|]. intros n s1 [Ej _]. rewrite Hio.
  apply (yields_bind _ _ _ (λ _ s', j_files (s_journal s') = j_files (s_journal s))).
  { eexists tt, _. split; [reflexivity|]. exact Ej. }
  intros ? s2 Ej2. by apply (yields_lift _ tt).
Qed.

Lemma persist_yields name encoded s :
  store_ready name encoded s →
  yields (_persist_exact env pinned name encoded) s (λ b s',
    b = bool_decide (is_Some (s_receipts s !! name)) ∧ j_files (s_journal s') = j_files (s_journal s)).
Proof.
  intros Hready. unfold _persist_exact.
  assert (Hsize : Z.of_nat (size (s_receipts s)) ≤ MAX_RECEIPT_STORE_ENTRIES).
  { unfold store_ready in Hready. destruct (s_receipts s !! name); [by destruct Hready as (_ & _ & _ & _ & ?)|].
    destruct Hready. lia. }
  eapply yields_bind; [apply root_yields|]. intros ? s1 [Ej1 Er1].
  eapply yields_bind; [apply names_yields; by rewrite Er1|]. intros names s2 ([Ej2 Er2] & Hlen & Hin).
  apply yields_guard.
  { rewrite Hlen, Er1. unfold store_ready in Hready. rewrite Er1 in Hin.
    destruct (s_receipts s !! name) eqn:E; [|destruct Hready; rewrite andb_comm; by rewrite (proj2 (Z.leb_gt _ _))].
    rewrite bool_decide_true; [done|]. apply Hin. rewrite E. by eexists. }
  eapply yields_bind; [apply creation_yields|]. intros created s4 (Hc & Ej4 & Er4).
  rewrite Er2, Er1 in Hc. unfold store_ready in Hready.
  assert (Ej : j_files (s_journal s4) = j_files (s_journal s)) by congruence. clear Ej1 Ej2 Ej4.
  destruct (s_receipts s !! name) as [e|] eqn:E; cbn in Hc; subst created.
  - specialize (Er4 eq_refl). destruct Hready as (Hk & Hrp & Hn & Hb & _).
    assert (He : s_receipts s4 !! name = Some e) by by rewrite Er4, Er2, Er1.
    apply (yields_bind _ _ _ (λ _ s', files_same s4 s')).
    { apply compare_yields with e; auto. }
    intros ? s5 [Ej5 _]. eapply yields_impl; [apply settled_yields|].
    intros b' s6 [-> [Ej6 _]]. split; [by rewrite bool_decide_true by by eexists|congruence].
  - apply (yields_bind _ _ _ (λ _ s', j_files (s_journal s') = j_files (s_journal s4))).
    { apply yields_catch. apply write_yields, Hready. }
    intros ? s5 Ej5. eapply yields_impl; [apply settled_yields|].
    intros b' s6 [-> [Ej6 _]]. split; [|congruence]. by rewrite bool_decide_false by by intros [].
Qed.

Lemma advance_yields h record s :
  sha256_ok h = true → r_state record = CLEANUP_ACKED ∨ r_state record = RECEIPT_PERSISTED →
  (r_state record = CLEANUP_ACKED → movable (env_journal env) h (s_journal s) record) →
  yields (advance_record env h record) s (λ r _, r_state r = RECEIPT_PERSISTED).
Proof.
  intros Hh Hst Hm. unfold advance_record. destruct (bool_decide (r_state record = CLEANUP_ACKED)) eqn:Eb.
  2: { apply yields_ret. destruct Hst as [Hst|]; [|done]. by apply bool_decide_eq_false in Eb. }
  apply bool_decide_eq_true in Eb. specialize (Hm Eb). pose proof Hm as (Hv & Hrev & _).
  apply yields_catch. pose proof (view_stored_ok _ _ _ Hv) as [Hok _].
  destruct (moved_total (env_journal env) h Hio Hclock (s_journal s) record RECEIPT_PERSISTED None None Hm)
    as (r & j & E & Hr & _).
  { left. rewrite Eb. by_compute. }
  { apply successor_ok; [exact Hok|exact Hrev|apply Hclock|exact I..|]. by destruct (r_failure record). }
  exists r, (Service j (s_receipts s)). split; [|exact Hr]. unfold on_journal.
  rewrite (transition_run _ h Hio Hh _ record RECEIPT_PERSISTED None None Hv), E; [done|].
  rewrite Eb. by_compute.
Qed.

(** C31: Progress, and recovery after a crash between the two writes: once a
    receipt may be received, without faults, with the directory steady and
    either room for the receipt or its very bytes in place, persisting it
    returns; the answer says whether the file was there already, and the record
    reads RECEIPT_PERSISTED. *)
Theorem interrupted_persist_resumes dispatch receipt s request document record s1 encoded :
  receivable env dispatch receipt s = (Ok (request, document, record), s1) →
  canonical_json_bytes (JObj document) = Ok encoded →
  store_ready (receipt_name (i_dispatch (identity_of request))) encoded s →
  (r_state record = CLEANUP_ACKED →
   movable (env_journal env) (i_dispatch (identity_of request)) (s_journal s) record) →
  ∃ p s', persist_receipt env pinned dispatch receipt s = (Ok p, s') ∧
    p_idempotent p = bool_decide (is_Some (s_receipts s !! p_path p)) ∧
    r_state (p_record p) = RECEIPT_PERSISTED.
Proof.
  intros Hr Hc Hready Hm. unfold persist_receipt. rewrite (M_bind_run _ _ _ _ _ Hr). cbv beta iota zeta.
  rewrite (lift_bind_run _ _ _ _ Hc). apply receivable_ok in Hr as [[Ej Er] [_ _ Hv Hid Hst]].
  assert (Hready1 : store_ready (receipt_name (i_dispatch (identity_of request))) encoded s1).
  { unfold store_ready in *. by rewrite Er. }
  pose proof (view_stored_ok _ _ _ Hv) as [[[Hh _] _] _]. rewrite Hid in Hh.
  destruct (persist_yields _ _ _ Hready1) as (b & s2 & E2 & Hb & Ej2).
  rewrite (M_bind_run _ _ _ _ _ E2).
  destruct (advance_yields (i_dispatch (identity_of request)) record s2 Hh Hst) as (r & s3 & E3 & Hs).
  { intros Ha. specialize (Hm Ha). unfold movable, fresh_temporaries in *.
    rewrite (same_files_view _ (s_journal s) (s_journal s2)) by congruence. by rewrite Ej2, Ej. }
  rewrite (M_bind_run _ _ _ _ _ E3). eexists _, s3. split; [reflexivity|].
  cbn [p_idempotent p_path p_record]. by rewrite Hb, Er.
Qed.
End Progress.
End Service.
