(* ===== verification/JournalScenario.v ===== *)
(** * Journals in which the theorems of [JournalSafety] apply

    A dispatch that is claimed, executed, crashed and released; a claim cut
    short by a crash. *)

From S2P Require Import JournalSafety.

Definition the_hash : string := "00112233445566778899aabbccddeeff00112233445566778899aabbccddeeff".
Definition the_id : identity :=
  Identity the_hash "P01" 1 "verifier" "00112233445566778899aabbccddeeff".

(** A clock that does not move, temporary names that differ, and no fault; or a
    crash at one access, ten bytes into what it writes. *)
Definition quiet : environment :=
  Environment (λ _, 1000) (λ _, Fine) (λ n, string_of_Z (Z.of_nat n)).
Definition crash_at (k : nat) : environment :=
  Environment (λ _, 1000) (λ n, if (n =? k)%nat then Fault (Exn Exception "killed") (Partial 10) else Fine)
    (λ n, string_of_Z (Z.of_nat n)).

Definition empty : journal := Journal ∅ 0.

Definition session := list (environment * request).

Fixpoint run (qs : session) (j : journal) : journal :=
  match qs with [] => j | (env, q) :: qs => run qs (perform env q j).2 end.
Fixpoint events (qs : session) (j : journal) : list (request * res (option VerifierJournalClaim)) :=
  match qs with [] => [] | (env, q) :: qs => (q, (perform env q j).1) :: events qs (perform env q j).2 end.

Lemma run_history qs : ∀ j0 tr j, history j0 tr j → history j0 (tr ++ events qs j) (run qs j).
Proof.
  induction qs as [|[env q] qs IH]; intros j0 tr j Hj; cbn [run events]; [by rewrite app_nil_r|].
  rewrite cons_middle, app_assoc. apply IH. eapply history_call; [exact Hj|apply surjective_pairing].
Qed.

Lemma session_history qs j : history j (events qs j) (run qs j).
Proof. exact (run_history qs j [] j (history_nil j)). Qed.

Definition move (s : state) : request := Transition the_hash (state_name s) None None None.

(** Claimed twice, then moved to its execution, in which the verifier crashes. *)
Definition claims : session := [(quiet, Claim the_id); (quiet, Claim the_id)].
Definition execution : session :=
  (λ s, (quiet, move s)) <$> [SOURCE_VERIFIED; SNAPSHOT_ACQUIRED; EXECUTING].
Definition release : session :=
  [(crash_at 2, move EXECUTION_SEALED); (quiet, RecoverAll); (quiet, Recover the_hash)] ++
  ((λ s, (quiet, move s)) <$> [RELEASE_PENDING; CLEANUP_ACKED; RECEIPT_PERSISTED; TERMINAL_APPENDED; DONE]).

Definition executing : journal := run (claims ++ execution) empty.
Definition finished : journal := run release executing.

Definition states_of (v : view) : option (state * Z * option state) :=
  match v with Stored r => Some (r_state r, r_revision r, r_previous r) | _ => None end.

Example executing_view : states_of (view_of the_hash executing) = Some (EXECUTING, 4, Some SNAPSHOT_ACQUIRED).
Proof. vm_compute. reflexivity. Qed.
Example finished_view : states_of (view_of the_hash finished) = Some (DONE, 10, Some TERMINAL_APPENDED).
Proof. vm_compute. reflexivity. Qed.

(** The first write of a claim is cut short. *)
Definition torn : journal := run [(crash_at 3, Claim the_id)] empty.

Definition record_of (v : view) : VerifierJournalRecord :=
  match v with Stored r => r | _ => initial_record the_id 0 end.
Definition is_stored (v : view) : bool := match v with Stored _ => true | _ => false end.

Lemma view_record v : is_stored v = true → v = Stored (record_of v).
Proof. by destruct v. Qed.

Notation at_ j := (view_of the_hash j).

Lemma executing_stored : is_stored (at_ executing) = true.
Proof. vm_compute. reflexivity. Qed.
Lemma finished_stored : is_stored (at_ finished) = true.
Proof. vm_compute. reflexivity. Qed.
Lemma executing_state : r_state (record_of (at_ executing)) = EXECUTING.
Proof. vm_compute. reflexivity. Qed.
Lemma finished_state : r_state (record_of (at_ finished)) = DONE.
Proof. vm_compute. reflexivity. Qed.
Lemma executing_revision : r_revision (record_of (at_ executing)) = 4.
Proof. vm_compute. reflexivity. Qed.
Lemma executing_failure : r_failure (record_of (at_ executing)) = None.
Proof. vm_compute. reflexivity. Qed.
Lemma torn_view : at_ torn = Torn.
Proof. vm_compute. reflexivity. Qed.
Lemma claims_acquired : acquired (events claims empty) = [the_hash].
Proof. vm_compute. reflexivity. Qed.

Lemma executing_names :
  forallb (λ p, negb (starts_with "." p.1)) (map_to_list (j_files executing)) = true.
Proof. vm_compute. reflexivity. Qed.

Lemma hash_ok : sha256_ok the_hash = true. Proof. vm_compute. reflexivity. Qed.
Lemma quiet_io n : io quiet n = Fine. Proof. reflexivity. Qed.
Lemma quiet_clock n : 0 ≤ clock_ns quiet n ≤ MAX_NS. Proof. split; vm_compute; discriminate. Qed.

Lemma executing_fresh : fresh_temporaries quiet the_hash executing.
Proof.
  intros n. destruct (j_files executing !! _) as [c|] eqn:E; [exfalso|reflexivity].
  pose proof executing_names as H. rewrite forallb_forall in H.
  apply elem_of_map_to_list, list_elem_of_In, H in E. discriminate E.
Qed.

#[local] Opaque run events view_of transition recover recover_all the_hash.

Lemma executing_movable : movable quiet the_hash executing (record_of (at_ executing)).
Proof.
  split; [exact (view_record _ executing_stored)|]. split; [|exact executing_fresh].
  rewrite executing_revision. reflexivity.
Qed.

Lemma finished_history : history executing (events release executing) finished.
Proof. exact (session_history release executing). Qed.

Lemma whole_history :
  history empty (events (claims ++ execution) empty ++ events release executing) finished.
Proof. exact (run_history release empty _ executing (session_history (claims ++ execution) empty)). Qed.

Theorem journal_refines_state_machine_witness :
  rtc (advances the_hash) (at_ empty) (at_ finished) ∧ r_state (record_of (at_ finished)) = DONE.
Proof.
  split; [exact (journal_refines_state_machine _ _ _ the_hash whole_history)|exact finished_state].
Defined.

Theorem dispatch_is_claimed_once_witness :
  acquired (events claims empty) = [the_hash] ∧ NoDup (acquired (events claims empty)).
Proof.
  split; [exact claims_acquired|].
  exact (dispatch_is_claimed_once _ _ _ (session_history claims empty)).
Defined.

Theorem lease_ends_with_cleanup_witness :
  ∃ ra, r_state ra = CLEANUP_ACKED ∧
        rtc (advances the_hash) (Stored (record_of (at_ executing))) (Stored ra) ∧
        rtc (advances the_hash) (Stored ra) (Stored (record_of (at_ finished))).
Proof.
  apply (lease_ends_with_cleanup _ _ _ the_hash _ _ finished_history
    (view_record _ executing_stored) (view_record _ finished_stored)).
  - rewrite executing_state. by_compute.
  - rewrite finished_state. by_compute.
Defined.

Theorem dispatch_advances_at_most_11_times_witness : (1 ≤ 11)%nat.
Proof.
  apply (dispatch_advances_at_most_11_times the_hash 1 Absent Torn).
  apply nsteps_once, advances_tear.
Defined.

Theorem ended_record_is_final_witness :
  at_ (run release finished) = Stored (record_of (at_ finished)).
Proof.
  apply (ended_record_is_final _ _ _ the_hash _ (session_history release finished)
    (view_record _ finished_stored)).
  apply bool_decide_eq_true. rewrite finished_state. by_compute.
Defined.

Theorem allowed_moves_succeed_witness :
  ∃ r' j', transition quiet the_hash (state_name EXECUTION_SEALED)
             (Some (r_revision (record_of (at_ executing)))) None None executing = (Ok r', j') ∧
           r_state r' = EXECUTION_SEALED ∧ at_ j' = Stored r'.
Proof.
  apply (allowed_moves_succeed quiet the_hash quiet_io quiet_clock hash_ok _ _ _ _ _ executing_movable).
  - rewrite executing_state. by_compute.
  - exact I.
  - exact I.
  - exact I.
  - rewrite executing_failure. reflexivity.
Defined.

Theorem restart_closes_interrupted_runs_witness :
  ∃ r' j', recover quiet the_hash executing = (Ok r', j') ∧
           r_state r' = recovered (r_state (record_of (at_ executing))) ∧ at_ j' = Stored r'.
Proof.
  exact (restart_closes_interrupted_runs quiet the_hash quiet_io quiet_clock hash_ok _ _ executing_movable).
Defined.

Theorem torn_record_blocks_recovery_witness :
  is_ok (recover_all quiet (run claims torn)).1 = false.
Proof.
  exact (torn_record_blocks_recovery _ _ _ quiet the_hash (session_history claims torn) hash_ok torn_view).
Defined.

Lemma the_id_ok : identity_ok the_id.
Proof. repeat split; vm_compute; congruence. Qed.

Theorem valid_records_are_readable_witness : ∃ raw,
  _canonical_json_bytes (as_dict (initial_record the_id 1000)) = Ok raw ∧ Z.of_nat (String.length raw) ≤ 2501.
Proof.
  destruct (valid_records_are_readable (initial_record the_id 1000) (Journal ∅ 0)) as (raw & H1 & H2 & _).
  - apply initial_ok; [exact the_id_ok|split; vm_compute; discriminate].
  - exists raw. split; assumption.
Defined.
