(* ===== verification/ServiceScenario.v ===== *)
(** * One dispatch through the verifier's service

    The run of [TrustScenario], claimed, executed and cleaned up in the journal
    of [JournalScenario]'s kind; its receipt is persisted by a call that dies
    before the journal's transition and by the retry.  In another history the
    call dies while it creates the receipt. *)

From S2P Require Import TestDigest TrustScenario JournalScenario VerifierService.

Definition wakeup_1 : json := jobj
  [("schema_version", JInt 1); ("protocol_id", JStr VERIFIER_PROTOCOL_ID);
   ("kind", JStr "verification-wakeup"); ("dispatch_event_hash", JStr hex64); ("task_id", JStr "T-1");
   ("run_id", JStr TrustScenario.run_1); ("nonce", JStr "nonce-3")].

Definition root_1 : dir_stat := DirStat Directory 448 0 0 (1, 2) false.

(** A service whose accesses fail as [j] says. *)
Definition service_1 (j : environment) : service_environment := {|
  env_journal := j; env_clock _ := 1100; env_host := host_1; env_posix := true; env_euid := 0; env_egid := 0;
  stat_root _ := Some root_1; fstat_root _ := Some root_1; stat_ancestors _ := [];
  settles _ content := Entry content Regular 1 0 384 false
|}.
Definition pinned_1 : option (Z * Z) := Some (1, 2).

Definition idle : service := Service JournalScenario.empty ∅.
Definition step_to (s : state) : service_call := OtherCall (Transition hex64 (state_name s) None None None).

Fixpoint serve (cs : list (environment * service_call)) (s : service) : service :=
  match cs with [] => s | (j, c) :: cs => serve cs (served (service_1 j) pinned_1 c s) end.

Definition until_cleanup : list (environment * service_call) :=
  (quiet, ClaimDispatch dispatch_1 wakeup_1) ::
  ((λ s, (quiet, step_to s)) <$> [SOURCE_VERIFIED; SNAPSHOT_ACQUIRED; EXECUTING; EXECUTION_SEALED;
                                  RELEASE_PENDING; CLEANUP_ACKED]).
Definition acked : service := serve until_cleanup idle.

Definition persisting : service_call := PersistReceipt dispatch_1 (JObj sealed_1).

(** The call dies at its journal transition, or at the creation of the file. *)
Definition dies_at (k : nat) (left : trace) : environment :=
  Environment (λ _, 1000) (λ n, if (n =? k)%nat then Fault (Exn Exception "killed") left else Fine)
    (λ n, string_of_Z (Z.of_nat n)).
Definition interrupted : service := serve [(dies_at (j_tick (s_journal acked) + 10) Nothing, persisting)] acked.
Definition final : service := serve [(quiet, persisting)] interrupted.
Definition torn_receipt : service := serve [(dies_at (j_tick (s_journal acked) + 3) Whole, persisting)] acked.

Definition summary (s : service) : option (state * Z * option state) * list (string * nat) :=
  (states_of (view_of hex64 (s_journal s)),
   (λ p, (p.1, String.length (e_bytes p.2))) <$> map_to_list (s_receipts s)).


(** Steps of a history. *)
Definition permitted_b (c : service_call) : bool :=
  match c with
  | OtherCall (Transition _ t _ _ _) => negb (bool_decide (state_of t = Some RECEIPT_PERSISTED))
  | OtherCall _ => false
  | _ => true
  end.
Lemma permitted_spec c : permitted_b c = true → permitted c.
Proof.
  destruct c as [d w|d r|q]; [done..|]. destruct q as [|h' t rev code reason| | | | | |]; try done.
  intros Hb%negb_true_iff%bool_decide_eq_false h [_ Ht]. done.
Qed.

Lemma serve_serves cs : ∀ s0 s, forallb (λ c, permitted_b c.2) cs = true → serves s0 s → serves s0 (serve cs s).
Proof.
  induction cs as [|[j c] cs IH]; intros s0 s Hc Hs; cbn [serve]; [done|].
  cbn [forallb snd] in Hc. apply andb_true_iff in Hc as [Hc Hcs]. apply IH; [done|].
  apply serves_call; [done|]. by apply permitted_spec.
Qed.

Lemma until_cleanup_permitted : forallb (λ c, permitted_b c.2) until_cleanup = true.
Proof. vm_compute. reflexivity. Qed.

Definition entry_of (s : service) : entry :=
  default (Entry "" Link 0 0 0 false) (s_receipts s !! receipt_name hex64).
Lemma lookup_entry s : is_Some (s_receipts s !! receipt_name hex64) → s_receipts s !! receipt_name hex64 = Some (entry_of s).
Proof. unfold entry_of. by intros [e ->]. Qed.
Lemma object_not_empty d : "" ≠ canonical_json (JObj d).
Proof.
  unfold canonical_json, dumps. destruct (dumps_obj compact 0 d) as (l & _ & ->). by destruct l.
Qed.

Definition record_at (s : service) : VerifierJournalRecord := record_of (view_of hex64 (s_journal s)).
Lemma stored_at s : is_stored (view_of hex64 (s_journal s)) = true →
  view_of hex64 (s_journal s) = Stored (record_at s).
Proof. apply view_record. Qed.
Lemma idle_backed : backed idle.
Proof. intros h r Hr. exfalso. unfold view_of, idle in Hr. cbn in Hr. by rewrite lookup_empty in Hr. Qed.

(** The retry's checks and its answer. *)
Definition checking (s : service) : res (dict * dict * VerifierJournalRecord) * service :=
  receivable (service_1 quiet) dispatch_1 (JObj sealed_1) s.
Definition checked (s : service) : dict * dict * VerifierJournalRecord :=
  value (∅, ∅, initial_record the_id 0) (checking s).1.
Lemma checking_run s : is_ok (checking s).1 = true →
  receivable (service_1 quiet) dispatch_1 (JObj sealed_1) s =
    (Ok ((checked s).1.1, (checked s).1.2, (checked s).2), (checking s).2).
Proof.
  unfold checked, checking. destruct (receivable _ _ _ s) as [[[[q d] r]|x] s']; [done|discriminate].
Qed.


Definition document_1 : dict := (checked interrupted).1.2.
Definition encoded_1 : string := value "" (canonical_json_bytes (JObj document_1)).

(** What happens, computed once. *)
Lemma facts :
  summary interrupted = (Some (CLEANUP_ACKED, 7, Some RELEASE_PENDING), [(receipt_name hex64, 5008%nat)]) ∧
  summary final = (Some (RECEIPT_PERSISTED, 8, Some CLEANUP_ACKED), [(receipt_name hex64, 5008%nat)]) ∧
  summary torn_receipt = (Some (CLEANUP_ACKED, 7, Some RELEASE_PENDING), [(receipt_name hex64, 0%nat)]) ∧
  bool_decide (is_Some (s_receipts interrupted !! receipt_name hex64)) = true ∧
  bool_decide (is_Some (s_receipts torn_receipt !! receipt_name hex64)) = true ∧
  e_bytes (entry_of torn_receipt) = "" ∧
  is_stored (view_of hex64 (s_journal final)) = true ∧
  r_state (record_at final) = RECEIPT_PERSISTED ∧
  is_ok (checking interrupted).1 = true ∧
  is_ok (checking torn_receipt).1 = true ∧
  i_dispatch (identity_of (checked torn_receipt).1.1) = hex64 ∧
  is_ok (canonical_json_bytes (JObj document_1)) = true ∧
  i_dispatch (identity_of (checked interrupted).1.1) = hex64 ∧
  (match s_receipts interrupted !! receipt_name hex64 with
  | Some e => bool_decide (e_kind e = Regular) && negb (e_reparse e) && (e_nlink e =? 1)
              && bool_decide (e_bytes e = encoded_1)
              && (Z.of_nat (size (s_receipts interrupted)) <=? MAX_RECEIPT_STORE_ENTRIES)
  | None => false end = true) ∧
  r_revision (checked interrupted).2 = 7 ∧
  forallb (λ p, negb (starts_with "." p.1)) (map_to_list (j_files (s_journal interrupted))) = true ∧
  is_ok (persist_receipt (service_1 quiet) pinned_1 dispatch_1 (JObj sealed_1) interrupted).1 = true.
Proof. vm_compute. repeat split. Qed.

Lemma interrupted_summary : summary interrupted = (Some (CLEANUP_ACKED, 7, Some RELEASE_PENDING), [(receipt_name hex64, 5008%nat)]).
Proof. exact (proj1 facts). Qed.
Lemma final_summary : summary final = (Some (RECEIPT_PERSISTED, 8, Some CLEANUP_ACKED), [(receipt_name hex64, 5008%nat)]).
Proof. exact (proj1 (proj2 facts)). Qed.
Lemma torn_receipt_summary : summary torn_receipt = (Some (CLEANUP_ACKED, 7, Some RELEASE_PENDING), [(receipt_name hex64, 0%nat)]).
Proof. exact (proj1 (proj2 (proj2 facts))). Qed.
Lemma interrupted_entry : is_Some (s_receipts interrupted !! receipt_name hex64).
Proof. exact (proj1 (bool_decide_eq_true _) (proj1 (proj2 (proj2 (proj2 facts))))). Qed.
Lemma torn_entry : is_Some (s_receipts torn_receipt !! receipt_name hex64).
Proof. exact (proj1 (bool_decide_eq_true _) (proj1 (proj2 (proj2 (proj2 (proj2 facts)))))). Qed.
Lemma torn_empty : e_bytes (entry_of torn_receipt) = "".
Proof. exact (proj1 (proj2 (proj2 (proj2 (proj2 (proj2 facts)))))). Qed.
Lemma final_stored : is_stored (view_of hex64 (s_journal final)) = true.
Proof. exact (proj1 (proj2 (proj2 (proj2 (proj2 (proj2 (proj2 facts))))))). Qed.
Lemma final_state : r_state (record_at final) = RECEIPT_PERSISTED.
Proof. exact (proj1 (proj2 (proj2 (proj2 (proj2 (proj2 (proj2 (proj2 facts)))))))). Qed.
Lemma interrupted_checks : is_ok (checking interrupted).1 = true.
Proof. exact (proj1 (proj2 (proj2 (proj2 (proj2 (proj2 (proj2 (proj2 (proj2 facts))))))))). Qed.
Lemma torn_checks : is_ok (checking torn_receipt).1 = true.
Proof. exact (proj1 (proj2 (proj2 (proj2 (proj2 (proj2 (proj2 (proj2 (proj2 (proj2 facts)))))))))). Qed.
Lemma torn_hash : i_dispatch (identity_of (checked torn_receipt).1.1) = hex64.
Proof. exact (proj1 (proj2 (proj2 (proj2 (proj2 (proj2 (proj2 (proj2 (proj2 (proj2 (proj2 facts))))))))))). Qed.
Lemma document_bytes : is_ok (canonical_json_bytes (JObj document_1)) = true.
Proof. exact (proj1 (proj2 (proj2 (proj2 (proj2 (proj2 (proj2 (proj2 (proj2 (proj2 (proj2 (proj2 facts)))))))))))). Qed.
Lemma interrupted_hash : i_dispatch (identity_of (checked interrupted).1.1) = hex64.
Proof. exact (proj1 (proj2 (proj2 (proj2 (proj2 (proj2 (proj2 (proj2 (proj2 (proj2 (proj2 (proj2 (proj2 facts))))))))))))). Qed.
Lemma interrupted_ready : match s_receipts interrupted !! receipt_name hex64 with
  | Some e => bool_decide (e_kind e = Regular) && negb (e_reparse e) && (e_nlink e =? 1)
              && bool_decide (e_bytes e = encoded_1)
              && (Z.of_nat (size (s_receipts interrupted)) <=? MAX_RECEIPT_STORE_ENTRIES)
  | None => false end = true.
Proof. exact (proj1 (proj2 (proj2 (proj2 (proj2 (proj2 (proj2 (proj2 (proj2 (proj2 (proj2 (proj2 (proj2 (proj2 facts)))))))))))))). Qed.
Lemma interrupted_revision : r_revision (checked interrupted).2 = 7.
Proof. exact (proj1 (proj2 (proj2 (proj2 (proj2 (proj2 (proj2 (proj2 (proj2 (proj2 (proj2 (proj2 (proj2 (proj2 (proj2 facts))))))))))))))). Qed.
Lemma interrupted_names : forallb (λ p, negb (starts_with "." p.1)) (map_to_list (j_files (s_journal interrupted))) = true.
Proof. exact (proj1 (proj2 (proj2 (proj2 (proj2 (proj2 (proj2 (proj2 (proj2 (proj2 (proj2 (proj2 (proj2 (proj2 (proj2 (proj2 facts)))))))))))))))). Qed.
Lemma answered : is_ok (persist_receipt (service_1 quiet) pinned_1 dispatch_1 (JObj sealed_1) interrupted).1 = true.
Proof. exact (proj2 (proj2 (proj2 (proj2 (proj2 (proj2 (proj2 (proj2 (proj2 (proj2 (proj2 (proj2 (proj2 (proj2 (proj2 (proj2 facts)))))))))))))))). Qed.
Lemma encoded_run : canonical_json_bytes (JObj document_1) = Ok encoded_1.
Proof. apply value_ok, document_bytes. Qed.

#[local] Opaque serve acked interrupted final torn_receipt sealed_1 dispatch_1 wakeup_1 view_of receivable
  persist_receipt checked checking document_1 encoded_1 until_cleanup.

Lemma answer_run : ∃ p s',
  persist_receipt (service_1 quiet) pinned_1 dispatch_1 (JObj sealed_1) interrupted = (Ok p, s').
Proof.
  pose proof answered as Ha.
  destruct (persist_receipt (service_1 quiet) pinned_1 dispatch_1 (JObj sealed_1) interrupted) as [[p|x] s'];
    [by exists p, s'|discriminate Ha].
Qed.

Lemma acked_serves : serves idle acked.
Proof. exact (serve_serves until_cleanup idle idle until_cleanup_permitted (serves_nil idle)). Qed.
Lemma persisting_serves j s0 s : serves s0 s → serves s0 (serve [(j, persisting)] s).
Proof. intros Hs. apply serve_serves; [reflexivity|exact Hs]. Qed.
Lemma final_serves : serves idle final.
Proof. exact (persisting_serves _ _ _ (persisting_serves _ _ _ acked_serves)). Qed.

Lemma interrupted_movable :
  movable quiet hex64 (s_journal interrupted) (checked interrupted).2.
Proof.
  destruct (receivable_ok _ _ _ _ _ _ _ _ (checking_run _ interrupted_checks)) as [[Ej _] [_ _ Hv _ _]].
  rewrite interrupted_hash in Hv. split; [|split].
  - exact (eq_trans (eq_sym (same_files_view _ _ _ Ej)) Hv).
  - rewrite interrupted_revision. reflexivity.
  - intros n. destruct (j_files (s_journal interrupted) !! _) as [c|] eqn:E; [exfalso|reflexivity].
    pose proof interrupted_names as Hn. rewrite forallb_forall in Hn.
    apply elem_of_map_to_list, list_elem_of_In, Hn in E. discriminate E.
Qed.

Theorem receipts_are_write_once_witness :
  s_receipts final !! receipt_name hex64 = Some (entry_of interrupted).
Proof.
  exact (receipts_are_write_once interrupted final _ _ (persisting_serves quiet _ _ (serves_nil interrupted))
    (lookup_entry _ interrupted_entry)).
Defined.

Theorem persisted_records_have_receipts_witness : receipt_stored final (r_id (record_at final)).
Proof.
  apply (persisted_records_have_receipts idle final hex64 (record_at final) final_serves idle_backed
    (stored_at _ final_stored)).
  rewrite final_state. by_compute.
Defined.

Theorem persisted_receipt_is_in_place_witness : ∃ p s',
  persist_receipt (service_1 quiet) pinned_1 dispatch_1 (JObj sealed_1) interrupted = (Ok p, s') ∧
  r_state (p_record p) = RECEIPT_PERSISTED ∧ is_Some (s_receipts s' !! p_path p).
Proof.
  destruct answer_run as (p & s' & E). exists p, s'. split; [exact E|].
  destruct (persisted_receipt_is_in_place _ _ _ _ _ _ _ E) as (q & d & e & now & _ & _ & _ & _ & He & _ & _ & _ & Hs).
  split; [exact Hs|exists e; exact He].
Defined.

Theorem interrupted_persist_resumes_witness : ∃ p s',
  persist_receipt (service_1 quiet) pinned_1 dispatch_1 (JObj sealed_1) interrupted = (Ok p, s') ∧
  p_idempotent p = bool_decide (is_Some (s_receipts interrupted !! p_path p)) ∧
  r_state (p_record p) = RECEIPT_PERSISTED.
Proof.
  apply (interrupted_persist_resumes (service_1 quiet) pinned_1 quiet_io quiet_clock)
    with (checked interrupted).1.1 document_1 (checked interrupted).2 (checking interrupted).2 encoded_1.
  - intros _. exists (1, 2), root_1. split; [reflexivity|]. split; [split; reflexivity|]. vm_compute. reflexivity.
  - exact (checking_run _ interrupted_checks).
  - exact encoded_run.
  - rewrite interrupted_hash. unfold store_ready. pose proof interrupted_ready as Hr.
    destruct (s_receipts interrupted !! receipt_name hex64) as [e|]; [|discriminate Hr].
    bool_split. auto.
  - intros _. rewrite interrupted_hash. exact interrupted_movable.
Defined.

Theorem torn_receipt_blocks_dispatch_witness :
  is_ok (persist_receipt (service_1 quiet) pinned_1 dispatch_1 (JObj sealed_1) torn_receipt).1 = false.
Proof.
  apply (torn_receipt_blocks_dispatch torn_receipt torn_receipt hex64 (entry_of torn_receipt) (service_1 quiet)
    pinned_1 dispatch_1 (JObj sealed_1) (checked torn_receipt).1.1 (checked torn_receipt).1.2
    (checked torn_receipt).2 (checking torn_receipt).2).
  - apply serves_nil.
  - exact (lookup_entry _ torn_entry).
  - intros d. rewrite torn_empty. apply object_not_empty.
  - exact (checking_run _ torn_checks).
  - exact torn_hash.
Defined.
