(* ===== verification/Model.v ===== *)
(** * Task records and their state machine ([model.py], validators of [util.py])

    A task is a [dict].  Its keys are set by [new_task]; [transition] returns
    an updated copy after checking the move against [TRANSITIONS].  [utc_now()]
    is an argument of the functions that call it. *)

From S2P Require Export JsonFacts PyTime.

(** ** Identifiers *)

(** [TASK_ID_RE] and [AGENT_ID_RE] *)
Definition task_id_ok (s : string) : bool := re_ident is_alnum ident_char 79 s.
Definition agent_id_ok (s : string) : bool :=
  re_ident (λ c, is_digit c || is_lower c) lower_ident_char 49 s.

Definition validate_task_id (value : string) : res string :=
  if task_id_ok value then Ok value
  else raise ConfigurationError "Task id must start with an alphanumeric character".

Definition validate_agent_id (value : string) : res string :=
  if agent_id_ok value then Ok value
  else raise ConfigurationError "Agent id must start with an alphanumeric character".

(** ** The state machine *)

Definition TASK_STATES : list string :=
  ["pending"; "claimed"; "running"; "blocked"; "submitted"; "verified"; "rejected";
   "archived"].

Definition TRANSITIONS : gmap string (list string) := list_to_map
  [("pending", ["claimed"; "submitted"]);
   ("claimed", ["running"; "blocked"]);
   ("running", ["blocked"; "submitted"]);
   ("blocked", ["pending"]);
   ("submitted", ["verified"; "rejected"]);
   ("rejected", ["pending"]);
   ("verified", ["archived"]);
   ("archived", [])].

Definition validate_task (task : dict) : res unit :=
  _ ← validate_task_id (str_of (get_or task "id" (JStr "")));
  _ ← validate_agent_id (str_of (get_or task "owner" (JStr "")));
  known ← in_strings (get task "state") TASK_STATES;
  _ ← raise_if (negb known) ConfigurationError "Unknown task state";
  _ ← raise_if (bool_decide (strip (str_of (get_or task "title" (JStr ""))) = ""))
        ConfigurationError "Task title cannot be empty";
  _ ← raise_if (negb (is_int (get task "revision")))
        ConfigurationError "Task revision must be a positive integer";
  _ ← raise_if (match get task "revision" with
                | JInt z => z <? 1 | JBool b => negb b | _ => true end)
        ConfigurationError "Task revision must be a positive integer";
  _ ← raise_if (negb (is_list (get task "prerequisites")))
        ConfigurationError "Task prerequisites must be a list";
  _ ← raise_if (negb (is_dict (get task "permissions")))
        ConfigurationError "Task permissions must be an object";
  raise_if (negb (is_dict (get task "gates")))
        ConfigurationError "Task gates must be an object".

Definition default_permissions : dict := dict_of
  [("gpu", JBool false); ("performance_metrics", JBool false); ("network", JBool false)].

Definition default_gates : dict := dict_of
  [("require_validation", JBool true); ("allow_skips", JBool false);
   ("require_known_answer_check", JBool true);
   ("require_independent_verification", JBool true)].

Definition new_task (now task_id title description owner created_by : string)
    (prerequisites allowed_write_roots : list string) (permissions gates : dict)
    (idempotency_key : string) : res dict :=
  tid ← validate_task_id task_id;
  own ← validate_agent_id owner;
  by_ ← validate_agent_id created_by;
  let record := dict_of
    [("schema_version", JInt 1);
     ("id", JStr tid);
     ("title", JStr (strip title));
     ("description", JStr (strip description));
     ("owner", JStr own);
     ("created_by", JStr by_);
     ("state", JStr "pending");
     ("revision", JInt 1);
     ("attempt", JInt 0);
     ("created_at", JStr now);
     ("updated_at", JStr now);
     ("prerequisites", jstrs prerequisites);
     ("allowed_write_roots", jstrs allowed_write_roots);
     ("permissions", JObj (merge_dict default_permissions permissions));
     ("gates", JObj (merge_dict default_gates gates));
     ("idempotency_key",
      JStr (if bool_decide (idempotency_key = "") then task_id else idempotency_key));
     ("lease", JNull); ("result", JNull); ("verification", JNull);
     ("blocked_reason", JNull)] in
  _ ← validate_task record;
  Ok record.

(** [TRANSITIONS.get(source, set())] *)
Definition targets (source : json) : res (list string) :=
  match source with
  | JStr s => Ok (default [] (TRANSITIONS !! s))
  | JList _ | JObj _ => raise TypeError "unhashable type"
  | _ => Ok []
  end.

Definition transition (now : string) (task : dict) (target : string) (updates : dict)
  : res dict :=
  source ← item task "state";
  ts ← targets source;
  _ ← (if bool_decide (target ∈ ts) then Ok tt
       else _ ← item task "id"; raise TransitionError "Task cannot transition");
  rev ← item task "revision";
  rev' ← py_add1 rev;
  let result := merge_dict
    (<["updated_at" := JStr now]> (<["revision" := rev']> (<["state" := JStr target]> task)))
    updates in
  _ ← validate_task result;
  Ok result.

(** [parse_utc(v)] on a value that may not be a string. *)
Definition parse_utc_json (v : json) : res datetime :=
  match v with
  | JStr s => parse_utc s
  | _ => raise AttributeError "object has no attribute 'replace'"
  end.

Definition lease_expired (now : string) (task : dict) : res bool :=
  let lease := get task "lease" in
  if negb (truthy lease) then Ok false else
  current ← parse_utc now;
  e ← jitem lease "expires_at";
  expires ← parse_utc_json e;
  datetime_ge current expires.

Definition lease_expiry (seconds : Z) (now : string) : res string :=
  _ ← raise_if (seconds <? 10) ConfigurationError
        "Lease duration must be at least 10 seconds";
  current ← parse_utc now;
  dt ← add_seconds current seconds;
  Ok (replace "+00:00" "Z" (isoformat dt)).

(** ** Facts *)

Lemma validate_task_id_ok s t : validate_task_id s = Ok t ↔ s = t ∧ task_id_ok s = true.
Proof. unfold validate_task_id, raise. destruct (task_id_ok s); naive_solver. Qed.

Lemma validate_agent_id_ok s t : validate_agent_id s = Ok t ↔ s = t ∧ agent_id_ok s = true.
Proof. unfold validate_agent_id, raise. destruct (agent_id_ok s); naive_solver. Qed.

Lemma agent_id_is_task_id s : agent_id_ok s = true → task_id_ok s = true.
Proof.
  unfold agent_id_ok, task_id_ok, re_ident. destruct s as [|c s]; [done|].
  rewrite !andb_true_iff, !Nat.leb_le. intros [[Hc Hs] Hl]. split_and!; [| |lia].
  - unfold is_alnum. destruct (is_digit c), (is_upper c), (is_lower c); done.
  - eapply all_chars_impl, Hs. apply lower_ident_is_ident.
Qed.

(** What every valid record has. *)
Lemma validate_task_inv t :
  validate_task t = Ok tt →
  task_id_ok (str_of (get_or t "id" (JStr ""))) = true ∧
  agent_id_ok (str_of (get_or t "owner" (JStr ""))) = true ∧
  (∃ s, get t "state" = JStr s ∧ s ∈ TASK_STATES) ∧
  is_list (get t "prerequisites") = true ∧ is_dict (get t "permissions") = true ∧
  is_dict (get t "gates") = true ∧
  (get t "revision" = JBool true ∨ ∃ z, get t "revision" = JInt z ∧ 1 ≤ z).
Proof.
  unfold validate_task. intros H. inv_res.
  repeat match goal with
  | H : validate_task_id _ = _ |- _ => apply validate_task_id_ok in H as [_ ?]
  | H : validate_agent_id _ = _ |- _ => apply validate_agent_id_ok in H as [_ ?]
  end.
  match goal with H : in_strings _ _ = Ok ?b |- _ =>
    assert ((∃ s, get t "state" = JStr s ∧ b = bool_decide (s ∈ TASK_STATES)) ∨ b = false)
      as Hst by (unfold in_strings in H; destruct (get t "state"); try discriminate H;
                 injection H as <-; eauto) end.
  bool_split. split_and!; try done.
  - destruct Hst as [(s & ? & ->)| ->]; [|done]. bool_split. eauto.
  - destruct (get t "revision") as [|[]|z| | | |]; try done; [by left|].
    right. eexists. split; [done|]. bool_split. lia.
Qed.

(** The state names and the transition table agree. *)
Lemma TRANSITIONS_closed s l t :
  TRANSITIONS !! s = Some l → t ∈ l → s ∈ TASK_STATES ∧ t ∈ TASK_STATES.
Proof.
  intros H%elem_of_list_to_map_2 Ht. unfold TASK_STATES.
  repeat (apply elem_of_cons in H as [[= -> ->]|H]); [..|by apply elem_of_nil in H];
    repeat (apply elem_of_cons in Ht as [->|Ht]); try (by apply elem_of_nil in Ht);
    split; set_solver.
Qed.

Lemma transition_inv now t target u t' :
  transition now t target u = Ok t' →
  ∃ s l r r', t !! "state" = Some (JStr s) ∧ TRANSITIONS !! s = Some l ∧ target ∈ l ∧
  t !! "revision" = Some r ∧ py_add1 r = Ok r' ∧
  t' = merge_dict (<["updated_at" := JStr now]> (<["revision" := r']>
         (<["state" := JStr target]> t))) u ∧
  validate_task t' = Ok tt.
Proof.
  unfold transition, item. intros H.
  destruct (t !! "state") as [source|] eqn:Es; [|done]. cbn in H.
  apply bind_ok in H as (ts & Hts & H). apply bind_ok in H as (? & Hin & H).
  destruct (t !! "revision") as [r|] eqn:Er; [|done]. cbn in H.
  apply bind_ok in H as (r' & Hr' & H). apply bind_ok in H as ([] & Hv & [= <-]).
  case_bool_decide; [|by destruct (t !! "id")].
  unfold targets in Hts. destruct source as [| | | |s| |]; try discriminate Hts;
    injection Hts as <-; try (by match goal with H : _ ∈ [] |- _ => apply elem_of_nil in H end).
  destruct (TRANSITIONS !! s) as [l|] eqn:El; [|by match goal with H : _ ∈ default [] None |- _ => apply elem_of_nil in H end].
  exists s, l, r, r'. done.
Qed.

(** ** Paths of the state machine *)

(** [moves s t]: a task in state [s] may go to [t]. *)
Definition moves (s t : string) : bool := bool_decide (t ∈ default [] (TRANSITIONS !! s)).

(** The states a task passes through, oldest first. *)
Inductive path : list string → Prop :=
  | path_one s : path [s]
  | path_step s t l : path (l ++ [s]) → moves s t = true → path (l ++ [s; t]).

Lemma moves_into_verified s : moves s "verified" = true → s = "submitted".
Proof.
  unfold moves. rewrite bool_decide_eq_true.
  destruct (TRANSITIONS !! s) as [l|] eqn:E; [|set_solver]. cbn. intros Ht.
  apply elem_of_list_to_map_2 in E.
  repeat (apply elem_of_cons in E as [[= -> ->]|E]; [set_solver|]); set_solver.
Qed.

Lemma moves_into_archived s : moves s "archived" = true → s = "verified".
Proof.
  unfold moves. rewrite bool_decide_eq_true.
  destruct (TRANSITIONS !! s) as [l|] eqn:E; [|set_solver]. cbn. intros Ht.
  apply elem_of_list_to_map_2 in E.
  repeat (apply elem_of_cons in E as [[= -> ->]|E]; [set_solver|]); set_solver.
Qed.

Lemma path_snoc_inv l s t : path (l ++ [s; t]) → path (l ++ [s]) ∧ moves s t = true.
Proof.
  intros H. inversion H as [s' E|s' t' l' Hp Hm E].
  - destruct l as [|? [|]]; discriminate E.
  - change [s'; t'] with ([s'] ++ [t']) in E. change [s; t] with ([s] ++ [t]) in E.
    rewrite !app_assoc in E. apply app_inj_tail in E as [E ->].
    apply app_inj_tail in E as [-> ->]. done.
Qed.

(** C27: every history of a task that starts pending and reaches [verified]
    or [archived] contains a submission. *)
Theorem verified_only_after_submission l s :
  path l → head l = Some "pending" → last l = Some s → s = "verified" ∨ s = "archived" →
  "submitted" ∈ l.
Proof.
  intros Hp. revert s. induction Hp as [s0|s t l Hp IH Hm]; intros x Hh Hl Hx.
  - cbn in *. simplify_eq. by destruct Hx.
  - change [s; t] with ([s] ++ [t]) in *. rewrite app_assoc in *. rewrite last_snoc in Hl.
    injection Hl as ->. assert (Hh' : head (l ++ [s]) = Some "pending") by (by destruct l).
    apply elem_of_app. left. destruct Hx as [-> | ->].
    + apply moves_into_verified in Hm as ->. apply elem_of_app. right. by left.
    + apply moves_into_archived in Hm as ->. eapply IH; [done|apply last_snoc|by left].
Qed.

Theorem verified_only_after_submission_witness :
  "submitted" ∈ ["pending"; "claimed"; "running"; "submitted"; "verified"].
Proof.
  apply (verified_only_after_submission _ "verified"); [|reflexivity|reflexivity|by left].
  apply (path_step "submitted" "verified" ["pending"; "claimed"; "running"]); [|reflexivity].
  apply (path_step "running" "submitted" ["pending"; "claimed"]); [|reflexivity].
  apply (path_step "claimed" "running" ["pending"]); [|reflexivity].
  apply (path_step "pending" "claimed" []); [|reflexivity]. apply path_one.
Defined.

(** ** What [new_task] and [transition] return *)

(** The keys [validate_task] reads besides [state] and [revision]. *)
Definition checked_keys : list string :=
  ["id"; "owner"; "title"; "prerequisites"; "permissions"; "gates"].

(** A valid record stays valid when its other keys, its state or its revision
    are replaced by a known state and a positive integer. *)
Lemma validate_task_update t t' s z :
  validate_task t = Ok tt → (∀ k, k ∈ checked_keys → t' !! k = t !! k) →
  t' !! "state" = Some (JStr s) → s ∈ TASK_STATES →
  t' !! "revision" = Some (JInt z) → 1 ≤ z → validate_task t' = Ok tt.
Proof.
  intros Hv Hk Hs Hin Hr Hz. unfold validate_task in *.
  assert (Hg : ∀ k, k ∈ checked_keys → get t' k = get t k)
    by (intros; unfold get; by rewrite Hk).
  assert (Hg' : ∀ k v, k ∈ checked_keys → get_or t' k v = get_or t k v)
    by (intros; unfold get_or; by rewrite Hk).
  rewrite (Hg' "id"), (Hg' "owner"), (Hg' "title") by by_compute.
  rewrite (Hg "prerequisites"), (Hg "permissions"), (Hg "gates") by by_compute.
  assert (Hgs : get t' "state" = JStr s) by (unfold get; by rewrite Hs).
  assert (Hgr : get t' "revision" = JInt z) by (unfold get; by rewrite Hr).
  rewrite Hgs, Hgr.
  destruct (validate_task_id _); [|done]. destruct (validate_agent_id _); [|done].
  cbn [mbind res_bind] in *. unfold in_strings at 1. rewrite (bool_decide_eq_true_2 (s ∈ TASK_STATES)) by done.
  cbn [mbind res_bind raise_if negb is_int default from_option] in *.
  apply bind_ok in Hv as (b & _ & Hv). apply bind_ok in Hv as (? & _ & Hv).
  apply bind_ok in Hv as (? & -> & Hv). cbn [mbind res_bind].
  apply bind_ok in Hv as (? & _ & Hv). apply bind_ok in Hv as (? & _ & Hv).
  rewrite (proj2 (Z.ltb_ge z 1)) by lia. exact Hv.
Qed.

Definition positive_revision (t : dict) (z : Z) : Prop :=
  t !! "revision" = Some (JInt z) ∧ 1 ≤ z.

(** on a valid record, [transition] either raises [TransitionError]
    because the move is not in the table, or returns the record with the new
    state, the next revision, the update time and the updates, and nothing
    else changed. *)
Theorem transition_spec now t s z target u :
  validate_task t = Ok tt → t !! "state" = Some (JStr s) → positive_revision t z →
  is_Some (t !! "id") →
  (∀ k, k ∈ "state" :: "revision" :: checked_keys → u !! k = None) →
  if moves s target
  then ∃ t', transition now t target u = Ok t' ∧ validate_task t' = Ok tt ∧
       t' !! "state" = Some (JStr target) ∧ positive_revision t' (z + 1) ∧
       (∀ k, k ∉ ["state"; "revision"; "updated_at"] →
             t' !! k = match u !! k with Some v => Some v | None => t !! k end)
  else transition now t target u = raise TransitionError "Task cannot transition".
Proof.
  intros Hv Hs [Hr Hz] [i Hi] Hu. unfold transition, item, targets, moves.
  rewrite Hs, Hr, Hi. cbn [res_of_option mbind res_bind py_add1].
  case_bool_decide as Hm; [|done]. set (t' := merge_dict _ u).
  assert (Ht' : ∀ k, k ∉ ["state"; "revision"; "updated_at"] →
             t' !! k = match u !! k with Some v => Some v | None => t !! k end).
  { intros k Hk. subst t'. rewrite lookup_merge_dict. destruct (u !! k); [done|].
    rewrite !lookup_insert_ne; [done|..]; intros <-; apply Hk; by_compute. }
  assert (Hst : t' !! "state" = Some (JStr target)).
  { subst t'. rewrite lookup_merge_dict, Hu by by_compute.
    rewrite !lookup_insert_ne by done. by rewrite lookup_insert_eq. }
  assert (Hrv : t' !! "revision" = Some (JInt (z + 1))).
  { subst t'. rewrite lookup_merge_dict, Hu by by_compute.
    rewrite lookup_insert_ne by done. by rewrite lookup_insert_eq. }
  assert (Hok : validate_task t' = Ok tt).
  { eapply (validate_task_update t t' target (z + 1)); try done; [|..|lia].
    - intros k Hk. assert (k ∈ "state" :: "revision" :: checked_keys) by (by do 2 right).
      rewrite Ht', Hu; [done|done|]. intros Hk'.
      revert Hk. repeat (apply elem_of_cons in Hk' as [->|Hk']; [by_compute|]).
      by apply elem_of_nil in Hk'.
    - destruct (TRANSITIONS !! s) eqn:E; [|by apply elem_of_nil in Hm].
      by eapply TRANSITIONS_closed. }
  rewrite Hok. exists t'. split_and!; try done. split; [done|lia].
Qed.

(** ** The life of a record *)

(** The keys that no caller of [transition] passes in its updates. *)
Definition fixed_keys : list string := ["id"; "state"; "revision"; "permissions"; "gates"].

(** The record of a task created with these permissions and gates, after moves
    through these states, oldest first. *)
Inductive record_history (perms gates : dict) : dict → list string → Prop :=
  | record_created now tid title desc owner by_ pre roots key t :
      new_task now tid title desc owner by_ pre roots perms gates key = Ok t →
      record_history perms gates t ["pending"]
  | record_moved now t l target u t' :
      record_history perms gates t l → transition now t target u = Ok t' →
      (∀ k, k ∈ fixed_keys → u !! k = None) → record_history perms gates t' (l ++ [target]).

(** What a move changes of the fixed keys. *)
Lemma transition_fixed now t target u t' : transition now t target u = Ok t' →
  (∀ k, k ∈ fixed_keys → u !! k = None) →
  ∃ s r r', t !! "state" = Some (JStr s) ∧ moves s target = true ∧ validate_task t' = Ok tt ∧
    t' !! "state" = Some (JStr target) ∧ t !! "revision" = Some r ∧ py_add1 r = Ok r' ∧
    t' !! "revision" = Some r' ∧ ∀ k, k ∈ ["id"; "permissions"; "gates"] → t' !! k = t !! k.
Proof.
  intros (s & l & r & r' & Hs & Hl & Hin & Hr & Hr' & -> & Hv)%transition_inv Hu.
  exists s, r, r'. rewrite !lookup_merge_dict, !Hu by by_compute.
  rewrite !lookup_insert_ne, !lookup_insert_eq by done. rewrite lookup_insert_ne, lookup_insert_eq by done.
  split_and!; try done.
  - unfold moves. rewrite Hl. by apply bool_decide_eq_true.
  - intros k Hk. rewrite lookup_merge_dict.
    repeat (apply elem_of_cons in Hk as [->|Hk]; [by rewrite Hu, !lookup_insert_ne by (by_compute || done)|]).
    by apply elem_of_nil in Hk.
Qed.

Lemma new_task_fields now tid title desc owner by_ pre roots perms gates key t :
  new_task now tid title desc owner by_ pre roots perms gates key = Ok t →
  validate_task t = Ok tt ∧ t !! "id" = Some (JStr tid) ∧ task_id_ok tid = true ∧
  t !! "state" = Some (JStr "pending") ∧ t !! "revision" = Some (JInt 1) ∧
  t !! "permissions" = Some (JObj (merge_dict default_permissions perms)) ∧
  t !! "gates" = Some (JObj (merge_dict default_gates gates)).
Proof.
  unfold new_task. intros H.
  apply bind_ok in H as (tid' & [-> Htid]%validate_task_id_ok & H).
  apply bind_ok in H as (own & _ & H). apply bind_ok in H as (b & _ & H).
  apply bind_ok in H as ([] & Hv & H%Ok_inj). subst t. by split_and!.
Qed.

Lemma merge_default (d u : dict) k v : d !! k = Some v → merge_dict d u !! k = Some (default v (u !! k)).
Proof. intros Hd. rewrite lookup_merge_dict, Hd. by destruct (u !! k). Qed.

(** C40: every record made by [new_task] and moved by [transition] any number of
    times is a valid record whose life is a path of the state machine from
    [pending] to the state it is in, one revision per state; a move outside the
    table raises.  It keeps its identifier, every permission its creator did not
    set stays denied, every gate its creator did not set stays required, and
    skips stay disallowed unless its creator allowed them. *)
Theorem record_lifecycle perms gates t l : record_history perms gates t l →
  validate_task t = Ok tt ∧ path l ∧ head l = Some "pending" ∧
  (∃ s, last l = Some s ∧ t !! "state" = Some (JStr s) ∧
     ∀ now target u, moves s target = false →
       transition now t target u = raise TransitionError "Task cannot transition") ∧
  t !! "revision" = Some (JInt (Z.of_nat (length l))) ∧
  (∃ tid, t !! "id" = Some (JStr tid) ∧ task_id_ok tid = true) ∧
  ∃ p g, t !! "permissions" = Some (JObj p) ∧ t !! "gates" = Some (JObj g) ∧
    (∀ k, k ∈ ["gpu"; "performance_metrics"; "network"] →
       p !! k = Some (default (JBool false) (perms !! k))) ∧
    (∀ k, k ∈ ["require_validation"; "require_known_answer_check"; "require_independent_verification"] →
       g !! k = Some (default (JBool true) (gates !! k))) ∧
    g !! "allow_skips" = Some (default (JBool false) (gates !! "allow_skips")).
Proof.
  assert (Hraise : ∀ t s tid, t !! "state" = Some (JStr s) → t !! "id" = Some (JStr tid) →
    ∀ now target u, moves s target = false →
      transition now t target u = raise TransitionError "Task cannot transition").
  { intros r s tid Hs Hi now target u Hm. unfold moves in Hm. unfold transition, item, targets.
    rewrite Hs, Hi. cbn [res_of_option mbind res_bind]. by rewrite Hm. }
  induction 1 as [now tid title desc owner by_ pre roots key t Hn|now t l target u t' _ IH Ht Hu].
  - apply new_task_fields in Hn as (Hv & Hid & Hok & Hs & Hr & -> & ->). split; [done|].
    split; [apply path_one|]. split; [done|]. split; [exists "pending"; by eauto|]. split; [done|].
    split; [by exists tid|]. eexists _, _. split; [reflexivity|]. split; [reflexivity|].
    split; [|split; [|by apply merge_default]]; intros k Hk;
      repeat (apply elem_of_cons in Hk as [->|Hk]; [by apply merge_default|]); by apply elem_of_nil in Hk.
  - destruct IH as (_ & Hp & Hh & (s & Hl & Hs & _) & Hr & (tid & Hid & Hok) & Hpg).
    destruct (transition_fixed _ _ _ _ _ Ht Hu) as (s' & r & r' & Hs' & Hm & Hv & Hst & Hr1 & Hr2 & Hr3 & Hk).
    rewrite Hs in Hs'. injection Hs' as <-. rewrite Hr in Hr1. injection Hr1 as <-.
    apply Ok_inj in Hr2 as <-. rewrite (Hk "permissions"), (Hk "gates") by by_compute.
    split; [done|]. split.
    { apply last_Some in Hl as [l' ->]. rewrite <- app_assoc. by apply path_step. }
    split; [by destruct l|]. assert (Hid' : t' !! "id" = Some (JStr tid)) by (by rewrite Hk by by_compute).
    split; [exists target; rewrite last_snoc; by eauto|].
    split; [rewrite Hr3, length_app; cbn; do 2 f_equal; lia|]. split; [by exists tid|exact Hpg].
Qed.

(** ** Leases *)

Lemma lease_expiry_ok s t :
  10 ≤ s → epoch_ok t → epoch_ok (t + s) → lease_expiry s (utc_now t) = Ok (utc_now (t + s)).
Proof.
  intros Hs Ht Hts. unfold lease_expiry.
  rewrite (proj2 (Z.ltb_ge s 10)) by lia. cbn [raise_if mbind res_bind].
  rewrite parse_utc_now by done. cbn [mbind res_bind].
  by rewrite add_seconds_utc.
Qed.

Lemma lease_expired_at now task l e :
  task !! "lease" = Some (JObj l) → l !! "expires_at" = Some (JStr (utc_now e)) →
  epoch_ok now → epoch_ok e →
  lease_expired (utc_now now) task = Ok (e <=? now).
Proof.
  intros Ht Hl Hn He. unfold lease_expired, get. rewrite Ht. cbn [default from_option id truthy].
  rewrite bool_decide_eq_false_2; [|intros ->; by rewrite lookup_empty in Hl]. cbn [negb].
  rewrite parse_utc_now by done. cbn [mbind res_bind jitem item].
  unfold item. rewrite Hl. cbn [res_of_option mbind res_bind parse_utc_json].
  rewrite parse_utc_now by done. apply datetime_ge_utc.
Qed.

#[export] Hint Resolve lease_expiry_ok lease_expired_at : cogni.

(** a lease of [s] seconds issued at [t] is live exactly until [t + s]:
    the expiry [lease_expiry] writes is read back by [lease_expired], which
    holds from that second on and not before. *)
Theorem lease_window s t now task l e :
  10 ≤ s → epoch_ok t → epoch_ok (t + s) → epoch_ok now →
  lease_expiry s (utc_now t) = Ok e →
  task !! "lease" = Some (JObj l) → l !! "expires_at" = Some (JStr e) →
  lease_expired (utc_now now) task = Ok (bool_decide (t + s ≤ now)).
Proof.
  intros Hs Ht Hts Hn He Hl Hx. rewrite lease_expiry_ok in He by done. injection He as <-.
  rewrite (lease_expired_at now task l (t + s)) by done. f_equal.
  destruct (Z.leb_spec (t + s) now); by rewrite ?bool_decide_eq_true_2, ?bool_decide_eq_false_2 by lia.
Qed.

(** ** Witnesses *)

Definition sample_created : res dict :=
  new_task (utc_now 1769904000) "T-101" " Core validation " "d" "antigravity" "codex"
    [] ["src"] ∅ ∅ "".

Definition sample_task : dict :=
  match sample_created with Ok t => t | Err _ => ∅ end.

Lemma sample_created_ok : sample_created = Ok sample_task.
Proof.
  assert (is_ok sample_created = true) as H by (vm_compute; reflexivity).
  unfold sample_task. by destruct sample_created.
Qed.

Definition sample_lease (e : string) : dict :=
  dict_of [("holder", JStr "antigravity"); ("expires_at", JStr e)].

Lemma epoch_ok_sample t : 0 ≤ t ≤ 200000000000 → epoch_ok t.
Proof.
  intros Ht. unfold epoch_ok, epoch_ordinal, seconds_per_day, max_ordinal.
  split; [apply Z.div_le_lower_bound | apply Z.lt_succ_r, Z.div_lt_upper_bound]; lia.
Qed.

Theorem transition_spec_witness :
  ∃ t', transition (utc_now 1769904001) sample_task "claimed" ∅ = Ok t' ∧
        t' !! "state" = Some (JStr "claimed").
Proof.
  pose proof (transition_spec (utc_now 1769904001) sample_task "pending" 1 "claimed" ∅
    ltac:(vm_compute; reflexivity) ltac:(vm_compute; reflexivity)
    ltac:(split; [vm_compute; reflexivity | lia])
    ltac:(eexists; vm_compute; reflexivity) (λ k _, lookup_empty k)) as H.
  change (moves "pending" "claimed") with true in H.
  destruct H as (t' & ? & _ & ? & _). exists t'. split; assumption.
Defined.

Definition sample_claimed : res dict := transition (utc_now 1769904001) sample_task "claimed" ∅.
Lemma sample_claimed_ok :
  sample_claimed = Ok (match sample_claimed with Ok t => t | Err _ => ∅ end).
Proof.
  assert (is_ok sample_claimed = true) as H by (vm_compute; reflexivity). by destruct sample_claimed.
Qed.

Theorem record_lifecycle_witness : ∃ t, sample_claimed = Ok t ∧
  t !! "revision" = Some (JInt 2) ∧ path ["pending"; "claimed"].
Proof.
  destruct (record_lifecycle ∅ ∅ _ ["pending"; "claimed"]
    (record_moved ∅ ∅ (utc_now 1769904001) sample_task ["pending"] "claimed" ∅ _
       (record_created ∅ ∅ (utc_now 1769904000) "T-101" " Core validation " "d" "antigravity" "codex"
          [] ["src"] "" sample_task sample_created_ok)
       sample_claimed_ok (λ k _, lookup_empty k))) as (_ & Hp & _ & _ & Hr & _).
  eexists. split; [exact sample_claimed_ok|]. split; [exact Hr|exact Hp].
Defined.

Theorem lease_window_witness :
  lease_expired (utc_now 1769905799) (<["lease" := JObj (sample_lease (utc_now 1769905800))]> sample_task)
  = Ok false.
Proof.
  rewrite (lease_window 1800 1769904000 1769905799 _ (sample_lease (utc_now 1769905800))
    (utc_now 1769905800));
    [reflexivity | lia | apply epoch_ok_sample; lia | apply epoch_ok_sample; lia
    | apply epoch_ok_sample; lia | vm_compute; reflexivity | vm_compute; reflexivity
    | vm_compute; reflexivity].
Defined.
