(* ===== verification/Independence.v ===== *)
(** * Identities and independent verification ([independence.py])

    Two signed identity snapshots are independent when they share no actor, no
    control principal, no model family up to role suffixes, and no alias.  The
    audit replays submissions, verifications and restatements in their order
    and decides the effective status of every verification. *)

From S2P Require Export Model.

(** ** Identity values *)

(** [IDENTITY_VALUE_RE] *)
Definition identity_value_ok (s : string) : bool :=
  re_ident is_alnum (λ c, is_alnum c || char_in "._:/-" c) 127 s.

Definition MODEL_ROLE_SUFFIXES : list string :=
  ["advisor"; "auditor"; "checker"; "executant"; "executor"; "reviewer"; "verifier";
   "worker"].

Definition validate_identity_value (value : string) : res string :=
  let normalized := strip value in
  if identity_value_ok normalized then Ok normalized
  else raise ConfigurationError "must start with an alphanumeric character".

Definition is_separator : ascii → bool := char_in ":/._-".

(** The loop over the parts, last first: a role word and the separator before
    it are dropped while at least one part remains. *)
Fixpoint drop_roles (rev_parts : list string) : list string :=
  match rev_parts with
  | role :: _ :: ((_ :: _) as rest) =>
      if bool_decide (role ∈ MODEL_ROLE_SUFFIXES) then drop_roles rest else rev_parts
  | _ => rev_parts
  end.

Definition concat_parts (parts : list string) : string := foldr String.append "" parts.

Definition canonical_model_family (value : string) : res string :=
  v ← validate_identity_value value;
  let normalized := lower v in
  let parts := reverse (drop_roles (reverse (split_keep is_separator normalized))) in
  let canonical := rstrip_chars ":/._-" (concat_parts parts) in
  Ok (if bool_decide (canonical = "") then normalized else canonical).

(** [validate_agent_id(v)] on a value that may not be a string. *)
Definition validate_agent_id_json (v : json) : res string :=
  match v with
  | JStr s => validate_agent_id s
  | _ => raise TypeError "expected string or bytes-like object"
  end.

Definition build_identity (control_principal model_family : string) (alias_of : json)
    (alias_chain : list json) : res dict :=
  normalized_alias ← (if truthy alias_of then JStr <$> validate_agent_id_json alias_of
                      else Ok JNull);
  normalized_chain ← res_mapM validate_agent_id_json alias_chain;
  _ ← raise_if (negb (bool_decide (NoDup normalized_chain))) ConfigurationError
        "Agent identity alias chain contains a cycle";
  cp ← validate_identity_value control_principal;
  mf ← validate_identity_value model_family;
  Ok (dict_of [("schema_version", JInt 1); ("control_principal", JStr cp);
               ("model_family", JStr mf); ("alias_of", normalized_alias);
               ("alias_chain", jstrs normalized_chain)]).

Definition identity_snapshot (actor : string) (identity : json) : res (option dict) :=
  match identity with
  | JObj i =>
      chain ← py_list (get_or i "alias_chain" (JList []));
      validated ← build_identity (str_of (get_or i "control_principal" (JStr "")))
                    (str_of (get_or i "model_family" (JStr "")))
                    (get i "alias_of") chain;
      a ← validate_agent_id actor;
      Ok (Some (<["actor" := JStr a]> validated))
  | _ => Ok None
  end.

(** ** The decision *)

(** [None] or the [dict] itself as a JSON value. *)
Definition opt_obj (d : option dict) : json :=
  match d with Some d => JObj d | None => JNull end.

(** [set(map(str, d.get("alias_chain", [])))] with the actor, if any. *)
Definition lineage (d : dict) : res (list string) :=
  chain ← py_list (get_or d "alias_chain" (JList []));
  Ok ((str_of <$> chain) ++
      if is_null (get d "actor") then [] else [str_of (get d "actor")]).

Definition same_model_family (worker verifier : dict) : res bool :=
  match get worker "model_family", get verifier "model_family" with
  | JStr w, JStr v =>
      cw ← canonical_model_family w; cv ← canonical_model_family v;
      Ok (bool_decide (cw = cv))
  | _, _ => Ok false
  end.

(** [bool(xs & ys)] *)
Definition intersects (xs ys : list string) : bool :=
  existsb (λ x, bool_decide (x ∈ ys)) xs.

Definition shared_reasons (worker verifier : dict) : res (list string) :=
  family ← same_model_family worker verifier;
  wl ← lineage worker;
  vl ← lineage verifier;
  Ok (reason_if (negb (is_null (get worker "actor"))
                 && py_eq (get worker "actor") (get verifier "actor")) "same_actor" ++
      reason_if (py_eq (get worker "control_principal") (get verifier "control_principal"))
        "same_control_principal" ++
      reason_if family "same_model_family" ++
      reason_if (intersects wl vl) "shared_alias_lineage").

Definition evaluate_independence (worker verifier : option dict) : res dict :=
  shared ← match worker, verifier with
           | Some w, Some v => shared_reasons w v
           | _, _ => Ok []
           end;
  let reasons := reason_if (bool_decide (worker = None)) "worker_identity_unknown" ++
                 reason_if (bool_decide (verifier = None)) "verifier_identity_unknown" ++
                 shared in
  Ok (dict_of [("independent", JBool (is_nil reasons)); ("reasons", jstrs reasons);
               ("worker", opt_obj worker); ("verifier", opt_obj verifier)]).

(** ** The registry of identities *)

Notation registry := (gmap string (option dict)).

Definition dict_opt (v : json) : option dict := match v with JObj d => Some d | _ => None end.

Definition _policy_agents (policy : option dict) : res dict :=
  match policy with
  | None => Ok ∅
  | Some p =>
      match get p "agents" with
      | JObj agents =>
          _ ← res_mapM (λ kv, validate_agent_id kv.1)
                (List.filter (λ kv, is_dict kv.2) (map_to_list agents));
          Ok (filter (λ kv, is_dict kv.2 = true) agents)
      | _ => raise ConfigurationError "Identity policy must contain an 'agents' object"
      end
  end.

(** The agents' own declarations, completed by the policy. *)
Definition declarations_of (agents : gmap string dict) (policy_agents : dict) : registry :=
  let own : registry := (λ record, dict_opt (get record "identity")) <$> agents in
  map_fold (λ agent_id identity decls,
    match decls !! agent_id with
    | Some (Some _) => decls
    | _ => <[agent_id := dict_opt identity]> decls
    end) own policy_agents.

(** The nested function [resolve] with its memo table; the fuel bounds the
    alias chain it follows. *)
Fixpoint resolve (fuel : nat) (declarations : registry) (agent_id : string)
    (stack : list string) (resolved : registry) : res (option dict * registry) :=
  match fuel with
  | O => raise RecursionError "maximum recursion depth exceeded"
  | S fuel =>
      match resolved !! agent_id with
      | Some r => Ok (r, resolved)
      | None =>
          _ ← raise_if (bool_decide (agent_id ∈ stack)) ConfigurationError
                "Identity policy alias cycle";
          match default None (declarations !! agent_id) with
          | None => Ok (None, <[agent_id := None]> resolved)
          | Some declaration =>
              let alias_of := get declaration "alias_of" in
              if truthy alias_of then
                target_id ← validate_agent_id (str_of alias_of);
                '(target, resolved) ←
                  resolve fuel declarations target_id (stack ++ [agent_id]) resolved;
                match target with
                | None => Ok (None, <[agent_id := None]> resolved)
                | Some t =>
                    cp ← item t "control_principal";
                    mf ← item t "model_family";
                    chain ← py_list (get_or t "alias_chain" (JList []));
                    value ← build_identity (str_of cp) (str_of mf) (JStr target_id)
                              (JStr target_id :: chain);
                    snap ← identity_snapshot agent_id (JObj value);
                    Ok (snap, <[agent_id := snap]> resolved)
                end
              else
                chain ← py_list (get_or declaration "alias_chain" (JList []));
                value ← build_identity
                          (str_of (get_or declaration "control_principal" (JStr "")))
                          (str_of (get_or declaration "model_family" (JStr "")))
                          JNull chain;
                snap ← identity_snapshot agent_id (JObj value);
                Ok (snap, <[agent_id := snap]> resolved)
          end
      end
  end.

Definition resolve_identity_registry (agents : gmap string dict) (policy : option dict)
  : res registry :=
  policy_agents ← _policy_agents policy;
  let declarations := declarations_of agents policy_agents in
  res_foldl (λ resolved agent_id,
    r ← resolve (S (S (size declarations))) declarations agent_id [] resolved; Ok r.2)
    ∅ (map_to_list declarations).*1.

(** ** The audit *)

Record replay := Replay {
  verifications : list dict;
  submissions : list dict;
  task_submissions : gmap string dict;
  verifications_by_sequence : gmap Z dict;
  restatement_events : list dict
}.

Section audit.
Context (identities : registry) (agents : gmap string dict) (policy_agents : dict).

Definition declares (actor : string) : bool :=
  match agents !! actor with Some r => is_dict (get r "identity") | None => false end.

(** [policy_filled] is the policy's agents that do not declare an identity. *)
Definition current_source (actor : string) : string :=
  if declares actor then "agent_declaration"
  else if bool_decide (is_Some (policy_agents !! actor)) then "policy_override"
  else "missing".

(** The identity signed in the event, or else the registry's. *)
Definition event_identity (event : dict) (field actor : string) : res (option dict) :=
  signed ← jget (get_or event "payload" (JObj ∅)) field;
  Ok (match signed with JObj d => Some d | _ => default None (identities !! actor) end).

Definition replay_event (st : replay) (event : dict) : res replay :=
  let action := get event "action" in
  let task_id := str_of (get_or event "task_id" (JStr "")) in
  let actor := str_of (get_or event "actor" (JStr "")) in
  if py_eq action (JStr "task.submitted") then
    worker_identity ← event_identity event "worker_identity" actor;
    let submission := dict_of
      [("sequence", get event "sequence"); ("task_id", JStr task_id);
       ("actor", JStr actor); ("worker_identity", opt_obj worker_identity)] in
    Ok (Replay (verifications st) (submissions st ++ [submission])
          (<[task_id := submission]> (task_submissions st))
          (verifications_by_sequence st) (restatement_events st))
  else if py_eq action (JStr "task.verified") then
    verifier_identity ← event_identity event "verifier_identity" actor;
    let submission := task_submissions st !! task_id in
    let worker_identity := s ← submission; dict_opt (get s "worker_identity") in
    let worker_actor := match submission with Some s => get s "actor" | None => JNull end in
    eval_result ← evaluate_independence worker_identity verifier_identity;
    recorded ← jget (get_or event "payload" (JObj ∅)) "independence";
    let record := dict_of
      [("sequence", get event "sequence"); ("event_hash", get event "event_hash");
       ("task_id", JStr task_id); ("worker_actor", worker_actor);
       ("verifier_actor", JStr actor); ("worker_identity", opt_obj worker_identity);
       ("verifier_identity", opt_obj verifier_identity);
       ("worker_identity_source",
        JStr (if truthy worker_actor then current_source (str_of worker_actor)
              else "missing"));
       ("verifier_identity_source", JStr (current_source actor));
       ("recorded_independence", recorded); ("audited_independence", JObj eval_result)] in
    Ok (Replay (verifications st ++ [record]) (submissions st) (task_submissions st)
          (match int_of (get event "sequence") with
           | Some z => <[z := record]> (verifications_by_sequence st)
           | None => verifications_by_sequence st
           end) (restatement_events st))
  else if py_eq action (JStr "verification.restatement") then
    Ok (Replay (verifications st) (submissions st) (task_submissions st)
          (verifications_by_sequence st) (restatement_events st ++ [event]))
  else Ok st.
End audit.

Definition STATUSES : list string := ["verification_disputed"; "verification_revoked"].

(** The reasons against one restatement. *)
Definition restatement_reasons (by_sequence : gmap Z dict) (orchestrator : option string)
    (event : dict) : res (list string) :=
  let '(payload, bad) := match get event "payload" with
                         | JObj p => (p, []) | _ => (∅, ["payload_not_object"]) end in
  let target := match get payload "target_verification_sequence" with
                | JInt z => t ← by_sequence !! z; Some (z, t)
                | _ => None
                end in
  known ← in_strings (get payload "effective_status") STATUSES;
  Ok (bad ++
      match target with
      | None => ["target_verification_missing"]
      | Some (z, t) =>
          reason_if (py_neq (get event "task_id") (get t "task_id")) "task_id_mismatch" ++
          reason_if (py_neq (get payload "target_verification_hash") (get t "event_hash"))
            "target_hash_mismatch" ++
          reason_if (match get event "sequence" with JInt q => q <=? z | _ => true end)
            "restatement_not_after_target" ++
          reason_if (py_neq (get payload "original_verifier") (get t "verifier_actor"))
            "original_verifier_mismatch"
      end ++
      reason_if (py_neq (get payload "schema_version") (JInt 1))
        "unsupported_schema_version" ++
      reason_if (negb known) "invalid_effective_status" ++
      reason_if (match get payload "reason" with
                 | JStr s => bool_decide (strip s = "") | _ => true end) "missing_reason" ++
      reason_if (match orchestrator with
                 | Some o => py_neq (get event "actor") (JStr o) | None => false end)
        "actor_is_not_orchestrator").

Record standing := Standing {
  restatements : list dict;
  invalid_restatements : list dict;
  latest_restatement : gmap Z dict
}.

Definition restatement_record (event : dict) (reasons : list string) : dict :=
  let payload := match get event "payload" with JObj p => p | _ => ∅ end in
  dict_of
    [("sequence", get event "sequence"); ("task_id", get event "task_id");
     ("actor", get event "actor");
     ("target_verification_sequence", get payload "target_verification_sequence");
     ("target_verification_hash", get payload "target_verification_hash");
     ("effective_status", get payload "effective_status");
     ("reason", get payload "reason");
     ("valid", JBool (is_nil reasons)); ("reasons", jstrs reasons)].

(** The record in [restatements] is the object that a refused weakening
    marks as invalid afterwards. *)
Definition restate (by_sequence : gmap Z dict) (orchestrator : option string)
    (st : standing) (event : dict) : res standing :=
  reasons ← restatement_reasons by_sequence orchestrator event;
  let record := restatement_record event reasons in
  match reasons, get record "target_verification_sequence" with
  | [], JInt z =>
      if match latest_restatement st !! z with
         | Some previous =>
             py_eq (get previous "effective_status") (JStr "verification_revoked")
             && py_neq (get record "effective_status") (JStr "verification_revoked")
         | None => false
         end
      then
        let refused := restatement_record event ["revocation_cannot_be_weakened"] in
        Ok (Standing (restatements st ++ [refused]) (invalid_restatements st ++ [refused])
              (latest_restatement st))
      else Ok (Standing (restatements st ++ [record]) (invalid_restatements st)
                 (<[z := record]> (latest_restatement st)))
  | _, _ => Ok (Standing (restatements st ++ [record])
                  (invalid_restatements st ++ [record]) (latest_restatement st))
  end.

(** A verification with its effective status, and whether it is disputed for
    want of independence. *)
Definition conclude (latest : gmap Z dict) (verification : dict) : res (dict * option dict) :=
  key ← int_key (get verification "sequence");
  audited ← as_dict (get verification "audited_independence");
  match z ← key; latest !! z with
  | Some r =>
      Ok (<["effective_status" := get r "effective_status"]>
            (<["restatement" := JObj r]> verification), None)
  | None =>
      if is_true (get audited "independent")
      then Ok (<["effective_status" := JStr "verified"]>
                 (<["restatement" := JNull]> verification), None)
      else
        reasons ← py_list (get_or audited "reasons" (JList []));
        Ok (<["effective_status" := JStr "verification_disputed"]>
              (<["restatement" := JNull]> verification),
            Some (dict_of [("sequence", get verification "sequence");
                           ("task_id", get verification "task_id");
                           ("reasons", JList reasons)]))
  end.

Record verification_audit := VerificationAudit {
  va_valid : bool;
  va_submissions : nat;
  va_verifications : list dict;
  va_restatements : list dict;
  va_invalid_restatements : list dict;
  va_unresolved : list dict
}.

Definition audit_verification_events (events : list dict) (agents : gmap string dict)
    (policy : option dict) (orchestrator : option string) : res verification_audit :=
  identities ← resolve_identity_registry agents policy;
  policy_agents ← _policy_agents policy;
  rp ← res_foldl (replay_event identities agents policy_agents)
         (Replay [] [] ∅ ∅ []) events;
  st ← res_foldl (restate (verifications_by_sequence rp) orchestrator)
         (Standing [] [] ∅) (restatement_events rp);
  concluded ← res_mapM (conclude (latest_restatement st)) (verifications rp);
  let unresolved := omap snd concluded in
  Ok (VerificationAudit (is_nil (invalid_restatements st) && is_nil unresolved)
        (length (submissions rp)) concluded.*1 (restatements st)
        (invalid_restatements st) unresolved).

(** ** Family names *)

Lemma identity_value_plain s : identity_value_ok s = true → all_chars plain_char s = true.
Proof.
  unfold identity_value_ok, re_ident. destruct s as [|c s]; [done|]. intros H. bool_split.
  cbn [all_chars]. apply andb_true_iff. split.
  - revert H. destruct c as [[] [] [] [] [] [] [] []]; vm_compute; done.
  - eapply all_chars_impl; [|eassumption].
    intros [[] [] [] [] [] [] [] []]; vm_compute; done.
Qed.

Lemma lower_plain a b :
  all_chars plain_char a = true → lower (a +:+ b) = lower a +:+ lower b.
Proof.
  induction a as [|c a IH]; [done|]. intros [Hc Ha]%andb_true_iff. rewrite str_app_cons.
  assert (Hl : ∀ s, lower (String c s) = String (lower_char c) (lower s)).
  { intros s. cbn [lower]. destruct s as [|d [|e s]]; try done.
    rewrite bool_decide_eq_false_2; [done|]. intros [= E _ _].
    unfold plain_char in Hc. rewrite E in Hc. done. }
  by rewrite !Hl, IH, str_app_cons.
Qed.

Lemma split_keep_sep p a c b :
  p c = true → split_keep p (a +:+ String c b) = split_keep p a ++ String c "" :: split_keep p b.
Proof.
  intros Hc. unfold split_keep.
  assert (split_keep_first p (a +:+ String c b) =
    ((split_keep_first p a).1, (split_keep_first p a).2 ++ String c "" ::
      (split_keep_first p b).1 :: (split_keep_first p b).2)) as ->.
  { induction a as [|d a IH].
    - rewrite str_app_nil_l. cbn. rewrite Hc. by destruct (split_keep_first p b).
    - rewrite str_app_cons. cbn. rewrite IH. destruct (split_keep_first p a) as [x l]. cbn.
      by destruct (p d). }
  destruct (split_keep_first p a), (split_keep_first p b). done.
Qed.

Lemma split_keep_none p s : all_chars (λ c, negb (p c)) s = true → split_keep p s = [s].
Proof.
  unfold split_keep. intros H.
  assert (split_keep_first p s = (s, [])) as ->; [|done].
  induction s as [|c s IH]; [done|]. cbn in H. bool_split. cbn.
  rewrite IH by done. by destruct (p c).
Qed.

Lemma split_keep_head p c s :
  p c = false → ∃ x l, split_keep p (String c s) = String c x :: l.
Proof.
  intros Hc. unfold split_keep. cbn. destruct (split_keep_first p s) as [x l].
  rewrite Hc. eauto.
Qed.

Lemma drop_roles_suffix l :
  ∃ k, l = k ++ drop_roles l ∧ (l ≠ [] → drop_roles l ≠ []).
Proof.
  induction l as [l IH] using (induction_ltof1 _ length).
  destruct l as [|r [|s [|x l]]]; try by exists [].
  cbn [drop_roles]. case_bool_decide as Hr; [|by exists []].
  destruct (IH (x :: l)) as (k & E & Hne); [unfold ltof; cbn; lia|].
  exists (r :: s :: k). split; [cbn [app]; f_equal; f_equal; exact E|].
  intros _. by apply Hne.
Qed.

Lemma rstrip_chars_nonempty chars c s : char_in chars c = false → rstrip_chars chars (String c s) ≠ "".
Proof.
  intros Hc E. unfold rstrip_chars in E.
  assert (Hall : ∀ t, strip_front (char_in chars) (λ _ _, false) (λ _ _ _, false) t = "" →
    all_chars (char_in chars) t = true).
  { induction t as [|d t IH]; [done|]. cbn [strip_front all_chars].
    destruct (char_in chars d); [done|]. destruct t as [|? []]; done. }
  assert (E' : strip_front (char_in chars) (λ _ _, false) (λ _ _ _, false) (str_rev (String c s)) = "").
  { apply (f_equal str_rev) in E. by rewrite str_rev_involutive in E. }
  apply Hall in E'. rewrite all_chars_rev in E'. cbn in E'. by rewrite Hc in E'.
Qed.

(** The parts that remain, joined and stripped, for a normalized value. *)
Definition family_core (normalized : string) : string :=
  rstrip_chars ":/._-" (concat_parts
    (reverse (drop_roles (reverse (split_keep is_separator normalized))))).

Lemma family_core_nonempty c s : is_separator c = false → family_core (String c s) ≠ "".
Proof.
  intros Hc. unfold family_core.
  destruct (split_keep_head is_separator c s Hc) as (x & l & ->).
  destruct (drop_roles_suffix (reverse (String c x :: l))) as (k & E & Hne).
  assert (Hn : drop_roles (reverse (String c x :: l)) ≠ []).
  { apply Hne. rewrite reverse_cons. by destruct (reverse l). }
  apply (f_equal reverse) in E. rewrite reverse_involutive, reverse_app in E.
  destruct (reverse (drop_roles (reverse (String c x :: l)))) as [|y m] eqn:Em.
  - apply (f_equal reverse) in Em. by rewrite reverse_involutive in Em.
  - cbn in E. injection E as <- _. cbn [concat_parts foldr].
    change (concat_parts (String c x :: m)) with (String c x +:+ concat_parts m).
    rewrite str_app_cons. by apply rstrip_chars_nonempty.
Qed.

Lemma identity_value_head s :
  identity_value_ok s = true → ∃ c r, s = String c r ∧ is_alnum c = true.
Proof. unfold identity_value_ok, re_ident. destruct s; [done|]. intros H. bool_split. eauto. Qed.

Lemma lower_cons c s : plain_char c = true → lower (String c s) = String (lower_char c) (lower s).
Proof.
  intros Hc. assert (all_chars plain_char (String c "") = true) as Hp by (cbn; by rewrite Hc).
  pose proof (lower_plain (String c "") s Hp) as E. rewrite !str_app_cons, !str_app_nil_l in E.
  rewrite E. done.
Qed.

Lemma canonical_model_family_ok s :
  identity_value_ok s = true → canonical_model_family s = Ok (family_core (lower s)).
Proof.
  intros Hs. unfold canonical_model_family, validate_identity_value.
  pose proof (identity_value_plain s Hs) as Hp. rewrite strip_plain, Hs by done.
  cbn [mbind res_bind]. f_equal. fold (family_core (lower s)).
  rewrite bool_decide_eq_false_2; [done|].
  destruct (identity_value_head s Hs) as (c & r & -> & Hc). cbn in Hp. bool_split.
  rewrite lower_cons by done. apply family_core_nonempty.
  revert Hc. destruct c as [[] [] [] [] [] [] [] []]; vm_compute; done.
Qed.

(** appending a role word to a family name, behind any of the separators,
    does not change the family it denotes. *)
Theorem role_suffix_same_family family sep role :
  identity_value_ok (family +:+ String sep role) = true → identity_value_ok family = true →
  is_separator sep = true → role ∈ MODEL_ROLE_SUFFIXES →
  canonical_model_family (family +:+ String sep role) = canonical_model_family family.
Proof.
  intros Hfull Hf Hsep Hrole. rewrite !canonical_model_family_ok by done. f_equal.
  rewrite lower_plain by (by apply identity_value_plain).
  assert (lower (String sep role) = String sep role ∧
          all_chars (λ c, negb (is_separator c)) role = true) as [-> Hr].
  { assert (plain_char sep = true ∧ lower_char sep = sep) as [Hps Hls].
    { revert Hsep. destruct sep as [[] [] [] [] [] [] [] []]; vm_compute; done. }
    rewrite lower_cons, Hls by done.
    repeat (apply elem_of_cons in Hrole as [->|Hrole]; [done|]). by apply elem_of_nil in Hrole. }
  unfold family_core. rewrite split_keep_sep, (split_keep_none is_separator role) by done.
  rewrite reverse_app, !reverse_cons. cbn [reverse rev_append app].
  destruct (identity_value_head family Hf) as (c & r & -> & Hc).
  assert (Hne : reverse (split_keep is_separator (lower (String c r))) ≠ []).
  { unfold split_keep. destruct (split_keep_first _ _). rewrite reverse_cons.
    by destruct (reverse _). }
  destruct (reverse (split_keep is_separator (lower (String c r)))) as [|x l]; [done|].
  cbn [app drop_roles]. by rewrite bool_decide_eq_true_2.
Qed.

(** ** Snapshots and the decision *)

(** [w] is the identity of actor [a]: its principal, family and aliases. *)
Record is_snapshot (w : dict) (a cp mf : string) (chain : list string) : Prop := IsSnapshot {
  snap_actor : get w "actor" = JStr a;
  snap_principal : get w "control_principal" = JStr cp;
  snap_family : get w "model_family" = JStr mf;
  snap_chain : get_or w "alias_chain" (JList []) = jstrs chain;
  snap_family_ok : identity_value_ok mf = true
}.

Lemma validate_identity_value_ok v s :
  validate_identity_value v = Ok s → s = strip v ∧ identity_value_ok s = true.
Proof. unfold validate_identity_value. destruct (identity_value_ok _) eqn:E; [by intros [= <-]|done]. Qed.

Lemma build_identity_ok cp mf alias chain i :
  build_identity cp mf alias chain = Ok i →
  ∃ al ch, res_mapM validate_agent_id_json chain = Ok ch ∧ NoDup ch ∧
  identity_value_ok (strip mf) = true ∧
  i = dict_of [("schema_version", JInt 1); ("control_principal", JStr (strip cp));
               ("model_family", JStr (strip mf)); ("alias_of", al);
               ("alias_chain", jstrs ch)].
Proof.
  unfold build_identity. intros H. apply bind_ok in H as (al & _ & H).
  apply bind_ok in H as (ch & Hch & H). apply bind_ok in H as (u & Hnd & H).
  apply bind_ok in H as (c & [-> _]%validate_identity_value_ok & H).
  apply bind_ok in H as (m & [-> Hm]%validate_identity_value_ok & H%Ok_inj).
  exists al, ch. apply raise_if_ok in Hnd. bool_split. by subst i.
Qed.

Lemma identity_snapshot_ok actor identity w :
  identity_snapshot actor identity = Ok (Some w) →
  ∃ cp mf ch, is_snapshot w actor cp mf ch ∧ NoDup ch ∧ agent_id_ok actor = true.
Proof.
  unfold identity_snapshot. destruct identity as [| | | | | |i]; try done. intros H.
  apply bind_ok in H as (chain & _ & H). apply bind_ok in H as (v & Hv & H).
  apply bind_ok in H as (a & [<- Ha]%validate_agent_id_ok & H%Ok_inj).
  apply build_identity_ok in Hv as (al & ch & _ & Hnd & Hm & ->). injection H as <-.
  eexists _, _, ch. split_and!; [|done|done]. constructor; [..|exact Hm]; reflexivity.
Qed.

Lemma lineage_snapshot w a cp mf ch : is_snapshot w a cp mf ch → lineage w = Ok (ch ++ [a]).
Proof.
  intros [Ha _ _ Hc _]. unfold lineage, jstrs in *. rewrite Hc, Ha.
  cbn [py_list mbind res_bind is_null str_of]. f_equal. f_equal.
  rewrite <- list_fmap_compose. rewrite <- (list_fmap_id ch) at 2. by apply list_fmap_ext.
Qed.

Lemma intersects_true xs ys : intersects xs ys = true ↔ ∃ x, x ∈ xs ∧ x ∈ ys.
Proof.
  unfold intersects. rewrite existsb_exists. split.
  - intros (x & Hx & H). exists x. bool_split. by rewrite <- list_elem_of_In in Hx.
  - intros (x & Hx & H). exists x. rewrite <- list_elem_of_In. by rewrite bool_decide_eq_true_2.
Qed.

Lemma reason_if_app_nil b r l : reason_if b r ++ l = [] ↔ b = false ∧ l = [].
Proof. destruct b; cbn; naive_solver. Qed.

(** C28: two identity snapshots are judged independent exactly when they name
    different actors, different control principals, families that differ even
    after role suffixes are dropped, and disjoint alias lineages. *)
Theorem independence_spec w v a a' cp cp' mf mf' ch ch' :
  is_snapshot w a cp mf ch → is_snapshot v a' cp' mf' ch' →
  ∃ d, evaluate_independence (Some w) (Some v) = Ok d ∧
  (get d "independent" = JBool true ↔
   a ≠ a' ∧ cp ≠ cp' ∧ family_core (lower mf) ≠ family_core (lower mf') ∧
   ∀ x, x ∈ ch ++ [a] → x ∉ ch' ++ [a']).
Proof.
  intros Hw Hv. unfold evaluate_independence, shared_reasons, same_model_family.
  rewrite (lineage_snapshot _ _ _ _ _ Hw), (lineage_snapshot _ _ _ _ _ Hv).
  destruct Hw as [Ha Hc Hm _ Hok], Hv as [Ha' Hc' Hm' _ Hok'].
  rewrite Ha, Ha', Hc, Hc', Hm, Hm', !canonical_model_family_ok by done.
  cbn [mbind res_bind is_null negb andb py_eq].
  rewrite !(bool_decide_eq_false_2 (Some _ = None)) by done. cbn [reason_if app].
  set (reasons := reason_if _ _ ++ _). eexists. split; [reflexivity|].
  change (get (dict_of _) "independent") with (JBool (is_nil reasons)).
  transitivity (reasons = []).
  { rewrite <- is_nil_true. split; [by intros [= ->]|by intros ->]. }
  subst reasons. rewrite !reason_if_app_nil, !bool_decide_eq_false.
  assert (Hl : reason_if (intersects (ch ++ [a]) (ch' ++ [a'])) "shared_alias_lineage" = [] ↔
    ∀ x, x ∈ ch ++ [a] → x ∉ ch' ++ [a']).
  { split.
    - intros H%reason_if_nil x Hx Hx'. assert (intersects (ch ++ [a]) (ch' ++ [a']) = true) as E
        by (apply intersects_true; eauto). congruence.
    - intros H. destruct (intersects _ _) eqn:E; [|done]. apply intersects_true in E as (x & ? & ?).
      by destruct (H x). }
  rewrite Hl. naive_solver.
Qed.

(** ** Revocations *)

Definition revoked (latest : gmap Z dict) (z : Z) : Prop :=
  ∃ r, latest !! z = Some r ∧ get r "effective_status" = JStr "verification_revoked".

Lemma restate_keeps_revoked by_sequence o st e st' z :
  restate by_sequence o st e = Ok st' → revoked (latest_restatement st) z →
  revoked (latest_restatement st') z.
Proof.
  unfold restate. intros H Hr. apply bind_ok in H as (rs & _ & H).
  destruct rs; [|apply Ok_inj in H as <-; done].
  set (record := restatement_record e []) in *.
  destruct (get record "target_verification_sequence") as [| |k| | | |];
    try (apply Ok_inj in H as <-; done).
  destruct (match latest_restatement st !! k with Some _ => _ | None => false end) eqn:E;
    apply Ok_inj in H as <-; [done|]. cbn [latest_restatement].
  destruct (decide (k = z)) as [->|Hk].
  - destruct Hr as (r & Hl & Hs). rewrite Hl, Hs in E. exists record. rewrite lookup_insert_eq.
    split; [done|]. rewrite (proj2 (py_eq_str _ _)) in E by done. cbn [andb] in E.
    by apply py_neq_str.
  - destruct Hr as (r & Hl & Hs). exists r. by rewrite lookup_insert_ne.
Qed.

(** once a verification is revoked it stays revoked, whatever
    restatements follow. *)
Theorem revocation_is_final by_sequence o es st st' z :
  res_foldl (restate by_sequence o) st es = Ok st' →
  revoked (latest_restatement st) z → revoked (latest_restatement st') z.
Proof.
  revert st. induction es as [|e es IH]; cbn [res_foldl]; intros st H Hr.
  - by apply Ok_inj in H as <-.
  - apply bind_ok in H as (st1 & H1 & H). eapply IH; [exact H|]. by eapply restate_keeps_revoked.
Qed.

(** ** What the audit reports as verified *)

(** The record carries the decision on the identities it names. *)
Definition audited (r : dict) : Prop :=
  ∃ w v d, evaluate_independence w v = Ok d ∧ get r "audited_independence" = JObj d ∧
  get r "worker_identity" = opt_obj w ∧ get r "verifier_identity" = opt_obj v.

Lemma replay_event_audited ids ag pa st e st' :
  replay_event ids ag pa st e = Ok st' →
  Forall audited (verifications st) → Forall audited (verifications st').
Proof.
  unfold replay_event. intros H Hall.
  destruct (py_eq _ (JStr "task.submitted")).
  { apply bind_ok in H as (wi & _ & H%Ok_inj). by subst st'. }
  destruct (py_eq _ (JStr "task.verified")).
  { apply bind_ok in H as (vi & _ & H). apply bind_ok in H as (d & Hd & H).
    apply bind_ok in H as (rc & _ & H%Ok_inj). subst st'. cbn [verifications].
    apply Forall_app. split; [done|]. apply Forall_singleton.
    eexists _, _, d. split_and!; [exact Hd|reflexivity..]. }
  destruct (py_eq _ _); apply Ok_inj in H; by subst st'.
Qed.

Lemma replay_audited ids ag pa es st st' :
  res_foldl (replay_event ids ag pa) st es = Ok st' →
  Forall audited (verifications st) → Forall audited (verifications st').
Proof.
  revert st. induction es as [|e es IH]; cbn [res_foldl]; intros st H Hall.
  - by apply Ok_inj in H as <-.
  - apply bind_ok in H as (st1 & H1 & H). eapply IH; [exact H|]. by eapply replay_event_audited.
Qed.

Definition status_ok (r : dict) : Prop :=
  ∃ s, get r "effective_status" = JStr s ∧ s ∈ STATUSES.

Lemma restatement_reasons_status by_sequence o e :
  restatement_reasons by_sequence o e = Ok [] → status_ok (restatement_record e []).
Proof.
  unfold restatement_reasons, status_ok, restatement_record. intros H.
  destruct (get e "payload") as [| | | | | |p]; [by apply bind_ok in H as (? & _ & [=])..|].
  apply bind_ok in H as (known & Hk & [= H]). apply app_nil in H as [_ H].
  apply reason_if_app_nil in H as [_ H]. apply reason_if_app_nil in H as [H _].
  apply negb_false_iff in H as ->. unfold in_strings in Hk.
  change (get (dict_of _) "effective_status") with (get p "effective_status").
  destruct (get p "effective_status") as [| | | |s| |]; try done.
  injection Hk as Hk. bool_split. eauto.
Qed.

Lemma restate_status by_sequence o es st st' :
  res_foldl (restate by_sequence o) st es = Ok st' →
  map_Forall (λ _, status_ok) (latest_restatement st) →
  map_Forall (λ _, status_ok) (latest_restatement st').
Proof.
  revert st. induction es as [|e es IH]; cbn [res_foldl]; intros st H Hall.
  - by apply Ok_inj in H as <-.
  - apply bind_ok in H as (st1 & H1 & H). eapply IH; [exact H|]. unfold restate in H1.
    apply bind_ok in H1 as (rs & Hrs & H1). destruct rs; [|apply Ok_inj in H1 as <-; done].
    apply restatement_reasons_status in Hrs. revert Hrs H1. generalize (restatement_record e []).
    intros record Hrs H1.
    destruct (get record "target_verification_sequence"); try (apply Ok_inj in H1 as <-; done).
    destruct (match latest_restatement st !! z with Some _ => _ | None => false end);
      apply Ok_inj in H1 as <-; [done|]. by apply map_Forall_insert_2.
Qed.

Lemma evaluate_independent_known w v d :
  evaluate_independence w v = Ok d → get d "independent" = JBool true →
  is_Some w ∧ is_Some v.
Proof.
  unfold evaluate_independence. intros H Hi. apply bind_ok in H as (sh & _ & H%Ok_inj). subst d.
  change (get (dict_of _) "independent") with
    (JBool (is_nil (reason_if (bool_decide (w = None)) "worker_identity_unknown" ++
       reason_if (bool_decide (v = None)) "verifier_identity_unknown" ++ sh))) in Hi.
  destruct w, v; [done|discriminate Hi..].
Qed.

(** the audit gives a verification the status [verified] only when both
    identities are known, they are judged independent of each other, and no
    restatement of it stands. *)
Theorem effective_verified_is_independent es agents policy o a v :
  audit_verification_events es agents policy o = Ok a →
  v ∈ va_verifications a → get v "effective_status" = JStr "verified" →
  ∃ wi vi d, evaluate_independence (Some wi) (Some vi) = Ok d ∧
  get d "independent" = JBool true ∧ get v "audited_independence" = JObj d ∧
  get v "worker_identity" = JObj wi ∧ get v "verifier_identity" = JObj vi ∧
  get v "restatement" = JNull.
Proof.
  unfold audit_verification_events. intros Ha Hv Hs.
  apply bind_ok in Ha as (ids & _ & Ha). apply bind_ok in Ha as (pa & _ & Ha).
  apply bind_ok in Ha as (rp & Hrp & Ha). apply bind_ok in Ha as (st & Hst & Ha).
  apply bind_ok in Ha as (cs & Hcs & Ha%Ok_inj). subst a. cbn [va_verifications] in Hv.
  apply replay_audited in Hrp; [|constructor].
  apply restate_status in Hst; [|apply map_Forall_empty].
  apply list_elem_of_fmap in Hv as ([v' u] & -> & Hv). apply res_mapM_ok in Hcs.
  apply list_elem_of_lookup in Hv as (i & Hi).
  destruct (Forall2_lookup_r _ _ _ _ _ Hcs Hi) as (r & Hr & Hc).
  rewrite Forall_lookup in Hrp. destruct (Hrp i r Hr) as (w & x & d & Hd & Haud & Hw & Hx).
  unfold conclude in Hc. rewrite Haud in Hc. apply bind_ok in Hc as (key & Hkey & Hc).
  cbn [as_dict mbind res_bind] in Hc.
  destruct (z ← key; latest_restatement st !! z) as [q|] eqn:Eq.
  - apply Ok_inj in Hc. injection Hc as <- <-. cbn [fst] in Hs. rewrite get_insert in Hs.
    rewrite decide_True in Hs by done. destruct key as [z|]; [|done]. cbn in Eq.
    apply Hst in Eq as (s & Es & Hin). rewrite Es in Hs. injection Hs as ->.
    exfalso. revert Hin. by_compute.
  - destruct (is_true (get d "independent")) eqn:Ei.
    + apply Ok_inj in Hc. injection Hc as <- <-. cbn [fst].
      assert (get d "independent" = JBool true) as Hind by (by destruct (get d "independent") as [|[]| | | | |]).
      destruct (evaluate_independent_known _ _ _ Hd Hind) as [[wi ->] [vi ->]].
      exists wi, vi, d. rewrite !get_insert. rewrite !decide_False by done. done.
    + apply bind_ok in Hc as (rs & _ & Hc%Ok_inj). injection Hc as <- <-. cbn [fst] in Hs.
      rewrite get_insert, decide_True in Hs by done. discriminate Hs.
Qed.

(** ** The alias recursion ends *)

Definition no_rec {A} (m : res A) : Prop := ∀ e, m = Err e → exn_cls e ≠ RecursionError.

Lemma no_rec_bind {A B} (m : res A) (f : A → res B) :
  no_rec m → (∀ a, no_rec (f a)) → no_rec (m ≫= f).
Proof. intros Hm Hf e [He|(a & _ & He)]%bind_err; [by apply Hm|by apply (Hf a)]. Qed.

Lemma no_rec_ok {A} (a : A) : no_rec (Ok a).
Proof. by intros e. Qed.

Lemma no_rec_raise {A} c msg : c ≠ RecursionError → no_rec (A:=A) (raise c msg).
Proof. by intros H e [= <-]. Qed.

Lemma no_rec_raise_if b c msg : c ≠ RecursionError → no_rec (raise_if b c msg).
Proof. intros H. destruct b; [by apply no_rec_raise|apply no_rec_ok]. Qed.

Lemma no_rec_mapM {A B} (f : A → res B) l : (∀ a, no_rec (f a)) → no_rec (res_mapM f l).
Proof.
  intros Hf. induction l as [|x l IH]; cbn; [apply no_rec_ok|].
  apply no_rec_bind; [done|]. intros y. apply no_rec_bind; [done|]. intros ys. apply no_rec_ok.
Qed.

Lemma no_rec_fmap {A B} (f : A → B) m : no_rec m → no_rec (f <$> m).
Proof. intros Hm e. destruct m; cbn; [done|]. intros [= ->]. by apply Hm. Qed.

Create HintDb norec.
#[local] Hint Resolve no_rec_ok no_rec_raise no_rec_raise_if no_rec_bind no_rec_mapM no_rec_fmap : norec.
#[local] Hint Extern 1 (_ ≠ RecursionError) => discriminate : norec.
#[local] Hint Extern 2 (no_rec (match ?x with _ => _ end)) => destruct x : norec.
#[local] Hint Extern 3 (∀ _, no_rec _) => intro : norec.

Lemma no_rec_validate_agent_id s : no_rec (validate_agent_id s).
Proof. unfold validate_agent_id. auto with norec. Qed.
Lemma no_rec_identity_value s : no_rec (validate_identity_value s).
Proof. unfold validate_identity_value. auto with norec. Qed.
Lemma no_rec_py_list v : no_rec (py_list v).
Proof. unfold py_list. auto with norec. Qed.
Lemma no_rec_item d k : no_rec (item d k).
Proof. unfold item, res_of_option. intros e. destruct (d !! k); [done|]. by intros [= <-]. Qed.
#[local] Hint Resolve no_rec_validate_agent_id no_rec_identity_value no_rec_py_list no_rec_item : norec.

Lemma no_rec_agent_id_json v : no_rec (validate_agent_id_json v).
Proof. unfold validate_agent_id_json. auto with norec. Qed.
#[local] Hint Resolve no_rec_agent_id_json : norec.

Lemma no_rec_build cp mf al ch : no_rec (build_identity cp mf al ch).
Proof. unfold build_identity. auto 12 with norec. Qed.
#[local] Hint Resolve no_rec_build : norec.

Lemma no_rec_snapshot a i : no_rec (identity_snapshot a i).
Proof. unfold identity_snapshot. auto 12 with norec. Qed.
#[local] Hint Resolve no_rec_snapshot : norec.

Lemma no_rec_policy p : no_rec (_policy_agents p).
Proof. unfold _policy_agents. auto 12 with norec. Qed.

Lemma stack_bounded (d : registry) (stack : list string) :
  NoDup stack → Forall (λ x, is_Some (d !! x)) stack → (length stack ≤ size d)%nat.
Proof.
  intros Hn Hd. rewrite <- size_dom, <- (size_list_to_set (C:=gset string) stack Hn).
  apply subseteq_size. intros x Hx. rewrite elem_of_list_to_set in Hx.
  apply elem_of_dom. by rewrite Forall_forall in Hd; apply Hd.
Qed.

Lemma resolve_no_rec fuel d : ∀ a stack r,
  NoDup stack → Forall (λ x, is_Some (d !! x)) stack →
  (S (size d) < fuel + length stack)%nat → no_rec (resolve fuel d a stack r).
Proof.
  induction fuel as [|fuel IH]; intros a stack r Hn Hs Hl.
  { pose proof (stack_bounded d stack Hn Hs). lia. }
  cbn [resolve]. destruct (r !! a); [auto with norec|].
  case_bool_decide as Hin; [intros x [= <-]; discriminate|]. cbn [raise_if mbind res_bind].
  destruct (d !! a) as [[decl|]|] eqn:Ed; cbn [default from_option id]; [|auto with norec..].
  destruct (truthy (get decl "alias_of")); [|auto 12 with norec].
  apply no_rec_bind; [auto with norec|intros t]. apply no_rec_bind; [|auto 12 with norec].
  apply IH.
  - apply NoDup_app. split_and!; [done| |apply NoDup_singleton].
    intros x Hx ->%list_elem_of_singleton. done.
  - apply Forall_app. split; [done|]. apply Forall_singleton. by rewrite Ed.
  - rewrite length_app. cbn. lia.
Qed.

(** resolving the registry terminates on every input, cyclic policies
    included: the fuel given never runs out, so the result is a registry or
    one of the errors the code raises. *)
Theorem registry_terminates agents policy e :
  resolve_identity_registry agents policy = Err e → exn_cls e ≠ RecursionError.
Proof.
  revert e. change (no_rec (resolve_identity_registry agents policy)).
  unfold resolve_identity_registry. apply no_rec_bind; [apply no_rec_policy|]. intros pa.
  set (d := declarations_of agents pa). generalize (map_to_list d).*1. intros l.
  assert (∀ r, no_rec (res_foldl (λ resolved agent_id,
    x ← resolve (S (S (size d))) d agent_id [] resolved; Ok x.2) r l)) as H; [|apply H].
  induction l as [|x l IH]; intros r; cbn [res_foldl]; [auto with norec|].
  apply no_rec_bind; [|done]. apply no_rec_bind; [|auto with norec].
  apply resolve_no_rec; [constructor|constructor|cbn; lia].
Qed.

(** ** Concrete identities *)

Definition worker_identity_1 : json := jobj
  [("control_principal", JStr "antigravity-executant");
   ("model_family", JStr "google-antigravity")].
Definition verifier_identity_1 : json := jobj
  [("control_principal", JStr "codex-conductor"); ("model_family", JStr "openai-codex")].

Definition snapshot_or_empty (actor : string) (identity : json) : dict :=
  match identity_snapshot actor identity with Ok (Some w) => w | _ => ∅ end.
Definition worker_1 : dict := snapshot_or_empty "antigravity" worker_identity_1.
Definition verifier_1 : dict := snapshot_or_empty "codex" verifier_identity_1.

Lemma worker_1_snapshot :
  is_snapshot worker_1 "antigravity" "antigravity-executant" "google-antigravity" [].
Proof. constructor; vm_compute; reflexivity. Qed.
Lemma verifier_1_snapshot :
  is_snapshot verifier_1 "codex" "codex-conductor" "openai-codex" [].
Proof. constructor; vm_compute; reflexivity. Qed.

Theorem independence_spec_witness :
  ∃ d, evaluate_independence (Some worker_1) (Some verifier_1) = Ok d ∧
  get d "independent" = JBool true.
Proof.
  destruct (independence_spec _ _ _ _ _ _ _ _ _ _ worker_1_snapshot verifier_1_snapshot)
    as (d & Hd & Hi).
  exists d. split; [exact Hd|]. apply Hi. split; [discriminate|]. split; [discriminate|].
  split; [vm_compute; discriminate|].
  intros x Hx Hx'. apply list_elem_of_singleton in Hx, Hx'. subst. discriminate Hx'.
Defined.

Theorem role_suffix_same_family_witness :
  canonical_model_family "google-antigravity-verifier" = canonical_model_family "google-antigravity".
Proof.
  exact (role_suffix_same_family "google-antigravity" "-" "verifier"
    ltac:(vm_compute; reflexivity) ltac:(vm_compute; reflexivity) ltac:(vm_compute; reflexivity)
    ltac:(by_compute)).
Defined.

(** A submission, its verification, and two restatements, the second of which
    tries to weaken the first. *)
Definition verified_event_1 : dict := dict_of
  [("sequence", JInt 2); ("event_hash", JStr "h2"); ("action", JStr "task.verified");
   ("actor", JStr "codex"); ("task_id", JStr "T-1");
   ("payload", jobj [("verifier_identity", JObj verifier_1)])].
Definition submitted_event_1 : dict := dict_of
  [("sequence", JInt 1); ("event_hash", JStr "h1"); ("action", JStr "task.submitted");
   ("actor", JStr "antigravity"); ("task_id", JStr "T-1");
   ("payload", jobj [("worker_identity", JObj worker_1)])].
Definition restatement_event (sequence : Z) (status : string) : dict := dict_of
  [("sequence", JInt sequence); ("action", JStr "verification.restatement");
   ("actor", JStr "codex"); ("task_id", JStr "T-1");
   ("payload", jobj [("schema_version", JInt 1); ("target_verification_sequence", JInt 2);
      ("target_verification_hash", JStr "h2"); ("original_verifier", JStr "codex");
      ("effective_status", JStr status); ("reason", JStr "audit")])].

Definition target_1 : gmap Z dict :=
  {[ 2 := dict_of [("task_id", JStr "T-1"); ("event_hash", JStr "h2");
                   ("verifier_actor", JStr "codex")] ]}.

Definition standing_1 : standing :=
  match restate target_1 (Some "codex") (Standing [] [] ∅)
          (restatement_event 3 "verification_revoked") with
  | Ok st => st | Err _ => Standing [] [] ∅ end.

Theorem revocation_is_final_witness :
  ∃ st, res_foldl (restate target_1 (Some "codex")) standing_1
          [restatement_event 4 "verification_disputed"] = Ok st ∧
  revoked (latest_restatement st) 2.
Proof.
  set (m := res_foldl _ _ _). assert (is_ok m = true) as H by (vm_compute; reflexivity).
  destruct m as [st|] eqn:E; [|discriminate H]. exists st. split; [reflexivity|].
  apply (revocation_is_final _ _ _ _ _ 2 E).
  assert (match latest_restatement standing_1 !! 2 with
          | Some r => py_eq (get r "effective_status") (JStr "verification_revoked")
          | None => false end = true) as Hr by (vm_compute; reflexivity).
  destruct (latest_restatement standing_1 !! 2) as [r|] eqn:El; [|discriminate Hr].
  exists r. split; [exact El|]. by apply py_eq_str.
Defined.

Theorem effective_verified_is_independent_witness :
  ∃ a v wi, audit_verification_events [submitted_event_1; verified_event_1] ∅ None None = Ok a ∧
  v ∈ va_verifications a ∧ get v "worker_identity" = JObj wi.
Proof.
  set (m := audit_verification_events _ _ _ _).
  assert (match m with
          | Ok a => match va_verifications a with
                    | v :: _ => py_eq (get v "effective_status") (JStr "verified")
                    | [] => false end
          | Err _ => false end = true) as H by (vm_compute; reflexivity).
  destruct m as [a|] eqn:E; [|discriminate H].
  destruct (va_verifications a) as [|v l] eqn:El; [discriminate H|].
  destruct (effective_verified_is_independent _ _ _ _ a v E
    ltac:(rewrite El; left) (proj1 (py_eq_str _ _) H)) as (wi & _ & _ & _ & _ & _ & ? & _).
  exists a, v, wi. rewrite El. split; [reflexivity|]. split; [left|assumption].
Defined.

(** A policy whose aliases form a cycle. *)
Definition cyclic_policy : dict := dict_of
  [("agents", jobj [("a", jobj [("alias_of", JStr "b")]); ("b", jobj [("alias_of", JStr "a")])])].

Theorem registry_terminates_witness :
  ∃ e, resolve_identity_registry ∅ (Some cyclic_policy) = Err e ∧ exn_cls e ≠ RecursionError.
Proof.
  set (m := resolve_identity_registry _ _).
  assert (is_ok m = false) as H by (vm_compute; reflexivity).
  destruct m as [r|e] eqn:E; [discriminate H|]. exists e. split; [reflexivity|].
  exact (registry_terminates _ _ e E).
Defined.
