(* ===== verification/Capability.v ===== *)
(** * Actor capabilities ([actor_capability.py])

    The authority keeps, outside the workspace and per actor, a key record, a
    bootstrap guard and the set of replay markers.  A proof is minted from the
    actor's secret, names one operation and one binding, and is consumed once;
    its receipt is signed with the actor's key. *)

From S2P Require Export Files Hashing Model.

Definition SCHEMA_VERSION : Z := 1.
Definition TOKEN_VERSION : Z := 1.
Definition RECEIPT_SCHEMA_VERSION : Z := 2.
Definition RECEIPT_SIGNATURE_ALGORITHM : string := "hmac-sha256-local-actor-key-v1".
Definition MIN_SECRET_BYTES : nat := 32.
Definition MAX_TOKEN_BYTES : nat := 8192.
Definition DEFAULT_TTL_SECONDS : Z := 120.
Definition MAX_TTL_SECONDS : Z := 300.

(** [OPERATION_RE], [RUN_ID_RE] and the nonce pattern. *)
Definition operation_ok (s : string) : bool :=
  re_ident is_lower (λ c, is_lower c || is_digit c || char_in "_.:-" c) 99 s.
Definition run_binding_ok (s : string) : bool := re_hex 32 s.
Definition nonce_ok (s : string) : bool := re_hex 48 s.

Definition _b64encode (value : string) : string := Base64.encode true false value.

Definition _b64decode (value : string) : res string :=
  _ ← raise_if (bool_decide (value = "")) AuthorizationError "Actor capability is malformed";
  _ ← raise_if (negb (all_chars is_ascii value)) AuthorizationError
        "Actor capability is malformed";
  catch (Base64.url_decode_padded value) ValueError
    (λ _, raise AuthorizationError "Actor capability is malformed").

Definition _secret_bytes (value : string) : res string :=
  if (String.length value <? MIN_SECRET_BYTES)%nat
  then raise AuthorizationError "must contain at least 32 bytes" else Ok value.

(** [None] or a string, as a JSON value. *)
Definition opt_str (s : option string) : json :=
  match s with Some s => JStr s | None => JNull end.

(** A positive [int] that is not a [bool]. *)
Definition positive_int (v : json) : bool :=
  match v with JInt z => 1 <=? z | _ => false end.

Definition _binding_fields (task_id run_id : option string) (task_attempt : json)
  : res (list (string * json)) :=
  _ ← raise_if (match task_id with Some t => negb (task_id_ok t) | None => false end)
        AuthorizationError "Actor capability task binding is invalid";
  _ ← raise_if (match run_id with Some r => negb (run_binding_ok r) | None => false end)
        AuthorizationError "Actor capability run binding is invalid";
  _ ← raise_if (negb (is_null task_attempt) && negb (positive_int task_attempt))
        AuthorizationError "Actor capability attempt binding is invalid";
  _ ← raise_if (bool_decide (is_Some run_id) && bool_decide (task_id = None))
        AuthorizationError "Actor capability run binding requires a task";
  _ ← raise_if (negb (is_null task_attempt) && bool_decide (task_id = None))
        AuthorizationError "Actor capability attempt binding requires a task";
  Ok [("task_id", opt_str task_id); ("run_id", opt_str run_id);
      ("task_attempt", task_attempt)].

(** ** The platform

    [os_nt] is [os.name == "nt"], [principal] the observation
    [_os_principal_attestation] hashes, and the two blobs are the Windows calls
    [CryptProtectData] and [CryptUnprotectData]. *)

Record platform := Platform {
  os_nt : bool;
  principal : dict;
  crypt_protect : string → string → res string;
  crypt_unprotect : string → string → res string
}.

(** What one actor's directory holds. *)
Record actor_dir := ActorDir {
  key_file : option string;
  guard_file : option string;
  used : gmap string string
}.
Definition empty_dir : actor_dir := ActorDir None None ∅.

(** The capability home of one workspace. *)
Notation store := (gmap string actor_dir).
Definition dir (st : store) (actor : string) : actor_dir := default empty_dir (st !! actor).

Section authority.
Context `{Hashing} (plat : platform) (workspace_id : string).

Definition _os_principal_attestation : dict := dict_of
  [("schema_version", JInt 1);
   ("provider", JStr (if os_nt plat then "windows-current-user-observation"
                      else "posix-effective-principal-observation"));
   ("principal_sha256", JStr (sha256_hex (canonical_json (JObj (principal plat)))));
   ("trust_root", JStr "same-user-local-key");
   ("independent_trust_root", JBool false);
   ("actor_os_isolation_proven", JBool false)].

Definition _dpapi_protect (value entropy : string) : res string :=
  if os_nt plat then crypt_protect plat value entropy else Ok value.
Definition _dpapi_unprotect (value entropy : string) : res string :=
  if os_nt plat then crypt_unprotect plat value entropy else Ok value.

(** [_actor_dir]: the name is checked before any path is built. *)
Definition _actor_dir (actor : string) : res unit :=
  if agent_id_ok actor then Ok tt
  else raise AuthorizationError "Actor capability principal is invalid".

Definition domain_of (domain actor : string) : string := canonical_json (jobj
  [("domain", JStr domain); ("workspace_id", JStr workspace_id); ("actor", JStr actor)]).

(** The hexadecimal digest stands for the digest's bytes: the entropy is only
    handed to the platform. *)
Definition _entropy (actor : string) : string :=
  sha256_hex (domain_of "cogni-os-actor-capability-dpapi-v1" actor).
Definition _derive_key (actor secret : string) : string :=
  hmac_sha256 secret (domain_of "cogni-os-actor-capability-key-v1" actor).
Definition _guard_digest (actor secret : string) : string :=
  hmac_sha256 secret (domain_of "cogni-os-actor-capability-bootstrap-v1" actor).

(** ** Key records *)

Definition retired_ok (current : Z) (seen : list Z) (retired : json) : res (list Z) :=
  match retired with
  | JObj r =>
      match get r "key_version" with
      | JInt z =>
          if (1 <=? z) && (z <? current) && negb (bool_decide (z ∈ seen)) &&
             match get r "protected_key" with
             | JStr s => negb (bool_decide (s = "")) | _ => false end
          then Ok (z :: seen)
          else raise IntegrityError "Actor capability retired verifier key is invalid"
      | _ => raise IntegrityError "Actor capability retired verifier key is invalid"
      end
  | _ => raise IntegrityError "Actor capability retired verifier key is invalid"
  end.

Definition retired_keys (record : dict) : json :=
  get_or record "retired_receipt_keys" (JList []).

Definition check_record (actor : string) (record : dict) : res Z :=
  match get record "key_version", retired_keys record with
  | JInt z, JList retired =>
      _ ← raise_if (py_neq (get record "schema_version") (JInt SCHEMA_VERSION)
                    || py_neq (get record "workspace_id") (JStr workspace_id)
                    || py_neq (get record "actor") (JStr actor) || (z <? 1))
            IntegrityError "Actor capability key record is invalid";
      _ ← res_foldl (retired_ok z) [] retired;
      Ok z
  | _, _ => raise IntegrityError "Actor capability key record is invalid"
  end.

(** The record and its key version. *)
Definition _record (st : store) (actor : string) : res (dict * Z) :=
  _ ← _actor_dir actor;
  match key_file (dir st actor) with
  | None => raise AuthorizationError "Actor capability is unprovisioned"
  | Some text =>
      record ← read_json (Some text);
      version ← check_record actor record;
      Ok (record, version)
  end.

Definition unwrap_key (actor : string) (protected_key : json) : res string :=
  protected ← _b64decode (str_of protected_key);
  key ← _dpapi_unprotect protected (_entropy actor);
  _ ← raise_if (negb (String.length key =? 32)%nat) IntegrityError
        "Actor capability verifier key is invalid";
  Ok key.

Definition _key (actor : string) (record : dict) : res string :=
  unwrap_key actor (get_or record "protected_key" (JStr "")).

Definition _receipt_key (actor : string) (record : dict) (current version : Z) : res string :=
  if current =? version then _key actor record else
  match retired_keys record with
  | JList retired =>
      match find_first (λ item, match item with
                                | JObj i => py_eq (get i "key_version") (JInt version)
                                | _ => false end) retired with
      | Some (JObj i) => unwrap_key actor (get_or i "protected_key" (JStr ""))
      | _ => raise AuthorizationError "Actor capability receipt key version is unavailable"
      end
  | _ => raise AuthorizationError "Actor capability receipt key version is unavailable"
  end.

Definition status (st : store) (actor : string) : res dict :=
  _ ← _actor_dir actor;
  let common := dict_of
    [("schema_version", JInt SCHEMA_VERSION); ("workspace_id", JStr workspace_id);
     ("actor", JStr actor); ("actor_os_isolation_proven", JBool false);
     ("independent_trust_root", JBool false);
     ("capability_home_outside_workspace", JBool true)] in
  match key_file (dir st actor) with
  | Some _ =>
      '(record, version) ← _record st actor;
      Ok (merge_dict common (dict_of
        [("state", JStr "provisioned"); ("key_version", JInt version);
         ("protector", get record "protector");
         ("receipt_signature_algorithm", JStr RECEIPT_SIGNATURE_ALGORITHM)]))
  | None =>
      Ok (merge_dict common (dict_of
        [("state", JStr (if bool_decide (is_Some (guard_file (dir st actor)))
                         then "guard_pending" else "unprovisioned"));
         ("key_version", JNull); ("protector", JNull);
         ("receipt_signature_algorithm", JNull)]))
  end.

(** ** Provisioning *)

Definition guard_record (actor secret : string) (now : Z) : dict := dict_of
  [("schema_version", JInt SCHEMA_VERSION); ("workspace_id", JStr workspace_id);
   ("actor", JStr actor);
   ("guard_digest", JStr (_b64encode (_guard_digest actor secret)));
   ("created_at_epoch", JInt now); ("one_time", JBool true)].

Definition provision_guard (now : Z) (actor bootstrap_secret : string) : M store dict :=
  secret ← liftM (_secret_bytes bootstrap_secret);
  _ ← liftM (_actor_dir actor);
  d ← readM (λ st, dir st actor);
  _ ← raise_ifM (bool_decide (is_Some (key_file d)) || bool_decide (is_Some (guard_file d)))
        AuthorizationError "Actor capability bootstrap is already provisioned";
  _ ← modifyM (<[actor := ActorDir (key_file d)
                   (Some (json_line (guard_record actor secret now))) (used d)]>);
  askM (λ st, status st actor).

Definition check_guard (actor secret : string) (guard : dict) : res unit :=
  _ ← raise_if (py_neq (get guard "schema_version") (JInt SCHEMA_VERSION)
                || py_neq (get guard "workspace_id") (JStr workspace_id)
                || py_neq (get guard "actor") (JStr actor)
                || negb (is_true (get guard "one_time")))
        IntegrityError "Actor capability bootstrap guard is invalid";
  expected_guard ← _b64decode (str_of (get_or guard "guard_digest" (JStr "")));
  raise_if (negb (bool_decide (expected_guard = _guard_digest actor secret)))
    AuthorizationError "Actor capability bootstrap secret is incorrect".

Definition key_record (actor protected : string) (now : Z) : dict := dict_of
  [("schema_version", JInt SCHEMA_VERSION); ("workspace_id", JStr workspace_id);
   ("actor", JStr actor); ("key_version", JInt 1);
   ("protected_key", JStr (_b64encode protected)); ("retired_receipt_keys", JList []);
   ("protector", JStr (if os_nt plat then "windows-dpapi-current-user" else "mode-0600"));
   ("actor_os_isolation_proven", JBool false); ("created_at_epoch", JInt now)].

Definition bootstrap (now : Z) (actor bootstrap_secret : string) : M store dict :=
  secret ← liftM (_secret_bytes bootstrap_secret);
  _ ← liftM (_actor_dir actor);
  d ← readM (λ st, dir st actor);
  _ ← raise_ifM (bool_decide (is_Some (key_file d))) AuthorizationError
        "Actor capability is already bootstrapped";
  _ ← raise_ifM (bool_decide (guard_file d = None)) AuthorizationError
        "Actor capability bootstrap guard is unavailable";
  guard ← liftM (read_json (guard_file d));
  _ ← liftM (check_guard actor secret guard);
  protected ← liftM (_dpapi_protect (_derive_key actor secret) (_entropy actor));
  _ ← modifyM (<[actor := ActorDir (Some (json_line (key_record actor protected now)))
                   None (used d)]>);
  askM (λ st, status st actor).

(** ** Proofs *)

(** [nonce or secrets.token_hex(24)] *)
Definition proof_nonce (nonce token_hex : string) : string :=
  if bool_decide (nonce = "") then token_hex else nonce.

Definition proof_payload (actor operation nonce : string) (version issued_at ttl : Z)
    (binding : list (string * json)) : dict := dict_of
  ([("token_version", JInt TOKEN_VERSION); ("workspace_id", JStr workspace_id);
    ("actor", JStr actor); ("operation", JStr operation); ("nonce", JStr nonce);
    ("key_version", JInt version); ("issued_at_epoch", JInt issued_at);
    ("expires_at_epoch", JInt (issued_at + ttl))] ++ binding).

Definition sign_proof (key : string) (payload : dict) : string :=
  let body := canonical_json (JObj payload) in
  _b64encode body +:+ "." +:+ _b64encode (hmac_sha256 key body).

Definition mint (st : store) (now : Z) (token_hex : string) (actor operation : string)
    (credential_secret : string) (ttl_seconds : Z) (nonce : string)
    (task_id run_id : option string) (task_attempt : json) : res string :=
  _ ← raise_if (negb (operation_ok operation)) AuthorizationError
        "Actor capability operation is invalid";
  _ ← raise_if ((ttl_seconds <? 1) || (MAX_TTL_SECONDS <? ttl_seconds)) AuthorizationError
        "Actor capability lifetime is outside policy";
  secret ← _secret_bytes credential_secret;
  '(record, version) ← _record st actor;
  stored_key ← _key actor record;
  _ ← raise_if (negb (bool_decide (stored_key = _derive_key actor secret)))
        AuthorizationError "Actor capability credential is incorrect";
  let n := proof_nonce nonce token_hex in
  _ ← raise_if (negb (nonce_ok n)) AuthorizationError "Actor capability nonce is invalid";
  binding ← _binding_fields task_id run_id task_attempt;
  Ok (sign_proof stored_key
        (proof_payload actor operation n version now ttl_seconds binding)).

(** ** Consumption *)

Definition split_token (token : string) : res (string * string) :=
  match split_on "." token with
  | [body; signature] =>
      b ← _b64decode body; s ← _b64decode signature; Ok (b, s)
  | _ => raise AuthorizationError "Actor capability proof is malformed"
  end.

Definition decode_body (body : string) : res dict :=
  _ ← raise_if (negb (utf8_valid body)) AuthorizationError
        "Actor capability proof is malformed";
  v ← catch (json_loads body) JSONDecodeError
        (λ _, raise AuthorizationError "Actor capability proof is malformed");
  match v with
  | JObj payload =>
      if bool_decide (canonical_json (JObj payload) = body) then Ok payload
      else raise AuthorizationError "Actor capability proof is not canonical"
  | _ => raise AuthorizationError "Actor capability proof is not canonical"
  end.

(** [any(d.get(name) != value for name, value in binding.items())] *)
Definition binding_differs (d : dict) (binding : list (string * json)) : bool :=
  existsb (λ kv, py_neq (get d kv.1) kv.2) binding.

(** The issue and expiry times of a proof in force at [now]. *)
Definition check_lifetime (now : Z) (payload : dict) : res (Z * Z) :=
  match get payload "issued_at_epoch", get payload "expires_at_epoch" with
  | JInt issued_at, JInt expires_at =>
      _ ← raise_if ((expires_at <=? issued_at) || (MAX_TTL_SECONDS <? expires_at - issued_at))
            AuthorizationError "Actor capability proof lifetime is invalid";
      _ ← raise_if ((now + 5 <? issued_at) || (expires_at <=? now)) AuthorizationError
            "Actor capability proof is expired or not yet valid";
      Ok (issued_at, expires_at)
  | _, _ => raise AuthorizationError "Actor capability proof lifetime is invalid"
  end.

Definition receipt_body (actor operation nonce_sha256 : string) (binding : list (string * json))
    (version issued_at expires_at current : Z) : dict := dict_of
  ([("schema_version", JInt RECEIPT_SCHEMA_VERSION);
    ("receipt_type", JStr "actor-capability-consumption");
    ("workspace_id", JStr workspace_id); ("actor", JStr actor);
    ("operation", JStr operation)] ++ binding ++
   [("nonce_sha256", JStr nonce_sha256); ("key_version", JInt version);
    ("issued_at_epoch", JInt issued_at); ("expires_at_epoch", JInt expires_at);
    ("consumed_at_epoch", JInt current);
    ("os_principal_attestation", JObj _os_principal_attestation);
    ("independent_trust_root", JBool false); ("actor_os_isolation_proven", JBool false);
    ("signature_algorithm", JStr RECEIPT_SIGNATURE_ALGORITHM)]).

Definition signed_receipt (key : string) (body : dict) : dict :=
  <["signature" := JStr (_b64encode (hmac_sha256 key (canonical_json (JObj body))))]> body.

(** The name of the replay marker. *)
Definition marker_digest (actor operation nonce_sha256 : string) (version : Z) : string :=
  sha256_hex (canonical_json (jobj
    [("workspace_id", JStr workspace_id); ("actor", JStr actor);
     ("operation", JStr operation); ("nonce_sha256", JStr nonce_sha256);
     ("key_version", JInt version)])).

Definition marker_payload (receipt : dict) (current : Z) : dict := dict_of
  [("schema_version", JInt 1);
   ("receipt_sha256", JStr (sha256_hex (canonical_json (JObj receipt))));
   ("consumed_at_epoch", JInt current)].

(** What a proof must be for [actor] and [operation] before it is consumed:
    its receipt and the name of its marker. *)
Definition check_proof (st : store) (now : Z) (expected_actor expected_operation token : string)
    (expected_task_id expected_run_id : option string) (expected_task_attempt : json)
  : res (dict * string) :=
  _ ← raise_if (bool_decide (token = "")) AuthorizationError
        "Actor capability proof is required";
  _ ← raise_if (MAX_TOKEN_BYTES <? String.length token)%nat AuthorizationError
        "Actor capability proof is malformed";
  _ ← raise_if (negb (operation_ok expected_operation)) AuthorizationError
        "Actor capability operation is invalid";
  expected_binding ← _binding_fields expected_task_id expected_run_id expected_task_attempt;
  '(body, signature) ← split_token token;
  payload ← decode_body body;
  '(record, version) ← _record st expected_actor;
  key ← _key expected_actor record;
  _ ← raise_if (negb (bool_decide (hmac_sha256 key body = signature))) AuthorizationError
        "Actor capability proof signature is invalid";
  _ ← raise_if (py_neq (get payload "token_version") (JInt TOKEN_VERSION)
                || py_neq (get payload "workspace_id") (JStr workspace_id)
                || py_neq (get payload "actor") (JStr expected_actor)
                || py_neq (get payload "operation") (JStr expected_operation)
                || py_neq (get payload "key_version") (JInt version)
                || binding_differs payload expected_binding)
        AuthorizationError "Actor capability proof scope is invalid";
  '(issued_at, expires_at) ← check_lifetime now payload;
  match get payload "nonce" with
  | JStr nonce =>
      _ ← raise_if (negb (nonce_ok nonce)) AuthorizationError
            "Actor capability nonce is invalid";
      let nonce_sha256 := sha256_hex nonce in
      Ok (signed_receipt key
            (receipt_body expected_actor expected_operation nonce_sha256 expected_binding
               version issued_at expires_at now),
          marker_digest expected_actor expected_operation nonce_sha256 version)
  | _ => raise AuthorizationError "Actor capability nonce is invalid"
  end.

Definition verify_and_consume (now : Z) (expected_actor expected_operation token : string)
    (expected_task_id expected_run_id : option string) (expected_task_attempt : json)
  : M store dict :=
  '(receipt, marker) ← askM (λ st, check_proof st now expected_actor expected_operation token
                                expected_task_id expected_run_id expected_task_attempt);
  d ← readM (λ st, dir st expected_actor);
  _ ← raise_ifM (bool_decide (is_Some (used d !! marker))) AuthorizationError
        "Actor capability proof has already been consumed";
  _ ← modifyM (<[expected_actor := ActorDir (key_file d) (guard_file d)
                   (<[marker := json_line (marker_payload receipt now)]> (used d))]>);
  mret receipt.

(** ** Persisted receipts *)

Definition receipt_keys : list string :=
  ["schema_version"; "receipt_type"; "workspace_id"; "actor"; "operation"; "task_id";
   "run_id"; "task_attempt"; "nonce_sha256"; "key_version"; "issued_at_epoch";
   "expires_at_epoch"; "consumed_at_epoch"; "os_principal_attestation";
   "independent_trust_root"; "actor_os_isolation_proven"; "signature_algorithm";
   "signature"].

(** The receipt's times and key version, when they are as they should be. *)
Definition receipt_times (receipt : dict) : option (Z * Z) :=
  match get receipt "key_version", get receipt "issued_at_epoch",
        get receipt "expires_at_epoch", get receipt "consumed_at_epoch" with
  | JInt version, JInt issued_at, JInt expires_at, JInt consumed_at =>
      if (1 <=? version) && (issued_at <=? consumed_at) && (consumed_at <? expires_at)
         && (expires_at - issued_at <=? MAX_TTL_SECONDS)
      then Some (version, consumed_at) else None
  | _, _, _, _ => None
  end.

Definition receipt_scope (receipt : dict) (actor operation : string)
    (binding : list (string * json)) : bool :=
  py_eq (get receipt "schema_version") (JInt RECEIPT_SCHEMA_VERSION)
  && py_eq (get receipt "receipt_type") (JStr "actor-capability-consumption")
  && py_eq (get receipt "workspace_id") (JStr workspace_id)
  && py_eq (get receipt "actor") (JStr actor)
  && py_eq (get receipt "operation") (JStr operation)
  && negb (binding_differs receipt binding)
  && py_eq (get receipt "signature_algorithm") (JStr RECEIPT_SIGNATURE_ALGORITHM)
  && is_false (get receipt "independent_trust_root")
  && is_false (get receipt "actor_os_isolation_proven")
  && py_eq (get receipt "os_principal_attestation") (JObj _os_principal_attestation).

Definition check_marker (receipt : dict) (consumed_at : Z) (marker_file : option string)
  : res unit :=
  marker ← catch (catch (read_json marker_file) FileNotFoundError
                    (λ _, raise AuthorizationError "no external consumption record"))
             ConfigurationError
             (λ _, raise AuthorizationError "no external consumption record");
  raise_if (py_neq (get marker "schema_version") (JInt 1)
            || py_neq (get marker "receipt_sha256")
                 (JStr (sha256_hex (canonical_json (JObj receipt))))
            || py_neq (get marker "consumed_at_epoch") (JInt consumed_at))
    AuthorizationError "Actor capability receipt replay record is invalid".

Definition validate_receipt (st : store) (receipt : json) (expected_actor expected_operation : string)
    (expected_task_id expected_run_id : option string) (expected_task_attempt : json)
    (require_independent_trust_root : bool) : res dict :=
  binding ← _binding_fields expected_task_id expected_run_id expected_task_attempt;
  match receipt with
  | JObj receipt =>
      _ ← raise_if (negb (exact_keys receipt receipt_keys)) AuthorizationError
            "Actor capability receipt schema is invalid";
      match get receipt "nonce_sha256", receipt_times receipt with
      | JStr nonce_sha256, Some (version, consumed_at) =>
          _ ← raise_if (negb (re_hex 64 nonce_sha256)
                        || negb (receipt_scope receipt expected_actor expected_operation binding))
                AuthorizationError "Actor capability receipt scope is invalid";
          '(record, current) ← _record st expected_actor;
          key ← _receipt_key expected_actor record current version;
          observed ← _b64decode (str_of (get_or receipt "signature" (JStr "")));
          let body := delete "signature" receipt in
          _ ← raise_if (negb (bool_decide (observed = hmac_sha256 key (canonical_json (JObj body)))))
                AuthorizationError "Actor capability receipt signature is invalid";
          let marker := marker_digest expected_actor expected_operation nonce_sha256 version in
          _ ← check_marker receipt consumed_at (used (dir st expected_actor) !! marker);
          _ ← raise_if require_independent_trust_root AuthorizationError
                "CAPABILITY_UNATTESTED: local same-user HMAC receipts are not an independent actor trust root";
          Ok receipt
      | _, _ => raise AuthorizationError "Actor capability receipt scope is invalid"
      end
  | _ => raise AuthorizationError "Actor capability receipt is missing"
  end.

(** ** Rotation *)

Definition rotated_record (record : dict) (version : Z) (protected_key : json)
    (protected : string) (now : Z) : dict :=
  let retired := match retired_keys record with JList l => l | _ => [] end in
  merge_dict record (dict_of
    [("key_version", JInt (version + 1));
     ("protected_key", JStr (_b64encode protected));
     ("retired_receipt_keys", JList (retired ++
        [jobj [("key_version", JInt version); ("protected_key", protected_key)]]));
     ("rotated_at_epoch", JInt now); ("actor_os_isolation_proven", JBool false)]).

Definition rotate (now rotated_at : Z) (actor rotation_token new_secret : string)
  : M store dict :=
  secret ← liftM (_secret_bytes new_secret);
  _ ← liftM (_actor_dir actor);
  receipt ← verify_and_consume now actor "capability.rotate" rotation_token None None JNull;
  '(record, version) ← askM (λ st, _record st actor);
  _ ← raise_ifM (py_neq (JInt version) (get receipt "key_version")) AuthorizationError
        "Actor capability rotation lost its key-version compare-and-swap";
  protected ← liftM (_dpapi_protect (_derive_key actor secret) (_entropy actor));
  protected_key ← liftM (item record "protected_key");
  let rotated := rotated_record record version protected_key protected rotated_at in
  d ← readM (λ st, dir st actor);
  _ ← modifyM (<[actor := ActorDir (Some (atomic_write_json rotated)) (guard_file d) (used d)]>);
  askM (λ st, status st actor).
End authority.

(** ** Inversion of the checks *)

Lemma agent_dir_ok actor u : _actor_dir actor = Ok u ↔ agent_id_ok actor = true.
Proof. unfold _actor_dir. destruct u, (agent_id_ok actor); naive_solver. Qed.

Section facts.
Context `{Hashing} (plat : platform) (workspace_id : string).

Lemma dir_insert (st : store) actor d : dir (<[actor := d]> st) actor = d.
Proof. unfold dir. by rewrite lookup_insert_eq. Qed.

(** The parts of a proof that passes every check. *)
Lemma check_proof_inv st now actor op token t r n receipt marker :
  check_proof plat workspace_id st now actor op token t r n = Ok (receipt, marker) →
  ∃ body signature payload record version key binding issued expires nonce,
  split_token token = Ok (body, signature) ∧ decode_body body = Ok payload ∧
  _record workspace_id st actor = Ok (record, version) ∧
  _key plat workspace_id actor record = Ok key ∧ hmac_sha256 key body = signature ∧
  _binding_fields t r n = Ok binding ∧
  get payload "workspace_id" = JStr workspace_id ∧ get payload "actor" = JStr actor ∧
  get payload "operation" = JStr op ∧
  py_eq (get payload "key_version") (JInt version) = true ∧
  binding_differs payload binding = false ∧
  check_lifetime now payload = Ok (issued, expires) ∧
  get payload "nonce" = JStr nonce ∧ nonce_ok nonce = true ∧
  receipt = signed_receipt key (receipt_body plat workspace_id actor op (sha256_hex nonce)
              binding version issued expires now) ∧
  marker = marker_digest workspace_id actor op (sha256_hex nonce) version.
Proof.
  unfold check_proof. intros Hc. apply bind_ok in Hc as (? & _ & Hc).
  apply bind_ok in Hc as (? & _ & Hc). apply bind_ok in Hc as (? & _ & Hc).
  apply bind_ok in Hc as (binding & Hb & Hc).
  apply bind_ok in Hc as ([body signature] & Hs & Hc).
  apply bind_ok in Hc as (payload & Hp & Hc).
  apply bind_ok in Hc as ([record version] & Hr & Hc). apply bind_ok in Hc as (key & Hk & Hc).
  apply bind_ok in Hc as (? & Hsig%raise_if_ok & Hc).
  apply bind_ok in Hc as (? & Hscope%raise_if_ok & Hc).
  apply bind_ok in Hc as ([issued expires] & Hl & Hc).
  destruct (get payload "nonce") as [| | | |nonce| |] eqn:En; try done.
  apply bind_ok in Hc as (? & Hn%raise_if_ok & Hc%Ok_inj). injection Hc as <- <-.
  bool_split. rewrite py_neq_str in *. rewrite py_neq_false in *.
  exists body, signature, payload, record, version, key, binding, issued, expires, nonce.
  split_and!; done.
Qed.

Lemma check_lifetime_ok now payload i e :
  check_lifetime now payload = Ok (i, e) →
  get payload "issued_at_epoch" = JInt i ∧ get payload "expires_at_epoch" = JInt e ∧
  i < e ∧ e - i ≤ MAX_TTL_SECONDS ∧ i ≤ now + 5 ∧ now < e.
Proof.
  unfold check_lifetime. destruct (get payload "issued_at_epoch") as [| |i'| | | |]; try done.
  destruct (get payload "expires_at_epoch") as [| |e'| | | |]; try done.
  intros Hc. inv_res. bool_split. subst. unfold MAX_TTL_SECONDS in *. split_and!; done || lia.
Qed.

Lemma verify_inv now actor op token t r n st receipt st' :
  verify_and_consume plat workspace_id now actor op token t r n st = (Ok receipt, st') →
  ∃ marker, check_proof plat workspace_id st now actor op token t r n = Ok (receipt, marker) ∧
  used (dir st actor) !! marker = None ∧
  st' = <[actor := ActorDir (key_file (dir st actor)) (guard_file (dir st actor))
            (<[marker := json_line (marker_payload receipt now)]> (used (dir st actor)))]> st.
Proof.
  unfold verify_and_consume. intros Hv.
  apply M_bind_ok in Hv as ([rc marker] & w1 & [Hc ->]%askM_ok & Hv).
  apply M_bind_ok in Hv as (d & w2 & [-> ->]%readM_ok & Hv).
  apply M_bind_ok in Hv as (u & w3 & [Hu ->]%raise_ifM_ok & Hv).
  apply M_bind_ok in Hv as (u' & w4 & ->%modifyM_ok & Hv). injection Hv as -> <-.
  exists marker. split_and!; [done| |done]. bool_split. by apply eq_None_not_Some.
Qed.


(** a proof is accepted only if its body carries the HMAC of the actor's
    current key and names this workspace, actor, operation and binding, within
    its lifetime of at most [MAX_TTL_SECONDS]; the receipt records exactly
    that scope and never claims isolation. *)
Theorem accepted_proof_is_authorized now actor op token t r n st receipt st' :
  verify_and_consume plat workspace_id now actor op token t r n st = (Ok receipt, st') →
  ∃ body payload record version key binding issued expires,
  split_token token = Ok (body, hmac_sha256 key body) ∧ decode_body body = Ok payload ∧
  _record workspace_id st actor = Ok (record, version) ∧
  _key plat workspace_id actor record = Ok key ∧ _binding_fields t r n = Ok binding ∧
  get payload "workspace_id" = JStr workspace_id ∧ get payload "actor" = JStr actor ∧
  get payload "operation" = JStr op ∧ binding_differs payload binding = false ∧
  get payload "issued_at_epoch" = JInt issued ∧ get payload "expires_at_epoch" = JInt expires ∧
  issued - 5 ≤ now < expires ∧ expires ≤ issued + MAX_TTL_SECONDS ∧
  get receipt "actor" = JStr actor ∧ get receipt "operation" = JStr op ∧
  get receipt "actor_os_isolation_proven" = JBool false ∧
  get receipt "independent_trust_root" = JBool false.
Proof.
  intros (marker & Hc & _ & _)%verify_inv.
  apply check_proof_inv in Hc as (body & sg & payload & record & v & key & b & i & x & nonce
    & Hs & Hp & Hr & Hk & <- & Hb & Hw & Ha & Ho & _ & Hd & Hl & _ & _ & -> & _).
  apply check_lifetime_ok in Hl as (? & ? & ? & ? & ? & ?).
  exists body, payload, record, v, key, b, i, x. split_and!; try done; try lia.
  all: unfold _binding_fields in Hb; inv_res; subst b; reflexivity.
Qed.
End facts.

(** ** A minted proof is accepted, and its receipt validates *)

Section roundtrip.
Context `{Hashing} (plat : platform) (workspace_id : string).

Lemma b64_round s : s ≠ "" → _b64decode (_b64encode s) = Ok s.
Proof.
  intros Hs. unfold _b64decode, _b64encode.
  rewrite bool_decide_eq_false_2 by (by apply Base64.encode_nonempty).
  assert (all_chars is_ascii (Base64.encode true false s) = true) as ->.
  { eapply all_chars_impl, Base64.encode_chars. intros c Hc. by apply andb_true_iff in Hc as [_ ?]. }
  cbn [raise_if negb mbind res_bind]. by rewrite Base64.decode_encode.
Qed.

Lemma split_first_sep p a c b :
  all_chars (λ x, negb (p x)) a = true → p c = true →
  split_first p (a +:+ String c b) = (a, (split_first p b).1 :: (split_first p b).2).
Proof.
  intros Ha Hc. induction a as [|x a IH].
  - rewrite str_app_nil_l. cbn. destruct (split_first p b). by rewrite Hc.
  - cbn in Ha. bool_split. rewrite str_app_cons. cbn. rewrite IH by done. by destruct (p x).
Qed.

Lemma split_first_none p a :
  all_chars (λ x, negb (p x)) a = true → split_first p a = (a, []).
Proof.
  intros Ha. induction a as [|x a IH]; [done|]. cbn in Ha. bool_split. cbn.
  rewrite IH by done. by destruct (p x).
Qed.

Lemma b64_no_dot s : all_chars (λ x, negb (Ascii.eqb "." x)) (_b64encode s) = true.
Proof.
  eapply all_chars_impl, Base64.encode_chars. intros c Hc. by apply andb_true_iff in Hc as [? _].
Qed.

Lemma hmac_nonempty k m : hmac_sha256 k m ≠ "".
Proof. intros E. pose proof (hmac_sha256_length k m) as Hl. by rewrite E in Hl. Qed.

Lemma split_signed body sg :
  body ≠ "" → sg ≠ "" →
  split_token (_b64encode body +:+ "." +:+ _b64encode sg) = Ok (body, sg).
Proof.
  intros Hb Hs. unfold split_token, split_on.
  rewrite (str_app_cons "."), str_app_nil_l.
  rewrite split_first_sep by (reflexivity || apply b64_no_dot).
  rewrite split_first_none by apply b64_no_dot. cbn [fst snd].
  by rewrite !b64_round by done.
Qed.

Lemma canonical_nonempty (d : dict) : canonical_json (JObj d) ≠ "".
Proof.
  unfold canonical_json, dumps. destruct (dumps_obj compact 0 d) as (l & _ & ->). by destruct l.
Qed.

Lemma decode_canonical (d : dict) :
  floats_ok (JObj d) = true → utf8_valid (canonical_json (JObj d)) = true →
  decode_body (canonical_json (JObj d)) = Ok d.
Proof.
  intros Hf Hu. unfold decode_body. rewrite Hu. cbn [negb raise_if mbind res_bind].
  rewrite loads_canonical by done. cbn [catch mbind res_bind].
  by rewrite bool_decide_eq_true_2.
Qed.

Lemma binding_ok t r n b :
  _binding_fields t r n = Ok b →
  b = [("task_id", opt_str t); ("run_id", opt_str r); ("task_attempt", n)] ∧
  (n = JNull ∨ ∃ z, n = JInt z ∧ 1 ≤ z).
Proof.
  unfold _binding_fields. intros Hb. inv_res. subst. split; [done|]. bool_split.
  match goal with H1 : negb (is_null n) && negb (positive_int n) = false |- _ => revert H1 end.
  destruct n as [| |z| | | |]; cbn; try done; [by left|]. intros Hz.
  right. exists z. split; [done|]. bool_split. lia.
Qed.

Lemma py_neq_opt_str s : py_neq (opt_str s) (opt_str s) = false.
Proof. apply py_neq_false. destruct s; cbn; [by apply bool_decide_eq_true_2|done]. Qed.

(** The binding's values are found and equal to themselves. *)
Lemma binding_same (d : dict) t r n :
  (n = JNull ∨ ∃ z, n = JInt z ∧ 1 ≤ z) →
  get d "task_id" = opt_str t → get d "run_id" = opt_str r → get d "task_attempt" = n →
  binding_differs d [("task_id", opt_str t); ("run_id", opt_str r); ("task_attempt", n)] = false.
Proof.
  intros Hn Ht Hr Ha. unfold binding_differs. cbn [existsb fst snd].
  rewrite Ht, Hr, Ha, !py_neq_opt_str. cbn. rewrite orb_false_r. apply py_neq_false.
  destruct Hn as [->|(z & -> & _)]; cbn; [done|apply Z.eqb_refl].
Qed.

Lemma py_neq_self_str s : py_neq (JStr s) (JStr s) = false.
Proof. by apply py_neq_str. Qed.
Lemma py_neq_self_int z : py_neq (JInt z) (JInt z) = false.
Proof. apply py_neq_false. apply Z.eqb_refl. Qed.

Lemma mint_inv st now hex actor op secret ttl nonce t r n token :
  mint plat workspace_id st now hex actor op secret ttl nonce t r n = Ok token →
  ∃ record version key b,
  _record workspace_id st actor = Ok (record, version) ∧
  _key plat workspace_id actor record = Ok key ∧
  key = _derive_key workspace_id actor secret ∧
  _binding_fields t r n = Ok b ∧ operation_ok op = true ∧ 1 ≤ ttl ≤ MAX_TTL_SECONDS ∧
  nonce_ok (proof_nonce nonce hex) = true ∧
  token = sign_proof key (proof_payload workspace_id actor op (proof_nonce nonce hex)
                            version now ttl b).
Proof.
  unfold mint. intros Hm. apply bind_ok in Hm as (? & Ho%raise_if_ok & Hm).
  apply bind_ok in Hm as (? & Ht%raise_if_ok & Hm). apply bind_ok in Hm as (s & Hs & Hm).
  apply bind_ok in Hm as ([record version] & Hr & Hm). apply bind_ok in Hm as (key & Hk & Hm).
  apply bind_ok in Hm as (? & Hd%raise_if_ok & Hm). apply bind_ok in Hm as (? & Hn%raise_if_ok & Hm).
  apply bind_ok in Hm as (b & Hb & Hm%Ok_inj). bool_split.
  assert (s = secret) as ->.
  { unfold _secret_bytes in Hs. by destruct (_ <? _)%nat; [|injection Hs as <-]. }
  exists record, version, key, b. split_and!; done || lia.
Qed.

Lemma check_record_inv actor record z :
  check_record workspace_id actor record = Ok z →
  ∃ l seen, get record "key_version" = JInt z ∧ retired_keys record = JList l ∧
  get record "workspace_id" = JStr workspace_id ∧ get record "actor" = JStr actor ∧
  py_eq (get record "schema_version") (JInt SCHEMA_VERSION) = true ∧ 1 ≤ z ∧
  res_foldl (retired_ok z) [] l = Ok seen.
Proof.
  unfold check_record. destruct (get record "key_version") as [| |v| | | |]; try done.
  destruct (retired_keys record) as [| | | | |l|]; try done. intros Hc.
  apply bind_ok in Hc as (? & Hb%raise_if_ok & Hc). apply bind_ok in Hc as (seen & Hs & Hc%Ok_inj).
  subst v. bool_split. rewrite py_neq_str in *. rewrite py_neq_false in *.
  exists l, seen. split_and!; done || lia.
Qed.

Lemma record_version st actor record z : _record workspace_id st actor = Ok (record, z) → 1 ≤ z.
Proof.
  unfold _record. intros Hr. apply bind_ok in Hr as (? & _ & Hr).
  destruct (key_file (dir st actor)); [|done]. apply bind_ok in Hr as (d & _ & Hr).
  apply bind_ok in Hr as (v & Hc & Hr%Ok_inj). injection Hr as <- <-.
  apply check_record_inv in Hc as (? & ? & _ & _ & _ & _ & _ & ? & _). done.
Qed.

Lemma record_agent st actor x : _record workspace_id st actor = Ok x → agent_id_ok actor = true.
Proof. unfold _record. intros Hr. apply bind_ok in Hr as (? & Ha%agent_dir_ok & _). done. Qed.

Lemma record_same_key st st' actor :
  key_file (dir st' actor) = key_file (dir st actor) →
  _record workspace_id st' actor = _record workspace_id st actor.
Proof. intros E. unfold _record. by rewrite E. Qed.

Lemma proof_payload_floats actor op nonce v i ttl t r n :
  (n = JNull ∨ ∃ z, n = JInt z ∧ 1 ≤ z) →
  floats_ok (JObj (proof_payload workspace_id actor op nonce v i ttl
    [("task_id", opt_str t); ("run_id", opt_str r); ("task_attempt", n)])) = true.
Proof.
  intros Hn. apply floats_ok_dict_of. cbn.
  destruct t, r; destruct Hn as [->|(z & -> & _)]; reflexivity.
Qed.

Lemma check_minted st now now' actor op nonce ttl t r n record version key b :
  let payload := proof_payload workspace_id actor op nonce version now ttl b in
  _record workspace_id st actor = Ok (record, version) →
  _key plat workspace_id actor record = Ok key →
  _binding_fields t r n = Ok b → operation_ok op = true → 1 ≤ ttl ≤ MAX_TTL_SECONDS →
  nonce_ok nonce = true → now ≤ now' → now' < now + ttl →
  (String.length (sign_proof key payload) ≤ MAX_TOKEN_BYTES)%nat →
  utf8_valid (canonical_json (JObj payload)) = true →
  check_proof plat workspace_id st now' actor op (sign_proof key payload) t r n =
  Ok (signed_receipt key (receipt_body plat workspace_id actor op (sha256_hex nonce) b version
        now (now + ttl) now'),
      marker_digest workspace_id actor op (sha256_hex nonce) version).
Proof.
  intros payload Hr Hk Hb Ho Ht Hn H1 H2 Hlen Hu.
  destruct (binding_ok _ _ _ _ Hb) as [-> Hnn].
  unfold check_proof.
  rewrite bool_decide_eq_false_2.
  2:{ unfold sign_proof. intros E. apply (f_equal String.length) in E.
      rewrite !str_app_length in E. cbn in E. lia. }
  cbn [raise_if mbind res_bind].
  rewrite (proj2 (Nat.ltb_ge _ _) Hlen). cbn [raise_if mbind res_bind].
  rewrite Ho, Hb. cbn [negb raise_if mbind res_bind].
  unfold sign_proof. rewrite split_signed by (apply canonical_nonempty || apply hmac_nonempty).
  cbn [mbind res_bind]. rewrite decode_canonical; [|by apply proof_payload_floats|done].
  cbn [mbind res_bind]. rewrite Hr. cbn [mbind res_bind]. rewrite Hk. cbn [mbind res_bind].
  rewrite bool_decide_eq_true_2 by done. cbn [negb raise_if mbind res_bind].
  change (get payload "token_version") with (JInt TOKEN_VERSION).
  change (get payload "workspace_id") with (JStr workspace_id).
  change (get payload "actor") with (JStr actor). change (get payload "operation") with (JStr op).
  change (get payload "key_version") with (JInt version). change (get payload "nonce") with (JStr nonce).
  rewrite !py_neq_self_str, !py_neq_self_int, binding_same by done.
  cbn [orb raise_if mbind res_bind]. unfold check_lifetime.
  change (get payload "issued_at_epoch") with (JInt now).
  change (get payload "expires_at_epoch") with (JInt (now + ttl)).
  unfold MAX_TTL_SECONDS in *.
  rewrite (proj2 (Z.leb_gt (now + ttl) now)), (proj2 (Z.ltb_ge 300 (now + ttl - now))) by lia.
  rewrite (proj2 (Z.ltb_ge (now' + 5) now)), (proj2 (Z.leb_gt (now + ttl) now')) by lia.
  cbn [orb raise_if mbind res_bind]. rewrite Hn. reflexivity.
Qed.

(** The receipt [check_proof] builds validates against its marker. *)
Lemma receipt_validates st' actor op nonce t r n b record version key now' i e :
  let receipt := signed_receipt key (receipt_body plat workspace_id actor op
                   (sha256_hex nonce) b version i e now') in
  _record workspace_id st' actor = Ok (record, version) →
  _key plat workspace_id actor record = Ok key → _binding_fields t r n = Ok b →
  i ≤ now' → now' < e → e - i ≤ MAX_TTL_SECONDS →
  used (dir st' actor) !! marker_digest workspace_id actor op (sha256_hex nonce) version
    = Some (json_line (marker_payload receipt now')) →
  validate_receipt plat workspace_id st' (JObj receipt) actor op t r n false = Ok receipt.
Proof.
  intros receipt Hr Hk Hb H1 H2 H3 Hm. pose proof (record_version _ _ _ _ Hr) as Hv.
  unfold validate_receipt. rewrite Hb. destruct (binding_ok _ _ _ _ Hb) as [-> Hn].
  cbn [mbind res_bind].
  assert (exact_keys receipt receipt_keys = true) as -> by reflexivity.
  cbn [negb raise_if mbind res_bind].
  change (get receipt "nonce_sha256") with (JStr (sha256_hex nonce)).
  assert (receipt_times receipt = Some (version, now')) as ->.
  { unfold receipt_times. change (get receipt "key_version") with (JInt version).
    change (get receipt "issued_at_epoch") with (JInt i).
    change (get receipt "expires_at_epoch") with (JInt e).
    change (get receipt "consumed_at_epoch") with (JInt now').
    cbv beta iota. rewrite (proj2 (Z.leb_le 1 version)), (proj2 (Z.leb_le i now')), (proj2 (Z.ltb_lt now' e)),
      (proj2 (Z.leb_le (e - i) MAX_TTL_SECONDS)) by lia. done. }
  rewrite (sha256_hex_ok nonce).
  assert (receipt_scope plat workspace_id receipt actor op
    [("task_id", opt_str t); ("run_id", opt_str r); ("task_attempt", n)] = true) as ->.
  { unfold receipt_scope. rewrite binding_same by done.
    change (get receipt "os_principal_attestation") with (JObj (_os_principal_attestation plat)).
    rewrite (py_eq_refl (JObj _)) by reflexivity.
    repeat (rewrite (proj2 (py_eq_str _ _)) by reflexivity). reflexivity. }
  cbn [negb orb raise_if mbind res_bind]. rewrite Hr. cbn [mbind res_bind].
  unfold _receipt_key. rewrite Z.eqb_refl, Hk. cbn [mbind res_bind].
  assert (get_or receipt "signature" (JStr "") = JStr (_b64encode (hmac_sha256 key
    (canonical_json (JObj (receipt_body plat workspace_id actor op (sha256_hex nonce)
      [("task_id", opt_str t); ("run_id", opt_str r); ("task_attempt", n)] version i e now'))))))
    as -> by reflexivity.
  cbn [str_of]. rewrite b64_round by apply hmac_nonempty. cbn [mbind res_bind].
  assert (delete "signature" receipt = receipt_body plat workspace_id actor op (sha256_hex nonce)
    [("task_id", opt_str t); ("run_id", opt_str r); ("task_attempt", n)] version i e now') as ->.
  { unfold receipt, signed_receipt. by rewrite delete_insert_id. }
  rewrite bool_decide_eq_true_2 by done. cbn [negb raise_if mbind res_bind].
  rewrite Hm. unfold check_marker. rewrite read_json_line_spaced by (by apply floats_ok_dict_of).
  cbn [catch mbind res_bind].
  change (get (marker_payload receipt now') "schema_version") with (JInt 1).
  change (get (marker_payload receipt now') "receipt_sha256")
    with (JStr (sha256_hex (canonical_json (JObj receipt)))).
  change (get (marker_payload receipt now') "consumed_at_epoch") with (JInt now').
  by rewrite py_neq_self_str, !py_neq_self_int.
Qed.
End roundtrip.

Section lifecycle.
Context `{Hashing} (plat : platform) (workspace_id : string).

(** a proof minted with the actor's secret is accepted until it expires,
    if its nonce was not used before, and the receipt it is exchanged for
    validates against the store from then on. *)
Theorem minted_proof_round_trip st now hex actor op secret ttl nonce t r n token now' :
  mint plat workspace_id st now hex actor op secret ttl nonce t r n = Ok token →
  now ≤ now' < now + ttl → (String.length token ≤ MAX_TOKEN_BYTES)%nat →
  (∀ body sg, split_token token = Ok (body, sg) → utf8_valid body = true) →
  (∀ v, used (dir st actor) !!
        marker_digest workspace_id actor op (sha256_hex (proof_nonce nonce hex)) v = None) →
  ∃ receipt st',
    verify_and_consume plat workspace_id now' actor op token t r n st = (Ok receipt, st') ∧
    validate_receipt plat workspace_id st' (JObj receipt) actor op t r n false = Ok receipt.
Proof.
  intros (record & v & key & b & Hr & Hk & _ & Hb & Ho & Httl & Hn & ->)%mint_inv Hnow Hlen Hu Hfresh.
  specialize (Hfresh v).
  assert (Hu' : utf8_valid (canonical_json (JObj (proof_payload workspace_id actor op
    (proof_nonce nonce hex) v now ttl b))) = true).
  { eapply Hu. apply split_signed; [apply canonical_nonempty|apply hmac_nonempty]. }
  pose proof (check_minted plat workspace_id st now now' actor op _ ttl t r n record v key b
    Hr Hk Hb Ho Httl Hn (proj1 Hnow) (proj2 Hnow) Hlen Hu') as Hc.
  eexists _, _. split.
  - unfold verify_and_consume, mbind, M_bind, askM. rewrite Hc. cbn [readM].
    unfold readM, raise_ifM, liftM. rewrite Hfresh. rewrite bool_decide_eq_false_2; [reflexivity|].
    by intros [? ?].
  - eapply receipt_validates; [|exact Hk|exact Hb|lia|lia|lia|].
    + erewrite record_same_key; [exact Hr|]. by rewrite dir_insert.
    + rewrite dir_insert. cbn [used]. by rewrite lookup_insert_eq.
Qed.

(** Local receipts are never an independent trust root. *)
Lemma never_independent st receipt actor op t r n :
  is_ok (validate_receipt plat workspace_id st receipt actor op t r n true) = false.
Proof.
  destruct (validate_receipt _ _ _ _ _ _ _ _ _ true) as [x|] eqn:E; [|done].
  unfold validate_receipt in E. apply bind_ok in E as (b & _ & E).
  destruct receipt as [| | | | | |d]; try done. apply bind_ok in E as (? & _ & E).
  destruct (get d "nonce_sha256"); try done. destruct (receipt_times d) as [[v c]|]; [|done].
  apply bind_ok in E as (? & _ & E). apply bind_ok in E as ([rec cur] & _ & E).
  apply bind_ok in E as (? & _ & E). apply bind_ok in E as (? & _ & E).
  apply bind_ok in E as (? & _ & E). apply bind_ok in E as (? & _ & E).
  by apply bind_ok in E as (? & [=] & E).
Qed.

Lemma status_not_isolated st actor d :
  status workspace_id st actor = Ok d → get d "actor_os_isolation_proven" = JBool false.
Proof.
  unfold status. intros Hs. apply bind_ok in Hs as (? & _ & Hs).
  destruct (key_file (dir st actor)).
  - apply bind_ok in Hs as ([record v] & _ & Hs%Ok_inj). subst d. reflexivity.
  - apply Ok_inj in Hs. subst d. reflexivity.
Qed.

(** ** Bootstrap *)

Definition bootstrapped (st : store) (actor : string) : Prop :=
  ∃ text, key_file (dir st actor) = Some text.

Lemma bootstrap_inv now actor secret st s st' :
  bootstrap plat workspace_id now actor secret st = (Ok s, st') →
  key_file (dir st actor) = None ∧ is_Some (guard_file (dir st actor)) ∧
  agent_id_ok actor = true ∧
  ∃ p, _dpapi_protect plat (_derive_key workspace_id actor secret)
         (_entropy workspace_id actor) = Ok p ∧
  st' = <[actor := ActorDir (Some (json_line (key_record plat workspace_id actor p now)))
            None (used (dir st actor))]> st ∧ status workspace_id st' actor = Ok s.
Proof.
  unfold bootstrap. intros Hb. apply M_bind_ok in Hb as (sec & w & [Hsec ->]%liftM_ok & Hb).
  apply M_bind_ok in Hb as (? & w & [Ha%agent_dir_ok ->]%liftM_ok & Hb).
  apply M_bind_ok in Hb as (d & w & [-> ->]%readM_ok & Hb).
  apply M_bind_ok in Hb as (? & w & [Hk ->]%raise_ifM_ok & Hb).
  apply M_bind_ok in Hb as (? & w & [Hg ->]%raise_ifM_ok & Hb).
  apply M_bind_ok in Hb as (g & w & [Hrg ->]%liftM_ok & Hb).
  apply M_bind_ok in Hb as (? & w & [_ ->]%liftM_ok & Hb).
  apply M_bind_ok in Hb as (p & w & [Hp ->]%liftM_ok & Hb).
  apply M_bind_ok in Hb as (? & w & ->%modifyM_ok & Hb). apply askM_ok in Hb as [Hs ->].
  assert (sec = secret) as ->.
  { unfold _secret_bytes in Hsec. by destruct (_ <? _)%nat; [|injection Hsec as <-]. }
  bool_split. split_and!; [by apply eq_None_not_Some|by apply not_eq_None_Some|done|by exists p].
Qed.

(** a guard bootstraps its actor once: success needs a guard and no key,
    removes the guard and writes version 1 of the key; afterwards neither
    [bootstrap] nor [provision_guard] succeeds for the actor, and neither
    changes the store. *)
Theorem bootstrap_is_one_time now actor secret st s st' :
  bootstrap plat workspace_id now actor secret st = (Ok s, st') →
  is_Some (guard_file (dir st actor)) ∧ guard_file (dir st' actor) = None ∧
  get s "state" = JStr "provisioned" ∧ get s "key_version" = JInt 1 ∧
  ∀ now' secret',
    (∃ e, bootstrap plat workspace_id now' actor secret' st' = (Err e, st')) ∧
    (∃ e, provision_guard workspace_id now' actor secret' st' = (Err e, st')).
Proof.
  intros (Hk & Hg & Ha & p & _ & -> & Hs)%bootstrap_inv. rewrite dir_insert. cbn [guard_file].
  split_and!; [done|done|..].
  - unfold status in Hs. apply bind_ok in Hs as (? & _ & Hs). rewrite dir_insert in Hs.
    cbn [key_file] in Hs. apply bind_ok in Hs as ([rc v] & _ & Hs%Ok_inj). by subst s.
  - unfold status in Hs. apply bind_ok in Hs as (? & _ & Hs). rewrite dir_insert in Hs.
    cbn [key_file] in Hs. apply bind_ok in Hs as ([rc v] & Hr & Hs%Ok_inj). subst s.
    unfold _record in Hr. apply bind_ok in Hr as (? & _ & Hr). rewrite dir_insert in Hr.
    cbn [key_file] in Hr. rewrite read_json_line_spaced in Hr by (by apply floats_ok_dict_of).
    apply bind_ok in Hr as (d & Hd%Ok_inj & Hr). subst d.
    apply bind_ok in Hr as (v' & Hc & Hr%Ok_inj). injection Hr as <- <-.
    apply check_record_inv in Hc as (? & ? & Hv & _). injection Hv as <-. reflexivity.
  - intros now' secret'. split.
    + unfold bootstrap, mbind, M_bind, liftM, readM, raise_ifM. rewrite dir_insert.
      destruct (_secret_bytes secret'); [|by eexists].
      rewrite (proj2 (agent_dir_ok actor tt) Ha). by eexists.
    + unfold provision_guard, mbind, M_bind, liftM, readM, raise_ifM. rewrite dir_insert.
      destruct (_secret_bytes secret'); [|by eexists].
      rewrite (proj2 (agent_dir_ok actor tt) Ha). by eexists.
Qed.
End lifecycle.

(** ** Rotation *)

Section rotation.
Context `{Hashing} (plat : platform) (workspace_id : string).

Definition retired_entry (bound : Z) (x : json) : Prop :=
  ∃ r k, x = JObj r ∧ get r "key_version" = JInt k ∧ 1 ≤ k < bound.

Lemma retired_ok_inv z seen x seen' :
  retired_ok z seen x = Ok seen' →
  ∃ r k, x = JObj r ∧ get r "key_version" = JInt k ∧ 1 ≤ k < z ∧ seen' = k :: seen ∧ k ∉ seen ∧
  retired_ok (z + 1) seen x = Ok seen'.
Proof.
  unfold retired_ok. destruct x as [| | | | | |r]; try done.
  destruct (get r "key_version") as [| |k| | | |] eqn:Ek; try done. intros Hr.
  destruct ((1 <=? k) && (k <? z) && negb (bool_decide (k ∈ seen)) && _) eqn:E; [|done].
  injection Hr as <-. bool_split. exists r, k. split_and!; try done.
  cbv beta iota. rewrite (proj2 (Z.leb_le 1 k)), (proj2 (Z.ltb_lt k (z + 1))) by lia.
  rewrite bool_decide_eq_false_2 by done. cbn [andb negb].
  destruct (get r "protected_key"); try done. by case_bool_decide.
Qed.

Lemma retired_fold z l : ∀ seen seen',
  res_foldl (retired_ok z) seen l = Ok seen' →
  Forall (retired_entry z) l ∧ (Forall (λ k, k < z) seen → Forall (λ k, k < z) seen') ∧
  res_foldl (retired_ok (z + 1)) seen l = Ok seen'.
Proof.
  induction l as [|x l IH]; cbn [res_foldl]; intros seen seen' Hf.
  - apply Ok_inj in Hf as <-. by split_and!.
  - apply bind_ok in Hf as (s1 & Hx & Hf). apply retired_ok_inv in Hx as (r & k & -> & Hk & Hkz & -> & Hin & Hx).
    destruct (IH _ _ Hf) as (Hall & Hs & Hf'). split_and!.
    + constructor; [by exists r, k|done].
    + intros Hseen. apply Hs. constructor; [lia|done].
    + rewrite Hx. exact Hf'.
Qed.

Lemma retired_ok_new v seen s :
  1 ≤ v → v ∉ seen → s ≠ "" →
  retired_ok (v + 1) seen (jobj [("key_version", JInt v); ("protected_key", JStr s)])
  = Ok (v :: seen).
Proof.
  intros Hv Hin Hs. unfold retired_ok, jobj. set (r := list_to_map _).
  change (get r "key_version") with (JInt v). change (get r "protected_key") with (JStr s).
  cbv beta iota. rewrite (proj2 (Z.leb_le 1 v)), (proj2 (Z.ltb_lt v (v + 1))) by lia.
  by rewrite !bool_decide_eq_false_2.
Qed.

Lemma check_rotated actor record v s p now :
  check_record workspace_id actor record = Ok v → s ≠ "" →
  check_record workspace_id actor (rotated_record record v (JStr s) p now) = Ok (v + 1).
Proof.
  intros (l & seen & Hv & Hl & Hw & Ha & Hsv & Hpos & Hf)%check_record_inv Hs.
  destruct (retired_fold v l [] seen Hf) as (_ & Hlt & Hf').
  specialize (Hlt (Forall_nil_2 _)).
  unfold rotated_record. rewrite Hl. set (rotated := merge_dict record _).
  assert (Hget : ∀ k, k ∈ ["workspace_id"; "actor"; "schema_version"] → get rotated k = get record k).
  { intros k Hk. unfold rotated. rewrite get_merge_dict.
    repeat (apply elem_of_cons in Hk as [->|Hk]; [reflexivity|]). by apply elem_of_nil in Hk. }
  unfold check_record. assert (get rotated "key_version" = JInt (v + 1)) as ->
    by (unfold rotated; by rewrite get_merge_dict).
  assert (retired_keys rotated = JList (l ++ [jobj [("key_version", JInt v); ("protected_key", JStr s)]])) as ->.
  { unfold retired_keys, get_or, rotated. by rewrite lookup_merge_dict. }
  rewrite !Hget, Hw, Ha by by_compute. rewrite !py_neq_self_str.
  unfold py_neq. rewrite Hsv, (proj2 (Z.ltb_ge (v + 1) 1)) by lia.
  cbn [negb orb raise_if mbind res_bind]. rewrite res_foldl_app, Hf'. cbn [mbind res_bind res_foldl].
  rewrite retired_ok_new; [reflexivity|done| |done].
  intros Hin. rewrite Forall_forall in Hlt. specialize (Hlt v Hin). lia.
Qed.

(** A key record as [bootstrap] and [rotate] write it. *)
Definition clean_record (st : store) (actor : string) : Prop :=
  ∀ record v, _record workspace_id st actor = Ok (record, v) →
  floats_ok (JObj record) = true ∧ ∃ s, get record "protected_key" = JStr s.

Lemma rotate_inv now rot actor token secret st s st' :
  rotate plat workspace_id now rot actor token secret st = (Ok s, st') →
  ∃ receipt record v p pk st1,
  verify_and_consume plat workspace_id now actor "capability.rotate" token None None JNull st
    = (Ok receipt, st1) ∧
  _record workspace_id st1 actor = Ok (record, v) ∧
  record !! "protected_key" = Some pk ∧
  _dpapi_protect plat (_derive_key workspace_id actor secret) (_entropy workspace_id actor) = Ok p ∧
  st' = <[actor := ActorDir (Some (atomic_write_json (rotated_record record v pk p rot)))
            (guard_file (dir st1 actor)) (used (dir st1 actor))]> st1 ∧
  status workspace_id st' actor = Ok s.
Proof.
  unfold rotate. intros Hb. apply M_bind_ok in Hb as (sec & w & [Hsec ->]%liftM_ok & Hb).
  apply M_bind_ok in Hb as (? & w & [Ha%agent_dir_ok ->]%liftM_ok & Hb).
  apply M_bind_ok in Hb as (receipt & st1 & Hv & Hb).
  apply M_bind_ok in Hb as ([record v] & w & [Hr ->]%askM_ok & Hb).
  apply M_bind_ok in Hb as (? & w & [Hk ->]%raise_ifM_ok & Hb).
  apply M_bind_ok in Hb as (p & w & [Hp ->]%liftM_ok & Hb).
  apply M_bind_ok in Hb as (pk & w & [Hpk ->]%liftM_ok & Hb).
  apply M_bind_ok in Hb as (d & w & [-> ->]%readM_ok & Hb).
  apply M_bind_ok in Hb as (? & w & ->%modifyM_ok & Hb). apply askM_ok in Hb as [Hs ->].
  assert (sec = secret) as ->.
  { unfold _secret_bytes in Hsec. by destruct (_ <? _)%nat; [|injection Hsec as <-]. }
  unfold item in Hpk. destruct (record !! "protected_key") eqn:E; [|done]. injection Hpk as ->.
  exists receipt, record, v, p, pk, st1. done.
Qed.

Lemma verify_dir now actor op token t r n st receipt st1 :
  verify_and_consume plat workspace_id now actor op token t r n st = (Ok receipt, st1) →
  key_file (dir st1 actor) = key_file (dir st actor) ∧
  ∀ m x, used (dir st actor) !! m = Some x → used (dir st1 actor) !! m = Some x.
Proof.
  intros (marker & _ & Hfresh & ->)%verify_inv. rewrite dir_insert. split; [done|].
  intros m x Hm. cbn [used]. rewrite lookup_insert_ne; [done|]. intros <-. congruence.
Qed.

(** The state after a rotation, in terms of the record before it. *)
Lemma rotated_state now rot actor token secret st s st' :
  rotate plat workspace_id now rot actor token secret st = (Ok s, st') →
  clean_record st actor →
  ∃ record v sp p, _record workspace_id st actor = Ok (record, v) ∧
  get record "protected_key" = JStr sp ∧
  _record workspace_id st' actor = Ok (rotated_record record v (JStr sp) p rot, v + 1) ∧
  (∀ m x, used (dir st actor) !! m = Some x → used (dir st' actor) !! m = Some x).
Proof.
  intros (receipt & record & v & p & pk & st1 & Hv & Hr & Hpk & _ & -> & _)%rotate_inv Hclean.
  destruct (verify_dir _ _ _ _ _ _ _ _ _ _ Hv) as [Hkf Hused].
  pose proof (record_same_key workspace_id st st1 actor Hkf) as Hsame.
  rewrite Hsame in Hr. destruct (Hclean _ _ Hr) as [Hfl [sp Hsp]].
  assert (pk = JStr sp) as -> by (unfold get in Hsp; by rewrite Hpk in Hsp).
  exists record, v, sp, p. rewrite dir_insert. split_and!; [done|done| |done].
  assert (Hspne : sp ≠ "").
  { intros ->. destruct (verify_inv _ _ _ _ _ _ _ _ _ _ _ _ Hv) as (mk & Hcp & _).
    apply check_proof_inv in Hcp as (body & sg & payload & record' & v' & key & b & i & x & nonce
      & _ & _ & Hr' & Hk' & _). rewrite Hr in Hr'. injection Hr' as <- <-.
    unfold _key, get_or in Hk'. by rewrite Hpk in Hk'. }
  unfold _record in Hr |- *. apply bind_ok in Hr as (u & Ha & Hr). rewrite Ha, dir_insert.
  cbn [mbind res_bind key_file]. destruct (key_file (dir st actor)) as [text|]; [|done].
  apply bind_ok in Hr as (rec & Hrd & Hr). apply bind_ok in Hr as (v' & Hc & Hr%Ok_inj).
  injection Hr as -> ->. rewrite read_written.
  - cbn [mbind res_bind]. erewrite check_rotated; [reflexivity|exact Hc|exact Hspne].
  - apply floats_ok_merge; [done|]. apply floats_ok_dict_of. cbn [forallb snd].
    rewrite !andb_true_iff. split_and!; try reflexivity. apply floats_ok_list, Forall_app.
    split; [|by apply Forall_singleton].
    apply check_record_inv in Hc as (l & ? & _ & Hl & _). rewrite Hl.
    unfold retired_keys, get_or in Hl. rewrite floats_ok_obj in Hfl.
    destruct (record !! "retired_receipt_keys") as [y|] eqn:E.
    + cbn in Hl. subst y. apply Hfl in E. by apply floats_ok_list in E.
    + injection Hl as <-. constructor.
Qed.

Lemma check_record_of st actor record v :
  _record workspace_id st actor = Ok (record, v) → check_record workspace_id actor record = Ok v.
Proof.
  unfold _record. intros Hr. apply bind_ok in Hr as (? & _ & Hr).
  destruct (key_file (dir st actor)); [|done]. apply bind_ok in Hr as (rec & _ & Hr).
  apply bind_ok in Hr as (v' & Hc & Hr%Ok_inj). by injection Hr as <- <-.
Qed.

(** The key a receipt was signed with is still found after a rotation. *)
Lemma receipt_key_rotated actor record v sp p rot version key :
  check_record workspace_id actor record = Ok v → get record "protected_key" = JStr sp →
  _receipt_key plat workspace_id actor record v version = Ok key →
  _receipt_key plat workspace_id actor (rotated_record record v (JStr sp) p rot) (v + 1) version
    = Ok key.
Proof.
  intros (l & seen & Hv & Hl & _ & _ & _ & Hpos & Hf)%check_record_inv Hsp.
  destruct (retired_fold v l [] seen Hf) as (Hall & _ & _). unfold _receipt_key.
  assert (retired_keys (rotated_record record v (JStr sp) p rot) =
    JList (l ++ [jobj [("key_version", JInt v); ("protected_key", JStr sp)]])) as ->.
  { unfold retired_keys, get_or, rotated_record. by rewrite lookup_merge_dict, Hl. }
  rewrite Hl, find_first_app.
  assert (Hold : ∀ i, find_first (λ item, match item with JObj i =>
    py_eq (get i "key_version") (JInt version) | _ => false end) l = Some i → 1 ≤ version < v).
  { intros i [Hin Hi]%find_first_Some. rewrite Forall_forall in Hall.
    destruct (Hall i Hin) as (r & k & -> & Hk & ?). rewrite Hk in Hi. cbn in Hi. bool_split. lia. }
  destruct (v =? version) eqn:E.
  - bool_split. subst version. rewrite (proj2 (Z.eqb_neq (v + 1) v)) by lia.
    destruct (find_first _ l) as [i|] eqn:Ef; [specialize (Hold i eq_refl); lia|].
    cbn [find_first]. unfold jobj. set (r := list_to_map _).
    change (get r "key_version") with (JInt v). rewrite (proj2 (Z.eqb_eq v v) eq_refl : py_eq (JInt v) (JInt v) = true).
    change (get_or r "protected_key" (JStr "")) with (JStr sp).
    unfold _key, get_or. unfold get in Hsp. destruct (record !! "protected_key"); [|done].
    cbn in Hsp. by subst.
  - bool_split. destruct (find_first _ l) as [i|] eqn:Ef; [|done].
    specialize (Hold i eq_refl). rewrite (proj2 (Z.eqb_neq (v + 1) version)) by lia. done.
Qed.

(** rotating the key loses no history: every receipt that validated before
    the rotation validates after it. *)
Theorem receipts_survive_rotation now rot actor token secret st s st' receipt op t r n :
  rotate plat workspace_id now rot actor token secret st = (Ok s, st') →
  clean_record st actor →
  validate_receipt plat workspace_id st (JObj receipt) actor op t r n false = Ok receipt →
  validate_receipt plat workspace_id st' (JObj receipt) actor op t r n false = Ok receipt.
Proof.
  intros Hrot Hclean Hv.
  destruct (rotated_state _ _ _ _ _ _ _ _ Hrot Hclean) as (record & v & sp & p & Hr & Hsp & Hr' & Hused).
  unfold validate_receipt in *. apply bind_ok in Hv as (b & -> & Hv). cbn [mbind res_bind].
  apply bind_ok in Hv as (u & -> & Hv). cbn [mbind res_bind].
  destruct (get receipt "nonce_sha256"); try done.
  destruct (receipt_times receipt) as [[version consumed]|]; [|done].
  apply bind_ok in Hv as (u2 & -> & Hv). cbn [mbind res_bind].
  rewrite Hr in Hv. rewrite Hr'. cbn [mbind res_bind] in Hv |- *.
  apply bind_ok in Hv as (key & Hk & Hv).
  rewrite (receipt_key_rotated _ _ _ _ _ _ _ _ (check_record_of _ _ _ _ Hr) Hsp Hk).
  cbn [mbind res_bind]. apply bind_ok in Hv as (sg & -> & Hv). cbn [mbind res_bind].
  apply bind_ok in Hv as (u3 & -> & Hv). cbn [mbind res_bind].
  apply bind_ok in Hv as (u4 & Hm & Hv).
  destruct (used (dir st actor) !! marker_digest workspace_id actor op s0 version) as [x|] eqn:Eu.
  - apply Hused in Eu. by rewrite Eu, Hm.
  - unfold check_marker in Hm. apply bind_ok in Hm as (m & Hm & _). discriminate Hm.
Qed.

End rotation.

(** What [bootstrap] writes is clean, and [rotate] keeps it so. *)
Section clean.
Context `{Hashing} (plat : platform) (workspace_id : string).

Lemma bootstrap_clean now actor secret st s st' :
  bootstrap plat workspace_id now actor secret st = (Ok s, st') → clean_record workspace_id st' actor.
Proof.
  intros (_ & _ & _ & p & _ & -> & _)%bootstrap_inv record v Hr. unfold _record in Hr.
  rewrite dir_insert in Hr. cbn [key_file] in Hr. apply bind_ok in Hr as (? & _ & Hr).
  rewrite read_json_line_spaced in Hr by (by apply floats_ok_dict_of).
  apply bind_ok in Hr as (d & Hd%Ok_inj & Hr). subst d.
  apply bind_ok in Hr as (v' & _ & Hr%Ok_inj). injection Hr as <- <-.
  split; [by apply floats_ok_dict_of|by eexists].
Qed.

Lemma rotate_clean now rot actor token secret st s st' :
  rotate plat workspace_id now rot actor token secret st = (Ok s, st') →
  clean_record workspace_id st actor → clean_record workspace_id st' actor.
Proof.
  intros Hrot Hclean record' v' Hr'.
  destruct (rotated_state _ _ _ _ _ _ _ _ _ _ Hrot Hclean) as (record & v & sp & p & Hr & Hsp & E & _).
  rewrite E in Hr'. injection Hr' as <- <-. destruct (Hclean _ _ Hr) as [Hfl _].
  pose proof (check_record_of _ _ _ _ _ Hr) as Hc.
  apply check_record_inv in Hc as (l & seen & _ & Hl & _). split.
  - apply floats_ok_merge; [done|]. apply floats_ok_dict_of. cbn [forallb snd]. rewrite Hl.
    rewrite !andb_true_iff. split_and!; try reflexivity. apply floats_ok_list, Forall_app.
    split; [|by apply Forall_singleton]. rewrite floats_ok_obj in Hfl.
    unfold retired_keys, get_or in Hl. destruct (record !! "retired_receipt_keys") as [y|] eqn:Ey.
    + cbn in Hl. subst y. apply Hfl in Ey. by apply floats_ok_list in Ey.
    + injection Hl as <-. constructor.
  - unfold rotated_record. rewrite get_merge_dict. by eexists.
Qed.
End clean.

(** ** A concrete store *)

Definition plat_1 : platform := Platform false
  (dict_of [("platform", JStr "linux"); ("effective_uid", JInt 1000); ("effective_gid", JInt 1000)])
  (λ v _, Ok v) (λ v _, Ok v).
Definition ws_1 : string := "0f0e0d0c0b0a09080706050403020100".
Definition secret_1 : string := "correct horse battery staple 0001".
Definition secret_2 : string := "correct horse battery staple 0002".
Definition nonce_1 : string := "00112233445566778899aabbccddeeff0011223344556677".

Definition guarded_1 : store := snd (provision_guard ws_1 1000 "codex" secret_1 ∅).
Definition booted_1 : store := snd (bootstrap plat_1 ws_1 1001 "codex" secret_1 guarded_1).
Definition token_for (op : string) : string :=
  match mint plat_1 ws_1 booted_1 1002 nonce_1 "codex" op secret_1 DEFAULT_TTL_SECONDS ""
          None None JNull with Ok t => t | Err _ => "" end.
Definition consume_1 : res dict * store :=
  verify_and_consume plat_1 ws_1 1003 "codex" "task.add" (token_for "task.add") None None JNull booted_1.
Definition receipt_of (p : res dict * store) : dict :=
  match p with (Ok r, _) => r | (Err _, _) => ∅ end.

Lemma consume_1_ok : consume_1 = (Ok (receipt_of consume_1), snd consume_1).
Proof.
  assert (is_ok (fst consume_1) = true) as H by (vm_compute; reflexivity). revert H.
  generalize consume_1. by intros [[r|e] st].
Qed.

Lemma bootstrap_1_ok :
  ∃ s, bootstrap plat_1 ws_1 1001 "codex" secret_1 guarded_1 = (Ok s, booted_1).
Proof.
  unfold booted_1. assert (is_ok (fst (bootstrap plat_1 ws_1 1001 "codex" secret_1 guarded_1)) = true)
    as H by (vm_compute; reflexivity). revert H.
  generalize (bootstrap plat_1 ws_1 1001 "codex" secret_1 guarded_1). intros [[s|e] st] H; [by exists s|done].
Qed.

Definition receipt_1 : dict := receipt_of consume_1.
Definition store_1 : store := snd consume_1.

Lemma consume_run :
  verify_and_consume plat_1 ws_1 1003 "codex" "task.add" (token_for "task.add") None None JNull booted_1
  = (Ok receipt_1, store_1).
Proof. unfold receipt_1, store_1. rewrite <- consume_1_ok. unfold consume_1. reflexivity. Qed.
Lemma mint_run :
  mint plat_1 ws_1 booted_1 1002 nonce_1 "codex" "task.add" secret_1 DEFAULT_TTL_SECONDS ""
    None None JNull = Ok (token_for "task.add").
Proof.
  unfold token_for. assert (is_ok (mint plat_1 ws_1 booted_1 1002 nonce_1 "codex" "task.add" secret_1
    DEFAULT_TTL_SECONDS "" None None JNull) = true) as H by (vm_compute; reflexivity).
  revert H. generalize (mint plat_1 ws_1 booted_1 1002 nonce_1 "codex" "task.add" secret_1
    DEFAULT_TTL_SECONDS "" None None JNull). intros [t|e] H; [reflexivity|discriminate H].
Qed.

#[local] Opaque receipt_1 store_1 booted_1 guarded_1 token_for.


Theorem accepted_proof_is_authorized_witness :
  get receipt_1 "actor" = JStr "codex" ∧
  get receipt_1 "operation" = JStr "task.add".
Proof.
  destruct (accepted_proof_is_authorized plat_1 ws_1 1003 "codex" "task.add" (token_for "task.add")
    None None JNull booted_1 receipt_1 store_1 consume_run)
    as (? & ? & ? & ? & ? & ? & ? & ? & _ & _ & _ & _ & _ & _ & _ & _ & _ & _ & _ & _ & _ & ? & ? & _).
  split; assumption.
Defined.

Theorem minted_proof_round_trip_witness :
  ∃ receipt st', verify_and_consume plat_1 ws_1 1100 "codex" "task.add" (token_for "task.add")
    None None JNull booted_1 = (Ok receipt, st').
Proof.
  destruct (minted_proof_round_trip plat_1 ws_1 booted_1 1002 nonce_1 "codex" "task.add" secret_1
    DEFAULT_TTL_SECONDS "" None None JNull (token_for "task.add") 1100) as (receipt & st' & H & _).
  - exact mint_run.
  - unfold DEFAULT_TTL_SECONDS. lia.
  - vm_compute. lia.
  - intros body sg Hs.
    assert (match split_token (token_for "task.add") with
            | Ok (b, _) => utf8_valid b | Err _ => false end = true) as H by (vm_compute; reflexivity).
    rewrite Hs in H. exact H.
  - intros v. assert (used (dir booted_1 "codex") = ∅) as -> by (vm_compute; reflexivity).
    apply lookup_empty.
  - exists receipt, st'. exact H.
Defined.

Theorem bootstrap_is_one_time_witness :
  ∃ e, provision_guard ws_1 2000 "codex" secret_2 booted_1 = (Err e, booted_1).
Proof.
  destruct bootstrap_1_ok as [s Hs].
  destruct (bootstrap_is_one_time plat_1 ws_1 1001 "codex" secret_1 guarded_1 s booted_1 Hs)
    as (_ & _ & _ & _ & H).
  exact (proj2 (H 2000 secret_2)).
Defined.

Definition rotate_1 : res dict * store :=
  rotate plat_1 ws_1 1010 1010 "codex" (token_for "capability.rotate") secret_2 store_1.
Definition rotated_1 : store := snd rotate_1.

Lemma rotate_run :
  ∃ s, rotate plat_1 ws_1 1010 1010 "codex" (token_for "capability.rotate") secret_2 store_1
       = (Ok s, rotated_1).
Proof.
  assert (is_ok (fst rotate_1) = true) as H by (vm_compute; reflexivity). revert H.
  unfold rotated_1, rotate_1. generalize (rotate plat_1 ws_1 1010 1010 "codex"
    (token_for "capability.rotate") secret_2 store_1).
  intros [[r|e] st] H; [by exists r|discriminate H].
Qed.

Lemma validate_run :
  validate_receipt plat_1 ws_1 store_1 (JObj receipt_1) "codex" "task.add" None None JNull false
  = Ok receipt_1.
Proof.
  assert (is_ok (validate_receipt plat_1 ws_1 store_1 (JObj receipt_1) "codex" "task.add"
    None None JNull false) = true) as H by (vm_compute; reflexivity).
  revert H. generalize receipt_1. intros d H. destruct (validate_receipt _ _ _ _ _ _ _ _ _ _)
    as [x|] eqn:E; [|discriminate H]. clear H. f_equal. unfold validate_receipt in E.
  repeat (apply bind_ok in E as (? & _ & E) ||
    match type of E with match ?x with _ => _ end = _ => destruct x; try discriminate E end).
  by apply Ok_inj in E.
Qed.
#[local] Opaque rotated_1.

Theorem receipts_survive_rotation_witness :
  validate_receipt plat_1 ws_1 rotated_1 (JObj receipt_1) "codex" "task.add" None None JNull false
  = Ok receipt_1.
Proof.
  destruct rotate_run as [r Hr]. destruct bootstrap_1_ok as [s Hs].
  apply (receipts_survive_rotation plat_1 ws_1 1010 1010 "codex" (token_for "capability.rotate") secret_2
    store_1 r rotated_1 receipt_1 "task.add" None None JNull Hr).
  - pose proof (bootstrap_clean _ _ _ _ _ _ _ _ Hs) as Hc.
    intros record v Hrec. apply (Hc record v). rewrite <- Hrec. symmetry. apply record_same_key.
    exact (proj1 (verify_dir _ _ _ _ _ _ _ _ _ _ _ _ consume_run)).
  - exact validate_run.
Defined.
