(* ===== verification/Workspace.v ===== *)
(** * The workspace broker ([workspace.py]): agents, tasks and leases

    The world is what the broker reads and writes: the configuration file, the
    ledger, the agent and task files by file name, the capability store of the
    workspace and the evidence files; [w_log] is a history variable, the events
    [Ledger.append] has returned so far.  The clock and the random source are
    streams indexed by a counter in the world, so that every reading is a new
    one.  An operation runs under its lock as one step; an exception keeps what
    was done before it. *)

From S2P Require Export Ledger Lifecycle Independence Capability Evidence Archive.

Record world := World {
  w_config : option string;
  w_ledger : ledger;
  w_agents : gmap string string;
  w_tasks : gmap string string;
  w_caps : gmap string actor_dir;
  w_fs : fs;
  w_tick : nat;
  w_log : list dict
}.

Definition set_config x w := World x (w_ledger w) (w_agents w) (w_tasks w) (w_caps w) (w_fs w) (w_tick w) (w_log w).
Definition set_ledger x w := World (w_config w) x (w_agents w) (w_tasks w) (w_caps w) (w_fs w) (w_tick w) (w_log w).
Definition set_agents x w := World (w_config w) (w_ledger w) x (w_tasks w) (w_caps w) (w_fs w) (w_tick w) (w_log w).
Definition set_tasks x w := World (w_config w) (w_ledger w) (w_agents w) x (w_caps w) (w_fs w) (w_tick w) (w_log w).
Definition set_caps x w := World (w_config w) (w_ledger w) (w_agents w) (w_tasks w) x (w_fs w) (w_tick w) (w_log w).
Definition set_fs x w := World (w_config w) (w_ledger w) (w_agents w) (w_tasks w) (w_caps w) x (w_tick w) (w_log w).
Definition set_tick x w := World (w_config w) (w_ledger w) (w_agents w) (w_tasks w) (w_caps w) (w_fs w) x (w_log w).
Definition set_log x w := World (w_config w) (w_ledger w) (w_agents w) (w_tasks w) (w_caps w) (w_fs w) (w_tick w) x.

(** A computation on a part of the world. *)
Definition zoomM {S A} (get : world → S) (set : S → world → world) (m : M S A) : M world A :=
  λ w, let '(r, s) := m (get w) in (r, set s w).

(** A transaction: it changes the world only when it succeeds. *)
Definition transactM {A} (f : world → res (A * world)) : M world A :=
  λ w, match f w with Ok (a, w') => (Ok a, w') | Err e => (Err e, w) end.

(** The environment: the [k]-th reading of the clock in seconds and the [k]-th
    draw of [secrets.token_hex(n)], the root directory, and the platform. *)
Record environment := Environment {
  clock : nat → Z;
  token_hex : nat → nat → string;
  root : string;
  plat : platform
}.

Definition CONFIG_VERSION : Z := 1.

(** [value or default] for an optional argument. *)
Definition or_str (a b : string) : string := if bool_decide (a = "") then b else a.

(** An integer where the code computes with one; the operations write no other
    number there. *)
Definition as_int (v : json) : res Z := res_of_option (Exn TypeError "an integer is required") (int_of v).

Section primitives.
Context `{Hashing} (env : environment).

Definition tickM : M world nat := λ w, (Ok (w_tick w), set_tick (S (w_tick w)) w).
Definition utc_nowM : M world string := k ← tickM; mret (utc_now (clock env k)).
Definition epochM : M world Z := k ← tickM; mret (clock env k).
Definition token_hexM (n : nat) : M world string := k ← tickM; mret (token_hex env k n).

(** [self.ledger.append(...)] *)
Definition ledger_append (actor action : string) (task_id : json) (payload : dict) : M world dict :=
  now ← utc_nowM;
  transactM (λ w, '(event, l) ← append now (w_ledger w) actor action task_id payload;
                  Ok (event, set_log (w_log w ++ [event]) (set_ledger l w))).

Definition read_verifiedM : M world (list dict) := askM (λ w, read_verified (w_ledger w)).

(** ** Files of the workspace *)

Definition _agent_path (agent_id : string) : res string :=
  id ← validate_agent_id agent_id; Ok (id +:+ ".json").
Definition _task_path (task_id : string) : res string :=
  id ← validate_task_id task_id; Ok (id +:+ ".json").

(** The lock of a task is named by its validated identifier. *)
Definition _task_lock (task_id : string) : M world unit :=
  liftM (_ ← validate_task_id task_id; Ok tt).

Definition write_task (task_id : string) (record : dict) : M world unit :=
  path ← liftM (_task_path task_id);
  modifyM (λ w, set_tasks (<[path := atomic_write_json record]> (w_tasks w)) w).

Definition _write_agent (record : dict) : M world unit :=
  id ← liftM (v ← item record "id"; as_str v);
  path ← liftM (_agent_path id);
  modifyM (λ w, set_agents (<[path := atomic_write_json record]> (w_agents w)) w).

Definition _commit_agent (actor : string) (record : dict) : M world dict :=
  _ ← ledger_append actor "agent.added" JNull (dict_of [("agent", JObj record)]);
  _ ← _write_agent record;
  mret record.

Definition get_agent (agent_id : string) : M world dict :=
  path ← liftM (_agent_path agent_id);
  file ← readM (λ w, w_agents w !! path);
  _ ← raise_ifM (bool_decide (file = None)) ConfigurationError "Agent not found";
  liftM (read_json file).

Definition get_task (task_id : string) : M world dict :=
  path ← liftM (_task_path task_id);
  file ← readM (λ w, w_tasks w !! path);
  _ ← raise_ifM (bool_decide (file = None)) ConfigurationError "Task not found";
  liftM (read_json file).

(** [sorted(dir.glob("*.json"))], the readable records in that order. *)
Definition list_records (files : gmap string string) : list dict :=
  omap (λ p, match read_json (Some p.2) with Ok d => Some d | Err _ => None end)
    (List.filter (λ p, ends_with ".json" p.1) (sorted_items files)).
Definition list_agents (w : world) : list dict := list_records (w_agents w).
Definition list_tasks (w : world) : list dict := list_records (w_tasks w).
End primitives.

(** ** Opening and creating *)

Definition initialization_event (events : list dict) : option dict :=
  find_first (λ e, py_eq (get e "action") (JStr "workspace.initialized")) events.

(** [Workspace.__init__]: the configuration has to be the one of the signed
    [workspace.initialized] event. *)
Definition open_workspace `{Hashing} (w : world) : res dict :=
  _ ← raise_if (bool_decide (w_config w = None)) ConfigurationError
        "Not a valid Cogni-OS workspace";
  config ← read_json (w_config w);
  _ ← raise_if (py_neq (get config "schema_version") (JInt CONFIG_VERSION)) ConfigurationError
        "Unsupported workspace schema version";
  if bool_decide (is_Some (ledger_text (w_ledger w))) && bool_decide (is_Some (ledger_key (w_ledger w)))
  then
    events ← read (w_ledger w);
    if is_nil events then Ok config else
    _ ← verify (w_ledger w);
    expected_config ← (match initialization_event events with
                       | Some e => jget (get_or e "payload" (JObj ∅)) "config"
                       | None => Ok JNull
                       end);
    _ ← raise_if (py_neq expected_config (JObj config)) IntegrityError
          "Workspace configuration differs from the signed ledger";
    Ok config
  else Ok config.

Definition default_config (workspace_id name orchestrator created_at : string) : dict := dict_of
  [("schema_version", JInt CONFIG_VERSION); ("workspace_id", JStr workspace_id);
   ("name", JStr name); ("orchestrator", JStr orchestrator); ("created_at", JStr created_at);
   ("defaults", jobj
     [("lease_seconds", JInt 1800);
      ("permissions", jobj [("gpu", JBool false); ("performance_metrics", JBool false);
                            ("network", JBool false)]);
      ("gates", jobj [("require_validation", JBool true); ("allow_skips", JBool false);
                      ("require_known_answer_check", JBool true);
                      ("require_independent_verification", JBool true)]);
      ("max_evidence_bytes", JInt (50 * 1024 * 1024))])].

Definition agent_record (id role mode : string) (command : json) (created_at : string)
    (write_roots : list string) (identity : json) : dict := dict_of
  [("schema_version", JInt 2); ("id", JStr id); ("role", JStr role); ("mode", JStr mode);
   ("command", command); ("created_at", JStr created_at); ("write_roots", jstrs write_roots);
   ("identity", identity)].

(** [initialize]: an absent principal, family or preset is the empty string or
    [None]. *)
Definition initialize_workspace `{Hashing} (env : environment) (urandom name orchestrator
    control_principal model_family : string) (preset : option string) : M world dict :=
  existing ← readM w_config;
  _ ← raise_ifM (bool_decide (is_Some existing)) ConfigurationError "Workspace already initialized";
  orchestrator ← liftM (validate_agent_id orchestrator);
  workspace_id ← token_hexM env 16;
  created_at ← utc_nowM env;
  let config := default_config workspace_id (or_str (strip name) (path_name (root env)))
                  orchestrator created_at in
  _ ← modifyM (set_config (Some (atomic_write_json config)));
  config ← askM open_workspace;
  _ ← modifyM (λ w, set_ledger (initialize urandom (w_ledger w)) w);
  _ ← ledger_append env orchestrator "workspace.initialized" JNull (dict_of [("config", JObj config)]);
  orchestrator_identity ← liftM
    (if bool_decide (control_principal = "") && bool_decide (model_family = "") then Ok JNull else
     _ ← raise_if (bool_decide (control_principal = "") || bool_decide (model_family = ""))
           ConfigurationError "principal and family are required together";
     JObj <$> build_identity control_principal model_family JNull []);
  now ← utc_nowM env;
  _ ← _commit_agent env orchestrator (agent_record orchestrator "orchestrator" "manual" JNull now
        ["tasks"; "shared"; "archive"] orchestrator_identity);
  _ ← match preset with
      | None => mret tt
      | Some p =>
          if bool_decide (p = "cogni-codex-antigravity") then
            now ← utc_nowM env;
            worker ← liftM (build_identity "antigravity-executant" "google-antigravity" JNull []);
            _ ← _commit_agent env orchestrator
                  (agent_record "antigravity" "worker" "manual" JNull now [] (JObj worker));
            now ← utc_nowM env;
            verifier ← liftM (build_identity "antigravity-verifier-control"
                                "google-antigravity-verifier" JNull []);
            _ ← _commit_agent env orchestrator
                  (agent_record "antigravity-verifier" "verifier" "manual" JNull now [] (JObj verifier));
            mret tt
          else raiseM ConfigurationError "Unknown workspace preset"
      end;
  mret config.

(** ** Operations of an opened workspace *)

Section operations.
Context `{Hashing} (env : environment) (config : dict).

Definition orchestrator : string := str_of (get config "orchestrator").
Definition config_default (key : string) : res json :=
  d ← item config "defaults"; jitem d key.

(** [authority_for_workspace(self)] *)
Definition workspace_id : string := str_of (get config "workspace_id").

Definition authorize_actor_capability (actor operation : string) (capability_secret : option string)
    (require_actor_os_isolation : bool) (task_id run_id : option string) (task_attempt : json)
    : M world dict :=
  actor ← liftM (validate_agent_id actor);
  match capability_secret with
  | None => raiseM AuthorizationError "Actor capability credential is required"
  | Some secret =>
      posture ← askM (λ w, status workspace_id (w_caps w) actor);
      _ ← raise_ifM (py_neq (get posture "state") (JStr "provisioned")) AuthorizationError
            "CAPABILITY_UNPROVISIONED: privileged operation denied";
      _ ← raise_ifM (require_actor_os_isolation
                     && negb (truthy (get posture "actor_os_isolation_proven"))) AuthorizationError
            "CAPABILITY_UNATTESTED: release-critical operation";
      now ← epochM env;
      nonce ← token_hexM env 24;
      token ← askM (λ w, mint (plat env) workspace_id (w_caps w) now nonce actor operation secret
                           DEFAULT_TTL_SECONDS "" task_id run_id task_attempt);
      now ← epochM env;
      zoomM w_caps set_caps
        (verify_and_consume (plat env) workspace_id now actor operation token task_id run_id
           task_attempt)
  end.

(** The identity of a new agent: of the alias target, or of the given pair. *)
Definition new_identity (alias_of control_principal model_family : string) : M world json :=
  if negb (bool_decide (alias_of = "")) then
    target_agent ← get_agent alias_of;
    _ ← raise_ifM (negb (truthy (get target_agent "identity"))) ConfigurationError
          "Alias target agent has no identity";
    liftM (identity ← as_dict (get target_agent "identity");
           cp ← (v ← item identity "control_principal"; as_str v);
           mf ← (v ← item identity "model_family"; as_str v);
           alias ← validate_agent_id alias_of;
           chain ← py_list (get_or identity "alias_chain" (JList []));
           JObj <$> build_identity cp mf (JStr alias) (JStr alias :: chain))
  else if bool_decide (control_principal = "") && bool_decide (model_family = "") then mret JNull
  else
    _ ← raise_ifM (bool_decide (control_principal = "") || bool_decide (model_family = ""))
          ConfigurationError "control_principal and model_family must be provided together";
    liftM (JObj <$> build_identity control_principal model_family JNull []).

Definition AGENT_ROLES : list string := ["orchestrator"; "worker"; "verifier"; "advisor"].
Definition AGENT_MODES : list string := ["manual"; "command"].

Definition add_agent (actor : string) (capability_secret : option string)
    (agent_id role mode : string) (command : json) (write_roots : list string)
    (control_principal model_family alias_of : string) : M world dict :=
  _ ← raise_ifM (negb (bool_decide (actor = orchestrator))) AuthorizationError
        "Only the orchestrator can register agents";
  _ ← authorize_actor_capability actor "agent.add" capability_secret false None None JNull;
  target_id ← liftM (validate_agent_id agent_id);
  path ← liftM (_agent_path target_id);
  existing ← readM (λ w, w_agents w !! path);
  _ ← raise_ifM (bool_decide (is_Some existing)) ConfigurationError "Agent already exists";
  _ ← raise_ifM (negb (bool_decide (role ∈ AGENT_ROLES))) ConfigurationError "Invalid agent role";
  _ ← raise_ifM (negb (bool_decide (mode ∈ AGENT_MODES))) ConfigurationError "Invalid agent mode";
  identity ← new_identity alias_of control_principal model_family;
  now ← utc_nowM env;
  _commit_agent env actor (agent_record target_id role mode command now write_roots identity).

(** The prerequisites of a new task: valid, distinct, not the task itself, and
    existing. *)
Definition check_prerequisites (target_id : string) (prerequisites : list string)
    : M world (list string) :=
  normalized ← liftM (res_mapM validate_task_id prerequisites);
  _ ← raise_ifM (bool_decide (target_id ∈ normalized)) ConfigurationError
        "A task cannot depend on itself";
  _ ← raise_ifM (negb (bool_decide (NoDup normalized))) ConfigurationError
        "Task prerequisites cannot contain duplicates";
  tasks ← readM w_tasks;
  _ ← raise_ifM (existsb (λ p, bool_decide (tasks !! (p +:+ ".json") = None)) normalized)
        ConfigurationError "Task prerequisites do not exist";
  mret normalized.

Definition add_task (actor : string) (capability_secret : option string)
    (task_id title description owner : string) (prerequisites allowed_write_roots : list string)
    (permissions gates : dict) (idempotency_key : string) : M world dict :=
  _ ← raise_ifM (negb (bool_decide (actor = orchestrator))) AuthorizationError
        "Only the orchestrator can create tasks";
  _ ← authorize_actor_capability actor "task.add" capability_secret false None None JNull;
  target_id ← liftM (validate_task_id task_id);
  path ← liftM (_task_path target_id);
  existing ← readM (λ w, w_tasks w !! path);
  _ ← raise_ifM (bool_decide (is_Some existing)) ConfigurationError "Task already exists";
  _ ← get_agent owner;
  normalized_prerequisites ← check_prerequisites target_id prerequisites;
  now ← utc_nowM env;
  record ← liftM (new_task now target_id title description owner actor normalized_prerequisites
                    allowed_write_roots permissions gates idempotency_key);
  _ ← ledger_append env actor "task.created" (JStr target_id) (dict_of [("task", JObj record)]);
  _ ← write_task target_id record;
  mret record.

(** ** Leases *)

Definition SATISFIED_STATES : list string := ["verified"; "archived"].

(** The prerequisites that are missing, unreadable or not verified. *)
Definition prerequisite_reason (prerequisite_id : json) : M world (list string) :=
  let id := str_of prerequisite_id in
  found ← catchM (prerequisite ← get_task id; mret (Some prerequisite)) ConfigurationError
            (λ _, mret None);
  match found with
  | None => mret [id +:+ ":missing"]
  | Some prerequisite =>
      satisfied ← liftM (in_strings (get prerequisite "state") SATISFIED_STATES);
      mret (if (satisfied : bool) then []
            else [id +:+ ":" +:+ str_of (get_or prerequisite "state" (JStr "unknown"))])
  end.

Fixpoint prerequisite_reasons (l : list json) : M world (list string) :=
  match l with
  | [] => mret []
  | p :: l => r ← prerequisite_reason p; rs ← prerequisite_reasons l; mret (r ++ rs)
  end.

Definition _unsatisfied_prerequisites (task : dict) : M world (list string) :=
  l ← liftM (py_list (get_or task "prerequisites" (JList [])));
  prerequisite_reasons l.

Definition new_lease (actor session_id issued_at token_hash expires_at : string) (duration : Z)
    : dict := dict_of
  [("holder", JStr actor); ("session_id", JStr session_id); ("issued_at", JStr issued_at);
   ("token_hash", JStr token_hash); ("expires_at", JStr expires_at);
   ("duration_seconds", JInt duration)].

(** The claim of a pending task whose prerequisites are verified. *)
Definition grant_lease (actor : string) (duration : Z) (task_id : string) (current : dict)
    : M world dict :=
  lease_token ← token_hexM env 16;
  issued_at ← utc_nowM env;
  session_id ← token_hexM env 16;
  expires_at ← liftM (lease_expiry duration issued_at);
  let lease := new_lease actor session_id issued_at (sha256_hex lease_token) expires_at duration in
  attempt ← liftM (a ← item current "attempt"; py_add1 a);
  now ← utc_nowM env;
  updated ← liftM (transition now current "claimed"
                     (dict_of [("attempt", attempt); ("lease", JObj lease)]));
  _ ← ledger_append env actor "task.claimed" (JStr task_id) (dict_of [("task", JObj updated)]);
  _ ← write_task task_id updated;
  mret (dict_of [("task", JObj updated); ("lease_token", JStr lease_token)]).

(** One candidate: [None] continues the loop. *)
Definition claim_candidate (actor : string) (explicit : bool) (duration : Z) (task : dict)
    : M world (option dict) :=
  owner ← liftM (item task "owner");
  if py_neq owner (JStr actor) then mret None else
  state ← liftM (item task "state");
  if py_neq state (JStr "pending") then mret None else
  id ← liftM (v ← item task "id"; as_str v);
  _ ← _task_lock id;
  current ← get_task id;
  state ← liftM (item current "state");
  if py_neq state (JStr "pending") then mret None else
  unsatisfied ← _unsatisfied_prerequisites current;
  if negb (is_nil unsatisfied) then
    if explicit then raiseM LeaseError "Task prerequisites are not verified" else mret None
  else
    claimed ← grant_lease actor duration id current;
    mret (Some claimed).

Fixpoint claim_first (actor : string) (explicit : bool) (duration : Z) (candidates : list dict)
    : M world dict :=
  match candidates with
  | [] => raiseM LeaseError "No matching claimable task available"
  | task :: candidates =>
      r ← claim_candidate actor explicit duration task;
      match r with
      | Some claimed => mret claimed
      | None => claim_first actor explicit duration candidates
      end
  end.

(** [claim]: a zero duration and an empty task name stand for [None]. *)
Definition claim (actor task_id : string) (lease_seconds : Z) : M world dict :=
  actor ← liftM (validate_agent_id actor);
  _ ← get_agent actor;
  duration ← liftM (if lease_seconds =? 0 then d ← config_default "lease_seconds"; as_int d
                    else Ok lease_seconds);
  let explicit := negb (bool_decide (task_id = "")) in
  candidates ← (if explicit then task ← get_task task_id; mret [task] else readM list_tasks);
  claim_first actor explicit duration candidates.

Definition _check_lease (task : dict) (actor lease_token : string) : M world unit :=
  let lease := get task "lease" in
  _ ← liftM (if negb (truthy lease) then raise LeaseError "Actor does not hold the lease for this task"
             else holder ← jitem lease "holder";
                  raise_if (py_neq holder (JStr actor)) LeaseError
                    "Actor does not hold the lease for this task");
  _ ← raise_ifM (negb (all_chars is_ascii lease_token)) UnicodeError "ordinal not in range(128)";
  same ← liftM (t ← jitem lease "token_hash"; t ← as_str t;
                compare_digest t (sha256_hex lease_token));
  _ ← raise_ifM (negb same) LeaseError "Invalid lease token";
  now ← utc_nowM env;
  expired ← liftM (lease_expired now task);
  raise_ifM expired LeaseError "Task lease has expired".

(** Record a new version of a task: in the ledger, then in its file. *)
Definition commit_task (actor action task_id : string) (extra : list (string * json)) (task : dict)
    : M world dict :=
  _ ← ledger_append env actor action (JStr task_id) (dict_of (("task", JObj task) :: extra));
  _ ← write_task task_id task;
  mret task.

Definition start (actor task_id lease_token : string) : M world dict :=
  _ ← _task_lock task_id;
  task ← get_task task_id;
  _ ← _check_lease task actor lease_token;
  now ← utc_nowM env;
  updated ← liftM (transition now task "running" ∅);
  commit_task actor "task.started" task_id [] updated.

Definition ACTIVE_STATES : list string := ["claimed"; "running"].

(** [heartbeat] assigns into the lease and the record it has read. *)
Definition heartbeat (actor task_id lease_token : string) : M world dict :=
  _ ← _task_lock task_id;
  task ← get_task task_id;
  _ ← _check_lease task actor lease_token;
  active ← liftM (s ← item task "state"; in_strings s ACTIVE_STATES);
  _ ← raise_ifM (negb active) TransitionError "Cannot heartbeat task in this state";
  lease ← liftM (l ← item task "lease"; as_dict l);
  duration ← liftM (d ← item lease "duration_seconds"; as_int d);
  now ← utc_nowM env;
  expires_at ← liftM (lease_expiry duration now);
  now ← utc_nowM env;
  let task := <["updated_at" := JStr now]>
                (<["lease" := JObj (<["expires_at" := JStr expires_at]> lease)]> task) in
  commit_task actor "task.heartbeat" task_id [] task.

Definition block (actor task_id lease_token reason : string) : M world dict :=
  _ ← _task_lock task_id;
  task ← get_task task_id;
  _ ← _check_lease task actor lease_token;
  now ← utc_nowM env;
  updated ← liftM (transition now task "blocked"
                     (dict_of [("lease", JNull); ("blocked_reason", JStr (strip reason))]));
  commit_task actor "task.blocked" task_id [("reason", JStr (strip reason))] updated.

Definition subdir (name child : string) : string := root env +:+ "/" +:+ name +:+ "/" +:+ child.

Definition submit (actor task_id lease_token report_path evidence_path : string) : M world dict :=
  _ ← _task_lock task_id;
  task ← get_task task_id;
  _ ← _check_lease task actor lease_token;
  permissions ← liftM (p ← item task "permissions"; as_dict p);
  gates ← liftM (g ← item task "gates"; as_dict g);
  validated ← askM (λ w, validate_submission (w_fs w) (Some (subdir "reports" actor))
                           (resolve_path (w_fs w) report_path) (resolve_path (w_fs w) evidence_path)
                           permissions gates);
  worker_agent ← get_agent actor;
  worker_identity ← liftM (identity_snapshot actor (get worker_agent "identity"));
  submitted_at ← utc_nowM env;
  let result := jobj [("submitted_at", JStr submitted_at); ("submitted_by", JStr actor);
                      ("report", get validated "report"); ("manifest", get validated "manifest")] in
  now ← utc_nowM env;
  updated ← liftM (transition now task "submitted" (dict_of [("lease", JNull); ("result", result)]));
  report ← liftM (as_dict (get validated "report"));
  manifest ← liftM (as_dict (get validated "manifest"));
  attempt ← liftM (item updated "attempt");
  mx ← liftM (v ← config_default "max_evidence_bytes"; as_int v);
  bundle ← zoomM w_fs set_fs
    (archive_evidence_bundle (root env +:+ "/submissions") task_id attempt "worker" (Some report)
       manifest mx []);
  commit_task actor "task.submitted" task_id
    [("worker_identity", opt_obj worker_identity); ("bundle", JObj bundle)] updated.

(** ** Recovery of a lease *)

(** The last event of the task that carries a snapshot of it. *)
Definition carries_snapshot (task_id : string) (event : dict) : res bool :=
  if py_eq (get event "task_id") (JStr task_id) then
    t ← jget (get_or event "payload" (JObj ∅)) "task"; Ok (is_dict t)
  else Ok false.
Definition snapshot_event (events : list dict) (task_id : string) : res (option dict) :=
  res_find_first (carries_snapshot task_id) (reverse events).

Definition LIVENESS_ACTIONS : list string := ["task.claimed"; "task.started"; "task.heartbeat"].

(** What the lease of an active task says about its holder. *)
Record holding := Holding {
  h_holder : string; h_expires_at : string; h_session_id : json; h_issued_at : json;
  h_session_valid : bool
}.

Definition nonempty (v : json) : option string :=
  match v with JStr s => if bool_decide (s = "") then None else Some s | _ => None end.
Definition session_ok (v : json) : bool := match v with JStr s => re_hex 32 s | _ => false end.

Definition read_holding (force : bool) (task : dict) : res holding :=
  match get task "lease" with
  | JObj lease =>
      let session_id := get lease "session_id" in
      let issued_at := get lease "issued_at" in
      holder ← res_of_option (Exn LeaseError "Active task lease holder is invalid")
                 (nonempty (get lease "holder"));
      expires_at ← res_of_option (Exn LeaseError "Active task lease expiration is invalid")
                     (nonempty (get lease "expires_at"));
      _ ← raise_if (negb force && negb (session_ok session_id)) LeaseError
            "Active task has no signed recovery session identity";
      _ ← raise_if (negb force && bool_decide (nonempty issued_at = None)) LeaseError
            "Active task has no signed lease issue time";
      Ok (Holding holder expires_at session_id issued_at (session_ok session_id))
  | _ => raise LeaseError "Active task has no recoverable lease metadata"
  end.

(** The event is liveness evidence of the holder. *)
Definition check_liveness (source_event : option dict) (holder : string) : res dict :=
  match source_event with
  | None => raise IntegrityError "Latest signed active task event is not liveness evidence"
  | Some e =>
      live ← in_strings (get e "action") LIVENESS_ACTIONS;
      _ ← raise_if (negb live) IntegrityError
            "Latest signed active task event is not liveness evidence";
      _ ← raise_if (py_neq (get e "actor") (JStr holder)) IntegrityError
            "Signed liveness event actor differs from the lease holder";
      Ok e
  end.

(** [lease_expired] with its errors as [LeaseError]. *)
Definition expired_or_invalid (now : string) (task : dict) : res bool :=
  let invalid := λ _ : exn, raise LeaseError "Active task lease expiration is invalid" in
  catch (catch (catch (lease_expired now task) KeyError invalid) TypeError invalid)
    ValueError invalid.

Definition recovery_payload (force : bool) (reason : string) (previous_state previous_attempt : json)
    (h : holding) (expired : bool) (source_action source_sequence source_hash : json)
    (observed_at : string) (capability_receipt requeued : json) : dict := dict_of
  [("schema_version", JInt 2);
   ("recovery_mode", JStr (if force then "forced" else "expired_lease"));
   ("reason", JStr reason); ("previous_state", previous_state);
   ("previous_holder", JStr (h_holder h)); ("previous_expires_at", JStr (h_expires_at h));
   ("previous_attempt", previous_attempt);
   ("liveness_evidence", jobj
     [("kind", JStr (if force then "forced_capability_override"
                     else "signed_activity_plus_expired_lease"));
      ("session_id", if h_session_valid h then h_session_id h else JNull);
      ("issued_at", h_issued_at h); ("lease_expired", JBool expired);
      ("source_action", source_action); ("source_sequence", source_sequence);
      ("source_event_hash", source_hash); ("observed_at", JStr observed_at)]);
   ("capability_receipt", capability_receipt);
   ("transition", jobj [("from", previous_state); ("via", JStr "blocked"); ("to", JStr "pending")]);
   ("task", requeued)].

(** The task taken back to [pending] through [blocked], its attempt kept. *)
Definition requeue (task : dict) (reason : string) (previous_attempt : json) : M world dict :=
  now ← utc_nowM env;
  blocked ← liftM (transition now task "blocked"
                     (dict_of [("lease", JNull); ("blocked_reason", JStr reason)]));
  now ← utc_nowM env;
  requeued ← liftM (transition now blocked "pending"
                      (dict_of [("lease", JNull); ("blocked_reason", JNull)]));
  attempt ← liftM (item requeued "attempt");
  _ ← raise_ifM (py_neq attempt previous_attempt) IntegrityError
        "Lease recovery changed the task attempt";
  mret requeued.

Definition recover_lease (actor task_id reason : string) (force : bool)
    (capability_secret : option string) : M world dict :=
  target_id ← liftM (validate_task_id task_id);
  actor ← liftM (validate_agent_id actor);
  _ ← raise_ifM (negb (bool_decide (actor = orchestrator))) AuthorizationError
        "Only the accountable orchestrator can recover a task lease";
  let normalized_reason := strip reason in
  _ ← raise_ifM (bool_decide (normalized_reason = "")) EvidenceError
        "Lease recovery reason must be non-empty";
  task ← get_task target_id;
  events ← read_verifiedM;
  source_event ← liftM (snapshot_event events target_id);
  signed_task ← liftM (match source_event with
                       | Some e => jget (get_or e "payload" (JObj ∅)) "task"
                       | None => Ok JNull
                       end);
  _ ← raise_ifM (py_neq signed_task (JObj task)) IntegrityError
        "Task projection differs from the signed ledger before recovery";
  previous_state ← liftM (item task "state");
  active ← liftM (in_strings previous_state ACTIVE_STATES);
  _ ← raise_ifM (negb active) TransitionError "Task lease cannot be recovered from this state";
  h ← liftM (read_holding force task);
  source ← liftM (check_liveness source_event (h_holder h));
  now ← utc_nowM env;
  expired ← liftM (expired_or_invalid now task);
  _ ← raise_ifM (negb force && negb expired) LeaseError "A healthy task lease cannot be recovered";
  previous_attempt ← liftM (item task "attempt");
  _ ← raise_ifM (negb (positive_int previous_attempt)) IntegrityError
        "Active task attempt is invalid";
  capability_receipt ←
    (if force then
       receipt ← authorize_actor_capability actor "task.recover_lease.force" capability_secret true
                   (Some target_id)
                   (if h_session_valid h then nonempty (h_session_id h) else None) previous_attempt;
       mret (JObj receipt)
     else mret JNull);
  requeued ← requeue task normalized_reason previous_attempt;
  observed_at ← utc_nowM env;
  source_action ← liftM (item source "action");
  source_sequence ← liftM (item source "sequence");
  source_hash ← liftM (item source "event_hash");
  _ ← ledger_append env actor (if force then "task.lease_force_recovered" else "task.lease_recovered")
        (JStr target_id)
        (recovery_payload force normalized_reason previous_state previous_attempt h expired
           source_action source_sequence source_hash observed_at capability_receipt (JObj requeued));
  _ ← write_task target_id requeued;
  mret requeued.

(** ** Reports *)

Definition STATUS_STATES : list string :=
  ["pending"; "claimed"; "running"; "blocked"; "submitted"; "verified"; "rejected"; "archived"].

Definition count_state (tasks : list dict) (state : string) : Z :=
  Z.of_nat (length (filter (λ t, py_eq (get t "state") (JStr state) = true) tasks)).

Definition status_report (w : world) : res dict :=
  let tasks := list_tasks w in
  (* an unhashable state is no key of [counts] *)
  _ ← res_mapM (λ t, in_strings (get t "state") STATUS_STATES) tasks;
  ledger_info ← verify (w_ledger w);
  name ← item config "name";
  Ok (dict_of
    [("workspace", JStr (root env)); ("name", name); ("orchestrator", JStr orchestrator);
     ("total_tasks", JInt (Z.of_nat (length tasks)));
     ("states", jobj ((λ s, (s, JInt (count_state tasks s))) <$> STATUS_STATES));
     ("ledger", JObj ledger_info)]).

(** [{t["id"]: t for t in self.list_tasks()}] *)
Definition tasks_by_id (tasks : list dict) : res projections :=
  res_foldl (λ p t, id ← item t "id";
                    _ ← raise_if (negb (hashable id)) TypeError "unhashable type";
                    Ok (set_key id t p)) [] tasks.

Definition audit_projections (w : world) : res dict :=
  events ← read (w_ledger w);
  _ ← verify (w_ledger w);
  projected ← projected_tasks (w_ledger w);
  actual ← tasks_by_id (list_tasks w);
  let mismatches := List.filter (λ p, match lookup_key actual p.1 with
                                      | Some atask => py_neq (JObj atask) (JObj p.2)
                                      | None => true
                                      end) projected in
  Ok (dict_of
    [("valid", JBool (is_nil mismatches)); ("events_count", JInt (Z.of_nat (length events)));
     ("projected_count", JInt (Z.of_nat (length projected)));
     ("actual_count", JInt (Z.of_nat (length actual)));
     ("mismatches", JList mismatches.*1)]).
End operations.
