(* ===== verification/Verification.v ===== *)
(** * Independent verification of submissions ([workspace.py], second half)

    [verify] admits a submission, runs the validations again under the trusted
    runner, has the run attested, archives the evidence and decides; every
    failure after the signed start is recorded as a terminal event.  The
    runner and the check of an attestation are the interface [TrustedRunner];
    the request for an attestation is the code's own. *)

From S2P Require Export Workspace.

(** ** The interface to the runner *)

Record run_request := RunRequest {
  rq_task_id : string; rq_attempt : json; rq_actor : string; rq_run_id : string;
  rq_manifest : dict; rq_gpu_allowed : bool; rq_network_allowed : bool; rq_timeout : Z
}.

(** [run_trusted_validations] works on the files of the workspace;
    [verify_executor_attestation] raises unless the envelope is valid. *)
Class TrustedRunner := {
  run_trusted_validations : run_request → M fs json;
  verify_executor_attestation : json → dict → json → res unit
}.

(** [request_executor_attestation]: the service is not deployed. *)
Definition request_executor_attestation (receipt verifier_identity : json) : res json :=
  _ ← raise_if (negb (is_dict receipt) || negb (is_dict verifier_identity))
        VerifierAttestationError "Independent executor verifier request is malformed";
  raise VerifierAttestationError "Independent executor verifier service is not deployed".

Definition TRUSTED_RECEIPT_DOCUMENT_KEYS : list string :=
  ["schema_version"; "runner"; "task_id"; "attempt"; "actor"; "run_id"; "source_commit";
   "verifier_manifest_sha256"; "validation_contract_sha256"; "receipt_preimage_sha256";
   "source_clean"; "source_postcheck_passed"; "source_postcheck_error"; "isolation_policy";
   "isolation_attested"; "isolation_backend"; "snapshot"; "snapshot_precheck_passed";
   "snapshot_protection"; "snapshot_postcheck_passed"; "snapshot_postcheck_error";
   "operational_change_count"; "operational_paths_sha256"; "started_at"; "completed_at";
   "gpu_allowed"; "cuda_visible_devices"; "network_allowed"; "network_enforcement";
   "environment_sha256"; "sandbox_environment"; "sandbox_environment_sha256";
   "max_output_bytes"; "validations"; "passed"; "failure"].
Definition TRUSTED_RECEIPT_RESULT_KEYS : list string :=
  TRUSTED_RECEIPT_DOCUMENT_KEYS ++ ["receipt_path"; "receipt_sha256"].

(** ** Failure categories *)

Definition VERIFICATION_FAILURE_STAGES : list string :=
  ["trusted_runner"; "executor_attestation"; "archive"; "state_transition"; "recovery"].
Definition VERIFICATION_FAILURE_ERROR_TYPES : list string :=
  ["authorization_error"; "configuration_error"; "evidence_error"; "integrity_error"; "io_error";
   "state_error"; "timeout_error"; "unexpected_error"; "interrupted_error"].

Definition _verification_error_type (error : exn) : string :=
  if is_a error TimeoutError then "timeout_error"
  else if is_a error EvidenceError then "evidence_error"
  else if is_a error IntegrityError then "integrity_error"
  else if is_a error AuthorizationError then "authorization_error"
  else if is_a error ConfigurationError then "configuration_error"
  else if is_a error LeaseError || is_a error TransitionError then "state_error"
  else if is_a error OSError then "io_error"
  else "unexpected_error".

Section verification.
Context `{Hashing, TrustedRunner} (env : environment) (config : dict).

(** [event.get("payload", {}).get(key)] *)
Definition payload_field (event : dict) (key : string) : res json :=
  jget (get_or event "payload" (JObj ∅)) key.

(** [ValueError] of the lifecycle functions as [IntegrityError]. *)
Definition as_integrity {A} (m : res A) : res A :=
  catch m ValueError (λ e, raise IntegrityError (exn_msg e)).

(** The terminal event of a failed run: it repeats what the signed start says. *)
Definition failure_payload (run_id : string) (task_attempt : json) (stage error_type : string)
    (started : dict) (capability_receipt contract_inputs : json) : res dict :=
  identity ← payload_field started "verifier_identity";
  verifier_manifest ← payload_field started "verifier_manifest_sha256";
  worker_manifest ← payload_field started "worker_manifest_sha256";
  Ok (dict_of
    [("schema_version", JInt 1); ("run_id", JStr run_id); ("task_attempt", task_attempt);
     ("stage", JStr stage); ("error_type", JStr error_type);
     ("verifier_identity", identity); ("verifier_manifest_sha256", verifier_manifest);
     ("worker_manifest_sha256", worker_manifest);
     ("verification_contract_inputs_sha256", contract_inputs);
     ("capability_receipt", capability_receipt)]).

Definition _record_verification_failure (actor task_id run_id : string) (task_attempt : json)
    (stage : string) (error : exn) (capability_receipt contract_inputs : json) : M world unit :=
  _ ← raise_ifM (negb (bool_decide (stage ∈ VERIFICATION_FAILURE_STAGES))) IntegrityError
        "Verification failure stage is not allowlisted";
  let error_type := _verification_error_type error in
  _ ← raise_ifM (negb (bool_decide (error_type ∈ VERIFICATION_FAILURE_ERROR_TYPES)))
        IntegrityError "Verification failure type is not allowlisted";
  events ← read_verifiedM;
  found ← liftM (as_integrity (find_verification_run events task_id run_id));
  match found with
  | (None, _) => raiseM IntegrityError "Verification failure has no signed started event"
  | (Some started, terminals) =>
      attempt ← liftM (payload_field started "task_attempt");
      _ ← raise_ifM (py_neq attempt task_attempt) IntegrityError
            "Verification failure attempt differs from started run";
      match terminals with
      | [] =>
          payload ← liftM (failure_payload run_id task_attempt stage error_type started
                             capability_receipt contract_inputs);
          _ ← ledger_append env actor "verification.failed" (JStr task_id) payload;
          mret tt
      | [t] =>
          if py_eq (get t "action") (JStr "verification.failed") then mret tt
          else raiseM IntegrityError "Verification run already has a task terminal event"
      | _ => raiseM IntegrityError "Verification run already has multiple terminal events"
      end
  end.

(** ** [verify] *)

(** What the checks before the capability establish. *)
Record admission := Admission {
  ad_task : dict; ad_events : list dict; ad_verifier_identity : json; ad_independence : dict;
  ad_evidence : dict; ad_evidence_sha : string; ad_worker_sha : json; ad_attempt : json;
  ad_permissions : dict; ad_gates : dict
}.

Definition submitted_event (events : list dict) (task_id : string) : option dict :=
  find_last (λ e, py_eq (get e "action") (JStr "task.submitted")
                  && py_eq (get e "task_id") (JStr task_id)) events.

(** [task.get("result", {}).get("manifest", {}).get("manifest_sha256")] *)
Definition worker_manifest_sha (task : dict) : res json :=
  result ← as_dict (get_or task "result" (JObj ∅));
  jget (get_or result "manifest" (JObj ∅)) "manifest_sha256".

(** The recorded identity as the decision sees it: of a value that is neither
    [None] nor a [dict] only its presence counts, and only when there is no
    verifier identity to compare it with. *)
Definition worker_snapshot (worker_identity : json) (verifier : option dict) : res (option dict) :=
  match worker_identity, verifier with
  | JNull, _ => Ok None
  | JObj d, _ => Ok (Some d)
  | _, None => Ok (Some ∅)
  | _, Some _ => raise AttributeError "object has no attribute 'get'"
  end.

Definition admit_submission (actor task_id evidence_path : string) (verifier_agent : dict)
    : M world admission :=
  _ ← _task_lock task_id;
  task ← get_task task_id;
  state ← liftM (item task "state");
  _ ← raise_ifM (py_neq state (JStr "submitted")) TransitionError
        "Task is not submitted for verification";
  verifier_identity ← liftM (identity_snapshot actor (get verifier_agent "identity"));
  events ← read_verifiedM;
  worker_identity ← liftM (match submitted_event events task_id with
                           | Some e => payload_field e "worker_identity"
                           | None => Ok JNull
                           end);
  worker ← liftM (worker_snapshot worker_identity verifier_identity);
  independence ← liftM (evaluate_independence worker verifier_identity);
  _ ← raise_ifM (negb (truthy (get independence "independent"))) AuthorizationError
        "Independent verification failed";
  permissions ← liftM (p ← item task "permissions"; as_dict p);
  gates ← liftM (g ← item task "gates"; as_dict g);
  verifier_evidence ← askM (λ w, validate_manifest (w_fs w) (Some (subdir env "reports" actor))
    (resolve_path (w_fs w) evidence_path) permissions gates true);
  evidence_sha ← liftM (v ← item verifier_evidence "manifest_sha256"; as_str v);
  worker_sha ← liftM (worker_manifest_sha task);
  same ← liftM (match worker_sha with
                | JStr s => compare_digest (lower s) (lower evidence_sha)
                | _ => Ok false
                end);
  _ ← raise_ifM same EvidenceError "Verifier evidence must be independently produced";
  attempt ← liftM (item task "attempt");
  mret (Admission task events (opt_obj verifier_identity) independence verifier_evidence evidence_sha
          worker_sha attempt permissions gates).

(** [event.get("action", "").startswith("verification.")] selects the run
    identifiers in use. *)
Definition run_ids_of (event : dict) : res (list json) :=
  match get_or event "action" (JStr "") with
  | JStr action =>
      if starts_with "verification." action then
        id ← payload_field event "run_id";
        _ ← raise_if (negb (hashable id)) TypeError "unhashable type";
        Ok [id]
      else Ok []
  | _ => raise AttributeError "object has no attribute 'startswith'"
  end.

(** At most [n] draws until an identifier is unused. *)
Fixpoint draw_run_id (n : nat) (used_run_ids : list json) : M world string :=
  match n with
  | O => raiseM IntegrityError "Could not allocate a unique verification run ID"
  | S n =>
      candidate ← token_hexM env 16;
      if existsb (λ id, py_eq id (JStr candidate)) used_run_ids then draw_run_id n used_run_ids
      else mret candidate
  end.

Definition contract_inputs (ad : admission) (actor task_id run_id : string) : string :=
  sha256_hex (canonical_json (jobj
    [("task_id", JStr task_id); ("task_attempt", ad_attempt ad); ("run_id", JStr run_id);
     ("actor", JStr actor); ("verifier_identity", ad_verifier_identity ad);
     ("verifier_manifest_sha256", JStr (ad_evidence_sha ad));
     ("worker_manifest_sha256", ad_worker_sha ad); ("permissions", JObj (ad_permissions ad));
     ("gates", JObj (ad_gates ad))])).

Definition started_payload (ad : admission) (run_id inputs : string) (capability_receipt : json)
    : dict := dict_of
  [("schema_version", JInt 1); ("run_id", JStr run_id); ("task_attempt", ad_attempt ad);
   ("verifier_manifest_sha256", JStr (ad_evidence_sha ad));
   ("worker_manifest_sha256", ad_worker_sha ad);
   ("verifier_identity", ad_verifier_identity ad);
   ("verification_contract_inputs_sha256", JStr inputs);
   ("capability_receipt", capability_receipt)].

(** The result of the runner has exactly the receipt's keys, and is attested. *)
Definition attest (trusted_validation verifier_identity : json) : res (dict * list json * json) :=
  match trusted_validation with
  | JObj tv =>
      _ ← raise_if (negb (exact_keys tv TRUSTED_RECEIPT_RESULT_KEYS)) VerifierAttestationError
            "Trusted runner result schema is invalid";
      match get tv "validations" with
      | JList validations =>
          envelope ← request_executor_attestation trusted_validation verifier_identity;
          _ ← verify_executor_attestation envelope tv verifier_identity;
          Ok (tv, validations, envelope)
      | _ => raise VerifierAttestationError "Trusted runner validations must be a list"
      end
  | _ => raise VerifierAttestationError "Trusted runner result is not an object"
  end.

Definition trusted_file (path sha : json) (kind : string) : json :=
  jobj [("path", path); ("sha256", sha); ("kind", JStr kind); ("force", JBool true)].

Definition trusted_files (tv : dict) (validations : list json) : res (list json) :=
  receipt_path ← item tv "receipt_path";
  receipt_sha ← item tv "receipt_sha256";
  outputs ← res_mapM (λ v, p ← jitem v "output_path"; s ← jitem v "output_sha256";
                           Ok (trusted_file p s "trusted_runner_output")) validations;
  Ok (trusted_file receipt_path receipt_sha "trusted_runner_receipt" :: outputs).

(** [try: m except Exception as error: record the failure; raise] *)
Definition recording {A} (record : exn → M world unit) (m : M world A) : M world A :=
  catchM m Exception (λ error, _ ← record error; liftM (Err error)).

Definition verification_record (ad : admission) (actor run_id decision note verified_at inputs : string)
    (bundle : dict) (attestation trusted_validation capability_receipt : json) : dict := dict_of
  [("run_id", JStr run_id); ("verified_at", JStr verified_at); ("verified_by", JStr actor);
   ("decision", JStr decision); ("note", JStr (strip note));
   ("independence", JObj (ad_independence ad));
   ("verifier_evidence", jobj [("manifest_sha256", JStr (ad_evidence_sha ad));
                               ("bundle", JObj bundle); ("executor_attestation", attestation)]);
   ("trusted_validation", trusted_validation); ("verifier_identity", ad_verifier_identity ad);
   ("worker_manifest_sha256", ad_worker_sha ad);
   ("verification_contract_inputs_sha256", JStr inputs);
   ("capability_receipt", capability_receipt)].

(** The payload of the terminal event repeats these fields of the record. *)
Definition decided_payload (record task : dict) : dict := dict_of
  (("task", JObj task) ::
   ((λ k, (k, get record k)) <$>
      ["run_id"; "verifier_identity"; "independence"; "verifier_evidence"; "trusted_validation";
       "worker_manifest_sha256"; "verification_contract_inputs_sha256"; "capability_receipt"])).

(** From the admitted submission and the consumed capability to the decision. *)
Definition conclude_run (ad : admission) (actor task_id run_id decision note : string)
    (timeout_seconds : Z) (capability_receipt : json) : M world dict :=
  let target_state := if bool_decide (decision = "accept") then "verified" else "rejected" in
  let inputs := contract_inputs ad actor task_id run_id in
  let failure stage := λ error, _record_verification_failure actor task_id run_id (ad_attempt ad)
                                  stage error capability_receipt (JStr inputs) in
  _ ← ledger_append env actor "verification.started" (JStr task_id)
        (started_payload ad run_id inputs capability_receipt);
  trusted_validation ← recording (failure "trusted_runner")
    (zoomM w_fs set_fs (run_trusted_validations
       (RunRequest task_id (ad_attempt ad) actor run_id (ad_evidence ad)
          (truthy (get_or (ad_permissions ad) "gpu" (JBool false)))
          (truthy (get_or (ad_permissions ad) "network" (JBool false))) timeout_seconds)));
  '(tv, validations, attestation) ← recording (failure "executor_attestation")
    (liftM (attest trusted_validation (ad_verifier_identity ad)));
  bundle ← recording (failure "archive")
    (extra ← liftM (trusted_files tv validations);
     mx ← liftM (v ← config_default config "max_evidence_bytes"; as_int v);
     zoomM w_fs set_fs
       (archive_evidence_bundle (root env +:+ "/submissions") task_id (ad_attempt ad) "verifier"
          None (ad_evidence ad) mx extra));
  verified_at ← utc_nowM env;
  let record := verification_record ad actor run_id decision note verified_at inputs bundle
                  attestation trusted_validation capability_receipt in
  updated ← recording (failure "state_transition")
    (now ← utc_nowM env;
     liftM (transition now (ad_task ad) target_state (dict_of [("verification", JObj record)])));
  _ ← ledger_append env actor ("task." +:+ target_state) (JStr task_id)
        (decided_payload record updated);
  _ ← write_task task_id updated;
  mret updated.

Definition VERIFIER_ROLES : list string := ["verifier"; "orchestrator"].

Definition verify_submission (actor : string) (capability_secret : option string)
    (task_id decision note : string) (evidence_path : option string) (timeout_seconds : Z)
    : M world dict :=
  _ ← raise_ifM (negb (bool_decide (decision ∈ ["accept"; "reject"]))) ConfigurationError
        "Verification decision must be 'accept' or 'reject'";
  _ ← raise_ifM (bool_decide (strip note = "")) EvidenceError "Verification note must be non-empty";
  match evidence_path with
  | None => raiseM EvidenceError "Verifier evidence manifest is required"
  | Some evidence_path =>
      verifier_agent ← get_agent actor;
      allowed ← liftM (r ← item verifier_agent "role"; in_strings r VERIFIER_ROLES);
      _ ← raise_ifM (negb allowed) AuthorizationError
            "Actor role is not authorized for verification";
      ad ← admit_submission actor task_id evidence_path verifier_agent;
      used_run_ids ← liftM (l ← res_mapM run_ids_of (ad_events ad); Ok (concat l));
      run_id ← draw_run_id 8 used_run_ids;
      capability_receipt ← authorize_actor_capability env config actor "task.verify"
        capability_secret true (Some task_id) (Some run_id) (ad_attempt ad);
      conclude_run ad actor task_id run_id decision note timeout_seconds (JObj capability_receipt)
  end.

(** ** [reconcile_verification] *)

(** [_signed_task_projection] *)
Definition _signed_task_projection (events : list dict) (task_id : string) : res dict :=
  e ← snapshot_event events task_id;
  snapshot ← match e with Some e => payload_field e "task" | None => Ok JNull end;
  match snapshot with
  | JObj d =>
      _ ← raise_if (py_neq (get d "id") (JStr task_id)) IntegrityError
            "Signed task projection is missing or malformed";
      Ok d
  | _ => raise IntegrityError "Signed task projection is missing or malformed"
  end.

Definition recovery_failure (run_id actor : string) (task_attempt : json) (started : dict)
    (capability_receipt : json) : res dict :=
  sequence ← item started "sequence";
  hash ← item started "event_hash";
  identity ← payload_field started "verifier_identity";
  verifier_manifest ← payload_field started "verifier_manifest_sha256";
  worker_manifest ← payload_field started "worker_manifest_sha256";
  inputs ← payload_field started "verification_contract_inputs_sha256";
  started_receipt ← payload_field started "capability_receipt";
  Ok (dict_of
    [("schema_version", JInt 1); ("run_id", JStr run_id); ("task_attempt", task_attempt);
     ("stage", JStr "recovery"); ("error_type", JStr "interrupted_error");
     ("started_sequence", sequence); ("started_event_hash", hash);
     ("started_actor", get started "actor"); ("verifier_identity", identity);
     ("verifier_manifest_sha256", verifier_manifest); ("worker_manifest_sha256", worker_manifest);
     ("verification_contract_inputs_sha256", inputs);
     ("started_capability_receipt", started_receipt); ("recovered_by", JStr actor);
     ("capability_receipt", capability_receipt)]).

(** The terminal of a closed run belongs to the attempt of its start. *)
Definition check_terminal (terminal : dict) (task_attempt : json) : res unit :=
  attempt ← payload_field terminal "task_attempt";
  task ← payload_field terminal "task";
  let terminal_attempt := if is_null attempt then
      match task with JObj t => get t "attempt" | _ => JNull end else attempt in
  _ ← raise_if (py_neq terminal_attempt task_attempt) IntegrityError
        "Verification terminal attempt differs from started run";
  supported ← in_strings (get terminal "action") VERIFICATION_TERMINAL_ACTIONS;
  raise_if (negb supported) IntegrityError "Verification terminal action is unsupported".

(** Write the signed snapshot where the projection differs from it. *)
Definition rebuild_projection (task_id : string) (authoritative : dict) : M world bool :=
  path ← liftM (_task_path task_id);
  current ← readM (λ w, read_json (w_tasks w !! path));
  let missing := λ _ : exn, Ok true in
  changed ← liftM (catch (catch (d ← current; Ok (py_neq (JObj d) (JObj authoritative)))
                            FileNotFoundError missing) ConfigurationError missing);
  _ ← (if (changed : bool) then write_task task_id authoritative else mret tt);
  mret changed.

Definition reconcile_verification (actor : string) (capability_secret : option string)
    (task_id run_id : string) : M world dict :=
  actor ← liftM (validate_agent_id actor);
  _ ← raise_ifM (negb (bool_decide (actor = orchestrator config))) AuthorizationError
        "Only the accountable orchestrator can reconcile verification";
  target_id ← liftM (validate_task_id task_id);
  target_run_id ← liftM (catch (validate_verification_run_id (JStr run_id)) ValueError
                           (λ e, raise ConfigurationError (exn_msg e)));
  events ← read_verifiedM;
  found ← liftM (as_integrity (find_verification_run events target_id target_run_id));
  match found with
  | (None, _) => raiseM EvidenceError "Verification run has no signed started event"
  | (Some started, terminals) =>
      _ ← raise_ifM (1 <? length terminals)%nat IntegrityError
            "Verification run has more than one terminal event";
      task_attempt ← liftM (payload_field started "task_attempt");
      _ ← raise_ifM (negb (positive_int task_attempt)) IntegrityError
            "Verification started event has invalid attempt";
      capability_receipt ← authorize_actor_capability env config actor
        "task.reconcile_verification" capability_secret true (Some target_id) (Some target_run_id)
        task_attempt;
      '(terminal, events, appended) ←
        (match terminals with
         | [] =>
             payload ← liftM (recovery_failure target_run_id actor task_attempt started
                                (JObj capability_receipt));
             terminal ← ledger_append env actor "verification.failed" (JStr target_id) payload;
             mret (terminal, events ++ [terminal], true)
         | terminal :: _ =>
             _ ← liftM (check_terminal terminal task_attempt);
             mret (terminal, events, false)
         end);
      authoritative_task ← liftM (_signed_task_projection events target_id);
      projection_changed ← rebuild_projection target_id authoritative_task;
      action ← liftM (item terminal "action");
      sequence ← liftM (item terminal "sequence");
      mret (dict_of
        [("schema_version", JInt 1); ("task_id", JStr target_id); ("run_id", JStr target_run_id);
         ("terminal_action", action); ("terminal_sequence", sequence);
         ("terminal_appended", JBool appended); ("projection_rebuilt", JBool projection_changed);
         ("task", JObj authoritative_task)])
  end.

(** ** [restate_verification] *)

(** The verified event to restate: the last of the task, or the first with the
    given sequence. *)
Definition restatement_target (events : list dict) (task_id : string) (target_sequence : json)
    : option dict :=
  let candidates := List.filter (λ e, py_eq (get e "action") (JStr "task.verified")
                                      && py_eq (get e "task_id") (JStr task_id)) events in
  if is_null target_sequence then last candidates
  else find_first (λ e, py_eq (get e "sequence") target_sequence) candidates.

(** The run and attempt a verified event is bound to. *)
Definition target_binding (target : dict) : res (option string * json) :=
  target_task ← payload_field target "task";
  let verification := match target_task with JObj t => get t "verification" | _ => JNull end in
  let run_id := match verification with JObj v => get v "run_id" | _ => JNull end in
  let attempt := match target_task with JObj t => get t "attempt" | _ => JNull end in
  bound ← (if is_null run_id then Ok None
           else Some <$> catch (validate_verification_run_id run_id) ValueError
                  (λ _, raise IntegrityError "Target verification has an invalid run binding"));
  _ ← raise_if (negb (positive_int attempt)) IntegrityError
        "Target verification lacks a valid attempt binding";
  Ok (bound, attempt).

(** The latest restatement of the target decides: the same one is returned
    again, and a revocation admits no other. *)
Fixpoint previous_restatement (target : dict) (target_hash effective_status reason : string)
    (rev_events : list dict) : res (option dict) :=
  match rev_events with
  | [] => Ok None
  | event :: rest =>
      if py_neq (get event "action") (JStr "verification.restatement")
      then previous_restatement target target_hash effective_status reason rest else
      payload ← as_dict (get_or event "payload" (JObj ∅));
      if py_neq (get payload "target_verification_sequence") (get target "sequence")
         || py_neq (get payload "target_verification_hash") (JStr target_hash)
      then previous_restatement target target_hash effective_status reason rest else
      let previous_status := get payload "effective_status" in
      if py_eq previous_status (JStr effective_status)
         && py_eq (get payload "reason") (JStr reason) then Ok (Some event) else
      _ ← raise_if (py_eq previous_status (JStr "verification_revoked")) TransitionError
            "A revoked verification cannot be restored or weakened";
      Ok None
  end.

Definition restate_verification (actor : string) (capability_secret : option string)
    (task_id effective_status reason : string) (target_sequence : json) : M world dict :=
  _ ← raise_ifM (negb (bool_decide (actor = orchestrator config))) AuthorizationError
        "Only the accountable orchestrator can restate verification trust";
  _ ← raise_ifM (negb (bool_decide (effective_status ∈ STATUSES))) ConfigurationError
        "Effective verification status must be disputed or revoked";
  let normalized_reason := strip reason in
  _ ← raise_ifM (bool_decide (normalized_reason = "")) EvidenceError
        "Verification restatement reason must be non-empty";
  _ ← raise_ifM (negb (is_null target_sequence) && negb (positive_int target_sequence))
        ConfigurationError "Target verification sequence must be a positive integer";
  _ ← _task_lock task_id;
  _ ← get_task task_id;
  events ← read_verifiedM;
  match restatement_target events task_id target_sequence with
  | None => raiseM EvidenceError "No task.verified event found"
  | Some target =>
      '(target_run_id, target_attempt) ← liftM (target_binding target);
      capability_receipt ← authorize_actor_capability env config actor "task.restate_verification"
        capability_secret true (Some task_id) target_run_id target_attempt;
      let target_hash := str_of (get_or target "event_hash" (JStr "")) in
      previous ← liftM (previous_restatement target target_hash effective_status normalized_reason
                          (reverse events));
      match previous with
      | Some event => mret event
      | None =>
          sequence ← liftM (item target "sequence");
          ledger_append env actor "verification.restatement" (JStr task_id) (dict_of
            [("schema_version", JInt 1); ("target_verification_sequence", sequence);
             ("target_verification_hash", JStr target_hash);
             ("original_verifier", get target "actor");
             ("effective_status", JStr effective_status); ("reason", JStr normalized_reason);
             ("capability_receipt", JObj capability_receipt)])
      end
  end.
End verification.

(** a failed run is always recorded under an allowlisted category, one
    that the recovery of an interrupted run never uses: the guard on the
    category cannot fire, whatever was raised. *)
Theorem failure_categories_are_allowlisted e :
  _verification_error_type e ∈ VERIFICATION_FAILURE_ERROR_TYPES ∧
  _verification_error_type e ≠ "interrupted_error".
Proof.
  destruct e as [c msg]. destruct c; split; vm_compute; try discriminate; set_solver.
Qed.
