(* ===== verification/Broker.v ===== *)
(** * What the broker guarantees ([workspace.py])

    Every operation either leaves the ledger and the task files alone or makes
    one commit: it appends one event with the new record and writes that record
    to the task's file.  From this follow the invariants of the worlds the
    operations reach. *)

From S2P Require Export Verification.

(** ** Operations that leave ledger and tasks alone *)

(** The same ledger, task files and history; readings of the clock are only
    ever added. *)
Record frame (w w' : world) : Prop := Frame {
  frame_ledger : w_ledger w' = w_ledger w;
  frame_tasks : w_tasks w' = w_tasks w;
  frame_log : w_log w' = w_log w;
  frame_tick : (w_tick w ≤ w_tick w')%nat
}.

Definition quiet {A} (m : M world A) : Prop := ∀ w, frame w (m w).2.

Lemma frame_refl w : frame w w.
Proof. by constructor. Qed.
Lemma frame_trans w1 w2 w3 : frame w1 w2 → frame w2 w3 → frame w1 w3.
Proof. intros [] []. constructor; [congruence..|lia]. Qed.
#[local] Hint Resolve frame_refl : core.

Lemma quiet_liftM {A} (r : res A) : quiet (liftM r).
Proof. by intros w. Qed.
Lemma quiet_mret {A} (a : A) : quiet (mret a).
Proof. by intros w. Qed.
Lemma quiet_readM {A} (f : world → A) : quiet (readM f).
Proof. by intros w. Qed.
Lemma quiet_askM {A} (f : world → res A) : quiet (askM f).
Proof. by intros w. Qed.
Lemma quiet_raise_ifM b c msg : quiet (raise_ifM b c msg).
Proof. by intros w. Qed.
Lemma quiet_raiseM {A} c msg : quiet (raiseM (A:=A) c msg).
Proof. by intros w. Qed.
Lemma quiet_tickM : quiet tickM.
Proof. intros w. constructor; cbn; [done..|lia]. Qed.
Lemma quiet_bind {A B} (m : M world A) (f : A → M world B) :
  quiet m → (∀ a, quiet (f a)) → quiet (m ≫= f).
Proof.
  intros Hm Hf w. unfold mbind, M_bind. specialize (Hm w).
  destruct (m w) as [[a|e] w1]; [|exact Hm]. eapply frame_trans; [exact Hm | apply Hf].
Qed.
Lemma quiet_catchM {A} (m : M world A) c (h : exn → M world A) :
  quiet m → (∀ e, quiet (h e)) → quiet (catchM m c h).
Proof.
  intros Hm Hh w. unfold catchM. specialize (Hm w). destruct (m w) as [[a|e] w1]; [exact Hm|].
  destruct (is_a e c); [|exact Hm]. eapply frame_trans; [exact Hm | apply Hh].
Qed.
Lemma quiet_zoom_caps {A} (m : M (gmap string actor_dir) A) : quiet (zoomM w_caps set_caps m).
Proof. intros w. unfold zoomM. by destruct (m (w_caps w)). Qed.
Lemma quiet_zoom_fs {A} (m : M fs A) : quiet (zoomM w_fs set_fs m).
Proof. intros w. unfold zoomM. by destruct (m (w_fs w)). Qed.
Lemma quiet_set_agents f : quiet (modifyM (λ w, set_agents (f w) w)).
Proof. by intros w. Qed.
Lemma quiet_set_config c : quiet (modifyM (set_config c)).
Proof. by intros w. Qed.

Create HintDb quiet.
#[export] Hint Resolve quiet_liftM quiet_mret quiet_readM quiet_askM quiet_raise_ifM quiet_raiseM
  quiet_tickM quiet_zoom_caps quiet_zoom_fs quiet_set_agents quiet_set_config : quiet.

(** Take a computation apart down to its quiet primitives. *)
Ltac quietly :=
  repeat first
    [ progress intros | solve [auto with quiet] | apply quiet_bind | apply quiet_catchM
    | case_match ].

(** A quiet step of a run: it fails here, or the run goes on in a framed world. *)
Lemma bind_quiet {A B} (m : M world A) (f : A → M world B) w r w' :
  quiet m → (m ≫= f) w = (r, w') →
  (frame w w' ∧ is_ok r = false) ∨ ∃ a w1, m w = (Ok a, w1) ∧ frame w w1 ∧ f a w1 = (r, w').
Proof.
  intros Hm H. specialize (Hm w). unfold mbind, M_bind in H.
  destruct (m w) as [[a|e] w1]; [right; eauto | left]. by injection H as <- <-.
Qed.

(** ** Effects on ledger and tasks *)

Section effects.
Context `{Hashing} (env : environment).

Lemma quiet_utc_nowM : quiet (utc_nowM env).
Proof. unfold utc_nowM. quietly. Qed.
Lemma quiet_epochM : quiet (epochM env).
Proof. unfold epochM. quietly. Qed.
Lemma quiet_token_hexM n : quiet (token_hexM env n).
Proof. unfold token_hexM. quietly. Qed.
Lemma quiet_get_agent a : quiet (get_agent a).
Proof. unfold get_agent. quietly. Qed.
Lemma quiet_get_task t : quiet (get_task t).
Proof. unfold get_task. quietly. Qed.
#[local] Hint Resolve quiet_utc_nowM quiet_epochM quiet_token_hexM quiet_get_agent quiet_get_task : quiet.

Lemma quiet_authorize config a o s i t r n :
  quiet (authorize_actor_capability env config a o s i t r n).
Proof. unfold authorize_actor_capability. quietly. Qed.
Lemma quiet_check_lease task a t : quiet (_check_lease env task a t).
Proof. unfold _check_lease. quietly. Qed.
Lemma quiet_new_identity a c m : quiet (new_identity a c m).
Proof. unfold new_identity. quietly. Qed.
Lemma quiet_check_prerequisites t l : quiet (check_prerequisites t l).
Proof. unfold check_prerequisites. quietly. Qed.
Lemma quiet_prerequisites task : quiet (_unsatisfied_prerequisites task).
Proof.
  unfold _unsatisfied_prerequisites. apply quiet_bind; [auto with quiet|].
  intros l. induction l; cbn [prerequisite_reasons]; unfold prerequisite_reason; quietly.
Qed.
Lemma quiet_requeue task r n : quiet (requeue env task r n).
Proof. unfold requeue. quietly. Qed.
Lemma quiet_task_lock t : quiet (_task_lock t).
Proof. unfold _task_lock. quietly. Qed.
Lemma quiet_read_verified : quiet read_verifiedM.
Proof. unfold read_verifiedM. quietly. Qed.
#[local] Hint Resolve quiet_task_lock quiet_read_verified : quiet.
Lemma quiet_admit a t p g : quiet (admit_submission env a t p g).
Proof. unfold admit_submission. quietly. Qed.
Lemma quiet_draw_run_id n l : quiet (draw_run_id env n l).
Proof. induction n; cbn [draw_run_id]; quietly. Qed.

(** ** Operations that change nothing *)

(** Nothing but the number of readings of the clock and the random source
    differs: ledger, agents, tasks, configuration, capability markers and
    files are the same. *)
Definition unchanged (w w' : world) : Prop := ∃ n, (w_tick w ≤ n)%nat ∧ w' = set_tick n w.

Lemma unchanged_refl w : unchanged w w.
Proof. exists (w_tick w). split; [done|]. by destruct w. Qed.
Lemma unchanged_trans w1 w2 w3 : unchanged w1 w2 → unchanged w2 w3 → unchanged w1 w3.
Proof. intros (n & ? & ->) (k & Hk & ->). cbn in Hk. exists k. split; [lia|done]. Qed.
Lemma unchanged_frame w w' : unchanged w w' → frame w w'.
Proof. intros (n & ? & ->). by constructor. Qed.
#[local] Hint Resolve unchanged_refl : core.

Definition idle {A} (m : M world A) : Prop := ∀ w, unchanged w (m w).2.

Lemma idle_liftM {A} (r : res A) : idle (liftM r).
Proof. by intros w. Qed.
Lemma idle_mret {A} (a : A) : idle (mret a).
Proof. by intros w. Qed.
Lemma idle_readM {A} (f : world → A) : idle (readM f).
Proof. by intros w. Qed.
Lemma idle_askM {A} (f : world → res A) : idle (askM f).
Proof. by intros w. Qed.
Lemma idle_raise_ifM b c msg : idle (raise_ifM b c msg).
Proof. by intros w. Qed.
Lemma idle_tickM : idle tickM.
Proof. intros w. exists (S (w_tick w)). split; [lia|done]. Qed.
Lemma idle_bind {A B} (m : M world A) (f : A → M world B) :
  idle m → (∀ a, idle (f a)) → idle (m ≫= f).
Proof.
  intros Hm Hf w. unfold mbind, M_bind. specialize (Hm w).
  destruct (m w) as [[a|e] w1]; [|exact Hm]. eapply unchanged_trans; [exact Hm | apply Hf].
Qed.
#[local] Hint Resolve idle_liftM idle_mret idle_readM idle_askM idle_raise_ifM idle_tickM : idle.

Ltac idly :=
  repeat first [ progress intros | solve [auto with idle] | apply idle_bind | case_match ].

Lemma idle_utc_nowM : idle (utc_nowM env).
Proof. unfold utc_nowM. idly. Qed.
Lemma idle_get_agent a : idle (get_agent a).
Proof. unfold get_agent. idly. Qed.
Lemma idle_get_task t : idle (get_task t).
Proof. unfold get_task. idly. Qed.
Lemma idle_task_lock t : idle (_task_lock t).
Proof. unfold _task_lock. idly. Qed.
Lemma idle_read_verified : idle read_verifiedM.
Proof. unfold read_verifiedM. idly. Qed.
#[local] Hint Resolve idle_utc_nowM idle_get_agent idle_get_task idle_task_lock idle_read_verified : idle.
Lemma idle_admit a t p g : idle (admit_submission env a t p g).
Proof. unfold admit_submission. idly. Qed.
Lemma idle_draw_run_id n l : idle (draw_run_id env n l).
Proof.
  induction n; cbn [draw_run_id]; [by intros w|]. apply idle_bind; [unfold token_hexM; idly|].
  intros candidate. by case_match; auto with idle.
Qed.
#[local] Hint Resolve idle_admit idle_draw_run_id : idle.

(** ** Refused operations *)

(** A computation that always raises and changes nothing. *)
Definition refused {A} (m : M world A) : Prop := ∀ w, unchanged w (m w).2 ∧ is_ok (m w).1 = false.

Lemma refused_bind_l {A B} (m : M world A) (f : A → M world B) : refused m → refused (m ≫= f).
Proof.
  intros Hm w. unfold mbind, M_bind. destruct (Hm w) as [Hf Ho].
  by destruct (m w) as [[a|e] w1].
Qed.
Lemma refused_bind_r {A B} (m : M world A) (f : A → M world B) :
  idle m → (∀ a, refused (f a)) → refused (m ≫= f).
Proof.
  intros Hm Hf w. unfold mbind, M_bind. specialize (Hm w).
  destruct (m w) as [[a|e] w1]; [|done]. destruct (Hf a w1) as [Hf1 Ho].
  split; [by eapply unchanged_trans | done].
Qed.
Lemma refused_raiseM {A} c msg : refused (raiseM (A:=A) c msg).
Proof. by intros w. Qed.

(** No observation proves the isolation of the actor's principal. *)
Lemma refused_isolated config a o s t r n :
  refused (authorize_actor_capability env config a o s true t r n).
Proof.
  unfold authorize_actor_capability. apply refused_bind_r; [idly|]. intros actor.
  destruct s as [s|]; [|apply refused_raiseM]. intros w.
  unfold mbind, M_bind, askM.
  destruct (status (workspace_id config) (w_caps w) actor) as [posture|e] eqn:E; [|done].
  apply status_not_isolated in E as Hi.
  unfold raise_ifM, liftM, raise_if. rewrite Hi. by destruct (py_neq _ _).
Qed.

(** Refuse by the first step that always refuses, past quiet ones. *)
Ltac refusing :=
  repeat first
    [ progress intros | apply refused_raiseM | apply refused_isolated
    | apply refused_bind_l; apply refused_isolated
    | apply refused_bind_l; apply refused_bind_l; apply refused_isolated
    | apply refused_bind_r; [solve [idly]|] | case_match ].

Lemma refused_verify `{TrustedRunner} config actor secret task_id decision note evidence timeout :
  refused (verify_submission env config actor secret task_id decision note evidence timeout).
Proof.
  unfold verify_submission. refusing.
Qed.
Lemma refused_reconcile config actor secret task_id run_id :
  refused (reconcile_verification env config actor secret task_id run_id).
Proof. unfold reconcile_verification. refusing. Qed.
Lemma refused_restate config actor secret task_id status reason sequence :
  refused (restate_verification env config actor secret task_id status reason sequence).
Proof. unfold restate_verification. refusing. Qed.
Lemma refused_forced_recovery config actor task_id reason secret :
  refused (recover_lease env config actor task_id reason true secret).
Proof. unfold recover_lease. refusing. Qed.
End effects.

#[export] Hint Resolve quiet_utc_nowM quiet_epochM quiet_token_hexM quiet_get_agent quiet_get_task
  quiet_authorize quiet_check_lease quiet_new_identity quiet_check_prerequisites quiet_prerequisites
  quiet_requeue quiet_task_lock quiet_read_verified : quiet.

(** C6: the release-critical operations fail closed: deciding a verification,
    reconciling or restating one and forcing a lease free always raise,
    whatever their arguments, the credential and the state of the workspace,
    and nothing they could reach has changed: no event, task, agent or
    configuration file is written, no capability is consumed, and the files of
    the workspace are as they were, so no validation has run; only the clock
    and the random source may have been read.  No local observation ever counts
    as proof of the actor's isolation. *)
Theorem release_critical_operations_fail_closed `{Hashing, TrustedRunner} env config w :
  let closed (p : res dict * world) := is_ok p.1 = false ∧ unchanged w p.2 in
  (∀ actor secret task_id decision note evidence timeout,
     closed (verify_submission env config actor secret task_id decision note evidence timeout w)) ∧
  (∀ actor secret task_id run_id,
     closed (reconcile_verification env config actor secret task_id run_id w)) ∧
  (∀ actor secret task_id status reason sequence,
     closed (restate_verification env config actor secret task_id status reason sequence w)) ∧
  (∀ actor task_id reason secret,
     closed (recover_lease env config actor task_id reason true secret w)).
Proof.
  split; [|split; [|split]]; intros.
  - destruct (refused_verify env config actor secret task_id decision note evidence timeout w). done.
  - destruct (refused_reconcile env config actor secret task_id run_id w). done.
  - destruct (refused_restate env config actor secret task_id status reason sequence w). done.
  - destruct (refused_forced_recovery env config actor task_id reason secret w). done.
Qed.

(** ** Well-formed records *)

(** The states a record reaches through the operations. *)
Definition LIVE_STATES : list string := ["pending"; "claimed"; "running"; "blocked"; "submitted"].

(** The record of task [t]: its own name, a live state, and a lease exactly
    while it is claimed or running. *)
Definition wf_task (t : string) (d : dict) : Prop :=
  get d "id" = JStr t ∧
  ∃ s, get d "state" = JStr s ∧ s ∈ LIVE_STATES ∧
    if bool_decide (s ∈ ACTIVE_STATES) then is_dict (get d "lease") = true
    else get d "lease" = JNull.

Lemma transition_get now t target u t' : transition now t target u = Ok t' →
  u !! "state" = None →
  get t' "state" = JStr target ∧
  (∃ s, get t "state" = JStr s ∧ moves s target = true) ∧
  ∀ k, k ≠ "state" → k ≠ "revision" → k ≠ "updated_at" →
    get t' k = match u !! k with Some v => v | None => get t k end.
Proof.
  intros (s & l & r & r' & Hs & Hl & Hin & _ & _ & -> & _)%transition_inv Hu.
  split; [|split].
  - rewrite get_merge_dict, Hu, !get_insert. done.
  - exists s. unfold get, moves. rewrite Hs, Hl. split; [done|]. by apply bool_decide_eq_true.
  - intros k H1 H2 H3. rewrite get_merge_dict, !get_insert. by rewrite !decide_False.
Qed.

(** Moves that release, keep or take a lease. *)
Lemma transition_wf now t target u t' tid : transition now t target u = Ok t' →
  u !! "state" = None → u !! "id" = None → target ∈ LIVE_STATES →
  (if bool_decide (target ∈ ACTIVE_STATES)
   then match u !! "lease" with Some v => is_dict v = true
        | None => ∀ s, moves s target = true → s ∈ ACTIVE_STATES end
   else u !! "lease" = Some JNull) →
  wf_task tid t → wf_task tid t'.
Proof.
  intros Ht0 Hu. destruct (transition_get _ _ _ _ _ Ht0 Hu) as (Ht & (s & Hs & Hm) & Hk).
  intros Hid Hlive Hlease (Hi & s' & Hs' & _ & Hl).
  split.
  - rewrite Hk, Hid by done. exact Hi.
  - exists target. split; [done|]. split; [done|]. rewrite (Hk "lease") by done.
    destruct (bool_decide (target ∈ ACTIVE_STATES)); [|by rewrite Hlease].
    destruct (u !! "lease"); [done|]. assert (s' = s) as -> by congruence.
    rewrite bool_decide_eq_true_2 in Hl by by apply Hlease. done.
Qed.

Lemma moves_running s : moves s "running" = true → s ∈ ACTIVE_STATES.
Proof.
  unfold moves. rewrite bool_decide_eq_true.
  destruct (TRANSITIONS !! s) as [l|] eqn:E; [|set_solver]. cbn. intros Ht.
  apply elem_of_list_to_map_2 in E. unfold ACTIVE_STATES.
  repeat (apply elem_of_cons in E as [[= -> ->]|E]; [set_solver|]); set_solver.
Qed.

(** ** Effects *)

Section commits.
Context `{Hashing} (env : environment) (config : dict).

Notation task_file t := (t +:+ ".json").

(** One event with the new record is appended, and the record is written to
    the task's file. *)
Definition commits (w w' : world) (t action : string) (d : dict) : Prop :=
  ∃ now actor payload e,
    append now (w_ledger w) actor action (JStr t) payload = Ok (e, w_ledger w') ∧
    get payload "task" = JObj d ∧ w_log w' = w_log w ++ [e] ∧
    w_tasks w' = <[task_file t := atomic_write_json d]> (w_tasks w).

(** An event about no task is appended. *)
Definition registers (w w' : world) : Prop :=
  ∃ now actor action payload e,
    append now (w_ledger w) actor action JNull payload = Ok (e, w_ledger w') ∧
    w_log w' = w_log w ++ [e] ∧ w_tasks w' = w_tasks w.

(** The record is new and well-formed, or made from the one in the file so
    that it stays well-formed. *)
Definition derived (w : world) (t : string) (d : dict) : Prop :=
  (w_tasks w !! task_file t = None ∧ wf_task t d) ∨
  ∃ text d0, w_tasks w !! task_file t = Some text ∧ read_json (Some text) = Ok d0 ∧
    (wf_task t d0 → wf_task t d).

Inductive effect (w w' : world) : Prop :=
  | effect_none : frame w w' → effect w w'
  | effect_agent : registers w w' → effect w w'
  | effect_task t action d : commits w w' t action d → derived w t d → effect w w'.

Lemma commits_frame w w1 w' t a d : frame w w1 → commits w1 w' t a d → commits w w' t a d.
Proof.
  intros [Hl Ht Hg] (now & actor & payload & e & Ha & Hp & Hlog & Htasks).
  exists now, actor, payload, e. by rewrite <- Hl, <- Ht, <- Hg.
Qed.
Lemma derived_frame w w1 t d : frame w w1 → derived w1 t d → derived w t d.
Proof. unfold derived. by intros [_ -> _]. Qed.
Lemma registers_frame w w1 w' : frame w w1 → registers w1 w' → registers w w'.
Proof.
  intros [Hl Ht Hg] (now & actor & action & payload & e & Ha & Hlog & Htasks).
  exists now, actor, action, payload, e. by rewrite <- Hl, <- Ht, <- Hg.
Qed.

Lemma get_task_ok t d w w' : get_task t w = (Ok d, w') →
  w' = w ∧ task_id_ok t = true ∧
  ∃ text, w_tasks w !! task_file t = Some text ∧ read_json (Some text) = Ok d.
Proof.
  unfold get_task. intros Hg. inv_M. unfold _task_path in *.
  match goal with E : _ ≫= _ = Ok _ |- _ => apply bind_ok in E as (id & [<- Hid]%validate_task_id_ok & [= <-]) end.
  bool_split. split; [done|]. split; [done|].
  destruct (w_tasks _ !! _) as [text|]; [|done]. eauto.
Qed.

Lemma ledger_append_cases actor action tid payload w r w' :
  ledger_append env actor action tid payload w = (r, w') →
  (frame w w' ∧ is_ok r = false) ∨
  (w_tick w ≤ w_tick w')%nat ∧
  ∃ now e, r = Ok e ∧ append now (w_ledger w) actor action tid payload = Ok (e, w_ledger w') ∧
    w_log w' = w_log w ++ [e] ∧ w_tasks w' = w_tasks w.
Proof.
  unfold ledger_append. intros [|(now & w1 & _ & [Hl Ht Hg Hk] & Hr)]%bind_quiet; [by left| |].
  - unfold transactM in Hr. rewrite Hl in Hr.
    destruct (append now (w_ledger w) actor action tid payload) as [[e l]|x] eqn:Ea; cbn in Hr.
    + injection Hr as <- <-. right. split; [exact Hk|]. exists now, e. cbn. by rewrite Hg, Ht.
    + injection Hr as <- <-. by left.
  - apply quiet_utc_nowM.
Qed.

(** ** Outcomes

    An operation started in [w] either failed and left ledger and tasks alone,
    or ended as [Q] says. *)

Definition outcome {A} (w : world) (Q : res A → world → Prop) (p : res A * world) : Prop :=
  (frame w p.2 ∧ is_ok p.1 = false) ∨ Q p.1 p.2.

Lemma outcome_bind {A B} w w1 (m : M world A) (f : A → M world B) Q :
  frame w w1 → quiet m →
  (∀ a w2, m w1 = (Ok a, w2) → frame w w2 → (w_tick w1 ≤ w_tick w2)%nat → outcome w Q (f a w2)) →
  outcome w Q ((m ≫= f) w1).
Proof.
  intros Hf Hm Hk. unfold mbind, M_bind. specialize (Hm w1). pose proof (frame_tick _ _ Hm) as Ht.
  assert (Hf2 : frame w (m w1).2) by (eapply frame_trans; [exact Hf | exact Hm]).
  destruct (m w1) as [[a|e] w2]; [by apply Hk | by left].
Qed.
Lemma outcome_raise {A} w w1 c msg (Q : res A → world → Prop) :
  frame w w1 → outcome w Q (raiseM c msg w1).
Proof. by left. Qed.
Lemma outcome_impl {A} w (Q R : res A → world → Prop) p :
  outcome w Q p → (∀ r w', Q r w' → R r w') → outcome w R p.
Proof. intros [?|?] Hi; [by left | right; auto]. Qed.

(** Appending and writing under a valid name is one commit. *)
Lemma outcome_commit {A} w w1 actor action t payload d (x : A) Q :
  frame w w1 → task_id_ok t = true → get payload "task" = JObj d →
  (∀ w', commits w w' t action d → (w_tick w1 ≤ w_tick w')%nat → Q (Ok x) w') →
  outcome w Q ((_ ← ledger_append env actor action (JStr t) payload; _ ← write_task t d; mret x) w1).
Proof.
  intros Hf Hid Hp HQ. unfold mbind at 1, M_bind at 1.
  destruct (ledger_append _ _ _ _ _ w1) as [r1 w2] eqn:E.
  apply ledger_append_cases in E as [[Hf2 Ho]|(Hk & now & e & -> & Ha & Hlog & Ht)].
  { left. destruct r1; [done|]. split; [by eapply frame_trans | done]. }
  right. unfold write_task, _task_path, validate_task_id. rewrite Hid.
  unfold mbind, M_bind, liftM, modifyM, mret, M_ret. cbn [res_bind fst snd].
  apply HQ; [|exact Hk]. eapply commits_frame; [exact Hf|]. exists now, actor, payload, e. cbn. by rewrite Ht.
Qed.

(** What reading a task file establishes, in the world the operation started in. *)
Definition in_file (w : world) (t : string) (d : dict) : Prop :=
  task_id_ok t = true ∧ ∃ text, w_tasks w !! task_file t = Some text ∧ read_json (Some text) = Ok d.

Lemma get_task_in_file w w1 w2 t d : frame w w1 → get_task t w1 = (Ok d, w2) → in_file w t d.
Proof. intros [_ Ht _] (_ & Hid & text & Hf & Hr)%get_task_ok. split; [done|]. exists text. by rewrite <- Ht. Qed.

Lemma in_file_derived w t d0 d : in_file w t d0 → (wf_task t d0 → wf_task t d) → derived w t d.
Proof. intros (_ & text & ? & ?) Hw. right. eauto. Qed.

(** ** The lease check *)

(** The record carries a lease of the actor under this token that was live at
    a reading of the clock taken between [w] and [w']. *)
Definition leased (w w' : world) (task : dict) (actor token : string) : Prop :=
  ∃ lease k, (w_tick w ≤ k < w_tick w')%nat ∧ get task "lease" = JObj lease ∧ get lease "holder" = JStr actor ∧
    get lease "token_hash" = JStr (sha256_hex token) ∧
    lease_expired (utc_now (clock env k)) task = Ok false.

Lemma item_get (d : dict) k v : item d k = Ok v → get d k = v.
Proof. unfold item, get. destruct (d !! k); cbn; [by intros [= ->] | done]. Qed.
Lemma jitem_get v k x : jitem v k = Ok x → ∃ d, v = JObj d ∧ get d k = x.
Proof. unfold jitem, as_dict. destruct v; cbn; try done. intros Hx%item_get. eauto. Qed.
Lemma as_str_ok v s : as_str v = Ok s → v = JStr s.
Proof. destruct v; try done. by intros [= ->]. Qed.
Lemma utc_now_clock w s w' : utc_nowM env w = (Ok s, w') →
  ∃ k, (w_tick w ≤ k < w_tick w')%nat ∧ s = utc_now (clock env k).
Proof. intros Hs. injection Hs as <- <-. exists (w_tick w). split; [cbn; lia|done]. Qed.

Lemma leased_within w1 w2 w w' task actor token :
  (w_tick w ≤ w_tick w1)%nat → (w_tick w2 ≤ w_tick w')%nat →
  leased w1 w2 task actor token → leased w w' task actor token.
Proof. intros ?? (lease & k & ? & Hl). exists lease, k. split; [lia|exact Hl]. Qed.

Lemma check_lease_ok task actor token w u w' :
  _check_lease env task actor token w = (Ok u, w') → leased w w' task actor token.
Proof.
  unfold _check_lease. intros Hc. inv_M. bool_split. subst.
  match goal with E : utc_nowM _ _ = _ |- _ => apply utc_now_clock in E as (k & Hk & ->) end.
  destruct (negb (truthy (get task "lease"))); [discriminate|].
  repeat match goal with E : _ ≫= _ = Ok _ |- _ => apply bind_ok in E as (? & ? & E) end.
  repeat match goal with E : jitem _ _ = Ok _ |- _ => apply jitem_get in E as (? & ? & <-) end.
  repeat match goal with E : as_str _ = Ok _ |- _ => apply as_str_ok in E end.
  match goal with E : compare_digest _ _ = Ok _ |- _ => apply compare_digest_true in E as [-> _] end.
  match goal with E : raise_if _ _ _ = Ok _ |- _ => apply raise_if_ok, py_neq_str in E end.
  simplify_eq. eexists _, k. split; [exact Hk|]. split; [eassumption|]. by split_and!; congruence.
Qed.

(** One quiet step of an outcome. *)
Ltac ostep x Hx :=
  let F := fresh "F" in
  let T := fresh "T" in
  eapply outcome_bind; [eassumption | solve [quietly] | intros x ? Hx F T; cbn beta].
(** The lease checked on the way was live within the whole call. *)
Ltac within := eapply leased_within; [..|eassumption]; [eapply frame_tick; eassumption|lia].

Lemma liftM_run {A} (r : res A) (w : world) a w' : liftM r w = (Ok a, w') → r = Ok a.
Proof. by intros [= ->]. Qed.

(** ** The operations of a lease holder *)

Lemma start_outcome w actor t token :
  outcome w (λ r w', ∃ task d, in_file w t task ∧ leased w w' task actor token ∧
    (∃ now, transition now task "running" ∅ = Ok d) ∧ r = Ok d ∧ commits w w' t "task.started" d)
  (start env actor t token w).
Proof.
  unfold start, commit_task. assert (F0 := frame_refl w).
  ostep u Hu. ostep task Ht. apply (get_task_in_file w) in Ht; [|assumption].
  ostep u2 Hc. apply check_lease_ok in Hc. ostep now Hn. ostep d Hd. apply liftM_run in Hd.
  eapply outcome_commit; [eassumption | apply Ht | done | intros w' Hw Hk]. exists task, d. split_and!; first [within | eauto].
Qed.

Lemma heartbeat_outcome w actor t token :
  outcome w (λ r w', ∃ task d lease now expires, in_file w t task ∧ leased w w' task actor token ∧
    (∃ s, get task "state" = JStr s ∧ s ∈ ACTIVE_STATES) ∧ get task "lease" = JObj lease ∧
    d = <["updated_at" := JStr now]>
          (<["lease" := JObj (<["expires_at" := JStr expires]> lease)]> task) ∧
    r = Ok d ∧ commits w w' t "task.heartbeat" d)
  (heartbeat env actor t token w).
Proof.
  unfold heartbeat, commit_task. assert (F0 := frame_refl w).
  ostep u Hu. ostep task Ht. apply (get_task_in_file w) in Ht; [|assumption].
  ostep u2 Hc. apply check_lease_ok in Hc. ostep active Ha. apply liftM_run in Ha.
  ostep u3 Hb. apply liftM_run, raise_if_ok in Hb. bool_split. subst active.
  ostep lease Hl. apply liftM_run in Hl. ostep duration Hd. ostep now Hn. ostep expires He.
  ostep now2 Hn2.
  eapply outcome_commit; [eassumption | apply Ht | done | intros w' Hw Hk].
  exists task, (<["updated_at" := JStr now2]>
                  (<["lease" := JObj (<["expires_at" := JStr expires]> lease)]> task)), lease, now2, expires.
  apply bind_ok in Ha as (sv & Hs%item_get & Ha). apply bind_ok in Hl as (l & Hl1%item_get & Hl2).
  destruct l as [| | | | | |lease']; try discriminate Hl2. injection Hl2 as ->.
  unfold in_strings in Ha. destruct sv as [| | | |sv| |]; try discriminate Ha.
  injection Ha as Ha. apply bool_decide_eq_true in Ha. split_and!; first [within | eauto].
Qed.

Lemma block_outcome w actor t token reason :
  outcome w (λ r w', ∃ task d, in_file w t task ∧ leased w w' task actor token ∧
    (∃ now, transition now task "blocked"
       (dict_of [("lease", JNull); ("blocked_reason", JStr (strip reason))]) = Ok d) ∧
    r = Ok d ∧ commits w w' t "task.blocked" d)
  (block env actor t token reason w).
Proof.
  unfold block, commit_task. assert (F0 := frame_refl w).
  ostep u Hu. ostep task Ht. apply (get_task_in_file w) in Ht; [|assumption].
  ostep u2 Hc. apply check_lease_ok in Hc. ostep now Hn. ostep d Hd. apply liftM_run in Hd.
  eapply outcome_commit; [eassumption | apply Ht | done | intros w' Hw Hk]. exists task, d. split_and!; first [within | eauto].
Qed.

(** The report and manifest of a submission were valid below the actor's
    report directory under the task's gates and permissions. *)
Definition validated_submission (f : fs) (actor rp ep : string) (task : dict) (v : dict) : Prop :=
  ∃ permissions gates, get task "permissions" = JObj permissions ∧ get task "gates" = JObj gates ∧
    validate_submission f (Some (subdir env "reports" actor)) (resolve_path f rp)
      (resolve_path f ep) permissions gates = Ok v.

Lemma bind_fs {A B} (m : M world A) (f : A → M world B) :
  (∀ w, w_fs (m w).2 = w_fs w) → (∀ a w, w_fs (f a w).2 = w_fs w) →
  ∀ w, w_fs ((m ≫= f) w).2 = w_fs w.
Proof.
  intros Hm Hf w. unfold mbind, M_bind. specialize (Hm w).
  destruct (m w) as [[a|e] w1]; [|exact Hm]. by rewrite Hf.
Qed.

Lemma check_lease_fs task actor token : ∀ w, w_fs (_check_lease env task actor token w).2 = w_fs w.
Proof. unfold _check_lease. repeat (apply bind_fs; [done|intros ?]). done. Qed.

Lemma submit_outcome w actor t token rp ep :
  outcome w (λ r w', ∃ task v d now at_, in_file w t task ∧ leased w w' task actor token ∧
    validated_submission (w_fs w) actor rp ep task v ∧
    transition now task "submitted" (dict_of [("lease", JNull); ("result", jobj
      [("submitted_at", JStr at_); ("submitted_by", JStr actor);
       ("report", get v "report"); ("manifest", get v "manifest")])]) = Ok d ∧
    r = Ok d ∧ commits w w' t "task.submitted" d)
  (submit env config actor t token rp ep w).
Proof.
  unfold submit, commit_task. assert (F0 := frame_refl w).
  ostep u Hu. injection Hu as _ <-. ostep task Ht. pose proof Ht as Ht0.
  apply get_task_ok in Ht0 as [-> _]. apply (get_task_in_file w) in Ht; [|assumption].
  ostep u2 Hc. pose proof (check_lease_fs task actor token w) as Hfs. rewrite Hc in Hfs. cbn in Hfs.
  apply check_lease_ok in Hc.
  ostep permissions Hp. injection Hp as Hp <-. ostep gates Hg. injection Hg as Hg <-.
  ostep v Hv. injection Hv as Hv <-. rewrite Hfs in Hv.
  ostep ag Hag. ostep wi Hwi. ostep at_ Hat. ostep now Hn. ostep d Hd. apply liftM_run in Hd.
  ostep rep Hrep. ostep man Hman. ostep att Hatt. ostep mx Hmx. ostep bundle Hb.
  eapply outcome_commit; [eassumption | apply Ht | done | intros w' Hw Hk].
  apply bind_ok in Hp as (p0 & Hp%item_get & Hp2), Hg as (g0 & Hg%item_get & Hg2).
  destruct p0 as [| | | | | |p0]; try discriminate Hp2. injection Hp2 as ->.
  destruct g0 as [| | | | | |g0]; try discriminate Hg2. injection Hg2 as ->.
  exists task, v, d, now, at_. split_and!; try first [done | within]. exists permissions, gates. split_and!; assumption.
Qed.

(** ** Claims *)

(** A prerequisite is satisfied by a record in its file that is verified or
    archived. *)
Definition satisfied (w : world) (p : json) : Prop :=
  ∃ pd s, in_file w (str_of p) pd ∧ get pd "state" = JStr s ∧ s ∈ SATISFIED_STATES.

Lemma prerequisite_reason_nil p w w1 w2 : frame w w1 →
  prerequisite_reason p w1 = (Ok [], w2) → satisfied w p.
Proof.
  intros Hf. unfold prerequisite_reason. intros Hp. apply M_bind_ok in Hp as (found & w3 & Hc & Hp).
  unfold catchM in Hc. unfold mbind at 1, M_bind at 1 in Hc.
  destruct (get_task (str_of p) w1) as [[pd|e] w4] eqn:Eg.
  - injection Hc as <- <-. inv_M. destruct (get_task_ok _ _ _ _ Eg) as [-> _].
    apply (get_task_in_file w) in Eg; [|done].
    match goal with E : in_strings _ _ = Ok ?b |- _ => rename E into Hs; destruct b; [|done] end.
    unfold in_strings in Hs. destruct (get pd "state") as [| | | |s| |] eqn:Es; try done.
    injection Hs as Hs. apply bool_decide_eq_true in Hs. by exists pd, s.
  - destruct (is_a e ConfigurationError); [|done]. injection Hc as <- <-. done.
Qed.

Lemma quiet_prerequisite_reason p : quiet (prerequisite_reason p).
Proof. unfold prerequisite_reason. quietly. Qed.

Lemma prerequisite_reasons_nil l : ∀ w w1 w2, frame w w1 →
  prerequisite_reasons l w1 = (Ok [], w2) → Forall (satisfied w) l.
Proof.
  induction l as [|p l IH]; intros w w1 w2 Hf; cbn [prerequisite_reasons]; [constructor|].
  intros Hp. apply M_bind_ok in Hp as (r & w3 & Hr & Hp).
  apply M_bind_ok in Hp as (rs & w4 & Hrs & Hp). injection Hp as Hnil <-.
  apply app_nil in Hnil as [-> ->].
  assert (Hf3 : frame w w3).
  { eapply frame_trans; [exact Hf|]. pose proof (quiet_prerequisite_reason p w1) as Hq. by rewrite Hr in Hq. }
  constructor; [exact (prerequisite_reason_nil _ _ _ _ Hf Hr) | exact (IH _ _ _ Hf3 Hrs)].
Qed.

(** The lease and record that [grant_lease] makes of a pending record. *)
Definition granted (w w' : world) (actor t : string) (duration : Z) (current : dict) (x : dict) : Prop :=
  ∃ token session issued expires attempt now d,
    item current "attempt" ≫= py_add1 = Ok attempt ∧
    transition now current "claimed" (dict_of [("attempt", attempt); ("lease", JObj
      (new_lease actor session issued (sha256_hex token) expires duration))]) = Ok d ∧
    lease_expiry duration issued = Ok expires ∧
    x = dict_of [("task", JObj d); ("lease_token", JStr token)] ∧
    commits w w' t "task.claimed" d.

Lemma grant_outcome w w1 actor duration t current : frame w w1 → task_id_ok t = true →
  outcome w (λ r w', ∃ x, r = Ok x ∧ granted w w' actor t duration current x)
    (grant_lease env actor duration t current w1).
Proof.
  intros Hf Hid. unfold grant_lease. ostep token Ht. ostep issued Hi. ostep session Hs.
  ostep expires He. apply liftM_run in He. ostep attempt Ha. apply liftM_run in Ha.
  ostep now Hn. ostep d Hd. apply liftM_run in Hd.
  eapply outcome_commit; [eassumption | exact Hid | done | intros w' Hw Hk].
  eexists. split; [reflexivity|]. exists token, session, issued, expires, attempt, now, d. done.
Qed.

(** What a granted claim was granted for. *)
Definition claimable (w : world) (actor t : string) (listed current : dict) : Prop :=
  get listed "owner" = JStr actor ∧ get listed "id" = JStr t ∧ in_file w t current ∧
  get current "state" = JStr "pending" ∧
  ∃ ps, py_list (get_or current "prerequisites" (JList [])) = Ok ps ∧ Forall (satisfied w) ps.

Definition claims (w w' : world) (actor : string) (duration : Z) (listed x : dict) : Prop :=
  ∃ t current, claimable w actor t listed current ∧ granted w w' actor t duration current x.

Lemma candidate_outcome w w1 actor explicit duration task : frame w w1 →
  outcome w (λ r w', (r = Ok None ∧ frame w w') ∨
                     ∃ x, r = Ok (Some x) ∧ claims w w' actor duration task x)
    (claim_candidate env actor explicit duration task w1).
Proof.
  intros F0. unfold claim_candidate.
  ostep owner Ho. apply liftM_run, item_get in Ho.
  destruct (py_neq owner _) eqn:Eo; [right; by left|]. apply py_neq_str in Eo as ->.
  ostep state Hs. destruct (py_neq state _) eqn:Es; [right; by left|].
  ostep t Hid. apply liftM_run, bind_ok in Hid as (v & Hv%item_get & Hid%as_str_ok).
  ostep u Hl. ostep current Hc. apply (get_task_in_file w) in Hc; [|assumption].
  ostep state' Hs'. apply liftM_run, item_get in Hs'.
  destruct (py_neq state' _) eqn:Es'; [right; by left|]. apply py_neq_str in Es' as ->.
  ostep uns Hu. destruct uns as [|x uns]; cbn [negb is_nil];
    [|destruct explicit; [by apply outcome_raise | right; by left]].
  unfold _unsatisfied_prerequisites in Hu. apply M_bind_ok in Hu as (ps & w9 & Hps & Hu).
  apply liftM_ok in Hps as [Hps ->].
  match goal with F : frame w ?a, E : prerequisite_reasons _ ?a = _ |- _ =>
    eapply (prerequisite_reasons_nil _ w) in E; [|exact F] end.
  match goal with F : frame w ?a |- outcome w _ ((grant_lease _ _ _ _ _ ≫= _) ?a) =>
    pose proof (grant_outcome w a actor duration t current F (proj1 Hc)) as Hg end.
  unfold mbind, M_bind. destruct Hg as [[Hf Hok]|(x & Hx & Hg)].
  - left. destruct (grant_lease _ _ _ _ _ _) as [[y|e] w']; [done|]. by split.
  - destruct (grant_lease _ _ _ _ _ _) as [y w']. cbn in Hx, Hg. subst y. right. right.
    exists x. split; [done|]. exists t, current. split; [|exact Hg].
    split; [done|]. split; [congruence|]. split; [done|]. split; [done|]. by exists ps.
Qed.

Lemma claim_first_outcome w actor explicit duration l : ∀ w1, frame w w1 →
  outcome w (λ r w', ∃ listed x, listed ∈ l ∧ r = Ok x ∧ claims w w' actor duration listed x)
    (claim_first env actor explicit duration l w1).
Proof.
  induction l as [|task l IH]; intros w1 Hf; cbn [claim_first]; [by apply outcome_raise|].
  pose proof (candidate_outcome w w1 actor explicit duration task Hf) as Hc.
  unfold mbind, M_bind. destruct (claim_candidate _ _ _ _ _ w1) as [r w2].
  destruct Hc as [[Hf2 Ho]|[[Hr Hf2]|(x & Hr & Hx)]]; cbn [fst snd] in *.
  - left. by destruct r.
  - subst r. eapply outcome_impl; [by apply IH|]. intros r w' (listed & x & Hin & ? & ?).
    exists listed, x. split; [by right|]. done.
  - subst r. right. exists task, x. split; [by left|]. done.
Qed.

Lemma claim_outcome w actor t lease_seconds :
  outcome w (λ r w', ∃ duration listed x, r = Ok x ∧ claims w w' actor duration listed x ∧
      (lease_seconds ≠ 0 → duration = lease_seconds) ∧
      (t ≠ "" → in_file w t listed) ∧ (t = "" → listed ∈ list_tasks w))
    (claim env config actor t lease_seconds w).
Proof.
  unfold claim. assert (F0 := frame_refl w).
  ostep a Ha. apply liftM_run, validate_agent_id_ok in Ha as [<- _]. ostep ag Hag.
  ostep duration Hd. apply liftM_run in Hd.
  assert (Hdur : lease_seconds ≠ 0 → duration = lease_seconds).
  { intros Hne. destruct (lease_seconds =? 0) eqn:E; [lia | by injection Hd]. }
  case_bool_decide as Et; cbn [negb].
  - ostep l Hl. apply readM_ok in Hl as [-> ->].
    eapply outcome_impl; [by eapply claim_first_outcome|].
    intros r w' (listed & x & Hin & -> & Hx). exists duration, listed, x. split_and!; try done.
    intros _. unfold list_tasks in *. match goal with F : frame w ?a |- _ => by rewrite (frame_tasks _ _ F) in Hin end.
  - ostep l Hl. apply M_bind_ok in Hl as (task & w9 & Ht & Hl). injection Hl as <- <-.
    apply (get_task_in_file w) in Ht; [|assumption].
    eapply outcome_impl; [by eapply claim_first_outcome|].
    intros r w' (listed & x & Hin & -> & Hx). apply list_elem_of_singleton in Hin as ->.
    exists duration, task, x. split_and!; done.
Qed.

(** ** Creation *)

Lemma add_task_outcome w actor secret t title description owner prerequisites roots permissions gates key :
  outcome w (λ r w', ∃ now ps d, actor = orchestrator config ∧ w_tasks w !! task_file t = None ∧
      res_mapM validate_task_id prerequisites = Ok ps ∧ t ∉ ps ∧ NoDup ps ∧
      Forall (λ p, is_Some (w_tasks w !! task_file p)) ps ∧
      new_task now t title description owner actor ps roots permissions gates key = Ok d ∧
      r = Ok d ∧ commits w w' t "task.created" d)
    (add_task env config actor secret t title description owner prerequisites roots permissions gates
       key w).
Proof.
  unfold add_task. assert (F0 := frame_refl w).
  ostep u Hu. apply liftM_run, raise_if_ok in Hu. bool_split.
  ostep receipt Hr. ostep t' Ht'. apply liftM_run, validate_task_id_ok in Ht' as [<- Hid].
  ostep file Hp. apply liftM_run, bind_ok in Hp as (t' & [<- _]%validate_task_id_ok & [= <-]).
  ostep existing He. apply readM_ok in He as [-> ->].
  ostep u2 Hn. apply liftM_run, raise_if_ok in Hn. bool_split.
  assert (Hnone : w_tasks w !! task_file t = None).
  { apply eq_None_not_Some. match goal with F : frame w ?a, N : ¬ is_Some (w_tasks ?a !! _) |- _ =>
      by rewrite <- (frame_tasks _ _ F) end. }
  ostep ag Hag. ostep ps Hps. unfold check_prerequisites in Hps.
  apply M_bind_ok in Hps as (ps' & wa & [Hm ->]%liftM_ok & Hps).
  apply M_bind_ok in Hps as (? & wb & [Hself ->]%raise_ifM_ok & Hps).
  apply M_bind_ok in Hps as (? & wc & [Hdup ->]%raise_ifM_ok & Hps).
  apply M_bind_ok in Hps as (tasks & wd & [-> ->]%readM_ok & Hps).
  apply M_bind_ok in Hps as (? & we & [Hex ->]%raise_ifM_ok & Hps).
  injection Hps as -> <-. bool_split.
  ostep now Hnow. ostep d Hd. apply liftM_run in Hd.
  eapply outcome_commit; [eassumption | exact Hid | done | intros w' Hw Hk].
  exists now, ps, d. split_and!; try done.
  apply Forall_forall. intros p Hp. destruct (w_tasks w !! task_file p) eqn:Ep; [eauto|exfalso].
  apply not_true_iff_false in Hex. apply Hex. apply existsb_exists. exists p.
  split; [by apply list_elem_of_In|]. apply bool_decide_eq_true.
  match goal with F : frame w ?a |- w_tasks ?a !! _ = None => by rewrite (frame_tasks _ _ F) end.
Qed.

Lemma commit_agent_effect w w1 actor record : frame w w1 →
  effect w (_commit_agent env actor record w1).2.
Proof.
  intros Hf. unfold _commit_agent, mbind at 1, M_bind at 1.
  destruct (ledger_append _ _ _ _ _ w1) as [r1 w2] eqn:E.
  apply ledger_append_cases in E as [[Hf2 Ho]|(Hk & now & e & -> & Ha & Hlog & Ht)].
  { destruct r1; [done|]. apply effect_none. by eapply frame_trans. }
  assert (Hq : quiet (_ ← _write_agent record; mret record)) by (unfold _write_agent; quietly).
  destruct (Hq w2) as [Hl1 Ht1 Hg1]. apply effect_agent. eapply registers_frame; [exact Hf|].
  eexists now, _, _, _, e. rewrite Hl1, Ht1, Hg1. done.
Qed.

(** A quiet step before an effect. *)
Lemma effect_bind {A B} w w1 (m : M world A) (f : A → M world B) :
  frame w w1 → quiet m → (∀ a w2, frame w w2 → effect w (f a w2).2) → effect w ((m ≫= f) w1).2.
Proof.
  intros Hf Hm Hk. unfold mbind, M_bind. specialize (Hm w1).
  assert (Hf2 : frame w (m w1).2) by (eapply frame_trans; [exact Hf | exact Hm]).
  destruct (m w1) as [[a|e] w2]; [by apply Hk | by apply effect_none].
Qed.

Lemma add_agent_effect w actor secret id role mode command roots cp mf alias :
  effect w (add_agent env config actor secret id role mode command roots cp mf alias w).2.
Proof.
  unfold add_agent. assert (F0 := frame_refl w).
  repeat (eapply effect_bind; [eassumption | solve [quietly] | intros ? ? ?; cbn beta]).
  by apply commit_agent_effect.
Qed.

(** ** Recovery *)

(** A lease that had expired at a reading of the clock taken between [w] and
    [w'], and whose holder's last signed activity is in the ledger. *)
Definition recoverable (w w' : world) (t : string) (task : dict) : Prop :=
  ∃ events source lease holder k, (w_tick w ≤ k < w_tick w')%nat ∧
    read_verified (w_ledger w) = Ok events ∧ snapshot_event events t = Ok (Some source) ∧
    (∃ v, jget (get_or source "payload" (JObj ∅)) "task" = Ok v ∧ py_eq v (JObj task) = true) ∧
    (∃ s, get task "state" = JStr s ∧ s ∈ ACTIVE_STATES) ∧
    get task "lease" = JObj lease ∧ get lease "holder" = JStr holder ∧
    get source "actor" = JStr holder ∧
    (∃ a, get source "action" = JStr a ∧ a ∈ LIVENESS_ACTIONS) ∧
    lease_expired (utc_now (clock env k)) task = Ok true.

Lemma in_strings_true v l : in_strings v l = Ok true → ∃ s, v = JStr s ∧ s ∈ l.
Proof.
  unfold in_strings. destruct v; try done. intros [= Hs]. apply bool_decide_eq_true in Hs. eauto.
Qed.

Lemma nonempty_Some v s : nonempty v = Some s → v = JStr s.
Proof. destruct v; cbn; try done. case_bool_decide; [done|]. by intros [= ->]. Qed.

Lemma read_holding_ok task h : read_holding false task = Ok h →
  ∃ lease, get task "lease" = JObj lease ∧ get lease "holder" = JStr (h_holder h).
Proof.
  unfold read_holding. destruct (get task "lease") as [| | | | | |lease]; try done. intros Hh.
  inv_res. subst h. exists lease. split; [done|]. cbn.
  apply nonempty_Some.
  match goal with |- ?o = Some ?x => by destruct o; cbn in *; simplify_eq end.
Qed.

Lemma check_liveness_ok o holder e : check_liveness o holder = Ok e →
  o = Some e ∧ get e "actor" = JStr holder ∧ ∃ a, get e "action" = JStr a ∧ a ∈ LIVENESS_ACTIONS.
Proof.
  unfold check_liveness. destruct o as [e'|]; [|done]. intros He. inv_res. subst e'. bool_split. subst.
  split; [done|]. split; [by apply py_neq_str | by apply in_strings_true].
Qed.

Lemma expired_or_invalid_ok now task b :
  expired_or_invalid now task = Ok b → lease_expired now task = Ok b.
Proof.
  unfold expired_or_invalid. destruct (lease_expired now task) as [x|e]; [done|].
  unfold catch at 3. destruct (is_a e KeyError); [done|].
  unfold catch at 2. destruct (is_a e TypeError); [done|]. unfold catch. by destruct (is_a e ValueError).
Qed.

Lemma requeue_ok task reason attempt w d w' : requeue env task reason attempt w = (Ok d, w') →
  ∃ now1 now2 blocked,
    transition now1 task "blocked" (dict_of [("lease", JNull); ("blocked_reason", JStr reason)]) = Ok blocked ∧
    transition now2 blocked "pending" (dict_of [("lease", JNull); ("blocked_reason", JNull)]) = Ok d ∧
    py_eq (get d "attempt") attempt = true.
Proof.
  unfold requeue. intros Hr. inv_M. subst. eexists _, _, _. split; [eassumption|]. split; [eassumption|].
  match goal with E : item d "attempt" = Ok ?x |- _ => apply item_get in E as <- end.
  by apply py_neq_false.
Qed.

Lemma recover_outcome w actor t reason force secret :
  outcome w (λ r w', ∃ task d now1 now2 blocked attempt, actor = orchestrator config ∧
      force = false ∧ in_file w t task ∧ recoverable w w' t task ∧ strip reason ≠ "" ∧
      item task "attempt" = Ok attempt ∧ positive_int attempt = true ∧
      transition now1 task "blocked"
        (dict_of [("lease", JNull); ("blocked_reason", JStr (strip reason))]) = Ok blocked ∧
      transition now2 blocked "pending"
        (dict_of [("lease", JNull); ("blocked_reason", JNull)]) = Ok d ∧
      py_eq (get d "attempt") attempt = true ∧ r = Ok d ∧ commits w w' t "task.lease_recovered" d)
    (recover_lease env config actor t reason force secret w).
Proof.
  destruct force.
  { left. destruct (refused_forced_recovery env config actor t reason secret w) as [?%unchanged_frame ?]. done. }
  unfold recover_lease. assert (F0 := frame_refl w).
  ostep t' Ht. apply liftM_run, validate_task_id_ok in Ht as [<- Hid].
  ostep a Ha. apply liftM_run, validate_agent_id_ok in Ha as [<- _].
  ostep u1 Ho. apply liftM_run, raise_if_ok in Ho. bool_split.
  ostep u2 Hreason. apply liftM_run, raise_if_ok in Hreason. bool_split.
  ostep task Htask. apply (get_task_in_file w) in Htask; [|assumption].
  ostep events Hev. apply askM_ok in Hev as [Hev ->].
  ostep source_event Hse. apply liftM_run in Hse. ostep signed Hsg. apply liftM_run in Hsg.
  ostep u3 Hsame. apply liftM_run, raise_if_ok, py_neq_false in Hsame.
  ostep st Hst. apply liftM_run, item_get in Hst. ostep active Hact. apply liftM_run in Hact.
  ostep u4 Hac. apply liftM_run, raise_if_ok in Hac. bool_split. subst active.
  apply in_strings_true in Hact. ostep h Hh. apply liftM_run, read_holding_ok in Hh as (lease & Hl & Hholder).
  ostep source Hsrc. apply liftM_run, check_liveness_ok in Hsrc as (-> & Hactor & Haction).
  ostep now Hnow. apply utc_now_clock in Hnow as (k & Hnow & ->).
  ostep expired Hex. apply liftM_run, expired_or_invalid_ok in Hex.
  ostep u5 Hhealthy. apply liftM_run, raise_if_ok in Hhealthy. cbn in Hhealthy. bool_split. subst expired.
  ostep attempt Hatt. apply liftM_run in Hatt. ostep u6 Hpos. apply liftM_run, raise_if_ok in Hpos. bool_split.
  ostep receipt Hrec. ostep d Hreq. apply requeue_ok in Hreq as (now1 & now2 & blocked & Hb & Hp & Hsa).
  ostep observed Hobs. ostep sa Hsa1. ostep ss Hss. ostep sh Hsh.
  eapply outcome_commit; [eassumption | exact Hid | done | intros w' Hw Hk].
  exists task, d, now1, now2, blocked, attempt. split_and!; try done.
  exists events, source, lease, (h_holder h), k. rewrite <- Hst in *.
  match goal with F : frame w ?a, E : read_verified (w_ledger ?a) = _ |- _ =>
    rewrite (frame_ledger _ _ F) in E end.
  match goal with F : frame w ?a, E : (w_tick ?a ≤ k < _)%nat |- _ => pose proof (frame_tick _ _ F) end.
  split_and!; try first [done | lia]. by exists signed.
Qed.
End commits.

(** ** Worlds in good order *)

(** An event whose line and numbers survive the ledger file. *)
Definition storable (e : dict) : Prop := line_safe e = true ∧ floats_ok (JObj e) = true.

Lemma file_inj (t u : string) : t +:+ ".json" = u +:+ ".json" → t = u.
Proof.
  revert u. induction t as [|c t IH]; intros [|d u]; try done.
  - intros E. apply (f_equal String.length) in E. rewrite !str_app_length in E. cbn in E. lia.
  - intros E. apply (f_equal String.length) in E. rewrite !str_app_length in E. cbn in E. lia.
  - rewrite !str_app_cons. intros [= -> E]. f_equal. by apply IH.
Qed.

Section invariant.
Context `{Hashing}.

Record good (w : world) : Prop := Good {
  good_ledger : holds (w_ledger w) (w_log w);
  good_tasks : ∀ t, w_tasks w !! (t +:+ ".json") = atomic_write_json <$> last_snapshot t (w_log w);
  good_records : ∀ t d, last_snapshot t (w_log w) = Some d → wf_task t d ∧ floats_ok (JObj d) = true
}.

(** While everything appended is storable, the world is in good order. *)
Definition sound (w : world) : Prop := Forall storable (w_log w) → good w.

Lemma append_event now l es actor action tid payload e l' :
  holds l es → append now l actor action tid payload = Ok (e, l') → storable e →
  holds l' (es ++ [e]) ∧ get e "task_id" = tid ∧ get e "payload" = JObj payload.
Proof.
  intros Hl Ha [Hs Hf].
  destruct (append_holds now l es actor action tid payload Hl) as (key & head & _ & _ & Ha' & Hh).
  rewrite Ha' in Ha. apply Ok_inj, pair_equal_spec in Ha as [He Hl'].
  rewrite He in Hh, Hl'. rewrite <- Hl'. split; [by apply Hh|].
  destruct (make_event_fields now key es (JStr head) actor action tid payload _ eq_refl)
    as (_ & _ & _ & _ & Ht & Hp & _). rewrite He in Ht, Hp. done.
Qed.

Lemma snapshot_other t e : get e "task_id" = JNull → snapshot_of t e = None.
Proof. unfold snapshot_of. by intros ->. Qed.

Lemma snapshot_commit t u e payload d :
  get e "task_id" = JStr t → get e "payload" = JObj payload → get payload "task" = JObj d →
  snapshot_of u e = if bool_decide (t = u) then Some d else None.
Proof.
  unfold snapshot_of. intros -> Hp Ht.
  assert (get_or e "payload" (JObj ∅) = JObj payload) as ->.
  { unfold get_or, get in *. by destruct (e !! "payload"). }
  rewrite Ht. case_bool_decide as E.
  - by rewrite (proj2 (py_eq_str _ _)) by by rewrite E.
  - destruct (py_eq (JStr t) (JStr u)) eqn:Eq; [|done]. apply py_eq_str in Eq. congruence.
Qed.

Lemma effect_sound w w' : effect w w' → sound w → sound w'.
Proof.
  intros He Hw Hs. destruct He as [[Hl Ht Hg] | (now & actor & action & payload & e & Ha & Hlog & Ht)
    | t action d (now & actor & payload & e & Ha & Hp & Hlog & Ht) Hd].
  - rewrite Hg in Hs. destruct (Hw Hs) as [H1 H2 H3]. constructor; rewrite ?Hl, ?Ht, ?Hg; done.
  - rewrite Hlog in Hs. apply Forall_app in Hs as [Hs He]. apply Forall_cons in He as [He _].
    destruct (Hw Hs) as [H1 H2 H3]. destruct (append_event _ _ _ _ _ _ _ _ _ H1 Ha He) as (Hh & Htid & _).
    constructor; rewrite ?Hlog, ?Ht; [done|..]; intros u;
      rewrite last_snapshot_snoc, snapshot_other by done; auto.
  - rewrite Hlog in Hs. apply Forall_app in Hs as [Hs He]. apply Forall_cons in He as [He _].
    destruct (Hw Hs) as [H1 H2 H3].
    destruct (append_event _ _ _ _ _ _ _ _ _ H1 Ha He) as (Hh & Htid & Hpay).
    assert (Hok : floats_ok (JObj d) = true).
    { destruct He as [_ Hf]. apply (floats_ok_get _ "payload") in Hf. rewrite Hpay in Hf.
      apply (floats_ok_get _ "task") in Hf. by rewrite Hp in Hf. }
    assert (Hwf : wf_task t d).
    { destruct Hd as [[_ ?]|(text & d0 & Hfile & Hread & Himp)]; [done|]. rewrite H2 in Hfile.
      destruct (last_snapshot t (w_log w)) as [d1|] eqn:E; [|done]. injection Hfile as <-.
      destruct (H3 _ _ E) as [Hwf1 Hok1]. rewrite read_written in Hread by done.
      apply Ok_inj in Hread as <-. by apply Himp. }
    constructor; rewrite ?Hlog, ?Ht; [done|..]; intros u;
      rewrite last_snapshot_snoc, (snapshot_commit t u e payload d) by done; case_bool_decide as E.
    + subst u. by rewrite lookup_insert_eq.
    + rewrite lookup_insert_ne by (intros ?%file_inj; done). apply H2.
    + intros ? [= <-]. by subst u.
    + apply H3.
Qed.

(** A computation that keeps worlds sound. *)
Definition keeps_sound {A} (m : M world A) : Prop := ∀ w, sound w → sound (m w).2.

Lemma sound_bind {A B} (m : M world A) (f : A → M world B) :
  keeps_sound m → (∀ a, keeps_sound (f a)) → keeps_sound (m ≫= f).
Proof.
  intros Hm Hf w Hw. unfold mbind, M_bind. specialize (Hm w Hw).
  destruct (m w) as [[a|e] w1]; [by apply Hf | exact Hm].
Qed.
Lemma sound_quiet {A} (m : M world A) : quiet m → keeps_sound m.
Proof. intros Hm w. apply effect_sound. by apply effect_none. Qed.
Lemma sound_append env actor action payload :
  keeps_sound (ledger_append env actor action JNull payload).
Proof.
  intros w. apply effect_sound. destruct (ledger_append _ _ _ _ _ w) as [r w'] eqn:E.
  apply ledger_append_cases in E as [[Hf _]|(_ & now & e & -> & Ha & Hlog & Ht)]; [by apply effect_none|].
  apply effect_agent. eexists now, _, _, _, e. done.
Qed.
Lemma sound_commit_agent env actor record : keeps_sound (_commit_agent env actor record).
Proof. intros w. apply effect_sound, commit_agent_effect, frame_refl. Qed.

(** An outcome that commits a record derived from the task's file. *)
Lemma outcome_effect {A} w (Q : res A → world → Prop) p :
  outcome w Q p → (∀ r w', Q r w' → ∃ t a d, commits w w' t a d ∧ derived w t d) → effect w p.2.
Proof.
  intros [[Hf _]|HQ] Hi; [by apply effect_none|]. destruct (Hi _ _ HQ) as (t & a & d & ? & ?).
  by eapply effect_task.
Qed.
End invariant.

(** ** The worlds the operations reach *)

Section reachable.
Context `{Hashing, TrustedRunner} (env : environment) (config : dict).

(** One operation, whatever its arguments and its outcome, or a change of the
    capability store by its administration or of the files by the actors. *)
Inductive step (w : world) : world → Prop :=
  | step_add_agent actor secret id role mode command roots cp mf alias :
      step w (add_agent env config actor secret id role mode command roots cp mf alias w).2
  | step_add_task actor secret t title description owner prerequisites roots permissions gates key :
      step w (add_task env config actor secret t title description owner prerequisites roots
                permissions gates key w).2
  | step_claim actor t seconds : step w (claim env config actor t seconds w).2
  | step_start actor t token : step w (start env actor t token w).2
  | step_heartbeat actor t token : step w (heartbeat env actor t token w).2
  | step_block actor t token reason : step w (block env actor t token reason w).2
  | step_submit actor t token rp ep : step w (submit env config actor t token rp ep w).2
  | step_recover actor t reason force secret :
      step w (recover_lease env config actor t reason force secret w).2
  | step_verify actor secret t decision note ep timeout :
      step w (verify_submission env config actor secret t decision note ep timeout w).2
  | step_reconcile actor secret t run : step w (reconcile_verification env config actor secret t run w).2
  | step_restate actor secret t status reason sequence :
      step w (restate_verification env config actor secret t status reason sequence w).2
  | step_capabilities caps : step w (set_caps caps w)
  | step_files f : step w (set_fs f w).

(** A directory without a workspace. *)
Record fresh (w : world) : Prop := Fresh {
  fresh_ledger : w_ledger w = Ledger None None;
  fresh_tasks : w_tasks w = ∅;
  fresh_log : w_log w = []
}.

Inductive reachable : world → Prop :=
  | reach_init w urandom name orchestrator cp mf preset w' : fresh w →
      initialize_workspace env urandom name orchestrator cp mf preset w = (Ok config, w') →
      reachable w'
  | reach_step w w' : reachable w → step w w' → reachable w'.

(** *** Initialisation *)

(** From a fresh directory the computation ends in a sound world. *)
Definition founds {A} (m : M world A) : Prop := ∀ w a w', fresh w → m w = (Ok a, w') → sound w'.

Lemma founds_quiet {A B} (m : M world A) (f : A → M world B) :
  quiet m → (∀ a, founds (f a)) → founds (m ≫= f).
Proof.
  intros Hm Hf w b w' [Hl Ht Hg] Hr. apply M_bind_ok in Hr as (a & w1 & Ha & Hr).
  pose proof (Hm w) as [Hl1 Ht1 Hg1]. rewrite Ha in Hl1, Ht1, Hg1. cbn in *.
  eapply Hf, Hr. constructor; congruence.
Qed.

Lemma founds_ledger {B} urandom (f : unit → M world B) :
  keeps_sound (f tt) →
  founds (modifyM (λ w, set_ledger (initialize urandom (w_ledger w)) w) ≫= f).
Proof.
  intros Hf w b w' [Hl Ht Hg] Hr. apply M_bind_ok in Hr as ([] & w1 & Ha & Hr).
  apply modifyM_ok in Ha as ->. specialize (Hf (set_ledger (initialize urandom (w_ledger w)) w)).
  rewrite Hr in Hf. apply Hf. intros _. constructor; cbn; rewrite ?Hl, ?Hg, ?Ht.
  - apply history_holds, history_init.
  - intros t. by rewrite lookup_empty.
  - done.
Qed.

Ltac soundly :=
  repeat match goal with
  | |- keeps_sound (ledger_append _ _ _ JNull _) => apply sound_append
  | |- keeps_sound (_commit_agent _ _ _) => apply sound_commit_agent
  | |- keeps_sound (_ ≫= _) => apply sound_bind; [|intros ?]
  | |- keeps_sound (match ?x with _ => _ end) => destruct x
  | |- keeps_sound _ => apply sound_quiet; auto with quiet
  end.

Lemma init_founds urandom name o cp mf preset :
  founds (initialize_workspace env urandom name o cp mf preset).
Proof.
  unfold initialize_workspace.
  repeat (apply founds_quiet; [solve [quietly] | intros ?]).
  apply founds_ledger. soundly.
Qed.

(** *** Steps *)

Lemma start_effect w actor t token : effect w (start env actor t token w).2.
Proof.
  eapply outcome_effect; [apply start_outcome|].
  intros r w' (task & d & Hf & _ & (now & Hd) & _ & Hw). exists t, "task.started", d. split; [done|].
  eapply in_file_derived; [exact Hf|]. eapply transition_wf; [exact Hd|..]; try done; [by_compute|].
  cbn. exact moves_running.
Qed.

Lemma heartbeat_effect w actor t token : effect w (heartbeat env actor t token w).2.
Proof.
  eapply outcome_effect; [apply heartbeat_outcome|].
  intros r w' (task & d & lease & now & ex & Hf & _ & (s & Hs & Hin) & Hl & -> & _ & Hw).
  eexists t, "task.heartbeat", _. split; [exact Hw|]. eapply in_file_derived; [exact Hf|].
  intros (Hid & s' & Hs' & Hlive & _). split.
  - by rewrite !get_insert.
  - exists s'. rewrite !get_insert. split; [done|]. split; [done|].
    assert (s' = s) as -> by congruence. by rewrite bool_decide_eq_true_2.
Qed.

Lemma block_effect w actor t token reason : effect w (block env actor t token reason w).2.
Proof.
  eapply outcome_effect; [apply block_outcome|].
  intros r w' (task & d & Hf & _ & (now & Hd) & _ & Hw). exists t, "task.blocked", d. split; [done|].
  eapply in_file_derived; [exact Hf|]. eapply transition_wf; [exact Hd|..]; try done; by_compute.
Qed.

Lemma submit_effect w actor t token rp ep : effect w (submit env config actor t token rp ep w).2.
Proof.
  eapply outcome_effect; [apply submit_outcome|].
  intros r w' (task & v & d & now & at_ & Hf & _ & _ & Hd & _ & Hw). exists t, "task.submitted", d.
  split; [done|]. eapply in_file_derived; [exact Hf|].
  eapply transition_wf; [exact Hd|..]; try done; by_compute.
Qed.

Lemma granted_effect w w' actor t duration current x :
  granted w w' actor t duration current x → in_file w t current → effect w w'.
Proof.
  intros (token & session & issued & expires & attempt & now & d & _ & Hd & _ & _ & Hw) Hf.
  eapply effect_task; [exact Hw|]. eapply in_file_derived; [exact Hf|].
  eapply transition_wf; [exact Hd|..]; try done; by_compute.
Qed.

Lemma claim_effect w actor t seconds : effect w (claim env config actor t seconds w).2.
Proof.
  destruct (claim_outcome env config w actor t seconds) as [[Hf _]|HQ]; [by apply effect_none|].
  destruct HQ as (duration & listed & x & _ & (u & current & (_ & _ & Hf & _) & Hg) & _).
  by eapply granted_effect.
Qed.

Lemma recover_effect w actor t reason force secret :
  effect w (recover_lease env config actor t reason force secret w).2.
Proof.
  eapply outcome_effect; [apply recover_outcome|].
  intros r w' (task & d & now1 & now2 & blocked & attempt & _ & _ & Hf & _ & _ & _ & _ & Hb & Hd & _ & _ & Hw).
  exists t, "task.lease_recovered", d. split; [done|]. eapply in_file_derived; [exact Hf|]. intros Hwf.
  eapply transition_wf in Hb; [|try done; by_compute..|exact Hwf].
  eapply transition_wf; [exact Hd|..]; try done; by_compute.
Qed.

Lemma new_task_wf now t title description owner by_ ps roots permissions gates key d :
  new_task now t title description owner by_ ps roots permissions gates key = Ok d → wf_task t d.
Proof.
  unfold new_task. intros (t' & [<- _]%validate_task_id_ok & Hn)%bind_ok.
  apply bind_ok in Hn as (o & _ & Hn). apply bind_ok in Hn as (b & _ & Hn).
  apply bind_ok in Hn as ([] & _ & Hn). apply Ok_inj in Hn as <-.
  split; [done|]. exists "pending". split; [done|]. split; [by_compute|]. done.
Qed.

Lemma add_task_effect w actor secret t title description owner prerequisites roots permissions gates key :
  effect w (add_task env config actor secret t title description owner prerequisites roots permissions
              gates key w).2.
Proof.
  eapply outcome_effect; [apply add_task_outcome|].
  intros r w' (now & ps & d & _ & Hnone & _ & _ & _ & _ & Hn & _ & Hw). exists t, "task.created", d.
  split; [done|]. left. split; [done|]. by eapply new_task_wf.
Qed.

Lemma step_effect w w' : step w w' → effect w w'.
Proof.
  intros [].
  - apply add_agent_effect.
  - apply add_task_effect.
  - apply claim_effect.
  - apply start_effect.
  - apply heartbeat_effect.
  - apply block_effect.
  - apply submit_effect.
  - apply recover_effect.
  - apply effect_none, unchanged_frame, refused_verify.
  - apply effect_none, unchanged_frame, refused_reconcile.
  - apply effect_none, unchanged_frame, refused_restate.
  - by apply effect_none.
  - by apply effect_none.
Qed.

Lemma reachable_sound w : reachable w → sound w.
Proof.
  induction 1 as [w urandom name o cp mf preset w' Hf Hi|w w' _ IH Hs].
  - by eapply init_founds.
  - eapply effect_sound; [by apply step_effect | exact IH].
Qed.
End reachable.

(** ** Properties *)

Section properties.
Context `{Hashing, TrustedRunner} (env : environment) (config : dict).

(** C5: in every workspace the operations reach, as long as every event
    appended so far survives the ledger file (its line holds no line separator
    and its numbers read back), the projections agree with the signed history:
    the ledger verifies and reads back as exactly the
    events appended, and the file of each task reads as the last snapshot the
    ledger holds of it - a well-formed record under its own name, with a lease
    exactly while it is claimed or running - while a task without snapshot has
    no file. *)
Theorem reachable_projections_agree w t :
  reachable env config w → Forall storable (w_log w) →
  read_verified (w_ledger w) = Ok (w_log w) ∧
  match last_snapshot t (w_log w) with
  | Some d => read_json (w_tasks w !! (t +:+ ".json")) = Ok d ∧ wf_task t d
  | None => w_tasks w !! (t +:+ ".json") = None
  end.
Proof.
  intros Hr Hs. destruct (reachable_sound env config w Hr Hs) as [H1 H2 H3]. split.
  - unfold read_verified. rewrite (holds_read _ _ H1). cbn [mbind res_bind].
    destruct (holds_verified _ _ H1) as (key & head & _ & _ & _ & ->). done.
  - rewrite H2. destruct (last_snapshot t (w_log w)) as [d|] eqn:E; [|done].
    destruct (H3 _ _ E). split; [|done]. by apply read_written.
Qed.

Lemma reachable_record w t d : reachable env config w → Forall storable (w_log w) →
  in_file w t d → wf_task t d.
Proof.
  intros Hr Hs (_ & text & Hf & Hd). destruct (reachable_sound env config w Hr Hs) as [_ H2 H3].
  rewrite H2 in Hf. destruct (last_snapshot t (w_log w)) as [d'|] eqn:E; [|done]. injection Hf as <-.
  destruct (H3 _ _ E) as [Hwf Hok]. rewrite read_written in Hd by done. by apply Ok_inj in Hd as <-.
Qed.

Lemma in_file_same w t d d' : in_file w t d → in_file w t d' → d = d'.
Proof.
  intros (_ & text & Ht & Hd) (_ & text' & Ht' & Hd'). rewrite Ht in Ht'. injection Ht' as <-.
  rewrite Hd in Hd'. by apply Ok_inj in Hd'.
Qed.

Lemma nothing_satisfied w p : reachable env config w → Forall storable (w_log w) → ¬ satisfied w p.
Proof.
  intros Hr Hs (d & s & Hd & Hst & Hsat).
  apply (reachable_record w _ _ Hr Hs) in Hd as (_ & s' & Hs' & Hlive & _).
  assert (s' = s) as -> by congruence. revert Hlive Hsat. unfold LIVE_STATES, SATISFIED_STATES. set_solver.
Qed.

(** The prerequisites a record lists. *)
Definition lists_prerequisites (d : dict) (ps : list json) : Prop :=
  py_list (get_or d "prerequisites" (JList [])) = Ok ps.

(** C33: no task is ever verified, rejected or archived by the operations of
    this workspace, so, as long as every signed event survives the ledger file,
    no prerequisite is ever satisfied: every claim that succeeds, of a named
    task or of the first that fits, takes a task without prerequisites, and no
    claim at all writes the file of a task that has one - a claim naming it
    always fails. *)
Theorem prerequisites_are_never_satisfied w :
  reachable env config w → Forall storable (w_log w) →
  (∀ t d, in_file w t d → ∃ s, get d "state" = JStr s ∧ s ∈ LIVE_STATES) ∧
  (∀ actor named seconds x w', claim env config actor named seconds w = (Ok x, w') →
     ∃ u current d, in_file w u current ∧ lists_prerequisites current [] ∧
       commits w w' u "task.claimed" d) ∧
  (∀ t d p ps actor named seconds, in_file w t d → lists_prerequisites d (p :: ps) →
     let c := claim env config actor named seconds w in
     w_tasks c.2 !! (t +:+ ".json") = w_tasks w !! (t +:+ ".json") ∧
     (named = t → is_ok c.1 = false)).
Proof.
  intros Hr Hs.
  assert (Hfree : ∀ ps, Forall (satisfied w) ps → ps = []).
  { intros [|p ps]; [done|]. intros [Hp _]%Forall_cons. by apply nothing_satisfied in Hp. }
  split; [|split].
  - intros t d (_ & s & ? & ? & _)%reachable_record; [by exists s|done|done].
  - intros actor named seconds x w' Hc. pose proof (claim_outcome env config w actor named seconds) as Ho.
    rewrite Hc in Ho. destruct Ho as [[_ ?]|(duration & listed & y & _ & (u & current & Hcl & Hg) & _)]; [done|].
    destruct Hcl as (_ & _ & Hf & _ & ps & Hps & Hall). apply Hfree in Hall as ->.
    destruct Hg as (? & ? & ? & ? & ? & ? & d & _ & _ & _ & _ & Hw). by exists u, current, d.
  - intros t d p ps actor named seconds Hf Hps c. subst c.
    destruct (claim_outcome env config w actor named seconds) as [[Hq Ho]|HQ]; [by rewrite (frame_tasks _ _ Hq)|].
    destruct HQ as (duration & listed & x & _ & (u & current & Hcl & Hg) & _ & Hlisted & _).
    destruct Hcl as (_ & Hid & Hfu & _ & qs & Hqs & Hall). apply Hfree in Hall as ->.
    assert (Hne : u ≠ t).
    { intros ->. rewrite (in_file_same _ _ _ _ Hfu Hf) in Hqs. unfold lists_prerequisites in Hps. congruence. }
    destruct Hg as (? & ? & ? & ? & ? & ? & d' & _ & _ & _ & _ & (? & ? & ? & ? & _ & _ & _ & ->)).
    split; [by rewrite lookup_insert_ne by by intros ?%file_inj|]. intros ->. exfalso. apply Hne.
    assert (Hlf : in_file w t listed) by (apply Hlisted; intros ->; by destruct Hf).
    destruct (reachable_record w t listed Hr Hs Hlf) as [Hid' _]. congruence.
Qed.

(** C7: only the holder of a live lease, with its token, can start, keep, block
    or submit a task: a successful call found a record whose lease names the
    actor, carries the digest of the token and had not expired at a reading of
    the clock taken during the call itself, and it commits the successor of that record in one event and one file. *)
Theorem only_the_lease_holder_acts w actor t token :
  (∀ d w', start env actor t token w = (Ok d, w') →
     ∃ task, in_file w t task ∧ leased env w w' task actor token ∧
       get d "state" = JStr "running" ∧ commits w w' t "task.started" d) ∧
  (∀ d w', heartbeat env actor t token w = (Ok d, w') →
     ∃ task, in_file w t task ∧ leased env w w' task actor token ∧
       get d "state" = get task "state" ∧ commits w w' t "task.heartbeat" d) ∧
  (∀ reason d w', block env actor t token reason w = (Ok d, w') →
     ∃ task, in_file w t task ∧ leased env w w' task actor token ∧
       get d "state" = JStr "blocked" ∧ get d "lease" = JNull ∧ commits w w' t "task.blocked" d) ∧
  (∀ rp ep d w', submit env config actor t token rp ep w = (Ok d, w') →
     ∃ task v, in_file w t task ∧ leased env w w' task actor token ∧
       validated_submission env (w_fs w) actor rp ep task v ∧
       get d "state" = JStr "submitted" ∧ get d "lease" = JNull ∧
       commits w w' t "task.submitted" d).
Proof.
  split; [|split; [|split]].
  - intros d w' Hr. pose proof (start_outcome env w actor t token) as Ho. rewrite Hr in Ho.
    destruct Ho as [[_ ?]|(task & d' & Hf & Hl & (now & Ht) & [= <-] & Hw)]; [done|].
    exists task. apply transition_get in Ht as (? & _); [|done]. done.
  - intros d w' Hr. pose proof (heartbeat_outcome env w actor t token) as Ho. rewrite Hr in Ho.
    destruct Ho as [[_ ?]|(task & d' & lease & now & ex & Hf & Hl & _ & _ & -> & Hd & Hw)]; [done|].
    exists task. apply Ok_inj in Hd as ->. by rewrite !get_insert.
  - intros reason d w' Hr. pose proof (block_outcome env w actor t token reason) as Ho. rewrite Hr in Ho.
    destruct Ho as [[_ ?]|(task & d' & Hf & Hl & (now & Ht) & [= <-] & Hw)]; [done|].
    exists task. apply transition_get in Ht as (? & _ & Hk); [|done]. by rewrite (Hk "lease").
  - intros rp ep d w' Hr. pose proof (submit_outcome env config w actor t token rp ep) as Ho. rewrite Hr in Ho.
    destruct Ho as [[_ ?]|(task & v & d' & now & at_ & Hf & Hl & Hv & Ht & [= <-] & Hw)]; [done|].
    exists task, v. apply transition_get in Ht as (? & _ & Hk); [|done]. by rewrite (Hk "lease").
Qed.

(** a successful claim takes a pending task of the actor whose
    prerequisites are all verified or archived, raises its attempt by one and
    gives it a fresh lease: held by the actor, under the digest of the token
    that is returned, for the duration from its issue. *)
Theorem claim_grants_one_lease w actor t seconds x w' :
  claim env config actor t seconds w = (Ok x, w') →
  ∃ u listed current d lease token issued expires duration,
    claimable w actor u listed current ∧ (t ≠ "" → in_file w t listed) ∧
    (seconds ≠ 0 → duration = seconds) ∧
    x = dict_of [("task", JObj d); ("lease_token", JStr token)] ∧
    get d "state" = JStr "claimed" ∧ get d "lease" = JObj lease ∧
    item current "attempt" ≫= py_add1 = Ok (get d "attempt") ∧
    get lease "holder" = JStr actor ∧ get lease "token_hash" = JStr (sha256_hex token) ∧
    get lease "issued_at" = JStr issued ∧ get lease "expires_at" = JStr expires ∧
    lease_expiry duration issued = Ok expires ∧ commits w w' u "task.claimed" d.
Proof.
  intros Hr. pose proof (claim_outcome env config w actor t seconds) as Ho. rewrite Hr in Ho.
  destruct Ho as [[_ ?]|(duration & listed & y & Hy & (u & current & Hc & Hg) & Hdur & Hlisted & _)]; [done|].
  apply Ok_inj in Hy as <-.
  destruct Hg as (token & session & issued & expires & attempt & now & d & Hatt & Ht & He & -> & Hw).
  apply transition_get in Ht as (Hst & _ & Hk); [|done].
  exists u, listed, current, d, (new_lease actor session issued (sha256_hex token) expires duration), token,
    issued, expires, duration.
  rewrite (Hk "attempt"), (Hk "lease") by done. split_and!; done.
Qed.

(** without force only an expired lease is recovered, only by the
    orchestrator, and only when the ledger's last word on the task is signed
    activity of the lease's holder and equals the file; the task then goes back
    to pending without a lease, keeping its attempt. *)
Theorem recovery_needs_an_expired_lease w actor t reason force secret d w' :
  recover_lease env config actor t reason force secret w = (Ok d, w') →
  force = false ∧ actor = orchestrator config ∧ strip reason ≠ "" ∧
  ∃ task, in_file w t task ∧ recoverable env w w' t task ∧
    get d "state" = JStr "pending" ∧ get d "lease" = JNull ∧
    py_eq (get d "attempt") (get task "attempt") = true ∧
    commits w w' t "task.lease_recovered" d.
Proof.
  intros Hr. pose proof (recover_outcome env config w actor t reason force secret) as Ho. rewrite Hr in Ho.
  destruct Ho as [[_ ?]|(task & d' & now1 & now2 & blocked & attempt & -> & -> & Hf & Hrec & Hreason & Ha
    & _ & _ & Ht & Heq & Hd & Hw)]; [done|].
  apply Ok_inj in Hd as <-. split; [done|]. split; [done|]. split; [done|].
  exists task. apply transition_get in Ht as (? & _ & Hk); [|done]. rewrite (Hk "lease") by done.
  apply item_get in Ha as <-. split_and!; done.
Qed.

(** an operation that raises changes neither the ledger nor a task file:
    creating, claiming, starting, keeping, blocking, submitting and recovering
    are all-or-nothing. *)
Theorem failed_operations_change_nothing w :
  (∀ actor secret t title description owner ps roots permissions gates key r w',
     add_task env config actor secret t title description owner ps roots permissions gates key w
     = (Err r, w') → frame w w') ∧
  (∀ actor t seconds r w', claim env config actor t seconds w = (Err r, w') → frame w w') ∧
  (∀ actor t token r w', start env actor t token w = (Err r, w') → frame w w') ∧
  (∀ actor t token r w', heartbeat env actor t token w = (Err r, w') → frame w w') ∧
  (∀ actor t token reason r w', block env actor t token reason w = (Err r, w') → frame w w') ∧
  (∀ actor t token rp ep r w', submit env config actor t token rp ep w = (Err r, w') → frame w w') ∧
  (∀ actor t reason force secret r w',
     recover_lease env config actor t reason force secret w = (Err r, w') → frame w w').
Proof.
  split_and!; intros * Hr.
  - pose proof (add_task_outcome env config w actor secret t title description owner ps roots permissions
      gates key) as Ho. rewrite Hr in Ho. destruct Ho as [[? _]|Ho]; [done|]. by decompose [ex and] Ho.
  - pose proof (claim_outcome env config w actor t seconds) as Ho. rewrite Hr in Ho.
    destruct Ho as [[? _]|Ho]; [done|]. by decompose [ex and] Ho.
  - pose proof (start_outcome env w actor t token) as Ho. rewrite Hr in Ho.
    destruct Ho as [[? _]|Ho]; [done|]. by decompose [ex and] Ho.
  - pose proof (heartbeat_outcome env w actor t token) as Ho. rewrite Hr in Ho.
    destruct Ho as [[? _]|Ho]; [done|]. by decompose [ex and] Ho.
  - pose proof (block_outcome env w actor t token reason) as Ho. rewrite Hr in Ho.
    destruct Ho as [[? _]|Ho]; [done|]. by decompose [ex and] Ho.
  - pose proof (submit_outcome env config w actor t token rp ep) as Ho. rewrite Hr in Ho.
    destruct Ho as [[? _]|Ho]; [done|]. by decompose [ex and] Ho.
  - pose proof (recover_outcome env config w actor t reason force secret) as Ho. rewrite Hr in Ho.
    destruct Ho as [[? _]|Ho]; [done|]. by decompose [ex and] Ho.
Qed.
End properties.
