(* ===== verification/Scenario.v ===== *)
(** * A concrete workspace

    One run of the broker on concrete inputs: a workspace is initialised, the
    orchestrator's capability is bootstrapped, two tasks are created, one of
    them is claimed, started, kept and recovered after its lease expired.  The
    theorems of [Broker] are applied to its steps. *)

From S2P Require Export Broker.
From S2P Require Import TestDigest.

(** Readings one second apart; from the 40th on a day has passed. *)
Definition env_1 : environment := {|
  clock k := 1769904000 + Z.of_nat k + (if (k <? 40)%nat then 0 else 86400);
  token_hex k n := hexlify (String.substring 0 n (String (ascii_of_nat k) (zeros 31)));
  root := "/w";
  plat := plat_1
|}.

Definition blank : world :=
  World None (Ledger None None) ∅ ∅ ∅ (Fs (λ p, p) ∅ (λ _, None)) 0 [].

Definition value {A} (d : A) (p : res A * world) : A := match p.1 with Ok a => a | Err _ => d end.

Definition init_1 : res dict * world :=
  initialize_workspace env_1 "0123456789abcdef0123456789abcdef" "demo" "codex" "codex-conductor"
    "openai-codex" (Some "cogni-codex-antigravity") blank.
Definition config_1 : dict := value ∅ init_1.


(** The orchestrator's capability, set up for the workspace's identifier. *)
Definition caps_1 : gmap string actor_dir :=
  snd (bootstrap plat_1 (workspace_id config_1) 1001 "codex" secret_1
         (snd (provision_guard (workspace_id config_1) 1000 "codex" secret_1 ∅))).

Definition w_init : world := init_1.2.
Definition w_caps_1 : world := set_caps caps_1 w_init.
Definition run_add (t : string) (ps : list string) (w : world) : res dict * world :=
  add_task env_1 config_1 "codex" (Some secret_1) t "Title" "Text" "antigravity" ps ["src"] ∅ ∅ "" w.
Definition w_task_1 : world := (run_add "T-1" [] w_caps_1).2.
Definition w_task_2 : world := (run_add "T-2" ["T-1"] w_task_1).2.
Definition run_claim : res dict * world := claim env_1 config_1 "antigravity" "T-1" 0 w_task_2.
Definition w_claimed : world := run_claim.2.
Definition token_of (claimed : dict) : string :=
  match get claimed "lease_token" with JStr s => s | _ => "" end.
Definition claimed_1 : dict := value ∅ run_claim.
Definition token_1 : string := token_of claimed_1.
Definition run_start : res dict * world := start env_1 "antigravity" "T-1" token_1 w_claimed.
Definition w_started : world := run_start.2.
Definition run_heartbeat : res dict * world := heartbeat env_1 "antigravity" "T-1" token_1 w_started.
Definition w_kept : world := run_heartbeat.2.
Definition w_expired : world := set_tick 40 w_kept.
Definition run_recover : res dict * world :=
  recover_lease env_1 config_1 "codex" "T-1" "worker gone" false None w_expired.

Lemma run_value (p : res dict * world) : is_ok p.1 = true → p = (Ok (value ∅ p), p.2).
Proof. destruct p as [[a|e] w]; [done | discriminate 1]. Qed.

Lemma storable_all l :
  forallb (λ e, line_safe e && floats_ok (JObj e)) l = true → Forall storable l.
Proof.
  intros Hl. apply Forall_forall. intros e He. rewrite forallb_forall in Hl.
  apply list_elem_of_In in He. apply Hl in He. by bool_split.
Qed.

Definition record_of (w : world) (t : string) : dict :=
  match read_json (w_tasks w !! (t +:+ ".json")) with Ok d => d | Err _ => ∅ end.
Lemma in_file_record w t :
  task_id_ok t && is_ok (read_json (w_tasks w !! (t +:+ ".json"))) = true → in_file w t (record_of w t).
Proof.
  intros [Ht Hr]%andb_true_iff. split; [done|]. unfold record_of.
  destruct (w_tasks w !! (t +:+ ".json")) as [text|]; [|discriminate Hr].
  exists text. split; [done|]. by destruct (read_json (Some text)).
Qed.

#[local] Opaque config_1 w_init caps_1 blank.

(** The runner of the scenario is never reached. *)
#[local] Instance no_runner : TrustedRunner := {|
  run_trusted_validations _ := raiseM EvidenceError "no backend";
  verify_executor_attestation _ _ _ := raise EvidenceError "no trust root"
|}.

Lemma init_run : init_1 = (Ok config_1, w_init).
Proof. apply run_value. vm_compute. reflexivity. Qed.
Lemma claim_run : claim env_1 config_1 "antigravity" "T-1" 0 w_task_2 = (Ok claimed_1, w_claimed).
Proof. apply run_value. vm_compute. reflexivity. Qed.
Lemma start_run :
  start env_1 "antigravity" "T-1" token_1 w_claimed = (Ok (value ∅ run_start), w_started).
Proof. apply run_value. vm_compute. reflexivity. Qed.
Lemma recover_run :
  recover_lease env_1 config_1 "codex" "T-1" "worker gone" false None w_expired
  = (Ok (value ∅ run_recover), run_recover.2).
Proof. apply run_value. vm_compute. reflexivity. Qed.

Lemma reach_caps : reachable env_1 config_1 w_caps_1.
Proof.
  unfold w_caps_1. apply (reach_step _ _ w_init); [|apply step_capabilities].
  unfold init_1 in *. apply (reach_init env_1 config_1 blank "0123456789abcdef0123456789abcdef" "demo"
    "codex" "codex-conductor" "openai-codex" (Some "cogni-codex-antigravity")); [done|].
  exact init_run.
Qed.
Lemma reach_task_1 : reachable env_1 config_1 w_task_1.
Proof. unfold w_task_1, run_add. apply (reach_step _ _ w_caps_1); [exact reach_caps | apply step_add_task]. Qed.
Lemma reach_task_2 : reachable env_1 config_1 w_task_2.
Proof. unfold w_task_2, run_add. apply (reach_step _ _ w_task_1); [exact reach_task_1 | apply step_add_task]. Qed.
Lemma log_task_2 : Forall storable (w_log w_task_2).
Proof. apply storable_all. vm_compute. reflexivity. Qed.
Lemma record_task_2 : in_file w_task_2 "T-2" (record_of w_task_2 "T-2").
Proof. apply in_file_record. vm_compute. reflexivity. Qed.
Lemma prerequisites_task_2 :
  py_list (get_or (record_of w_task_2 "T-2") "prerequisites" (JList [])) = Ok [JStr "T-1"].
Proof. vm_compute. reflexivity. Qed.
Lemma log_kept : Forall storable (w_log w_kept).
Proof. apply storable_all. vm_compute. reflexivity. Qed.
Lemma reach_claimed : reachable env_1 config_1 w_claimed.
Proof. unfold w_claimed, run_claim. apply (reach_step _ _ w_task_2); [exact reach_task_2 | apply step_claim]. Qed.
Lemma reach_started : reachable env_1 config_1 w_started.
Proof. unfold w_started, run_start. apply (reach_step _ _ w_claimed); [exact reach_claimed | apply step_start]. Qed.
Lemma reach_kept : reachable env_1 config_1 w_kept.
Proof. unfold w_kept, run_heartbeat. apply (reach_step _ _ w_started); [exact reach_started | apply step_heartbeat]. Qed.
#[local] Opaque w_task_2 w_claimed w_started w_kept w_expired config_1 token_1
  claimed_1 record_of.

Lemma reachable_projections_agree_witness :
  read_verified (w_ledger w_kept) = Ok (w_log w_kept).
Proof.
  destruct (reachable_projections_agree env_1 config_1 w_kept "T-1" reach_kept log_kept) as [Hr _].
  exact Hr.
Defined.

Lemma prerequisites_are_never_satisfied_witness :
  is_ok (claim env_1 config_1 "antigravity" "T-2" 0 w_task_2).1 = false ∧
  ∃ u current d, in_file w_task_2 u current ∧ lists_prerequisites current [] ∧
    commits w_task_2 w_claimed u "task.claimed" d.
Proof.
  destruct (prerequisites_are_never_satisfied env_1 config_1 w_task_2 reach_task_2 log_task_2)
    as (_ & Hfree & Hkept).
  split; [|exact (Hfree _ _ _ _ _ claim_run)].
  exact (proj2 (Hkept _ _ _ _ "antigravity" "T-2" 0 record_task_2 prerequisites_task_2) eq_refl).
Defined.

Lemma only_the_lease_holder_acts_witness : ∃ task,
  in_file w_claimed "T-1" task ∧ leased env_1 w_claimed w_started task "antigravity" token_1.
Proof.
  destruct (only_the_lease_holder_acts env_1 config_1 w_claimed "antigravity" "T-1" token_1)
    as [Hstart _].
  destruct (Hstart _ _ start_run) as (task & Hf & Hl & _). exists task. split; assumption.
Defined.

Lemma claim_grants_one_lease_witness : ∃ u d, get d "state" = JStr "claimed" ∧
  commits w_task_2 w_claimed u "task.claimed" d.
Proof.
  destruct (claim_grants_one_lease env_1 config_1 w_task_2 "antigravity" "T-1" 0 _ _ claim_run)
    as (u & ? & ? & d & ? & ? & ? & ? & ? & _ & _ & _ & _ & Hs & _ & _ & _ & _ & _ & _ & _ & Hc).
  exists u, d. split; assumption.
Defined.

Lemma recovery_needs_an_expired_lease_witness : ∃ task,
  in_file w_expired "T-1" task ∧ recoverable env_1 w_expired run_recover.2 "T-1" task.
Proof.
  destruct (recovery_needs_an_expired_lease env_1 config_1 w_expired "codex" "T-1" "worker gone"
    false None _ _ recover_run) as (_ & _ & _ & task & Hf & Hr & _).
  exists task. split; assumption.
Defined.

Lemma failed_operations_change_nothing_witness :
  frame w_task_2 (start env_1 "codex" "T-1" "wrong" w_task_2).2.
Proof.
  destruct (failed_operations_change_nothing env_1 config_1 w_task_2) as (_ & _ & Hs & _).
  destruct (start env_1 "codex" "T-1" "wrong" w_task_2) as [[d|e] w'] eqn:E.
  - exfalso. apply (f_equal (λ p, is_ok p.1)) in E. revert E. vm_compute. discriminate.
  - exact (Hs _ _ _ _ _ E).
Defined.
